(* ===== verification/_CoqProject ===== *)
-Q . S2P
Prelude.v
Float32.v
ByteStream.v
Protocol.v
Snapshot.v
Framing.v
Terrain.v
Character.v
Config.v
Logging.v
Text.v
Address.v
TcpServer.v
DbClient.v
Database.v
DbServer.v
Outputs.v
Correlation.v
Platform.v
AuthServer.v
Simulation.v
Ticks.v
Console.v
World.v
WorldConsole.v
WorldLoop.v
WorldSpec.v
WorldHistory.v
WorldProperties.v
System.v
SystemLoop.v
Answering.v
Prediction.v
Sockets.v
Descriptors.v
NetClient.v
NetClientSpec.v
ClientServer.v
EndToEnd.v
Tools.v
AuthCli.v
WorldCli.v
WorldCliSpec.v
AdminConsole.v
AdminConsoleSpec.v
Widgets.v
Screens.v
Font.v
Renderer.v
Painting.v
Camera.v
Engine.v
Mesh.v
Sky.v
Scene.v
Lifecycle.v
Application.v
SceneSpec.v
ApplicationProperties.v
Processes.v
