(* ===== verification/Prelude.v ===== *)
(** * A small multiplayer world: client, auth, database and world servers

    This library models the C++ of the repository ([common/], [server/] and
    [client/] under src/) and proves what makes it correct. This header
    documents the whole development; each file opens with what it holds.

    ** The program

    A client logs in to the auth server over TCP, is given a session token and
    the world server's address, joins the world with the token, and then
    exchanges UDP datagrams with it: inputs out, snapshots in, sixty times a
    second. The auth and world servers keep no accounts: they ask the database
    server over a private TCP connection, which runs SQL statements. The world
    server owns the simulation; the client predicts its own character with the
    same movement rule and rolls back when the server disagrees.

    ** The files, bottom up

    Shared code ([common/]):
    - this file: widths of machine integers, bytes and strings, the keys of a
      [std::map] in order, a state-passing monad, tactics and hints;
    - Float32: [float] and [double] as the Standard Library's [spec_float] with
      IEEE rounding; the functions of the C library are the class [Libm];
    - ByteStream, Protocol, Snapshot, Framing: [byte_stream.h], [protocol.h],
      [snapshot.cpp] and [framing.cpp]: readers and writers, codes, the snapshot
      and datagram codecs, the message stream over a non-blocking socket;
    - Address, Sockets: [socket.cpp], the kernel's answers being parameters;
    - Descriptors: [socket.cpp] again, by the calls of POSIX it makes of file
      descriptors, and who owns them; each operation on a descriptor answers what
      Framing and Sockets take as the kernel's answer;
    - Terrain, Character: [heightfield.cpp] and [character.cpp].

    Servers ([server/]):
    - Logging: [log.h], the lines of the log; the other files leave theirs out;
    - Config, Text, Platform: [config.h] and the text functions of the C library
      it and the consoles use ([atoi], [strtof]); libsodium, clocks and [atof] as
      classes;
    - TcpServer, DbClient: [tcp_server.cpp] and [db_client.cpp]. Each is a class
      of states with a server or a client in them ([HasServer], [HasDbClient])
      and of their callbacks; what is proved against the classes is used by
      every server. Outputs records what a handler sends and asks;
    - Database, DbServer: [dbserver/src/]; PostgreSQL is a class of statements
      on two tables, with an in-memory instance;
    - AuthServer: [authserver/src/main.cpp];
    - Simulation, Ticks: [simulation.cpp], and the arithmetic of the tick
      accumulator that the world server and the client share;
    - Console, World, WorldConsole, WorldLoop: [worldserver/src/]: handlers and
      callbacks, console commands, datagrams, ticks, the simulated link, the
      timeouts and one turn of the main loop;
    - Processes: the [main] of the three servers around those loops: the
      environment, the wait for Postgres or the database server, the ports, the
      end; on the sockets of Descriptors;
    - WorldSpec, WorldHistory, WorldProperties: an abstract transition system of
      the world ([core_step]), histories of the detailed one, the refinement
      between them, and the theorems;
    - Correlation, System, SystemLoop: the three servers together. Correlation
      says which reply belongs to which request of a [DbClient], whatever is in
      flight or lost; System composes the handlers of the auth, world and database
      servers over two channels and traces what each took in; SystemLoop shows
      that turns of the main loops are steps of it;
    - Answering: what the database server replies while Postgres is up; with it
      EndToEnd leads the client and the three servers through a login.

    Tools ([server/tools/src/]):
    - Tools, AuthCli, WorldCli, WorldCliSpec: [authcli.cpp] and [worldcli.cpp], in
      a monad of state and exit, with the rules to reason about it;
    - AdminConsole, AdminConsoleSpec: [console.cpp], the operator's console, by
      itself and against the servers it talks to.

    Client ([client/src/]):
    - Prediction: [prediction.cpp];
    - NetClient, NetClientSpec: [net_client.cpp], the protocol it follows and
      its theorems;
    - ClientServer: the client against the servers' handlers;
    - Widgets, Screens, Camera, Application, ApplicationProperties: [ui/widgets],
      [screens], [camera_controller], [application] with the state of [scene]:
      the state machine a frame at a time;
    - Font, Renderer, Painting: [ui/font], [ui/ui_renderer] and what the widgets
      and the screens draw: the glyph atlas, the batch of quads of a frame;
    - Engine, Mesh, Sky, Scene, SceneSpec: the part of Filament the scene uses, as
      calls and a ledger of the objects alive; [mesh], [sky] and [scene] by the
      calls they make; the refinement to what Application says the scene shows;
    - Lifecycle: [main.cpp], [native_window.cpp] and what [application] and
      [ui_renderer] make of the window and the engine from start to exit, as calls
      with a ledger of its own, which also has the window and the engine.

    ** How code becomes definitions

    An operation is a function on the state of its component. Objects that many
    calls share are fields of one state passed along; a callback is a
    constructor of an inductive type with the values its closure captures, run
    by a function. An early return is a branch. Integers are [Z] with the
    wrap-around written out ([u16], [u32], [u64]); a [std::map] is a [gmap]
    iterated in the order of its keys ([map_keys]); a [std::vector] or
    [std::deque] is a list. What the kernel, the clocks or the random generator
    answer is drawn from an environment the theorems quantify over, so they hold
    for every network and every time.

    ** What is proved

    - Wire formats: snapshots, datagram headers and the messages of a login and
      a join decode to what was encoded; a snapshot is accepted exactly when it is
      whole; a stream delivers the messages sent, however the bytes are cut.
    - Sockets and processes: a descriptor has one owner and is closed once; the
      three servers serve only when everything they need is there, end with the
      code of what happened, leave nothing open, and all they do is a
      history of their handlers, so that the theorems below hold of the processes;
    - Servers: connection ids are never reused; each request to the database
      gets its one answer; the tables keep their keys; every request is answered
      by what the tables hold.
    - Security: a login succeeds only on a verified password; a join only on a
      session the database vouched for; administrative and world commands only by the
      permission of the session of the token in the client's message, and then for
      what that message says; snapshots go only to addresses that showed the
      token; only a player's own address moves it.
    - Across the servers: whoever is in the world has logged in with the password
      of the account it plays; accounts change only by what a registration, the
      command of an administrator who logged in, or a line of the console says;
      likewise the world's clock and latency. Connections may break and requests be lost or executed
      late; the runs are shorter than 2^32 steps, so request ids do not repeat.
      While nothing fails, whoever has the password gets into the world. A token
      is not proof against a second use before its deletion is executed.
    - The world: the main loop refines the abstract system; bodies and players
      correspond; inputs commute by sequence; ticks are bounded and the backlog
      is capped; the simulated link keeps the order; silent players are dropped.
    - The client: it follows the protocol and holds exactly the sockets of its
      state; it forgets the password once sent and the world when it leaves, but
      not when it fails; snapshots are only ever newer (with simulated latency, only
      after the first has been applied); its prediction meets the server's
      character; its screens, scene, cursor and network agree in every history; a frame sends
      each predicted input once; the controls reach the simulation and the simulation
      reaches the view.
    - The world's scene and the program: the scene uses the engine's objects by its
      rules and leaves none behind in every history; the meshes are closed
      surfaces on the ground the character stands on; the client makes, remakes and
      destroys its window, engine and objects in order;
    - What is drawn: the font atlas gives every glyph a region of its own and is
      never written outside; a frame shows its own quads and nothing else;
      nothing drawn depends on a password but its length.
    - The operator's console: it always ends, does one permitted thing per
      command, its requests are read as they were meant, and the clock it sets is
      the clock it shows.
    - The tools: the exit code of the login tool is 0 exactly when the bytes of the
      answer report a success, and it prints what the server answered; the replication tool ends at its deadline
      and counts the snapshots that arrived.

    ** Bounds and fuel

    Loops over received messages take the length of the buffer as fuel (a
    message takes at least six bytes), loops over the kernel's answers their
    number, the tick loops sixteen turns: the accumulator is capped at a quarter
    of a second, which holds fifteen ticks, and the theorems on ticks show that
    nothing is left to do when the fuel ends. The console's prompt takes a turn
    per line of input, and a request waits the 400 turns the source counts; the
    tools wait the slices of 50 milliseconds the source counts, and the loop of the
    replication tool ends at its deadline with a turn of fuel for each nanosecond
    of it, the clock moving in each turn. Waits that end with a signal take the list
    of attempts made before it. Every other recursion is structural.

    ** Not modelled

    What is written to the log (only how a line is made); the branches for
    Windows; what GLFW and Filament do with the calls (the calls themselves are modelled); the font
    rasteriser, third-party code that is a parameter, as are libpq, libsodium and
    the C library's mathematics; the shaders, the build and the schema. A
    thread exists only in the world console, whose queue is modelled with its
    pushes at arbitrary times; a signal is the end of the list of turns. *)

From Stdlib Require Import ZArith Lia.
From Stdlib Require Import Strings.Byte Strings.Ascii Strings.String.
From stdpp Require Import base list option gmap sorting strings.

Open Scope Z_scope.

(** ** Tactics and hints *)

Create HintDb untitled.
Create Rewrite HintDb untitled.

(** Splits every match and conditional of the goal, closing the trivial cases. *)
Ltac split_match :=
  repeat (case_match; simplify_eq/=; try done).

(** Reasoning by cases on the boolean comparisons of the source's guards. *)
Ltac bool_to_prop :=
  repeat match goal with
  | H : (_ <? _) = true |- _ => apply Z.ltb_lt in H
  | H : (_ <? _) = false |- _ => apply Z.ltb_ge in H
  | H : (_ <=? _) = true |- _ => apply Z.leb_le in H
  | H : (_ <=? _) = false |- _ => apply Z.leb_gt in H
  | H : (_ =? _) = true |- _ => apply Z.eqb_eq in H
  | H : (_ =? _) = false |- _ => apply Z.eqb_neq in H
  | H : (_ && _)%bool = true |- _ => apply andb_true_iff in H as [??]
  | H : (_ || _)%bool = false |- _ => apply orb_false_iff in H as [??]
  | H : negb _ = true |- _ => apply negb_true_iff in H
  | H : negb _ = false |- _ => apply negb_false_iff in H
  end.

(** ** Machine integers

    A [uintN_t] value is a [Z]; [wrapN] is the conversion to it. *)

Definition wrap (w v : Z) : Z := v mod 2 ^ w.

Abbreviation u8 := (wrap 8).
Abbreviation u16 := (wrap 16).
Abbreviation u32 := (wrap 32).
Abbreviation u64 := (wrap 64).

(** [static_cast<int32_t>] of an integer: two's complement. *)
Definition i32 (v : Z) : Z :=
  let u := u32 v in if u <? 2 ^ 31 then u else u - 2 ^ 32.

Definition fits (w v : Z) : Prop := 0 <= v < 2 ^ w.

Global Instance fits_dec w v : Decision (fits w v).
Proof. unfold fits. apply _. Defined.

Lemma wrap_fits w v : 0 <= w -> fits w (wrap w v).
Proof. intros. unfold fits, wrap. apply Z.mod_pos_bound. lia. Qed.

Lemma wrap_id w v : fits w v -> wrap w v = v.
Proof. intros H. unfold wrap. by apply Z.mod_small. Qed.

Lemma wrap_wrap w v : wrap w (wrap w v) = wrap w v.
Proof. unfold wrap. apply Zmod_mod. Qed.

Lemma i32_range v : - 2 ^ 31 <= i32 v < 2 ^ 31.
Proof.
  unfold i32. pose proof (wrap_fits 32 v ltac:(lia)) as Hw. unfold fits in Hw.
  destruct (u32 v <? 2 ^ 31) eqn:E; bool_to_prop; lia.
Qed.

Lemma i32_id v : - 2 ^ 31 <= v < 2 ^ 31 -> i32 v = v.
Proof.
  intros Hv. unfold i32, wrap.
  destruct (decide (0 <= v)) as [H|H].
  - rewrite Z.mod_small by lia. destruct (v <? 2 ^ 31) eqn:E; bool_to_prop; lia.
  - replace (v mod 2 ^ 32) with (v + 2 ^ 32).
    + destruct (v + 2 ^ 32 <? 2 ^ 31) eqn:E; bool_to_prop; lia.
    + rewrite <- (Z.mod_small (v + 2 ^ 32) (2 ^ 32)) by lia.
      rewrite <- (Z.mul_1_l (2 ^ 32)) at 1. by rewrite Z_mod_plus_full.
Qed.

#[export] Hint Resolve wrap_fits i32_range : untitled.
#[export] Hint Extern 1 (fits _ _) => (unfold fits; lia) : untitled.

(** ** Bytes *)

Definition Z_of_byte (b : byte) : Z := Z.of_N (Byte.to_N b).

(** [static_cast<uint8_t>(v)]. *)
Definition byte_of_Z (v : Z) : byte :=
  default x00 (Byte.of_N (Z.to_N (v mod 256))).

Lemma Z_of_byte_range b : 0 <= Z_of_byte b < 256.
Proof. unfold Z_of_byte. pose proof (Byte.to_N_bounded b). lia. Qed.

Lemma Z_of_byte_of_Z v : Z_of_byte (byte_of_Z v) = v mod 256.
Proof.
  unfold Z_of_byte, byte_of_Z.
  pose proof (Z.mod_pos_bound v 256 ltac:(lia)).
  destruct (Byte.of_N (Z.to_N (v mod 256))) as [b|] eqn:E; simpl.
  - apply Byte.to_of_N in E. rewrite E. lia.
  - apply Byte.of_N_None_iff in E. lia.
Qed.

Lemma byte_of_Z_of_byte b : byte_of_Z (Z_of_byte b) = b.
Proof. by destruct b. Qed.

Global Instance byte_eq_dec : EqDecision byte := Byte.byte_eq_dec.

Lemma Z_of_byte_inj b1 b2 : Z_of_byte b1 = Z_of_byte b2 -> b1 = b2.
Proof. intros E. rewrite <- (byte_of_Z_of_byte b1), E. apply byte_of_Z_of_byte. Qed.

#[export] Hint Resolve Z_of_byte_range : untitled.

(** [std::string] is a byte sequence. *)
Definition bytes_of_string (s : string) : list byte := list_byte_of_string s.
Definition string_of_bytes (bs : list byte) : string := string_of_list_byte bs.

Lemma string_of_bytes_of_string s : string_of_bytes (bytes_of_string s) = s.
Proof. apply string_of_list_byte_of_string. Qed.

Lemma bytes_of_string_of_bytes bs : bytes_of_string (string_of_bytes bs) = bs.
Proof. apply list_byte_of_string_of_list_byte. Qed.

Lemma length_bytes_of_string s : length (bytes_of_string s) = String.length s.
Proof.
  unfold bytes_of_string, list_byte_of_string. rewrite length_map.
  induction s; simpl; [done|by f_equal].
Qed.

Lemma bytes_of_string_inj s1 s2 : bytes_of_string s1 = bytes_of_string s2 -> s1 = s2.
Proof.
  intros E. rewrite <- (string_of_bytes_of_string s1), E.
  apply string_of_bytes_of_string.
Qed.

(** ** Little-endian values of byte lists *)

Definition le_bytes (n : nat) (v : Z) : list byte :=
  (fun i => byte_of_Z (Z.shiftr v (8 * Z.of_nat i))) <$> seq 0 n.

Fixpoint le_value (bs : list byte) : Z :=
  match bs with
  | [] => 0
  | b :: bs' => Z.lor (Z_of_byte b) (Z.shiftl (le_value bs') 8)
  end.

Lemma length_le_bytes n v : length (le_bytes n v) = n.
Proof. unfold le_bytes. by rewrite length_fmap, length_seq. Qed.

Lemma le_bytes_S n v : le_bytes (S n) v = byte_of_Z v :: le_bytes n (Z.shiftr v 8).
Proof.
  unfold le_bytes. cbn [seq fmap list_fmap]. apply (f_equal2 cons).
  - done.
  - rewrite <- fmap_S_seq, <- list_fmap_compose.
    apply list_fmap_ext. intros i j _. simpl. f_equal.
    rewrite Z.shiftr_shiftr by lia. f_equal. lia.
Qed.

Lemma le_value_bytes n v : le_value (le_bytes n v) = v mod 2 ^ (8 * Z.of_nat n).
Proof.
  revert v. induction n as [|n IH]; intros v.
  - simpl. by rewrite Z.mod_1_r.
  - rewrite le_bytes_S. cbn [le_value]. rewrite IH, Z_of_byte_of_Z.
    apply Z.bits_inj'. intros i Hi.
    change 256 with (2 ^ 8).
    rewrite Z.lor_spec, Z.shiftl_spec by lia.
    destruct (decide (i < 8)).
    + rewrite (Z.testbit_neg_r _ (i - 8)) by lia.
      rewrite orb_false_r, !Z.mod_pow2_bits_low by lia. done.
    + rewrite (Z.mod_pow2_bits_high v 8) by lia. cbn [orb].
      destruct (decide (i < 8 * Z.of_nat (S n))).
      * rewrite !Z.mod_pow2_bits_low by lia. rewrite Z.shiftr_spec by lia. f_equal. lia.
      * by rewrite !Z.mod_pow2_bits_high by lia.
Qed.

Lemma lor_shiftl_8 a b : 0 <= a < 256 -> Z.lor a (Z.shiftl b 8) = a + 256 * b.
Proof.
  intros Ha.
  assert (Hl : Z.land a (Z.shiftl b 8) = 0).
  { apply Z.bits_inj'. intros i Hi. rewrite Z.land_spec, Z.bits_0, Z.shiftl_spec by lia.
    destruct (decide (i < 8)).
    - by rewrite (Z.testbit_neg_r b) by lia; rewrite andb_false_r.
    - rewrite <- (Z.mod_small a (2 ^ 8)) by lia.
      by rewrite Z.mod_pow2_bits_high by lia. }
  rewrite <- Z.lxor_lor, <- Z.add_nocarry_lxor, Z.shiftl_mul_pow2 by (done || lia). lia.
Qed.

Lemma le_value_cons_lor b bs :
  le_value (b :: bs) = Z.lor (Z_of_byte b) (Z.shiftl (le_value bs) 8).
Proof. done. Qed.

Lemma le_value_cons b bs : le_value (b :: bs) = Z_of_byte b + 256 * le_value bs.
Proof. cbn [le_value]. apply lor_shiftl_8, Z_of_byte_range. Qed.

Lemma le_value_range bs : 0 <= le_value bs < 2 ^ (8 * Z.of_nat (length bs)).
Proof.
  induction bs as [|b bs IH]; [simpl; lia|].
  rewrite le_value_cons. cbn [length]. pose proof (Z_of_byte_range b) as Hb.
  replace (2 ^ (8 * Z.of_nat (S (length bs)))) with (256 * 2 ^ (8 * Z.of_nat (length bs))).
  - lia.
  - replace (8 * Z.of_nat (S (length bs))) with (8 + 8 * Z.of_nat (length bs)) by lia.
    rewrite Z.pow_add_r by lia. done.
Qed.

Lemma le_bytes_value bs : le_bytes (length bs) (le_value bs) = bs.
Proof.
  induction bs as [|b bs IH]; [done|].
  cbn [length]. rewrite le_bytes_S, le_value_cons.
  pose proof (Z_of_byte_range b) as Hb. f_equal.
  - rewrite <- (byte_of_Z_of_byte b) at 2. unfold byte_of_Z.
    rewrite (Z.mul_comm 256), Z_mod_plus_full. done.
  - rewrite Z.shiftr_div_pow2 by lia. change (2 ^ 8) with 256.
    rewrite (Z.mul_comm 256), Z.div_add, Z.div_small by lia. done.
Qed.

Lemma le_bytes_inj n v1 v2 :
  fits (8 * Z.of_nat n) v1 -> fits (8 * Z.of_nat n) v2 ->
  le_bytes n v1 = le_bytes n v2 -> v1 = v2.
Proof.
  intros H1 H2 E. rewrite <- (wrap_id _ _ H1), <- (wrap_id _ _ H2).
  unfold wrap. by rewrite <- !le_value_bytes, E.
Qed.

#[export] Hint Rewrite length_le_bytes le_value_bytes : untitled.

Global Arguments le_bytes : simpl never.
Global Arguments le_value : simpl never.
Global Arguments wrap : simpl never.
Global Arguments byte_of_Z : simpl never.

(** ** Lists *)

Lemma take_drop_app {A} (l1 l2 : list A) n :
  n = length l1 -> take n (l1 ++ l2) = l1 /\ drop n (l1 ++ l2) = l2.
Proof. intros ->. by rewrite take_app_length, drop_app_length. Qed.

Lemma drop_add {A} (l : list A) n m : drop n (drop m l) = drop (m + n) l.
Proof. apply drop_drop. Qed.

Lemma take_drop_split {A} (l : list A) n m :
  take n (drop m l) ++ drop (m + n) l = drop m l.
Proof. rewrite <- drop_drop. apply take_drop. Qed.

(** ** The keys of a [std::map], in the order of iteration *)

Global Instance Z_le_total : Total Z.le.
Proof. intros x y. lia. Qed.

Definition map_keys {A} (m : gmap Z A) : list Z := merge_sort Z.le (elements (dom m)).

Lemma elem_of_map_keys {A} (m : gmap Z A) k : k ∈ map_keys m <-> is_Some (m !! k).
Proof.
  unfold map_keys. rewrite (merge_sort_Permutation Z.le). rewrite elem_of_elements.
  apply elem_of_dom.
Qed.

Lemma NoDup_map_keys {A} (m : gmap Z A) : NoDup (map_keys m).
Proof. unfold map_keys. rewrite (merge_sort_Permutation Z.le). apply NoDup_elements. Qed.

Lemma length_map_keys {A} (m : gmap Z A) : length (map_keys m) = size m.
Proof.
  unfold map_keys. rewrite (merge_sort_Permutation Z.le), <- (size_dom (D := gset Z)). done.
Qed.

Lemma Sorted_map_keys {A} (m : gmap Z A) : StronglySorted Z.le (map_keys m).
Proof. apply (StronglySorted_merge_sort Z.le). Qed.

(** ** State passing

    Code that reads and writes a state: a function from the state to a result
    and the new state. *)

Definition SM (S A : Type) : Type := S -> A * S.

Definition sm_ret {S A} (a : A) : SM S A := fun s => (a, s).
Definition sm_bind {S A B} (m : SM S A) (k : A -> SM S B) : SM S B :=
  fun s => let '(a, s') := m s in k a s'.
Definition sm_modify {S} (f : S -> S) : SM S () := fun s => (tt, f s).
Definition sm_gets {S A} (f : S -> A) : SM S A := fun s => (f s, s).

Declare Scope sm_scope.
Delimit Scope sm_scope with sm.
Notation "'let!' x := m 'in' k" := (sm_bind m (fun x => k))
  (at level 10, x name, m at level 100, k at level 200) : sm_scope.
Notation "m ;; k" := (sm_bind m (fun _ => k))
  (at level 100, k at level 200, right associativity) : sm_scope.
