(* ===== verification/Float32.v ===== *)
(** * Floats: IEEE-754 binary32 and binary64

    The [float] and [double] of the source, as the executable specification
    floats of the Standard Library: binary32 is precision 24 and exponent
    bound 128, binary64 is precision 53 and exponent bound 1024, rounding to
    nearest even. A NaN has no payload here: the conversions to and from the
    wire map every NaN pattern to the default quiet NaN. The transcendental
    functions of [<cmath>], whose results the C++ standard does not fix, and
    the value of an undefined conversion to an integer, are the operations of
    the class [Libm]. *)

From Stdlib Require Import ZArith Lia Floats.SpecFloat.
From stdpp Require Import base list option.
From S2P Require Import Prelude.

Open Scope Z_scope.

Abbreviation float := spec_float.
Abbreviation double := spec_float.

Declare Scope f32_scope.
Delimit Scope f32_scope with f32.
Declare Scope f64_scope.
Delimit Scope f64_scope with f64.

(** ** Arithmetic and comparison *)

Notation "x + y" := (SFadd 24 128 x y) : f32_scope.
Notation "x - y" := (SFsub 24 128 x y) : f32_scope.
Notation "x * y" := (SFmul 24 128 x y) : f32_scope.
Notation "x / y" := (SFdiv 24 128 x y) : f32_scope.
Notation "- x" := (SFopp x) : f32_scope.
Notation "x <? y" := (SFltb x y) : f32_scope.
Notation "x <=? y" := (SFleb x y) : f32_scope.
Notation "x =? y" := (SFeqb x y) : f32_scope.

Notation "x + y" := (SFadd 53 1024 x y) : f64_scope.
Notation "x - y" := (SFsub 53 1024 x y) : f64_scope.
Notation "x * y" := (SFmul 53 1024 x y) : f64_scope.
Notation "x / y" := (SFdiv 53 1024 x y) : f64_scope.
Notation "- x" := (SFopp x) : f64_scope.
Notation "x <? y" := (SFltb x y) : f64_scope.
Notation "x <=? y" := (SFleb x y) : f64_scope.
Notation "x =? y" := (SFeqb x y) : f64_scope.

Definition f32_zero : float := S754_zero false.
Definition f64_zero : double := S754_zero false.

(** [static_cast<float>] and [static_cast<double>] of an integer. *)
Definition f32_of_Z (z : Z) : float := binary_normalize 24 128 z 0 false.
Definition f64_of_Z (z : Z) : double := binary_normalize 53 1024 z 0 false.

(** A decimal literal [n / d]: the correctly rounded quotient of two integers
    that are themselves exact. *)
Definition lit32 (n d : Z) : float := SFdiv 24 128 (f32_of_Z n) (f32_of_Z d).
Definition lit64 (n d : Z) : double := SFdiv 53 1024 (f64_of_Z n) (f64_of_Z d).

Definition f32_one : float := f32_of_Z 1.

Definition f32_sqrt (x : float) : float := SFsqrt 24 128 x.

(** Conversions between the two formats. *)
Definition convert (prec emax : Z) (x : spec_float) : spec_float :=
  match x with
  | S754_finite s m e => binary_normalize prec emax (cond_Zopp s (Zpos m)) e false
  | _ => x
  end.

Definition f32_of_f64 : double -> float := convert 24 128.
Definition f64_of_f32 : float -> double := convert 53 1024.

Definition is_nan (x : spec_float) : bool :=
  match x with S754_nan => true | _ => false end.

Definition is_finite (x : spec_float) : bool :=
  match x with S754_zero _ | S754_finite _ _ _ => true | _ => false end.

(** The integer part toward zero, [None] where the C++ conversion to an
    integer type is undefined (an infinity or a NaN). *)
Definition trunc_Z (x : spec_float) : option Z :=
  match x with
  | S754_zero _ => Some 0
  | S754_finite s m e => Some (cond_Zopp s (Z.shiftl (Zpos m) e))
  | _ => None
  end.

(** [std::floor]: the result is exact in either format. *)
Definition floor_Z (s : bool) (m : positive) (e : Z) : Z :=
  Z.shiftl (cond_Zopp s (Zpos m)) e.

Definition floor (prec emax : Z) (x : spec_float) : spec_float :=
  match x with
  | S754_finite s m e =>
      if 0 <=? e then x else binary_normalize prec emax (floor_Z s m e) 0 s
  | _ => x
  end.

Definition f32_floor : float -> float := floor 24 128.

(** [std::clamp], [std::min], [std::max]: defined by [operator<] alone, so a
    NaN argument is returned as it is. *)
Definition clamp (v lo hi : spec_float) : spec_float :=
  if SFltb v lo then lo else if SFltb hi v then hi else v.

Definition fmin (a b : spec_float) : spec_float := if SFltb b a then b else a.
Definition fmax (a b : spec_float) : spec_float := if SFltb a b then b else a.

(** ** What the C++ standard leaves to the platform *)

Class Libm := {
  f32_sin : float -> float;
  f32_cos : float -> float;
  f32_exp : float -> float;
  f32_exp2 : float -> float;
  f64_sin : double -> double;
  f64_cos : double -> double;
  (** the value of a conversion to [int32_t] that C++ leaves undefined *)
  undefined_int32 : float -> Z;
}.

(** [static_cast<int32_t>] of a [float]. *)
Definition int32_of_f32 `{Libm} (x : float) : Z :=
  match trunc_Z x with
  | Some v => if (- 2 ^ 31 <=? v) && (v <? 2 ^ 31) then v else undefined_int32 x
  | None => undefined_int32 x
  end.

(** ** Bit patterns ([memcpy] between [float] and [uint32_t]) *)

Definition bits_of_f32 (x : float) : Z :=
  match x with
  | S754_zero s => if s then 2 ^ 31 else 0
  | S754_infinity s => (if s then 2 ^ 31 else 0) + 255 * 2 ^ 23
  | S754_nan => 255 * 2 ^ 23 + 2 ^ 22
  | S754_finite s m e =>
      (if s then 2 ^ 31 else 0) +
      (if Zpos m <? 2 ^ 23 then Zpos m else (e + 150) * 2 ^ 23 + (Zpos m - 2 ^ 23))
  end.

Definition f32_of_bits (b : Z) : float :=
  let s := 2 ^ 31 <=? b in
  let ex := (b / 2 ^ 23) mod 256 in
  let frac := b mod 2 ^ 23 in
  if ex =? 255 then (if frac =? 0 then S754_infinity s else S754_nan)
  else if ex =? 0 then
    match frac with Zpos m => S754_finite s m (-149) | _ => S754_zero s end
  else S754_finite s (Z.to_pos (2 ^ 23 + frac)) (ex - 150).

Definition f32_valid (x : float) : bool := valid_binary 24 128 x.

(** ** Canonical mantissas *)

Lemma digits2_pos_log2 m : Zpos (digits2_pos m) = Z.log2 (Zpos m) + 1.
Proof.
  induction m as [m IH|m IH|]; cbn [digits2_pos]; [| |done].
  - change (Zpos m~1) with (2 * Zpos m + 1). rewrite Z.log2_succ_double by lia. lia.
  - change (Zpos m~0) with (2 * Zpos m). rewrite Z.log2_double by lia. lia.
Qed.

Lemma f32_bounded_iff m e :
  bounded 24 128 m e = true <->
  (2 ^ 23 <= Zpos m < 2 ^ 24 /\ -149 <= e <= 104) \/ (Zpos m < 2 ^ 23 /\ e = -149).
Proof.
  unfold bounded, canonical_mantissa, fexp, emin.
  rewrite digits2_pos_log2, andb_true_iff, Z.eqb_eq, Z.leb_le.
  set (l := Z.log2 (Zpos m)).
  assert (Hl : 0 <= l) by apply Z.log2_nonneg.
  pose proof (Z.log2_spec (Zpos m) ltac:(lia)) as [Hlo Hhi]. fold l in Hlo, Hhi.
  assert (H23 : 23 <= l <-> 2 ^ 23 <= Zpos m).
  { split; intros H.
    - etrans; [|apply Hlo]. apply Z.pow_le_mono_r; lia.
    - apply Z.log2_le_pow2; lia. }
  assert (H24 : l < 24 <-> Zpos m < 2 ^ 24).
  { symmetry. apply Z.log2_lt_pow2; lia. }
  lia.
Qed.

(** ** Bit patterns: round trips *)

Lemma bits_sign_exp_frac s ex fr :
  0 <= ex < 256 -> 0 <= fr < 2 ^ 23 ->
  let b := (if s : bool then 2 ^ 31 else 0) + ex * 2 ^ 23 + fr in
  (2 ^ 31 <=? b) = s /\ (b / 2 ^ 23) mod 256 = ex /\ b mod 2 ^ 23 = fr.
Proof.
  intros Hex Hfr b.
  assert (Hb : b = ((if s then 256 else 0) + ex) * 2 ^ 23 + fr) by (unfold b; destruct s; lia).
  repeat split.
  - destruct s; unfold b; [apply Z.leb_le|apply Z.leb_gt]; lia.
  - rewrite Hb, Z.div_add_l by lia. rewrite (Z.div_small fr) by lia.
    destruct s; rewrite Z.add_0_r.
    + rewrite Z.add_comm. change 256 with (1 * 256) at 1.
      by rewrite Z_mod_plus_full, Z.mod_small by lia.
    + by rewrite Z.mod_small by lia.
  - rewrite Hb, Z.add_comm, Z_mod_plus_full. by rewrite Z.mod_small by lia.
Qed.

Lemma f32_of_bits_of_f32 x : f32_valid x = true -> f32_of_bits (bits_of_f32 x) = x.
Proof.
  destruct x as [s|s| |s m e]; cbn [f32_valid valid_binary]; intros Hv.
  - by destruct s.
  - by destruct s.
  - done.
  - apply f32_bounded_iff in Hv. unfold f32_of_bits, bits_of_f32.
    destruct (Zpos m <? 2 ^ 23) eqn:E; bool_to_prop.
    + pose proof (bits_sign_exp_frac s 0 (Zpos m) ltac:(lia) ltac:(lia)) as (H1 & H2 & H3).
      rewrite Z.mul_0_l, Z.add_0_r in H1, H2, H3. rewrite H1, H2, H3.
      assert (e = -149) as -> by lia. done.
    + pose proof (bits_sign_exp_frac s (e + 150) (Zpos m - 2 ^ 23)
        ltac:(lia) ltac:(lia)) as (H1 & H2 & H3).
      rewrite <- Z.add_assoc in H1, H2, H3. rewrite H1, H2, H3.
      destruct (e + 150 =? 255) eqn:E1; bool_to_prop; [lia|].
      destruct (e + 150 =? 0) eqn:E2; bool_to_prop; [lia|].
      f_equal; [|lia]. replace (2 ^ 23 + (Zpos m - 2 ^ 23)) with (Zpos m) by lia. done.
Qed.

Lemma bits_of_f32_fits x : f32_valid x = true -> fits 32 (bits_of_f32 x).
Proof.
  unfold fits. destruct x as [s|s| |s m e]; cbn [f32_valid valid_binary]; intros Hv.
  - destruct s; cbn; lia.
  - destruct s; cbn; lia.
  - cbn. lia.
  - apply f32_bounded_iff in Hv. unfold bits_of_f32.
    destruct (Zpos m <? 2 ^ 23) eqn:E; bool_to_prop; destruct s; lia.
Qed.

Lemma f32_of_bits_valid b : f32_valid (f32_of_bits b) = true.
Proof.
  unfold f32_of_bits.
  pose proof (Z.mod_pos_bound b (2 ^ 23) ltac:(lia)) as Hfr.
  pose proof (Z.mod_pos_bound (b / 2 ^ 23) 256 ltac:(lia)) as Hex.
  set (fr := b mod 2 ^ 23) in *. set (ex := (b / 2 ^ 23) mod 256) in *.
  destruct (ex =? 255) eqn:E1; bool_to_prop.
  - by destruct (fr =? 0).
  - destruct (ex =? 0) eqn:E2; bool_to_prop.
    + destruct fr as [|m|m] eqn:E; [done| |done].
      cbn [f32_valid valid_binary]. apply f32_bounded_iff. lia.
    + cbn [f32_valid valid_binary]. apply f32_bounded_iff. lia.
Qed.

(** A pattern other than a NaN's survives the trip through a [float]. *)
Lemma bits_of_f32_of_bits b :
  fits 32 b -> is_nan (f32_of_bits b) = false -> bits_of_f32 (f32_of_bits b) = b.
Proof.
  unfold fits, f32_of_bits. intros Hb.
  pose proof (Z.mod_pos_bound b (2 ^ 23) ltac:(lia)) as Hfr.
  pose proof (Z.mod_pos_bound (b / 2 ^ 23) 256 ltac:(lia)) as Hex.
  pose proof (Z.div_mod b (2 ^ 23) ltac:(lia)) as Hdm.
  pose proof (Z.div_mod (b / 2 ^ 23) 256 ltac:(lia)) as Hdm2.
  assert (Hq : 0 <= b / 2 ^ 23 / 256 < 2).
  { split; [apply Z.div_pos; [apply Z.div_pos|]; lia|].
    apply Z.div_lt_upper_bound; [lia|]. apply Z.div_lt_upper_bound; lia. }
  set (fr := b mod 2 ^ 23) in *. set (ex := (b / 2 ^ 23) mod 256) in *.
  set (q := b / 2 ^ 23 / 256) in *.
  assert (Hs : (2 ^ 31 <=? b) = (q =? 1)).
  { destruct (q =? 1) eqn:E; bool_to_prop; [apply Z.leb_le|apply Z.leb_gt]; lia. }
  rewrite Hs.
  assert (Hb' : b = (if q =? 1 then 2 ^ 31 else 0) + ex * 2 ^ 23 + fr).
  { destruct (q =? 1) eqn:E; bool_to_prop; lia. }
  destruct (ex =? 255) eqn:E1; bool_to_prop.
  - destruct (fr =? 0) eqn:E2; bool_to_prop; [|done]. intros _.
    cbn [bits_of_f32]. lia.
  - intros _. destruct (ex =? 0) eqn:E2; bool_to_prop.
    + destruct fr as [|m|m] eqn:E; [| |lia]; cbn [bits_of_f32]; [lia|].
      destruct (Zpos m <? 2 ^ 23) eqn:E3; bool_to_prop; lia.
    + cbn [bits_of_f32]. rewrite Z2Pos.id by lia.
      destruct (2 ^ 23 + fr <? 2 ^ 23) eqn:E3; bool_to_prop; lia.
Qed.

(** ** Order *)

Lemma SFcompare_antisym x y : SFcompare y x = option_map CompOpp (SFcompare x y).
Proof.
  destruct x as [sx|sx| |sx mx ex], y as [sy|sy| |sy my ey];
    try done; try by destruct sx; try destruct sy; try destruct sy.
  cbn [SFcompare]. rewrite (Z.compare_antisym ex ey).
  change (Pos.compare_cont Eq my mx) with (Pos.compare my mx).
  change (Pos.compare_cont Eq mx my) with (Pos.compare mx my).
  rewrite (Pos.compare_antisym mx my).
  destruct sx, sy; cbn; try done; destruct (ex ?= ey); cbn; try done;
    destruct (mx ?= my)%positive; done.
Qed.

Lemma SFcompare_nan x y :
  SFcompare x y = None <-> is_nan x = true \/ is_nan y = true.
Proof.
  destruct x as [sx|sx| |sx mx ex], y as [sy|sy| |sy my ey]; cbn; intuition congruence.
Qed.

Lemma SFltb_asym x y : SFltb x y = true -> SFltb y x = false.
Proof.
  unfold SFltb. rewrite (SFcompare_antisym x y).
  by destruct (SFcompare x y) as [[]|].
Qed.

Lemma SFltb_irrefl x : SFltb x x = false.
Proof. destruct (SFltb x x) eqn:E; [|done]. by rewrite (SFltb_asym _ _ E) in E. Qed.

(** On numbers the order is total: not less is greater or equal. *)
Lemma SFltb_false_leb x y :
  is_nan x = false -> is_nan y = false -> SFltb x y = false -> SFleb y x = true.
Proof.
  intros Hx Hy. unfold SFltb, SFleb. rewrite (SFcompare_antisym x y).
  destruct (SFcompare x y) as [[]|] eqn:E; cbn; try done.
  apply SFcompare_nan in E. intuition congruence.
Qed.

Lemma SFltb_leb x y : SFltb x y = true -> SFleb x y = true.
Proof. unfold SFltb, SFleb. by destruct (SFcompare x y) as [[]|]. Qed.

Lemma SFleb_refl x : is_nan x = false -> SFleb x x = true.
Proof. intros H. by apply SFltb_false_leb, SFltb_irrefl. Qed.

Lemma SFleb_not_nan x y : SFleb x y = true -> is_nan x = false /\ is_nan y = false.
Proof.
  unfold SFleb. destruct (SFcompare x y) eqn:E; [|done]. intros _.
  destruct (is_nan x) eqn:Ex, (is_nan y) eqn:Ey; try done;
    (assert (SFcompare x y = None) by (apply SFcompare_nan; auto); congruence).
Qed.

Lemma clamp_nan v lo hi : is_nan v = true -> clamp v lo hi = v.
Proof. destruct v; try done. intros _. unfold clamp. by destruct lo, hi. Qed.

(** [std::clamp] keeps a number within its bounds. *)
Lemma clamp_range v lo hi :
  is_nan v = false -> SFleb lo hi = true ->
  SFleb lo (clamp v lo hi) = true /\ SFleb (clamp v lo hi) hi = true.
Proof.
  intros Hv Hle. destruct (SFleb_not_nan _ _ Hle) as [Hlo Hhi]. unfold clamp.
  destruct (SFltb v lo) eqn:E1; [by auto using SFleb_refl|].
  destruct (SFltb hi v) eqn:E2; [by auto using SFleb_refl|].
  split; by apply SFltb_false_leb.
Qed.

#[export] Hint Resolve f32_of_bits_valid f32_of_bits_of_f32 bits_of_f32_fits : untitled.

(** ** Exact conversions *)

Lemma digits2_pos_iter_xO m n :
  Zpos (digits2_pos (Pos.iter xO m n)) = Zpos (digits2_pos m) + Zpos n.
Proof.
  induction n as [|n IH] using Pos.peano_ind; [cbn; lia|].
  rewrite Pos.iter_succ. cbn [digits2_pos]. lia.
Qed.

(** A canonical mantissa is not rounded. *)
Lemma round_exact prec emax s m e :
  bounded prec emax m e = true ->
  binary_round_aux prec emax s (Zpos m) e loc_Exact = S754_finite s m e.
Proof.
  unfold bounded, canonical_mantissa. rewrite andb_true_iff, Z.eqb_eq. intros [Hc He].
  unfold binary_round_aux, shr_fexp. cbn [Zdigits2 shr_record_of_loc]. rewrite Hc, Z.sub_diag.
  cbn [shr shr_m round_nearest_even loc_of_shr_record Zdigits2 shr_record_of_loc].
  rewrite Hc, Z.sub_diag. cbn [shr shr_m]. by rewrite He.
Qed.

Lemma f32_round_exact s m e :
  bounded 24 128 m e = true ->
  binary_round_aux 24 128 s (Zpos m) e loc_Exact = S754_finite s m e.
Proof. apply round_exact. Qed.

(** An integer of at most 24 bits has a [float] of its own. *)
Lemma f32_of_Z_exact k :
  0 < k < 2 ^ 24 ->
  exists m e, f32_of_Z k = S754_finite false m e /\ 2 ^ 23 <= Zpos m < 2 ^ 24 /\ -23 <= e <= 0.
Proof.
  destruct k as [|k|k]; [lia| |lia]. intros Hk.
  unfold f32_of_Z, binary_normalize, binary_round.
  pose proof (digits2_pos_log2 k) as Hd.
  assert (Hlo : 0 <= Z.log2 (Zpos k)) by apply Z.log2_nonneg.
  assert (Hhi : Z.log2 (Zpos k) < 24) by (apply Z.log2_lt_pow2; lia).
  assert (Hf : fexp 24 128 (Zpos (digits2_pos k) + 0) = Zpos (digits2_pos k) - 24).
  { unfold fexp, emin. lia. }
  rewrite Hf. unfold shl_align. rewrite Z.sub_0_r.
  assert (Hb : forall m e, Zpos (digits2_pos m) = 24 -> -23 <= e <= 0 ->
    bounded 24 128 m e = true /\ 2 ^ 23 <= Zpos m < 2 ^ 24).
  { intros m e Hm He. rewrite digits2_pos_log2 in Hm.
    pose proof (Z.log2_spec (Zpos m) ltac:(lia)) as Hs.
    replace (Z.log2 (Zpos m)) with 23 in Hs by lia. cbn [Z.succ] in Hs.
    split; [|exact Hs]. apply f32_bounded_iff. left. split; [exact Hs|lia]. }
  destruct (Zpos (digits2_pos k) - 24) as [|p|p] eqn:Ep; [|lia|].
  - destruct (Hb k 0) as [H1 H2]; [lia|lia|]. rewrite f32_round_exact by done.
    exists k, 0. split; [done|]. split; [exact H2|lia].
  - destruct (Hb (Pos.iter xO k p) (Zneg p)) as [H1 H2]; [|lia|].
    + rewrite digits2_pos_iter_xO. lia.
    + rewrite f32_round_exact by done. exists (Pos.iter xO k p), (Zneg p).
      split; [done|]. split; [exact H2|lia].
Qed.

(** Division by 2^24 only lowers the exponent. *)
Lemma f32_div_pow24 m e :
  2 ^ 23 <= Zpos m < 2 ^ 24 -> -23 <= e <= 0 ->
  SFdiv 24 128 (S754_finite false m e) (f32_of_Z 0x01000000) = S754_finite false m (e - 24).
Proof.
  intros Hm He. change (f32_of_Z 0x01000000) with (S754_finite false 8388608 1).
  assert (Hd : Zpos (digits2_pos m) = 24).
  { rewrite digits2_pos_log2. rewrite (Z.log2_unique (Zpos m) 23); lia. }
  unfold SFdiv, SFdiv_core_binary. cbn [Zdigits2]. rewrite Hd.
  change (Zpos (digits2_pos 8388608)) with 24.
  replace (Z.min (fexp 24 128 (24 + e - (24 + 1))) (e - 1)) with (e - 25)
    by (unfold fexp, emin; lia).
  replace (e - 1 - (e - 25)) with 24 by lia. cbv iota.
  assert (Hq : Z.div_eucl (Z.shiftl (Zpos m) 24) 8388608 = (Zpos m~0, 0)).
  { rewrite Z.shiftl_mul_pow2 by lia.
    change (Z.div_eucl (Zpos m * 2 ^ 24) 8388608) with
      (Z.div_eucl (Zpos m * 2 ^ 24) 8388608).
    assert (E1 : Zpos m * 2 ^ 24 / 8388608 = Zpos m~0).
    { replace (Zpos m * 2 ^ 24) with (Zpos m~0 * 8388608) by lia. by rewrite Z.div_mul. }
    assert (E2 : Zpos m * 2 ^ 24 mod 8388608 = 0).
    { replace (Zpos m * 2 ^ 24) with (Zpos m~0 * 8388608) by lia. by rewrite Z.mod_mul. }
    revert E1 E2. unfold Z.div, Z.modulo.
    by destruct (Z.div_eucl (Zpos m * 2 ^ 24) 8388608) as [q r]; intros -> ->. }
  rewrite Hq. cbv beta iota. unfold new_location. cbn [Z.even].
  unfold new_location_even. cbn [Z.eqb]. cbn [xorb].
  unfold binary_round_aux, shr_fexp. cbn [Zdigits2 shr_record_of_loc digits2_pos].
  rewrite Pos2Z.inj_succ, Hd.
  replace (fexp 24 128 (Z.succ 24 + (e - 25)) - (e - 25)) with 1 by (unfold fexp, emin; lia).
  cbn [shr SpecFloat.iter_pos shr_1 orb shr_m loc_of_shr_record round_nearest_even Zdigits2
    shr_record_of_loc].
  rewrite Hd. replace (fexp 24 128 (24 + (e - 25 + 1)) - (e - 25 + 1)) with 0
    by (unfold fexp, emin; lia).
  cbn [shr shr_m]. destruct (e - 25 + 1 <=? 128 - 24) eqn:E; bool_to_prop; [|lia].
  f_equal. lia.
Qed.

(** ** Small mantissas are not rounded *)

Lemma iter_xO_value m n : Zpos (Pos.iter xO m n) = Zpos m * 2 ^ Zpos n.
Proof.
  induction n as [|n IH] using Pos.peano_ind; [cbn; lia|].
  rewrite Pos.iter_succ, Pos2Z.inj_succ, Z.pow_succ_r by lia. lia.
Qed.

(** A mantissa that fits the precision and an exponent of the format: the
    result is the canonical float of the same value. *)
Lemma normalize_exact prec emax k e :
  Zpos (digits2_pos k) <= prec -> emin prec emax <= e <= emax - prec ->
  exists m' e', binary_normalize prec emax (Zpos k) e false = S754_finite false m' e' /\
    bounded prec emax m' e' = true /\ e' <= e /\ Zpos m' = Zpos k * 2 ^ (e - e') /\
    e' = fexp prec emax (Zpos (digits2_pos k) + e).
Proof.
  intros Hd1 He. unfold binary_normalize, binary_round.
  set (e' := fexp prec emax (Zpos (digits2_pos k) + e)).
  assert (He' : e' <= e) by (unfold e', fexp; lia).
  assert (Hb : forall m, Zpos (digits2_pos m) = Zpos (digits2_pos k) + (e - e') ->
    bounded prec emax m e' = true).
  { intros m Hm. unfold bounded, canonical_mantissa. rewrite Hm.
    replace (Zpos (digits2_pos k) + (e - e') + e') with (Zpos (digits2_pos k) + e) by lia.
    fold e'. rewrite Z.eqb_refl. cbn [andb]. apply Z.leb_le. lia. }
  unfold shl_align. clearbody e'. destruct (e' - e) as [|p|p] eqn:Ep; [|lia|].
  - assert (e' = e) as -> by lia.
    rewrite round_exact by (apply Hb; lia). exists k, e.
    split_and!; [done|apply Hb; lia|lia| |done]. rewrite Z.sub_diag. lia.
  - rewrite round_exact by (apply Hb; rewrite digits2_pos_iter_xO; lia).
    exists (Pos.iter xO k p), e'. split_and!; [done| |lia| |done].
    + apply Hb. rewrite digits2_pos_iter_xO. lia.
    + replace (e - e') with (Zpos p) by lia. apply iter_xO_value.
Qed.

Lemma f32_normalize_exact k e :
  Zpos k < 2 ^ 24 -> -149 <= e <= 0 ->
  exists m' e', binary_normalize 24 128 (Zpos k) e false = S754_finite false m' e' /\
    bounded 24 128 m' e' = true /\ e' <= e /\ Zpos m' = Zpos k * 2 ^ (e - e').
Proof.
  intros Hk He. destruct (normalize_exact 24 128 k e) as (m' & e' & H1 & H2 & H3 & H4 & _).
  - rewrite digits2_pos_log2. enough (Z.log2 (Zpos k) < 24) by lia. apply Z.log2_lt_pow2; lia.
  - unfold emin. lia.
  - by exists m', e'.
Qed.

(** A positive float is below one exactly when its exponent is low enough. *)
Lemma f32_lt_one m e :
  bounded 24 128 m e = true ->
  SFltb (S754_finite false m e) f32_one = true <-> e < 0 /\ Zpos m < 2 ^ (- e).
Proof.
  intros Hb. apply f32_bounded_iff in Hb.
  assert (Hiff : (e < -23) <-> e < 0 /\ Zpos m < 2 ^ (- e)).
  { split.
    - intros He. split; [lia|]. apply (Z.lt_le_trans _ (2 ^ 24)); [lia|].
      apply Z.pow_le_mono_r; lia.
    - intros [He Hm]. destruct (decide (e < -23)) as [|Hge]; [done|].
      assert (2 ^ (- e) <= 2 ^ 23) by (apply Z.pow_le_mono_r; lia). lia. }
  rewrite <- Hiff. clear Hiff.
  change f32_one with (S754_finite false (2 ^ 23)%positive (-23)).
  unfold SFltb. cbn [SFcompare].
  destruct (Z.compare_spec e (-23)) as [Heq|?|?]; [|split; done|split; [done|lia]].
  assert (Hm : (2 ^ 23 <= m)%positive) by lia. clear Hb.
  destruct (Pos.compare_cont Eq m (2 ^ 23)) eqn:Ec; [split; [done|lia]| |split; [done|lia]].
  exfalso. exact (Hm (proj2 (Pos.compare_gt_iff _ _) (proj1 (Pos.compare_lt_iff _ _) Ec))).
Qed.

Lemma shl_align_value m e ez :
  ez <= e -> Zpos (fst (shl_align m e ez)) = Zpos m * 2 ^ (e - ez).
Proof.
  intros He. unfold shl_align. destruct (ez - e) as [|p|p] eqn:Ep; [|lia|]; cbn [fst].
  - replace (e - ez) with 0 by lia. lia.
  - replace (e - ez) with (Zpos p) by lia. apply iter_xO_value.
Qed.

(** The integer part of a number of at least one has no lower exponent. *)
Lemma floor_exponent m e m' e' :
  bounded 24 128 m e = true -> e < 0 -> 0 < Zpos m / 2 ^ (- e) ->
  bounded 24 128 m' e' = true -> Zpos m' = Zpos m / 2 ^ (- e) * 2 ^ (- e') ->
  e' <= 0 -> e <= e'.
Proof.
  intros Hm He Hk Hm' Hv He'. apply f32_bounded_iff in Hm, Hm'.
  destruct (decide (e <= e')) as [|Hlt]; [done|exfalso].
  assert (Hge : 2 ^ (- e) <= Zpos m).
  { destruct (decide (2 ^ (- e) <= Zpos m)) as [|Hs]; [done|].
    rewrite Z.div_small in Hk by lia. lia. }
  assert (He23 : -23 <= e).
  { destruct (decide (-23 <= e)) as [|Hs]; [done|].
    assert (2 ^ 24 <= 2 ^ (- e)) by (apply Z.pow_le_mono_r; lia). lia. }
  assert (Hm23 : 2 ^ 23 <= Zpos m) by lia.
  assert (Hkge : 2 ^ (23 + e) <= Zpos m / 2 ^ (- e)).
  { apply Z.div_le_lower_bound; [lia|]. rewrite <- Z.pow_add_r by lia.
    replace (- e + (23 + e)) with 23 by lia. done. }
  assert (2 ^ 24 <= Zpos m'); [|lia].
  rewrite Hv. etrans; [|apply Z.mul_le_mono_nonneg_r; [lia|apply Hkge]].
  rewrite <- Z.pow_add_r by lia. apply Z.pow_le_mono_r; lia.
Qed.

(** [x - std::floor(x)] of a number that is not negative is exact. *)
Lemma f32_sub_floor m e :
  bounded 24 128 m e = true ->
  let r := SFsub 24 128 (S754_finite false m e) (f32_floor (S754_finite false m e)) in
  r = f32_zero \/
  exists m' e', r = S754_finite false m' e' /\ bounded 24 128 m' e' = true /\
    SFltb r f32_one = true.
Proof.
  intros Hb r. pose proof Hb as Hm. apply f32_bounded_iff in Hm.
  unfold r, f32_floor, floor. destruct (0 <=? e) eqn:E; bool_to_prop.
  { left. cbn [SFsub]. rewrite Z.sub_diag. done. }
  unfold floor_Z. cbn [cond_Zopp].
  assert (Hfl : Z.shiftl (Zpos m) e = Zpos m / 2 ^ (- e)).
  { rewrite <- (Z.opp_involutive e) at 1. by rewrite Z.shiftl_opp_r, Z.shiftr_div_pow2 by lia. }
  rewrite Hfl.
  assert (Hdm := Z.div_mod (Zpos m) (2 ^ (- e)) ltac:(lia)).
  assert (Hr := Z.mod_pos_bound (Zpos m) (2 ^ (- e)) ltac:(lia)).
  assert (Hq : 0 <= Zpos m / 2 ^ (- e)) by (apply Z.div_pos; lia).
  destruct (Zpos m / 2 ^ (- e)) as [|k|k] eqn:Ek; [| |lia].
  - right. exists m, e. split_and!; [done|done|]. apply f32_lt_one; [done|lia].
  - assert (Hk24 : Zpos k < 2 ^ 24).
    { apply (Z.le_lt_trans _ (Zpos m)); [|lia]. rewrite <- Ek. assert (0 < 2 ^ (- e)) by (apply Z.pow_pos_nonneg; lia).
      apply Z.div_le_upper_bound; nia. }
    destruct (f32_normalize_exact k 0) as (mk & ek & -> & Hbk & Hek & Hmk); [done|lia|].
    rewrite Z.sub_0_l in Hmk.
    assert (Hle : e <= ek) by (apply (floor_exponent m e mk ek); rewrite ?Ek; done || lia).
    cbn [SFsub]. rewrite Z.min_l by done. cbn [cond_Zopp].
    rewrite !shl_align_value by lia. rewrite Z.sub_diag, Hmk, Z.mul_1_r, <- Z.mul_assoc,
      <- Z.pow_add_r by lia.
    replace (- ek + (ek - e)) with (- e) by lia.
    replace (Zpos m - Zpos k * 2 ^ (- e)) with (Zpos m mod 2 ^ (- e)) by lia.
    destruct (Zpos m mod 2 ^ (- e)) as [|q|q]; [by left| |lia].
    right. destruct (f32_normalize_exact q e) as (mq & eq & -> & Hbq & Heq & Hmq); [lia|lia|].
    exists mq, eq. split_and!; [done|done|]. apply f32_lt_one; [done|]. split; [lia|].
    rewrite Hmq. replace (- eq) with (- e + (e - eq)) by lia.
    rewrite Z.pow_add_r by lia. apply Z.mul_lt_mono_pos_r; lia.
Qed.
