(* ===== verification/ByteStream.v ===== *)
(** * Wire encoding: [common/net/include/net/byte_stream.h]

    [ByteWriter] appends to the vector it was built on, so each of its
    operations is a function on byte lists. [ByteReader] is a record of the
    buffer, the offset and the failure flag, and its operations run in the
    state monad [Reader]. [u8] to [u64] values are [Z], strings are byte
    strings, [float]s go through their bit pattern. *)

From Stdlib Require Import ZArith Lia Strings.Byte Strings.String.
From stdpp Require Import base list option strings.
From S2P Require Import Prelude Float32.

Open Scope Z_scope.

Definition kMaxStringLength : nat := 1024.

(** ** ByteWriter *)

Module ByteWriter.

Definition raw (data : list byte) (buffer : list byte) : list byte := buffer ++ data.

(** [little<T>] with [sizeof(T)] = [n]: byte [i] is [v >> (8 * i)]. *)
Definition little (n : nat) (v : Z) (buffer : list byte) : list byte :=
  raw (le_bytes n v) buffer.

Definition w_u8 (v : Z) : list byte -> list byte := raw [byte_of_Z v].
Definition w_u16 (v : Z) : list byte -> list byte := little 2 v.
Definition w_u32 (v : Z) : list byte -> list byte := little 4 v.
Definition w_u64 (v : Z) : list byte -> list byte := little 8 v.
Definition w_i32 (v : Z) : list byte -> list byte := little 4 (u32 v).
Definition w_f32 (v : float) : list byte -> list byte := little 4 (bits_of_f32 v).

(** The length prefix is capped, and only that many bytes follow it. *)
Definition w_string (v : string) (buffer : list byte) : list byte :=
  let length := Nat.min (String.length v) kMaxStringLength in
  raw (take length (bytes_of_string v)) (w_u16 (u16 (Z.of_nat length)) buffer).

(** What the operations append. *)
Definition e_u8 (v : Z) : list byte := [byte_of_Z v].
Definition e_u16 (v : Z) : list byte := le_bytes 2 v.
Definition e_u32 (v : Z) : list byte := le_bytes 4 v.
Definition e_u64 (v : Z) : list byte := le_bytes 8 v.
Definition e_f32 (v : float) : list byte := le_bytes 4 (bits_of_f32 v).
Definition e_string (v : string) : list byte := w_string v [].

Lemma w_u8_app v buf : w_u8 v buf = buf ++ e_u8 v.
Proof. done. Qed.
Lemma w_u16_app v buf : w_u16 v buf = buf ++ e_u16 v.
Proof. done. Qed.
Lemma w_u32_app v buf : w_u32 v buf = buf ++ e_u32 v.
Proof. done. Qed.
Lemma w_u64_app v buf : w_u64 v buf = buf ++ e_u64 v.
Proof. done. Qed.
Lemma w_f32_app v buf : w_f32 v buf = buf ++ e_f32 v.
Proof. done. Qed.
Lemma w_string_app v buf : w_string v buf = buf ++ e_string v.
Proof. unfold e_string, w_string, raw, w_u16, little, raw. by rewrite app_assoc. Qed.

Global Arguments e_u8 : simpl never.
Global Arguments e_u16 : simpl never.
Global Arguments e_u32 : simpl never.
Global Arguments e_u64 : simpl never.
Global Arguments e_f32 : simpl never.
Global Arguments e_string : simpl never.

End ByteWriter.

Create Rewrite HintDb writer.
#[export] Hint Rewrite ByteWriter.w_u8_app ByteWriter.w_u16_app ByteWriter.w_u32_app
  ByteWriter.w_u64_app ByteWriter.w_f32_app ByteWriter.w_string_app : writer.

(** ** ByteReader *)

Record ByteReader := mkReader {
  mData : list byte;
  mOffset : nat;
  mFailed : bool;
}.

Definition open_reader (data : list byte) : ByteReader := mkReader data 0 false.

Definition Reader (A : Type) : Type := ByteReader -> A * ByteReader.

Definition rret {A} (a : A) : Reader A := fun r => (a, r).
Definition rbind {A B} (m : Reader A) (k : A -> Reader B) : Reader B :=
  fun r => let '(a, r') := m r in k a r'.

Declare Scope reader_scope.
Delimit Scope reader_scope with reader.
Notation "x <-- m ;; k" := (rbind m (fun x => k))
  (at level 100, m at next level, right associativity) : reader_scope.
Open Scope reader_scope.

Definition remaining (r : ByteReader) : nat :=
  if mFailed r then 0%nat else (length (mData r) - mOffset r)%nat.

Definition failed (r : ByteReader) : bool := mFailed r.

(** [mData[i]]; every index the operations use is in range (see
    [take_in_bounds]), so the default is never read. *)
Definition byte_at (r : ByteReader) (i : nat) : byte := nth i (mData r) x00.

(** The accumulating loop of [take<T>]. *)
Fixpoint take_loop (r : ByteReader) (n i : nat) (v : Z) : Z :=
  match n with
  | O => v
  | S n' =>
      take_loop r n' (S i)
        (Z.lor v (Z.shiftl (Z_of_byte (byte_at r (mOffset r + i))) (8 * Z.of_nat i)))
  end.

Definition take_le (n : nat) : Reader Z := fun r =>
  if (remaining r <? n)%nat then (0, mkReader (mData r) (mOffset r) true)
  else (take_loop r n 0 0, mkReader (mData r) (mOffset r + n) (mFailed r)).

Definition r_u8 : Reader Z := take_le 1.
Definition r_u16 : Reader Z := take_le 2.
Definition r_u32 : Reader Z := take_le 4.
Definition r_u64 : Reader Z := take_le 8.
Definition r_i32 : Reader Z := v <-- r_u32 ;; rret (i32 v).
Definition r_f32 : Reader float := bits <-- r_u32 ;; rret (f32_of_bits bits).

Definition r_string : Reader string := fun r =>
  let '(length, r1) := r_u16 r in
  if (mFailed r1 || (Z.of_nat kMaxStringLength <? length)
      || (Z.of_nat (remaining r1) <? length))%bool
  then (EmptyString, mkReader (mData r1) (mOffset r1) true)
  else
    (string_of_bytes (take (Z.to_nat length) (drop (mOffset r1) (mData r1))),
     mkReader (mData r1) (mOffset r1 + Z.to_nat length) (mFailed r1)).

Create HintDb reader.

(** ** Reader invariant: no read leaves the buffer *)

Definition reader_ok (r : ByteReader) : Prop := (mOffset r <= length (mData r))%nat.

(** A reader step keeps the buffer, never moves the offset back or past the
    end, and never clears the failure flag. *)
Definition reader_step (r r' : ByteReader) : Prop :=
  mData r' = mData r /\ (mOffset r <= mOffset r')%nat /\
  (reader_ok r -> reader_ok r') /\ (mFailed r = true -> mFailed r' = true).

Definition safe_reader {A} (m : Reader A) : Prop := forall r, reader_step r (m r).2.

Lemma reader_step_refl r : reader_step r r.
Proof. split_and!; auto. Qed.

Lemma reader_step_trans r1 r2 r3 :
  reader_step r1 r2 -> reader_step r2 r3 -> reader_step r1 r3.
Proof.
  intros (H1 & H2 & H3 & H4) (H5 & H6 & H7 & H8).
  split_and!; [congruence|lia|auto|auto].
Qed.

Lemma safe_ret {A} (a : A) : safe_reader (rret a).
Proof. intros r. apply reader_step_refl. Qed.

Lemma safe_bind {A B} (m : Reader A) (k : A -> Reader B) :
  safe_reader m -> (forall a, safe_reader (k a)) -> safe_reader (rbind m k).
Proof.
  intros Hm Hk r. unfold rbind. specialize (Hm r). destruct (m r) as [a r'].
  eapply reader_step_trans; [apply Hm|apply Hk].
Qed.

Lemma safe_take n : safe_reader (take_le n).
Proof.
  intros r. unfold take_le, reader_step, reader_ok, remaining.
  destruct (mFailed r) eqn:Ef; destruct (_ <? _)%nat eqn:E; simpl; split_and!;
    try done; try lia; apply Nat.ltb_ge in E; lia.
Qed.

Lemma safe_string : safe_reader r_string.
Proof.
  intros r. unfold r_string. pose proof (safe_take 2 r) as Hs. unfold r_u16.
  destruct (take_le 2 r) as [len r1]. simpl in Hs.
  eapply reader_step_trans; [apply Hs|]. unfold reader_step, reader_ok, remaining.
  destruct (mFailed r1) eqn:Ef; simpl; [split_and!; auto|].
  repeat case_match; simpl; split_and!; try done; bool_to_prop; lia.
Qed.

Lemma safe_f32 : safe_reader r_f32.
Proof. apply safe_bind; [apply safe_take|intros; apply safe_ret]. Qed.

#[export] Hint Resolve safe_ret safe_bind safe_take safe_string safe_f32 : reader.

(** The bytes a successful [take<T>] reads all exist. *)
Lemma take_in_bounds n r i :
  reader_ok r -> mFailed (take_le n r).2 = false -> (i < n)%nat ->
  is_Some (mData r !! (mOffset r + i)%nat).
Proof.
  unfold take_le, reader_ok, remaining. intros Hok Hf Hi.
  destruct (mFailed r) eqn:Ef; destruct (_ <? _)%nat eqn:E; simpl in Hf; try done.
  apply lookup_lt_is_Some. apply Nat.ltb_ge in E. lia.
Qed.

(** ** Decoding what was written

    [reads m bs a]: started on a buffer that continues with [bs], [m] returns
    [a] and stops exactly after [bs]. *)

Definition reads {A} (m : Reader A) (bs : list byte) (a : A) : Prop :=
  forall pre post,
    m (mkReader (pre ++ bs ++ post) (length pre) false) =
    (a, mkReader (pre ++ bs ++ post) (length pre + length bs) false).

Lemma reads_ret {A} (a : A) : reads (rret a) [] a.
Proof. intros pre post. unfold rret. simpl. by rewrite Nat.add_0_r. Qed.

Lemma reads_bind {A B} (m : Reader A) (k : A -> Reader B) bs1 bs2 a b :
  reads m bs1 a -> reads (k a) bs2 b -> reads (rbind m k) (bs1 ++ bs2) b.
Proof.
  intros Hm Hk pre post. unfold rbind.
  rewrite <- (app_assoc bs1 bs2 post), (Hm pre (bs2 ++ post)).
  specialize (Hk (pre ++ bs1) post). rewrite length_app, <- !app_assoc in Hk.
  rewrite Hk, length_app. by rewrite Nat.add_assoc.
Qed.

Lemma take_loop_value pre bs post off fl n i v :
  off = length pre -> (i + n = length bs)%nat ->
  take_loop (mkReader (pre ++ bs ++ post) off fl) n i v =
  Z.lor v (Z.shiftl (le_value (drop i bs)) (8 * Z.of_nat i)).
Proof.
  intros ->. revert i v. induction n as [|n IH]; intros i v Hi; cbn [take_loop].
  - rewrite drop_ge by lia. change (le_value []) with 0. by rewrite Z.shiftl_0_l, Z.lor_0_r.
  - rewrite IH by lia. unfold byte_at. cbn [mData mOffset].
    destruct (lookup_lt_is_Some_2 bs i) as [b Hb]; [lia|].
    rewrite app_nth2_plus, app_nth1 by lia.
    rewrite (nth_lookup_Some bs i x00 b Hb), (drop_S bs b i Hb), le_value_cons_lor.
    rewrite <- Z.lor_assoc. f_equal.
    rewrite Z.shiftl_lor. f_equal. rewrite Z.shiftl_shiftl by lia. f_equal. lia.
Qed.

Lemma reads_take n bs : length bs = n -> reads (take_le n) bs (le_value bs).
Proof.
  intros Hn pre post. unfold take_le, remaining. cbn [mFailed mData mOffset].
  destruct (_ <? _)%nat eqn:E.
  - apply Nat.ltb_lt in E. rewrite !length_app in E. lia.
  - rewrite (take_loop_value _ bs _ _ _ n 0) by (done || lia).
    simpl. rewrite Z.shiftl_0_r. by subst n.
Qed.

Lemma reads_le n v :
  fits (8 * Z.of_nat n) v -> reads (take_le n) (le_bytes n v) v.
Proof.
  intros Hv. rewrite <- (wrap_id _ _ Hv) at 2. unfold wrap.
  rewrite <- le_value_bytes. apply reads_take, length_le_bytes.
Qed.

Lemma reads_u8 v : fits 8 v -> reads r_u8 (ByteWriter.e_u8 v) v.
Proof. intros Hv. apply (reads_le 1 v Hv). Qed.
Lemma reads_u16 v : fits 16 v -> reads r_u16 (ByteWriter.e_u16 v) v.
Proof. apply (reads_le 2). Qed.
Lemma reads_u32 v : fits 32 v -> reads r_u32 (ByteWriter.e_u32 v) v.
Proof. apply (reads_le 4). Qed.
Lemma reads_u64 v : fits 64 v -> reads r_u64 (ByteWriter.e_u64 v) v.
Proof. apply (reads_le 8). Qed.

Lemma reads_f32 x : f32_valid x = true -> reads r_f32 (ByteWriter.e_f32 x) x.
Proof.
  intros Hx. unfold r_f32. rewrite <- (app_nil_r (ByteWriter.e_f32 x)).
  eapply reads_bind; [by apply reads_u32, bits_of_f32_fits|].
  rewrite f32_of_bits_of_f32 by done. apply reads_ret.
Qed.

Lemma reads_string v :
  (String.length v <= kMaxStringLength)%nat -> reads r_string (ByteWriter.e_string v) v.
Proof.
  intros Hv pre post. unfold r_string, ByteWriter.e_string, ByteWriter.w_string.
  rewrite Nat.min_l by done.
  set (len := String.length v) in *.
  assert (Hl : length (bytes_of_string v) = len) by apply length_bytes_of_string.
  rewrite take_ge by lia. unfold ByteWriter.raw, ByteWriter.w_u16, ByteWriter.little,
    ByteWriter.raw. rewrite app_nil_l.
  assert (Hfit : fits 16 (Z.of_nat len)).
  { unfold fits, kMaxStringLength in *. lia. }
  rewrite (wrap_id _ _ Hfit).
  pose proof (reads_u16 (Z.of_nat len) Hfit pre (bytes_of_string v ++ post)) as Hr.
  unfold ByteWriter.e_u16 in Hr. rewrite <- app_assoc, Hr.
  unfold remaining. cbn [mFailed mData mOffset orb].
  rewrite !length_app, length_le_bytes.
  destruct (_ <? Z.of_nat len) eqn:E1; bool_to_prop; [lia|].
  destruct (_ <? Z.of_nat len) eqn:E2; bool_to_prop; [lia|].
  cbn [orb]. f_equal.
  - rewrite Nat2Z.id, (app_assoc pre), drop_app_length'.
    + rewrite take_app_length' by done. apply string_of_bytes_of_string.
    + by rewrite length_app, length_le_bytes.
  - f_equal. rewrite Nat2Z.id. lia.
Qed.

(** The whole buffer: reading from offset 0, with nothing before it. *)
Lemma reads_open {A} (m : Reader A) bs post a :
  reads m bs a -> m (open_reader (bs ++ post)) = (a, mkReader (bs ++ post) (length bs) false).
Proof. intros H. apply (H [] post). Qed.

#[export] Hint Resolve reads_ret reads_u8 reads_u16 reads_u32 reads_u64 reads_f32
  reads_string : reader.

(** Runs through a chain of reads of concatenated fields. *)
Ltac solve_reads :=
  repeat first
    [ eapply reads_bind; [solve [eauto with reader untitled]|]
    | solve [eauto with reader untitled] ].

(** ** What a message can carry whole *)

Definition wire_ok (s : string) : Prop := (String.length s <= kMaxStringLength)%nat.

(** The writers of a message, as the concatenation of what each appends. *)
Ltac wire_text :=
  autorewrite with writer; rewrite ?app_nil_l; repeat rewrite <- (app_assoc _ _ _).

(** ** Failure is sticky *)

Lemma take_failed n r : mFailed r = true -> (0 < n)%nat -> take_le n r = (0, r).
Proof.
  intros Hf Hn. unfold take_le, remaining. rewrite Hf.
  destruct n; [lia|]. simpl. destruct r as [d o f]; simpl in *; by subst.
Qed.

Lemma string_failed r : mFailed r = true -> r_string r = (EmptyString, r).
Proof.
  intros Hf. unfold r_string, r_u16. rewrite take_failed by (done || lia).
  rewrite Hf. simpl. destruct r as [d o f]; simpl in *; by subst.
Qed.

(** ** The values read fit *)

Lemma take_le_fits n r : (take_le n r).1 = 0 \/ fits (8 * Z.of_nat n) (take_le n r).1.
Proof.
  unfold take_le. destruct (remaining r <? n)%nat eqn:E; [by left|right].
  apply Nat.ltb_ge in E. cbn [fst]. destruct r as [d o f]. unfold remaining in E.
  cbn [mFailed mData mOffset] in *. destruct n as [|n]; [unfold fits; simpl; lia|].
  destruct f; [lia|]. rewrite <- (take_drop o d).
  set (pre := take o d). assert (Hpre : length pre = o) by (unfold pre; rewrite length_take; lia).
  rewrite <- (take_drop (S n) (drop o d)).
  rewrite (take_loop_value pre (take (S n) (drop o d)) _ o false (S n) 0 0) by
    (rewrite ?length_take, ?length_drop; lia).
  rewrite drop_0, Z.lor_0_l, Z.shiftl_0_r.
  pose proof (le_value_range (take (S n) (drop o d))) as Hr.
  rewrite length_take, length_drop, Nat.min_l in Hr by lia. exact Hr.
Qed.

Lemma r_u8_fits r : fits 8 (r_u8 r).1.
Proof. destruct (take_le_fits 1 r) as [E|]; [|done]. unfold r_u8. rewrite E. unfold fits. lia. Qed.

Lemma r_u32_fits r : fits 32 (r_u32 r).1.
Proof. destruct (take_le_fits 4 r) as [E|]; [|done]. unfold r_u32. rewrite E. unfold fits. lia. Qed.

Lemma r_string_length r : (String.length (r_string r).1 <= kMaxStringLength)%nat.
Proof.
  unfold r_string. destruct (r_u16 r) as [len r1].
  destruct (_ || _)%bool eqn:E; [cbn; lia|]. cbn [fst].
  apply orb_false_iff in E as [E _]. apply orb_false_iff in E as [_ E]. apply Z.ltb_ge in E.
  rewrite <- length_bytes_of_string, bytes_of_string_of_bytes, length_take. lia.
Qed.

(** ** Readers of a fixed width

    [consumes n m]: when [m] ends without failure it has not failed before,
    has advanced by [n] bytes, and these bytes exist. *)

Definition consumes {A} (n : nat) (m : Reader A) : Prop :=
  forall r, mFailed (m r).2 = false ->
    mFailed r = false /\ mData (m r).2 = mData r /\
    mOffset (m r).2 = (mOffset r + n)%nat /\ (reader_ok r -> reader_ok (m r).2).

Lemma consumes_ret {A} (a : A) : consumes 0 (rret a).
Proof. intros r Hf. unfold rret in *; simpl in *. split_and!; auto; lia. Qed.

Lemma consumes_bind {A B} n1 n2 (m : Reader A) (k : A -> Reader B) :
  consumes n1 m -> (forall a, consumes n2 (k a)) -> consumes (n1 + n2) (rbind m k).
Proof.
  intros Hm Hk r. unfold rbind. specialize (Hm r). destruct (m r) as [a r1]. simpl in Hm.
  intros Hf. destruct (Hk a r1 Hf) as (Hf1 & Hd & Ho & Hok).
  destruct (Hm Hf1) as (Hf0 & Hd0 & Ho0 & Hok0). split_and!; auto; [congruence|lia].
Qed.

Lemma consumes_take n : consumes n (take_le n).
Proof.
  intros r. unfold take_le, remaining, reader_ok.
  destruct (mFailed r) eqn:Ef; destruct (_ <? _)%nat eqn:E; simpl; try done.
  intros _. apply Nat.ltb_ge in E. split_and!; auto. lia.
Qed.

Lemma consumes_f32 : consumes 4 r_f32.
Proof. apply (consumes_bind 4 0); [apply consumes_take|intros; apply consumes_ret]. Qed.

#[export] Hint Resolve consumes_take consumes_f32 : reader.
Ltac solve_consumes :=
  repeat first
    [ apply consumes_f32 | apply consumes_take | apply consumes_ret
    | eapply consumes_bind; [|intros ?] ].

(** ** Readers on a buffer that is long enough *)

Lemma take_enough n data off :
  (off + n <= length data)%nat ->
  take_le n (mkReader data off false) =
  (le_value (take n (drop off data)), mkReader data (off + n) false).
Proof.
  intros Hl. set (bs := take n (drop off data)).
  assert (Hbs : length bs = n).
  { unfold bs. rewrite length_take, length_drop. lia. }
  assert (Hoff : length (take off data) = off) by (rewrite length_take; lia).
  assert (Hd : take off data ++ bs ++ drop (off + n) data = data).
  { unfold bs.
    rewrite take_drop_split. apply take_drop. }
  pose proof (reads_take n bs Hbs (take off data) (drop (off + n) data)) as Hr.
  rewrite Hd, Hoff, Hbs in Hr. exact Hr.
Qed.

(** [total n m]: [m] succeeds whenever [n] more bytes are there. *)
Definition total_reader {A} (n : nat) (m : Reader A) : Prop :=
  forall data off, (off + n <= length data)%nat ->
    exists a, m (mkReader data off false) = (a, mkReader data (off + n) false).

Lemma total_ret {A} (a : A) : total_reader 0 (rret a).
Proof. intros data off _. exists a. by rewrite Nat.add_0_r. Qed.

Lemma total_take n : total_reader n (take_le n).
Proof. intros data off Hl. eexists. by apply take_enough. Qed.

Lemma total_bind {A B} n1 n2 (m : Reader A) (k : A -> Reader B) :
  total_reader n1 m -> (forall a, total_reader n2 (k a)) -> total_reader (n1 + n2) (rbind m k).
Proof.
  intros Hm Hk data off Hl. destruct (Hm data off) as [a Ha]; [lia|].
  destruct (Hk a data (off + n1)%nat) as [b Hb]; [lia|].
  exists b. unfold rbind. by rewrite Ha, Hb, Nat.add_assoc.
Qed.

Lemma total_f32 : total_reader 4 r_f32.
Proof. apply (total_bind 4 0); [apply total_take|intros; apply total_ret]. Qed.

Ltac solve_total :=
  repeat first
    [ apply total_f32 | apply total_take | apply total_ret
    | eapply total_bind; [|intros ?] ].

(** ** What a successful read has read

    [reads_only m enc]: when [m] ends without failure it has consumed an
    encoding, by [enc], of what it returns. *)

Definition reads_only {A} (m : Reader A) (enc : A -> list byte -> Prop) : Prop :=
  forall pre bs, let r := mkReader (pre ++ bs) (length pre) false in
    mFailed (m r).2 = false ->
    exists used post, bs = used ++ post /\ enc (m r).1 used /\
      (m r).2 = mkReader (pre ++ bs) (length pre + length used) false.

Lemma reads_only_ret {A} (a : A) : reads_only (rret a) (fun b used => b = a /\ used = []).
Proof. intros pre bs r _. exists [], bs. cbn. by rewrite Nat.add_0_r. Qed.

Lemma reads_only_bind {A B} (m : Reader A) (k : A -> Reader B) enc1 (enc2 : A -> B -> list byte -> Prop) :
  reads_only m enc1 -> (forall a, reads_only (k a) (enc2 a)) -> (forall a, safe_reader (k a)) ->
  reads_only (rbind m k)
    (fun b used => exists a u1 u2, used = u1 ++ u2 /\ enc1 a u1 /\ enc2 a b u2).
Proof.
  intros Hm Hk Hs pre bs r. unfold rbind. specialize (Hm pre bs). cbv zeta in Hm. fold r in Hm.
  destruct (m r) as [a r1] eqn:Em. cbn [fst snd] in Hm. intros Hf.
  destruct Hm as (u1 & post & -> & He1 & ->).
  { destruct (mFailed r1) eqn:E1; [|done]. destruct (Hs a r1) as (_ & _ & _ & Hs1).
    by rewrite Hs1 in Hf. }
  specialize (Hk a (pre ++ u1) post). rewrite length_app, <- app_assoc in Hk.
  destruct (Hk Hf) as (u2 & post' & -> & He2 & ->).
  exists (u1 ++ u2), post'. rewrite <- !app_assoc, length_app, Nat.add_assoc.
  split; [done|]. split; [|done]. exists a, u1, u2. done.
Qed.

Lemma reads_only_take n :
  reads_only (take_le n) (fun v used => fits (8 * Z.of_nat n) v /\ used = le_bytes n v).
Proof.
  intros pre bs r Hf. destruct (decide (n <= length bs)%nat) as [Hl|Hl].
  - unfold r. rewrite take_enough by (rewrite length_app; lia). cbn [fst snd].
    rewrite drop_app_length. exists (take n bs), (drop n bs).
    assert (Hn : length (take n bs) = n) by (rewrite length_take; lia).
    split; [by rewrite take_drop|]. split; [|by rewrite Hn]. split.
    + pose proof (le_value_range (take n bs)) as Hr. by rewrite Hn in Hr.
    + rewrite <- Hn at 2. by rewrite le_bytes_value.
  - exfalso. revert Hf. unfold r, take_le, remaining. cbn [mFailed mData mOffset].
    rewrite length_app, (proj2 (Nat.ltb_lt _ _)) by lia. done.
Qed.

Lemma reads_only_string :
  reads_only r_string (fun s used => wire_ok s /\ used = ByteWriter.e_string s).
Proof.
  intros pre bs r. unfold r_string. pose proof (reads_only_take 2 pre bs) as Hu. cbv zeta in Hu. fold r in Hu.
  unfold r_u16. destruct (take_le 2 r) as [len r1]. cbn [fst snd] in Hu.
  destruct (mFailed r1) eqn:E1; [done|]. destruct (Hu eq_refl) as (u1 & post & -> & [Hf ->] & ->).
  cbn [orb]. destruct (_ || _)%bool eqn:Eb; [done|]. intros _.
  apply orb_false_iff in Eb as [Ek Er]. bool_to_prop.
  unfold remaining in Er. cbn [mFailed mData mOffset fst snd] in *.
  rewrite !length_app in Er. rewrite length_le_bytes in Er |- *. unfold fits in Hf.
  set (text := take (Z.to_nat len) post).
  assert (Ht : length text = Z.to_nat len) by (unfold text; rewrite length_take; lia).
  rewrite app_assoc, drop_app_length' by (by rewrite length_app, length_le_bytes). fold text.
  exists (le_bytes 2 len ++ text), (drop (Z.to_nat len) post).
  assert (Hs : String.length (string_of_bytes text) = Z.to_nat len).
  { by rewrite <- length_bytes_of_string, bytes_of_string_of_bytes. }
  split; [by rewrite <- app_assoc; unfold text; rewrite take_drop|]. split.
  - split; [unfold wire_ok; rewrite Hs; lia|].
    unfold ByteWriter.e_string, ByteWriter.w_string, ByteWriter.w_u16, ByteWriter.little,
      ByteWriter.raw. rewrite Hs, Nat.min_l, bytes_of_string_of_bytes, take_ge by lia.
    by rewrite Z2Nat.id, wrap_id by (unfold fits in *; lia).
  - f_equal. rewrite !length_app, length_le_bytes, Ht. lia.
Qed.

Lemma reads_only_u8 : reads_only r_u8 (fun v used => fits 8 v /\ used = ByteWriter.e_u8 v).
Proof. exact (reads_only_take 1). Qed.
Lemma reads_only_u16 : reads_only r_u16 (fun v used => fits 16 v /\ used = ByteWriter.e_u16 v).
Proof. exact (reads_only_take 2). Qed.
Lemma reads_only_u64 : reads_only r_u64 (fun v used => fits 64 v /\ used = ByteWriter.e_u64 v).
Proof. exact (reads_only_take 8). Qed.

(** The whole buffer. *)
Lemma reads_only_open {A} (m : Reader A) enc bs a r :
  reads_only m enc -> m (open_reader bs) = (a, r) -> mFailed r = false ->
  exists used post, bs = used ++ post /\ enc a used.
Proof.
  intros Hm Er Hf. specialize (Hm [] bs). cbv zeta in Hm. change (mkReader ([] ++ bs) (length []) false)
    with (open_reader bs) in Hm. rewrite Er in Hm. destruct (Hm Hf) as (u & p & H1 & H2 & _). eauto.
Qed.

#[export] Hint Resolve reads_only_ret reads_only_u8 reads_only_u16 reads_only_u64 reads_only_string : reader.

(** ** Reading a field in the middle of a buffer *)

Lemma reads_at {A} (m : Reader A) bs a data off pre post :
  reads m bs a -> data = pre ++ bs ++ post -> off = length pre ->
  m (mkReader data off false) = (a, mkReader data (off + length bs) false).
Proof. intros Hm -> ->. apply Hm. Qed.

(** Reads the next field of a request, whose bytes follow [pre]. *)
Ltac read_field pre post lem :=
  erewrite (reads_at _ _ _ _ _ pre post); [|by apply lem|by rewrite <- ?app_assoc, ?app_nil_r|
    by rewrite ?length_app].
