(* ===== verification/Protocol.v ===== *)
(** * Message types and result codes: [common/net/include/net/protocol.h]

    Every enumeration is an inductive type with its wire code. A
    [static_cast] from the wire keeps unknown codes, on which a [switch]
    takes its default: the decoders return [None] there. *)

From Stdlib Require Import ZArith Lia Strings.String.
From stdpp Require Import base list option strings.
From S2P Require Import Prelude.

Open Scope Z_scope.

Definition kProtocolVersion : Z := 8.
Definition kUdpMagic : Z := 0x554E5431.
Definition kServerTickHz : Z := 60.
Definition kMaxEntitiesPerSnapshot : Z := 512.
Definition kInputJump : Z := 1.
Definition kInputSprint : Z := 2.

(** An enumeration with wire codes: decoding inverts encoding. *)
Class WireEnum (E : Type) := {
  code : E -> Z;
  of_code : Z -> option E;
  of_code_code : forall e, of_code (code e) = Some e;
  of_code_Some : forall z e, of_code z = Some e -> code e = z;
}.

Lemma code_inj {E} `{WireEnum E} (a b : E) : code a = code b -> a = b.
Proof. intros Eq. apply (inj Some). by rewrite <- !of_code_code, Eq. Qed.

(** Finds the member with a given code in the list of all members. *)
Definition find_code {E} (f : E -> Z) (all : list E) (z : Z) : option E :=
  List.find (fun e => f e =? z) all.

Lemma find_code_Some {E} (f : E -> Z) all z e : find_code f all z = Some e -> f e = z.
Proof. intros H. apply List.find_some in H as [_ H]. by apply Z.eqb_eq. Qed.

Inductive PermissionLevel := Player | GameMaster | Admin.

Definition permission_code (p : PermissionLevel) : Z :=
  match p with Player => 0 | GameMaster => 1 | Admin => 2 end.

Inductive AuthMessage :=
| LoginRequest | LoginResponse | RegisterRequest | RegisterResponse
| AdminAccountCreateRequest | AdminAccountCreateResponse
| AdminAccountDeleteRequest | AdminAccountDeleteResponse
| AdminSetLevelRequest | AdminSetLevelResponse.

Definition auth_message_code (m : AuthMessage) : Z :=
  match m with
  | LoginRequest => 1 | LoginResponse => 2 | RegisterRequest => 3 | RegisterResponse => 4
  | AdminAccountCreateRequest => 5 | AdminAccountCreateResponse => 6
  | AdminAccountDeleteRequest => 7 | AdminAccountDeleteResponse => 8
  | AdminSetLevelRequest => 9 | AdminSetLevelResponse => 10
  end.

Definition auth_message_of : Z -> option AuthMessage :=
  find_code auth_message_code
    [LoginRequest; LoginResponse; RegisterRequest; RegisterResponse;
     AdminAccountCreateRequest; AdminAccountCreateResponse;
     AdminAccountDeleteRequest; AdminAccountDeleteResponse;
     AdminSetLevelRequest; AdminSetLevelResponse].

Inductive AuthResult :=
| AuthSuccess | InvalidCredentials | AuthVersionMismatch | AccountExists | AuthServerError
| MalformedRequest | NotAuthorised | NoSuchAccount | InsufficientPermission | SessionExpired.

Definition auth_result_code (r : AuthResult) : Z :=
  match r with
  | AuthSuccess => 0 | InvalidCredentials => 1 | AuthVersionMismatch => 2
  | AccountExists => 3 | AuthServerError => 4 | MalformedRequest => 5 | NotAuthorised => 6
  | NoSuchAccount => 7 | InsufficientPermission => 8 | SessionExpired => 9
  end.

Definition auth_result_of : Z -> option AuthResult :=
  find_code auth_result_code
    [AuthSuccess; InvalidCredentials; AuthVersionMismatch; AccountExists; AuthServerError;
     MalformedRequest; NotAuthorised; NoSuchAccount; InsufficientPermission; SessionExpired].

(** [net::toString]; [None] is a code outside the enumeration. *)
Definition toString (result : option AuthResult) : string :=
  match result with
  | Some AuthSuccess => "success"
  | Some InvalidCredentials => "invalid username or password"
  | Some AuthVersionMismatch => "client/server protocol version mismatch"
  | Some AccountExists => "account already exists"
  | Some AuthServerError => "server error"
  | Some MalformedRequest => "malformed request"
  | Some NotAuthorised => "not authorised (bad admin secret)"
  | Some NoSuchAccount => "no such account"
  | Some InsufficientPermission => "your account lacks permission"
  | Some SessionExpired => "session expired -- log in again"
  | None => "unknown"
  end.

Inductive DbMessage :=
| AccountLookupRequest | AccountLookupResponse | AccountCreateRequest | AccountCreateResponse
| SessionCreateRequest | SessionCreateResponse | SessionLookupRequest | SessionLookupResponse
| SessionDeleteRequest | SessionDeleteResponse | AccountDeleteRequest | AccountDeleteResponse
| AccountSetLevelRequest | AccountSetLevelResponse | AccountCreateWithLevelRequest
| AdminExistsRequest | AdminExistsResponse.

Definition db_message_code (m : DbMessage) : Z :=
  match m with
  | AccountLookupRequest => 100 | AccountLookupResponse => 101
  | AccountCreateRequest => 102 | AccountCreateResponse => 103
  | SessionCreateRequest => 104 | SessionCreateResponse => 105
  | SessionLookupRequest => 106 | SessionLookupResponse => 107
  | SessionDeleteRequest => 108 | SessionDeleteResponse => 109
  | AccountDeleteRequest => 110 | AccountDeleteResponse => 111
  | AccountSetLevelRequest => 112 | AccountSetLevelResponse => 113
  | AccountCreateWithLevelRequest => 114
  | AdminExistsRequest => 115 | AdminExistsResponse => 116
  end.

Definition db_message_of : Z -> option DbMessage :=
  find_code db_message_code
    [AccountLookupRequest; AccountLookupResponse; AccountCreateRequest; AccountCreateResponse;
     SessionCreateRequest; SessionCreateResponse; SessionLookupRequest; SessionLookupResponse;
     SessionDeleteRequest; SessionDeleteResponse; AccountDeleteRequest; AccountDeleteResponse;
     AccountSetLevelRequest; AccountSetLevelResponse; AccountCreateWithLevelRequest;
     AdminExistsRequest; AdminExistsResponse].

Inductive DbResult := DbOk | DbNotFound | DbConflict | DbError.

Definition db_result_code (r : DbResult) : Z :=
  match r with DbOk => 0 | DbNotFound => 1 | DbConflict => 2 | DbError => 3 end.

Definition db_result_of : Z -> option DbResult :=
  find_code db_result_code [DbOk; DbNotFound; DbConflict; DbError].

Inductive WorldMessage :=
| JoinRequest | JoinResponse | LogoutRequest | LogoutResponse | Disconnect
| ClientHello | SnapshotMessage | ClientInput
| AdminSetTimeRequest | AdminSetTimeResponse | AdminStatusRequest | AdminStatusResponse
| AdminSetLatencyRequest | AdminSetLatencyResponse.

Definition world_message_code (m : WorldMessage) : Z :=
  match m with
  | JoinRequest => 200 | JoinResponse => 201 | LogoutRequest => 202 | LogoutResponse => 203
  | Disconnect => 204 | ClientHello => 210 | SnapshotMessage => 211 | ClientInput => 212
  | AdminSetTimeRequest => 220 | AdminSetTimeResponse => 221
  | AdminStatusRequest => 222 | AdminStatusResponse => 223
  | AdminSetLatencyRequest => 224 | AdminSetLatencyResponse => 225
  end.

Definition world_message_of : Z -> option WorldMessage :=
  find_code world_message_code
    [JoinRequest; JoinResponse; LogoutRequest; LogoutResponse; Disconnect;
     ClientHello; SnapshotMessage; ClientInput;
     AdminSetTimeRequest; AdminSetTimeResponse; AdminStatusRequest; AdminStatusResponse;
     AdminSetLatencyRequest; AdminSetLatencyResponse].

Inductive TimeCommand := TimeSet | TimeSpeed | TimeReset.

Definition time_command_code (c : TimeCommand) : Z :=
  match c with TimeSet => 0 | TimeSpeed => 1 | TimeReset => 2 end.

Definition time_command_of : Z -> option TimeCommand :=
  find_code time_command_code [TimeSet; TimeSpeed; TimeReset].

Inductive JoinResult :=
| JoinSuccess | InvalidSession | JoinVersionMismatch | ServerFull | JoinServerError.

Definition join_result_code (r : JoinResult) : Z :=
  match r with
  | JoinSuccess => 0 | InvalidSession => 1 | JoinVersionMismatch => 2 | ServerFull => 3
  | JoinServerError => 4
  end.

Definition join_result_of : Z -> option JoinResult :=
  find_code join_result_code
    [JoinSuccess; InvalidSession; JoinVersionMismatch; ServerFull; JoinServerError].

Inductive EntityType := CubeEntity | PlayerEntity.

Definition entity_type_code (t : EntityType) : Z :=
  match t with CubeEntity => 0 | PlayerEntity => 1 end.

Definition entity_type_of : Z -> option EntityType :=
  find_code entity_type_code [CubeEntity; PlayerEntity].

(** ** Decoding inverts encoding, for every enumeration *)

Global Instance auth_message_wire : WireEnum AuthMessage.
Proof. refine (Build_WireEnum _ auth_message_code auth_message_of _ (find_code_Some _ _)). by intros []. Defined.
Global Instance auth_result_wire : WireEnum AuthResult.
Proof. refine (Build_WireEnum _ auth_result_code auth_result_of _ (find_code_Some _ _)). by intros []. Defined.
Global Instance db_message_wire : WireEnum DbMessage.
Proof. refine (Build_WireEnum _ db_message_code db_message_of _ (find_code_Some _ _)). by intros []. Defined.
Global Instance db_result_wire : WireEnum DbResult.
Proof. refine (Build_WireEnum _ db_result_code db_result_of _ (find_code_Some _ _)). by intros []. Defined.
Global Instance world_message_wire : WireEnum WorldMessage.
Proof. refine (Build_WireEnum _ world_message_code world_message_of _ (find_code_Some _ _)). by intros []. Defined.
Global Instance time_command_wire : WireEnum TimeCommand.
Proof. refine (Build_WireEnum _ time_command_code time_command_of _ (find_code_Some _ _)). by intros []. Defined.
Global Instance join_result_wire : WireEnum JoinResult.
Proof. refine (Build_WireEnum _ join_result_code join_result_of _ (find_code_Some _ _)). by intros []. Defined.
Global Instance entity_type_wire : WireEnum EntityType.
Proof. refine (Build_WireEnum _ entity_type_code entity_type_of _ (find_code_Some _ _)). by intros []. Defined.

Global Instance db_result_eq_dec : EqDecision DbResult.
Proof. solve_decision. Defined.
Global Instance auth_message_eq_dec : EqDecision AuthMessage.
Proof. solve_decision. Defined.
Global Instance auth_result_eq_dec : EqDecision AuthResult.
Proof. solve_decision. Defined.
Global Instance world_message_eq_dec : EqDecision WorldMessage.
Proof. solve_decision. Defined.
Global Instance join_result_eq_dec : EqDecision JoinResult.
Proof. solve_decision. Defined.
Global Instance db_message_eq_dec : EqDecision DbMessage.
Proof. solve_decision. Defined.

(** ** Codes are wire integers *)

Lemma auth_result_fits r : fits 8 (auth_result_code r).
Proof. destruct r; unfold fits; cbn; lia. Qed.

Lemma join_result_fits r : fits 8 (join_result_code r).
Proof. destruct r; unfold fits; cbn; lia. Qed.

Lemma time_command_fits c : fits 8 (time_command_code c).
Proof. destruct c; unfold fits; cbn; lia. Qed.

Lemma version_fits : fits 32 kProtocolVersion.
Proof. by vm_compute. Qed.
