(* ===== verification/Snapshot.v ===== *)
(** * Snapshots and UDP headers: [common/net/src/snapshot.cpp], [snapshot.h] *)

From Stdlib Require Import ZArith Lia Strings.Byte.
From stdpp Require Import base list option.
From S2P Require Import Prelude Float32 ByteStream Protocol.
Import ByteWriter.

Open Scope Z_scope.
Open Scope reader_scope.

(** ** Data *)

Record Vec3 := mkVec3 { vx : float; vy : float; vz : float }.
Record Quat := mkQuat { qx : float; qy : float; qz : float; qw : float }.

Definition vec3_default : Vec3 := mkVec3 f32_zero f32_zero f32_zero.
Definition quat_default : Quat := mkQuat f32_zero f32_zero f32_zero f32_one.

Record EntityState := mkEntity {
  es_id : Z;
  es_type : Z;
  es_position : Vec3;
  es_rotation : Quat;
  es_velocity : Vec3;
  es_angularVelocity : Vec3;
  es_lastInputSequence : Z;
}.

Record Snapshot := mkSnapshot {
  sn_tick : Z;
  sn_serverTimeMs : Z;
  sn_timeOfDay : float;
  sn_entities : list EntityState;
}.

Definition snapshot_default : Snapshot := mkSnapshot 0 0 f32_zero [].

(** ** Encoding *)

Definition w_vec3 (v : Vec3) (out : list byte) : list byte :=
  w_f32 (vz v) (w_f32 (vy v) (w_f32 (vx v) out)).

Definition w_quat (q : Quat) (out : list byte) : list byte :=
  w_f32 (qw q) (w_f32 (qz q) (w_f32 (qy q) (w_f32 (qx q) out))).

(** The body of the loop of [encodeSnapshot]. *)
Definition encode_entity (e : EntityState) (out : list byte) : list byte :=
  let out := w_u32 (es_id e) out in
  let out := w_u8 (es_type e) out in
  let out := w_vec3 (es_position e) out in
  let out := w_quat (es_rotation e) out in
  let out := w_vec3 (es_velocity e) out in
  let out := w_vec3 (es_angularVelocity e) out in
  w_u32 (es_lastInputSequence e) out.

Fixpoint encode_entities (es : list EntityState) (out : list byte) : list byte :=
  match es with
  | [] => out
  | e :: es' => encode_entities es' (encode_entity e out)
  end.

Definition encodeSnapshot (snapshot : Snapshot) (out : list byte) : list byte :=
  let out := w_u32 (sn_tick snapshot) out in
  let out := w_u64 (sn_serverTimeMs snapshot) out in
  let out := w_f32 (sn_timeOfDay snapshot) out in
  let out := w_u16 (u16 (Z.of_nat (length (sn_entities snapshot)))) out in
  encode_entities (sn_entities snapshot) out.

(** ** Decoding *)

Definition r_vec3 : Reader Vec3 :=
  x <-- r_f32 ;; y <-- r_f32 ;; z <-- r_f32 ;; rret (mkVec3 x y z).

Definition r_quat : Reader Quat :=
  x <-- r_f32 ;; y <-- r_f32 ;; z <-- r_f32 ;; w <-- r_f32 ;; rret (mkQuat x y z w).

Definition decode_entity : Reader EntityState :=
  id <-- r_u32 ;;
  ty <-- r_u8 ;;
  position <-- r_vec3 ;;
  rotation <-- r_quat ;;
  velocity <-- r_vec3 ;;
  angular <-- r_vec3 ;;
  sequence <-- r_u32 ;;
  rret (mkEntity id ty position rotation velocity angular sequence).

(** The decoding loop: [count] iterations, left at the first truncated
    entity. The result is [out->entities] and whether the loop completed. *)
Fixpoint decode_entities (count : nat) (acc : list EntityState) (reader : ByteReader)
    : bool * list EntityState :=
  match count with
  | O => (true, acc)
  | S count' =>
      let '(entity, reader) := decode_entity reader in
      if failed reader then (false, acc)
      else decode_entities count' (acc ++ [entity]) reader
  end.

(** The return value and the final [*out]; a rejected header leaves the
    entities of [*out] as they were. *)
Definition decodeSnapshot (data : list byte) (out : Snapshot) : bool * Snapshot :=
  let reader := open_reader data in
  let '(tick, reader) := r_u32 reader in
  let '(serverTimeMs, reader) := r_u64 reader in
  let '(timeOfDay, reader) := r_f32 reader in
  let '(count, reader) := r_u16 reader in
  if (failed reader || (kMaxEntitiesPerSnapshot <? count))%bool then
    (false, mkSnapshot tick serverTimeMs timeOfDay (sn_entities out))
  else
    let '(ok, entities) := decode_entities (Z.to_nat count) [] reader in
    (ok, mkSnapshot tick serverTimeMs timeOfDay entities).

(** ** UDP headers *)

Record UdpHeader := mkUdpHeader { uh_type : Z; uh_sequence : Z }.

Definition writeUdpHeader (out : list byte) (type sequence : Z) : list byte :=
  let out := w_u32 kUdpMagic out in
  let out := w_u16 type out in
  w_u32 sequence out.

(** [None] is the return value [false]; otherwise the header and the offset
    of the body. *)
Definition readUdpHeader (data : list byte) : option (UdpHeader * nat) :=
  let reader := open_reader data in
  let '(magic, reader) := r_u32 reader in
  if negb (magic =? kUdpMagic) then None
  else
    let '(type, reader) := r_u16 reader in
    let '(sequence, reader) := r_u32 reader in
    if failed reader then None else Some (mkUdpHeader type sequence, 10%nat).

(** ** Round trip *)

Definition vec3_valid (v : Vec3) : Prop :=
  f32_valid (vx v) = true /\ f32_valid (vy v) = true /\ f32_valid (vz v) = true.
Definition quat_valid (q : Quat) : Prop :=
  f32_valid (qx q) = true /\ f32_valid (qy q) = true /\ f32_valid (qz q) = true /\
  f32_valid (qw q) = true.

(** Fields of the widths the C++ structures give them. *)
Definition entity_wf (e : EntityState) : Prop :=
  fits 32 (es_id e) /\ fits 8 (es_type e) /\ vec3_valid (es_position e) /\
  quat_valid (es_rotation e) /\ vec3_valid (es_velocity e) /\
  vec3_valid (es_angularVelocity e) /\ fits 32 (es_lastInputSequence e).

Definition snapshot_wf (s : Snapshot) : Prop :=
  fits 32 (sn_tick s) /\ fits 64 (sn_serverTimeMs s) /\ f32_valid (sn_timeOfDay s) = true /\
  Forall entity_wf (sn_entities s).

Definition e_vec3 (v : Vec3) : list byte := e_f32 (vx v) ++ e_f32 (vy v) ++ e_f32 (vz v).
Definition e_quat (q : Quat) : list byte :=
  e_f32 (qx q) ++ e_f32 (qy q) ++ e_f32 (qz q) ++ e_f32 (qw q).
Definition e_entity (e : EntityState) : list byte :=
  e_u32 (es_id e) ++ e_u8 (es_type e) ++ e_vec3 (es_position e) ++ e_quat (es_rotation e) ++
  e_vec3 (es_velocity e) ++ e_vec3 (es_angularVelocity e) ++ e_u32 (es_lastInputSequence e).

Lemma encode_entity_app e out : encode_entity e out = out ++ e_entity e.
Proof.
  unfold encode_entity, w_vec3, w_quat, e_entity, e_vec3, e_quat.
  autorewrite with writer. by rewrite <- !app_assoc.
Qed.

Lemma encode_entities_app es out : encode_entities es out = out ++ mjoin (e_entity <$> es).
Proof.
  revert out. induction es as [|e es IH]; intros out; simpl.
  - by rewrite app_nil_r.
  - by rewrite IH, encode_entity_app, <- app_assoc.
Qed.

Definition e_header (s : Snapshot) : list byte :=
  e_u32 (sn_tick s) ++ e_u64 (sn_serverTimeMs s) ++ e_f32 (sn_timeOfDay s) ++
  e_u16 (u16 (Z.of_nat (length (sn_entities s)))).

Lemma encodeSnapshot_app s out :
  encodeSnapshot s out = out ++ e_header s ++ mjoin (e_entity <$> sn_entities s).
Proof.
  unfold encodeSnapshot, e_header. rewrite encode_entities_app.
  autorewrite with writer. by rewrite <- !app_assoc.
Qed.

Lemma length_e_entity e : length (e_entity e) = 61%nat.
Proof. done. Qed.

Lemma length_e_entities es : length (mjoin (e_entity <$> es)) = (61 * length es)%nat.
Proof.
  induction es as [|e es IH]; [done|].
  change (mjoin (e_entity <$> e :: es)) with (e_entity e ++ mjoin (e_entity <$> es)).
  rewrite length_app, IH, length_e_entity. simpl. lia.
Qed.

Lemma length_encodeSnapshot s :
  length (encodeSnapshot s []) = (18 + 61 * length (sn_entities s))%nat.
Proof. rewrite encodeSnapshot_app, !length_app, length_e_entities. done. Qed.

Lemma reads_vec3 v : vec3_valid v -> reads r_vec3 (e_vec3 v) v.
Proof.
  destruct v as [x y z]. intros (Hx & Hy & Hz). unfold r_vec3, e_vec3. cbn [vx vy vz] in *.
  rewrite <- (app_nil_r (e_f32 z)). solve_reads.
Qed.

Lemma reads_quat q : quat_valid q -> reads r_quat (e_quat q) q.
Proof.
  destruct q as [x y z w]. intros (Hx & Hy & Hz & Hw). unfold r_quat, e_quat. cbn [qx qy qz qw] in *.
  rewrite <- (app_nil_r (e_f32 w)). solve_reads.
Qed.

#[local] Hint Resolve reads_vec3 reads_quat : reader.

Lemma reads_entity e : entity_wf e -> reads decode_entity (e_entity e) e.
Proof.
  destruct e as [id ty p q v w seq]. intros (H1 & H2 & H3 & H4 & H5 & H6 & H7).
  unfold decode_entity, e_entity.
  cbn [es_id es_type es_position es_rotation es_velocity es_angularVelocity
    es_lastInputSequence] in *.
  rewrite <- (app_nil_r (e_u32 seq)). solve_reads.
Qed.

Lemma decode_entities_encoded es acc pre post :
  Forall entity_wf es ->
  let data := pre ++ mjoin (e_entity <$> es) ++ post in
  decode_entities (length es) acc (mkReader data (length pre) false) = (true, acc ++ es).
Proof.
  intros Hwf. revert acc pre. induction Hwf as [|e es He Hes IH]; intros acc pre data.
  - simpl. by rewrite app_nil_r.
  - subst data. cbn [decode_entities length].
    change (mjoin (e_entity <$> e :: es)) with (e_entity e ++ mjoin (e_entity <$> es)).
    rewrite <- app_assoc, (reads_entity e He pre). cbn [failed mFailed].
    specialize (IH (acc ++ [e]) (pre ++ e_entity e)).
    rewrite length_app, <- !app_assoc in IH. exact IH.
Qed.

(** The header fields as one reader, and [decodeSnapshot] in terms of it. *)
Definition r_header : Reader (Z * Z * float * Z) :=
  tick <-- r_u32 ;; ms <-- r_u64 ;; tod <-- r_f32 ;; count <-- r_u16 ;;
  rret (tick, ms, tod, count).

Lemma decodeSnapshot_header data out :
  decodeSnapshot data out =
  let '((tick, ms, tod, count), reader) := r_header (open_reader data) in
  if (failed reader || (kMaxEntitiesPerSnapshot <? count))%bool then
    (false, mkSnapshot tick ms tod (sn_entities out))
  else
    let '(ok, entities) := decode_entities (Z.to_nat count) [] reader in
    (ok, mkSnapshot tick ms tod entities).
Proof.
  unfold decodeSnapshot, r_header, rbind, rret.
  destruct (r_u32 _) as [? r1]. destruct (r_u64 r1) as [? r2].
  destruct (r_f32 r2) as [? r3]. by destruct (r_u16 r3) as [? r4].
Qed.

Lemma reads_header s :
  snapshot_wf s ->
  reads r_header (e_header s)
    (sn_tick s, sn_serverTimeMs s, sn_timeOfDay s, u16 (Z.of_nat (length (sn_entities s)))).
Proof.
  intros (H1 & H2 & H3 & _). unfold r_header, e_header.
  set (count := u16 (Z.of_nat (length (sn_entities s)))).
  assert (Hc : fits 16 count) by (apply wrap_fits; lia).
  rewrite <- (app_nil_r (e_u16 count)). solve_reads.
Qed.

(** The four header fields read back, whatever follows them. *)
Lemma decode_header s post out :
  snapshot_wf s ->
  let count := u16 (Z.of_nat (length (sn_entities s))) in
  let data := e_header s ++ post in
  decodeSnapshot data out =
  if kMaxEntitiesPerSnapshot <? count then
    (false, mkSnapshot (sn_tick s) (sn_serverTimeMs s) (sn_timeOfDay s) (sn_entities out))
  else
    let '(ok, entities) := decode_entities (Z.to_nat count) [] (mkReader data 18 false) in
    (ok, mkSnapshot (sn_tick s) (sn_serverTimeMs s) (sn_timeOfDay s) entities).
Proof.
  intros Hwf count data. subst data. rewrite decodeSnapshot_header.
  by rewrite (reads_open _ _ post _ (reads_header s Hwf)).
Qed.

Lemma encode_count_small s :
  Z.of_nat (length (sn_entities s)) <= kMaxEntitiesPerSnapshot ->
  u16 (Z.of_nat (length (sn_entities s))) = Z.of_nat (length (sn_entities s)).
Proof. intros H. apply wrap_id. unfold fits, kMaxEntitiesPerSnapshot in *. lia. Qed.

Lemma decode_encoded s out post :
  snapshot_wf s -> Z.of_nat (length (sn_entities s)) <= kMaxEntitiesPerSnapshot ->
  decodeSnapshot (encodeSnapshot s [] ++ post) out = (true, s).
Proof.
  intros Hwf Hcount.
  rewrite encodeSnapshot_app, app_nil_l, <- app_assoc, decode_header by done.
  rewrite encode_count_small by done.
  destruct (_ <? _) eqn:E; bool_to_prop; [lia|]. rewrite Nat2Z.id.
  destruct Hwf as (_ & _ & _ & Hes).
  change 18%nat with (length (e_header s)).
  rewrite (decode_entities_encoded _ [] (e_header s) post Hes). by destruct s.
Qed.

(** C27: A snapshot of at most 512 entities decodes to itself, whatever bytes
    follow it and whatever the destination held. *)
Theorem snapshot_roundtrip (s out : Snapshot) (post : list byte)
    (Hwf : snapshot_wf s)
    (Hcount : Z.of_nat (length (sn_entities s)) <= kMaxEntitiesPerSnapshot) :
  decodeSnapshot (encodeSnapshot s [] ++ post) out = (true, s).
Proof. by apply decode_encoded. Qed.

(** A snapshot of the cube and one player. *)
Definition example_snapshot : Snapshot :=
  mkSnapshot 7 123456789 (lit32 3 10)
    [mkEntity 1 0 (mkVec3 (lit32 1 3) f32_one f32_zero) quat_default vec3_default
       (mkVec3 f32_zero (lit32 6 10) f32_zero) 0;
     mkEntity 1000 1 (mkVec3 (f32_of_Z 3) (lit32 105 100) (f32_of_Z 6)) quat_default
       (mkVec3 f32_zero (f32_of_Z (-2)) f32_zero) vec3_default 41].

Lemma example_snapshot_wf : snapshot_wf example_snapshot.
Proof.
  unfold snapshot_wf, example_snapshot, entity_wf, vec3_valid, quat_valid, fits.
  repeat constructor; simpl; try lia; reflexivity.
Defined.

Lemma snapshot_roundtrip_witness :
  decodeSnapshot (encodeSnapshot example_snapshot [] ++ [x00; xff]) snapshot_default =
  (true, example_snapshot).
Proof.
  apply (snapshot_roundtrip example_snapshot snapshot_default [x00; xff]).
  - exact example_snapshot_wf.
  - vm_compute. discriminate.
Defined.

(** ** Rejection *)

Lemma consumes_vec3 : consumes 12 r_vec3.
Proof. unfold r_vec3. change 12%nat with (4 + (4 + (4 + 0)))%nat. solve_consumes. Qed.

Lemma consumes_quat : consumes 16 r_quat.
Proof. unfold r_quat. change 16%nat with (4 + (4 + (4 + (4 + 0))))%nat. solve_consumes. Qed.

Lemma consumes_entity : consumes 61 decode_entity.
Proof.
  unfold decode_entity.
  change 61%nat with (4 + (1 + (12 + (16 + (12 + (12 + (4 + 0)))))))%nat.
  repeat first [apply consumes_vec3 | apply consumes_quat | apply consumes_take
    | apply consumes_ret | eapply consumes_bind; [|intros ?]].
Qed.

Lemma consumes_header : consumes 18 r_header.
Proof. unfold r_header. change 18%nat with (4 + (8 + (4 + (2 + 0))))%nat. solve_consumes. Qed.

(** When the loop completes, it has read 61 bytes per entity. *)
Lemma decode_entities_true n acc r es :
  decode_entities n acc r = (true, es) -> failed r = false -> reader_ok r ->
  length es = (length acc + n)%nat /\ (mOffset r + 61 * n <= length (mData r))%nat.
Proof.
  revert acc r. induction n as [|n IH]; intros acc r; cbn [decode_entities].
  - intros [= ->] _ Hok. unfold reader_ok in Hok. lia.
  - pose proof (consumes_entity r) as Hc.
    destruct (decode_entity r) as [e r']. cbn [snd] in Hc. unfold failed in *.
    destruct (mFailed r') eqn:Ef; [done|].
    destruct (Hc eq_refl) as (_ & Hd & Ho & Hok'). intros Hdec _ Hok.
    destruct (IH _ _ Hdec Ef (Hok' Hok)) as [Hl Hb].
    rewrite length_app in Hl. simpl in Hl. rewrite Hd, Ho in Hb. lia.
Qed.

Lemma decodeSnapshot_true_bounds data out s :
  decodeSnapshot data out = (true, s) ->
  Z.of_nat (length (sn_entities s)) <= kMaxEntitiesPerSnapshot /\
  (18 + 61 * length (sn_entities s) <= length data)%nat.
Proof.
  intros Hdec. rewrite decodeSnapshot_header in Hdec.
  pose proof (consumes_header (open_reader data)) as Hc.
  destruct (r_header _) as [[[[tick ms] tod] count] r]. cbn [snd] in Hc.
  unfold failed in Hdec. destruct (mFailed r) eqn:Ef; [done|]. cbn [orb] in Hdec.
  destruct (Hc eq_refl) as (_ & Hd & Ho & Hok). simpl in Hd, Ho.
  destruct (_ <? count) eqn:E; [done|]. bool_to_prop.
  destruct (decode_entities _ [] r) as [ok es] eqn:Hes.
  injection Hdec as -> <-. cbn [sn_entities].
  apply decode_entities_true in Hes; [|done|apply Hok; unfold reader_ok; simpl; lia].
  simpl in Hes. rewrite Hd, Ho in Hes. unfold kMaxEntitiesPerSnapshot in *.
  split; [destruct Hes as [-> _]|]; lia.
Qed.

Lemma total_entity : total_reader 61 decode_entity.
Proof.
  unfold decode_entity, r_vec3, r_quat.
  change 61%nat with (4 + (1 + ((4 + (4 + (4 + 0))) + ((4 + (4 + (4 + (4 + 0)))) +
    ((4 + (4 + (4 + 0))) + ((4 + (4 + (4 + 0))) + (4 + 0)))))))%nat.
  solve_total.
Qed.

Lemma decode_entities_enough n acc data off :
  (off + 61 * n <= length data)%nat ->
  exists es, decode_entities n acc (mkReader data off false) = (true, es) /\
             length es = (length acc + n)%nat.
Proof.
  revert acc off. induction n as [|n IH]; intros acc off Hl; cbn [decode_entities].
  - exists acc. split; [done|lia].
  - destruct (total_entity data off) as [e ->]; [lia|]. cbn [failed mFailed].
    destruct (IH (acc ++ [e]) (off + 61)%nat) as (es & Hes & Hlen); [lia|].
    exists es. rewrite length_app in Hlen. simpl in Hlen. split; [done|lia].
Qed.

(** The entity count a buffer announces: its bytes 16 and 17. *)
Definition announced (data : list byte) : Z := le_value (take 2 (drop 16 data)).

Lemma announced_nonneg data : 0 <= announced data.
Proof. apply le_value_range. Qed.

Lemma header_enough data :
  (18 <= length data)%nat ->
  exists tick ms tod,
    r_header (open_reader data) = ((tick, ms, tod, announced data), mkReader data 18 false).
Proof.
  intros Hl. unfold r_header, open_reader, rbind, rret.
  destruct (total_take 4 data 0%nat) as [v1 H1]; [lia|]. unfold r_u32 at 1. rewrite H1.
  cbn [Nat.add].
  destruct (total_take 8 data 4%nat) as [v2 H2]; [lia|]. unfold r_u64. rewrite H2.
  cbn [Nat.add].
  destruct (total_f32 data 12%nat) as [v3 H3]; [lia|]. rewrite H3.
  cbn [Nat.add].
  unfold r_u16. rewrite (take_enough 2 data 16) by lia. by eauto.
Qed.

Lemma header_short data :
  (length data < 18)%nat -> failed (r_header (open_reader data)).2 = true.
Proof.
  intros Hl. destruct (failed _) eqn:E; [done|exfalso].
  destruct (consumes_header _ E) as (_ & Hd & Ho & Hok).
  unfold reader_ok in Hok. rewrite Hd, Ho in Hok. simpl in Hok. lia.
Qed.

(** The buffers decoding accepts are exactly those that hold the header
    and all of the at most 512 entities it announces. *)
Theorem decodeSnapshot_accepts_iff (data : list byte) (out : Snapshot) :
  (decodeSnapshot data out).1 = true <->
  (18 <= length data)%nat /\ announced data <= kMaxEntitiesPerSnapshot /\
  18 + 61 * announced data <= Z.of_nat (length data).
Proof.
  rewrite decodeSnapshot_header. pose proof (announced_nonneg data) as Hpos.
  destruct (decide (18 <= length data)%nat) as [Hl|Hl].
  - destruct (header_enough data Hl) as (tick & ms & tod & ->). cbn [failed mFailed orb].
    destruct (_ <? announced data) eqn:E; bool_to_prop; [split; [done|lia]|].
    destruct (decide (18 + 61 * announced data <= Z.of_nat (length data))) as [Hb|Hb].
    + destruct (decode_entities_enough (Z.to_nat (announced data)) [] data 18)
        as (es & -> & _); [lia|]. done.
    + destruct (decode_entities _ _ _) as [[] es] eqn:Hes; [|by split; [|lia]].
      apply decode_entities_true in Hes; [|done|done].
      simpl in Hes. lia.
  - pose proof (header_short data ltac:(lia)) as Hf.
    destruct (r_header _) as [[[[tick ms] tod] count] r]. cbn [snd] in Hf. rewrite Hf.
    cbn [orb fst]. split; [done|lia].
Qed.

Lemma take_header_app n s post :
  (18 <= n)%nat -> take n (e_header s ++ post) = e_header s ++ take (n - 18) post.
Proof. intros Hn. by rewrite take_app_ge. Qed.

(** Every proper prefix of an encoded snapshot is rejected: a truncated
    snapshot is never acted on. *)
Theorem truncated_snapshot_rejected (s out : Snapshot) (n : nat)
    (Hwf : snapshot_wf s)
    (Hcount : Z.of_nat (length (sn_entities s)) <= kMaxEntitiesPerSnapshot)
    (Hn : (n < length (encodeSnapshot s []))%nat) :
  (decodeSnapshot (take n (encodeSnapshot s [])) out).1 = false.
Proof.
  destruct (decodeSnapshot _ out) as [[] s'] eqn:Hdec; [exfalso|done].
  pose proof (decodeSnapshot_true_bounds _ _ _ Hdec) as [_ Hl].
  rewrite length_take, length_encodeSnapshot in *.
  rewrite encodeSnapshot_app, app_nil_l, take_header_app in Hdec by lia.
  rewrite decode_header, encode_count_small, Nat2Z.id in Hdec by done.
  destruct (_ <? _) eqn:E; bool_to_prop; [lia|].
  destruct (decode_entities _ [] _) as [ok es] eqn:Hes. injection Hdec as -> <-.
  apply decode_entities_true in Hes; [|done|].
  - simpl in Hes, Hl. lia.
  - unfold reader_ok. cbn [mOffset mData]. rewrite length_app.
    change (length (e_header s)) with 18%nat. lia.
Qed.

Lemma truncated_snapshot_rejected_witness :
  (decodeSnapshot (take 100 (encodeSnapshot example_snapshot [])) snapshot_default).1 = false.
Proof.
  apply (truncated_snapshot_rejected example_snapshot snapshot_default 100).
  - exact example_snapshot_wf.
  - vm_compute. discriminate.
  - vm_compute. lia.
Defined.

(** An encoder given more than 512 (but fewer than 2^16) entities produces a
    datagram every receiver rejects: the bound is checked on one side only. *)
Lemma oversized_snapshot_rejected s out post :
  snapshot_wf s ->
  kMaxEntitiesPerSnapshot < Z.of_nat (length (sn_entities s)) < 2 ^ 16 ->
  (decodeSnapshot (encodeSnapshot s [] ++ post) out).1 = false.
Proof.
  intros Hwf Hc. rewrite encodeSnapshot_app, app_nil_l, <- app_assoc, decode_header by done.
  rewrite wrap_id by (unfold fits, kMaxEntitiesPerSnapshot in *; lia).
  destruct (_ <? _) eqn:E; bool_to_prop; [done|lia].
Qed.

(** ** UDP headers *)

Definition udp_header_wf (h : UdpHeader) : Prop := fits 16 (uh_type h) /\ fits 32 (uh_sequence h).

Definition r_udp_header : Reader (Z * UdpHeader) :=
  magic <-- r_u32 ;; type <-- r_u16 ;; sequence <-- r_u32 ;;
  rret (magic, mkUdpHeader type sequence).

Lemma writeUdpHeader_app out type sequence :
  writeUdpHeader out type sequence = out ++ e_u32 kUdpMagic ++ e_u16 type ++ e_u32 sequence.
Proof. unfold writeUdpHeader. autorewrite with writer. by rewrite <- !app_assoc. Qed.

Lemma readUdpHeader_reader data :
  readUdpHeader data =
  let '((magic, h), r) := r_udp_header (open_reader data) in
  if negb (magic =? kUdpMagic) then None
  else if failed r then None else Some (h, 10%nat).
Proof.
  unfold readUdpHeader, r_udp_header, rbind, rret.
  destruct (r_u32 _) as [? r1]. destruct (r_u16 r1) as [? r2]. by destruct (r_u32 r2) as [? r3].
Qed.

Lemma reads_udp_header h :
  udp_header_wf h ->
  reads r_udp_header (e_u32 kUdpMagic ++ e_u16 (uh_type h) ++ e_u32 (uh_sequence h))
    (kUdpMagic, h).
Proof.
  destruct h as [ty seq]. intros [H1 H2]. unfold r_udp_header. cbn [uh_type uh_sequence] in *.
  assert (H0 : fits 32 kUdpMagic) by (unfold fits, kUdpMagic; lia).
  rewrite <- (app_nil_r (e_u32 seq)). solve_reads.
Qed.

Lemma readUdpHeader_write h body :
  udp_header_wf h ->
  readUdpHeader (writeUdpHeader [] (uh_type h) (uh_sequence h) ++ body) = Some (h, 10%nat).
Proof.
  intros Hwf. rewrite readUdpHeader_reader, writeUdpHeader_app, app_nil_l.
  by rewrite (reads_open _ _ body _ (reads_udp_header h Hwf)).
Qed.

Lemma consumes_udp_header : consumes 10 r_udp_header.
Proof. unfold r_udp_header. change 10%nat with (4 + (2 + (4 + 0)))%nat. solve_consumes. Qed.

Lemma udp_header_enough data :
  (10 <= length data)%nat ->
  r_udp_header (open_reader data) =
  ((le_value (take 4 data),
    mkUdpHeader (le_value (take 2 (drop 4 data))) (le_value (take 4 (drop 6 data)))),
   mkReader data 10 false).
Proof.
  intros Hl. unfold r_udp_header, open_reader, rbind, rret, r_u32, r_u16.
  rewrite (take_enough 4 data 0), drop_0 by lia. cbn [Nat.add].
  rewrite (take_enough 2 data 4) by lia. cbn [Nat.add].
  by rewrite (take_enough 4 data 6) by lia.
Qed.

Lemma le_bytes_take n m (data : list byte) :
  (m + n <= length data)%nat -> le_bytes n (le_value (take n (drop m data))) = take n (drop m data).
Proof.
  intros Hl. rewrite <- (le_bytes_value (take n (drop m data))) at 2.
  by rewrite length_take, length_drop, Nat.min_l by lia.
Qed.

(** A datagram has a readable header exactly when it starts with the
    magic number and the type and sequence that are reported, and the body
    starts at offset 10. *)
Theorem readUdpHeader_iff (data : list byte) (h : UdpHeader) (bodyOffset : nat) :
  readUdpHeader data = Some (h, bodyOffset) <->
  bodyOffset = 10%nat /\ udp_header_wf h /\
  exists body, data = writeUdpHeader [] (uh_type h) (uh_sequence h) ++ body.
Proof.
  split.
  - rewrite readUdpHeader_reader. intros Hr.
    destruct (decide (10 <= length data)%nat) as [Hl|Hl].
    + rewrite (udp_header_enough data Hl) in Hr. cbn [failed mFailed] in Hr.
      destruct (le_value (take 4 data) =? kUdpMagic) eqn:Em; [|done].
      injection Hr as <- <-. bool_to_prop. cbn [uh_type uh_sequence].
      split; [done|]. split.
      { split; cbn [uh_type uh_sequence]; unfold fits.
        all: pose proof (le_value_range (take 2 (drop 4 data)));
             pose proof (le_value_range (take 4 (drop 6 data)));
             rewrite !length_take, !length_drop, !Nat.min_l in * by lia; lia. }
      exists (drop 10 data). rewrite writeUdpHeader_app, app_nil_l, <- Em.
      unfold e_u32, e_u16.
      pose proof (le_bytes_take 4 0 data ltac:(lia)) as H0. rewrite drop_0 in H0.
      rewrite H0, (le_bytes_take 2 4 data), (le_bytes_take 4 6 data) by lia.
      rewrite <- !app_assoc.
      rewrite (take_drop_split data 4 6 : take 4 (drop 6 data) ++ drop 10 data = _).
      rewrite (take_drop_split data 2 4 : take 2 (drop 4 data) ++ drop 6 data = _).
      by rewrite take_drop.
    + pose proof (consumes_udp_header (open_reader data)) as Hc.
      destruct (r_udp_header _) as [[magic h'] r]. cbn [snd] in Hc.
      destruct (negb _); [done|]. unfold failed in Hr.
      destruct (mFailed r) eqn:Ef; [done|].
      destruct (Hc eq_refl) as (_ & Hd & Ho & Hok). unfold reader_ok in Hok.
      rewrite Hd, Ho in Hok. simpl in Hok. lia.
  - intros (-> & Hwf & body & ->). by apply readUdpHeader_write.
Qed.
