(* ===== verification/Framing.v ===== *)
(** * Sockets and message framing

    [common/net/src/socket.cpp] (the non-blocking receive and send of
    [TcpSocket]) and [common/net/src/framing.cpp] ([MessageStream]).

    The kernel is a parameter: the answers of its successive [recv] and
    [send] calls on a socket are the lists [sk_rx] and [sk_tx], arbitrary in
    the theorems; an exhausted list answers "would block". [sk_wire] records
    the bytes the kernel has accepted. *)

From Stdlib Require Import ZArith Lia Strings.Byte.
From stdpp Require Import base list option.
From S2P Require Import Prelude ByteStream.
Import ByteWriter.

Open Scope Z_scope.

(** ** TcpSocket *)

(** What [::recv] returned: the bytes (none for an orderly shutdown), or an
    error that is or is not "would block". *)
Inductive RecvResult := RecvBytes (bs : list byte) | RecvError (would_block : bool).
Inductive SendResult := SendCount (n : nat) | SendError (would_block : bool).

(** [TcpSocket::receive]: the returned flag and the [*bytes] bytes read. *)
Definition receive (received : RecvResult) : bool * list byte :=
  match received with
  | RecvBytes [] => (false, [])
  | RecvBytes bs => (true, bs)
  | RecvError would_block => (would_block, [])
  end.

(** [TcpSocket::send] of [size] bytes: the returned flag and [*bytes]. The
    kernel accepts at most what it is offered. *)
Definition send_bytes (size : nat) (sent : SendResult) : bool * nat :=
  match sent with
  | SendCount n => (true, Nat.min n size)
  | SendError would_block => (would_block, 0%nat)
  end.

Record Socket := mkSocket {
  sk_rx : list RecvResult;
  sk_tx : list SendResult;
  sk_wire : list byte;
}.

(** ** MessageStream *)

Definition kHeaderSize : nat := 6.
Definition kMaxPayloadSize : Z := 2 ^ 20.

Record Message := mkMessage { msg_type : Z; msg_payload : list byte }.

Record MessageStream := mkStream {
  ms_socket : Socket;
  ms_readBuffer : list byte;
  ms_writeBuffer : list byte;
  ms_writeOffset : nat;
}.

Definition new_stream (s : Socket) : MessageStream := mkStream s [] [] 0.

Definition data_at (data : list byte) (i : nat) : Z := Z_of_byte (nth i data x00).

Definition readU32 (data : list byte) : Z :=
  Z.lor (Z.lor (Z.lor (data_at data 0) (Z.shiftl (data_at data 1) 8))
    (Z.shiftl (data_at data 2) 16)) (Z.shiftl (data_at data 3) 24).

Definition readU16 (data : list byte) : Z :=
  u16 (Z.lor (data_at data 0) (Z.shiftl (data_at data 1) 8)).

(** [MessageStream::pump]: one iteration per answer of the kernel. *)
Fixpoint pump_loop (rx : list RecvResult) (buffer : list byte)
    : bool * list byte * list RecvResult :=
  match rx with
  | [] => (true, buffer, [])
  | r :: rx' =>
      let '(ok, chunk) := receive r in
      if negb ok then (false, buffer, rx')
      else match chunk with
      | [] => (true, buffer, rx')
      | _ =>
          let buffer := buffer ++ chunk in
          if ((kHeaderSize <=? length buffer)%nat && (kMaxPayloadSize <? readU32 buffer))%bool
          then (false, buffer, rx')
          else pump_loop rx' buffer
      end
  end.

Definition pump (s : MessageStream) : bool * MessageStream :=
  let '(ok, buffer, rx) := pump_loop (sk_rx (ms_socket s)) (ms_readBuffer s) in
  (ok, mkStream (mkSocket rx (sk_tx (ms_socket s)) (sk_wire (ms_socket s)))
         buffer (ms_writeBuffer s) (ms_writeOffset s)).

(** [MessageStream::next] on the read buffer; [None] is [false]. *)
Definition next_message (buffer : list byte) : option (Message * list byte) :=
  if (length buffer <? kHeaderSize)%nat then None
  else
    let payloadSize := readU32 buffer in
    if kMaxPayloadSize <? payloadSize then None
    else
      let total := (kHeaderSize + Z.to_nat payloadSize)%nat in
      if (length buffer <? total)%nat then None
      else
        Some (mkMessage (readU16 (drop 4 buffer))
                (take (Z.to_nat payloadSize) (drop kHeaderSize buffer)),
              drop total buffer).

Definition next (s : MessageStream) : option (Message * MessageStream) :=
  match next_message (ms_readBuffer s) with
  | None => None
  | Some (m, buffer) =>
      Some (m, mkStream (ms_socket s) buffer (ms_writeBuffer s) (ms_writeOffset s))
  end.

(** [MessageStream::flush]: one iteration per answer of the kernel. The
    result is the returned flag, the offset reached, whether the loop ran to
    the end of the buffer, the answers left and the bytes accepted. *)
Fixpoint flush_loop (tx : list SendResult) (buffer : list byte) (offset : nat)
    (wire : list byte) : bool * nat * bool * list SendResult * list byte :=
  if (offset <? length buffer)%nat then
    match tx with
    | [] => (true, offset, false, [], wire)
    | r :: tx' =>
        let '(ok, sent) := send_bytes (length buffer - offset) r in
        if negb ok then (false, offset, false, tx', wire)
        else if (sent =? 0)%nat then (true, offset, false, tx', wire)
        else flush_loop tx' buffer (offset + sent) (wire ++ take sent (drop offset buffer))
    end
  else (true, offset, true, tx, wire).

Definition flush (s : MessageStream) : bool * MessageStream :=
  let '(ok, offset, complete, tx, wire) :=
    flush_loop (sk_tx (ms_socket s)) (ms_writeBuffer s) (ms_writeOffset s)
      (sk_wire (ms_socket s)) in
  let socket := mkSocket (sk_rx (ms_socket s)) tx wire in
  if complete then (ok, mkStream socket (ms_readBuffer s) [] 0)
  else (ok, mkStream socket (ms_readBuffer s) (ms_writeBuffer s) offset).

(** [MessageStream::send]. *)
Definition send (s : MessageStream) (type : Z) (payload : list byte) : MessageStream :=
  let buffer := w_u32 (u32 (Z.of_nat (length payload))) (ms_writeBuffer s) in
  let buffer := w_u16 type buffer in
  let buffer := if decide (payload = []) then buffer else raw payload buffer in
  (flush (mkStream (ms_socket s) (ms_readBuffer s) buffer (ms_writeOffset s))).2.

Definition hasPendingWrites (s : MessageStream) : bool :=
  (ms_writeOffset s <? length (ms_writeBuffer s))%nat.

(** The receive loop of every user of the stream,
    [while (stream.next(&message)) ...]: all complete messages and the rest.
    Each message takes at least six bytes, so the length is enough fuel. *)
Fixpoint drain_fuel (fuel : nat) (buffer : list byte) : list Message * list byte :=
  match fuel with
  | O => ([], buffer)
  | S fuel' =>
      match next_message buffer with
      | None => ([], buffer)
      | Some (m, rest) =>
          let '(ms, rest') := drain_fuel fuel' rest in (m :: ms, rest')
      end
  end.

Definition drain (buffer : list byte) : list Message * list byte :=
  drain_fuel (length buffer) buffer.

(** ** Headers *)

Lemma data_at_app a b i : (i < length a)%nat -> data_at (a ++ b) i = data_at a i.
Proof. intros Hi. unfold data_at. by rewrite app_nth1. Qed.

Lemma data_at_cons b bs : data_at (b :: bs) 0 = Z_of_byte b.
Proof. done. Qed.

Lemma readU32_value data : (4 <= length data)%nat -> readU32 data = le_value (take 4 data).
Proof.
  destruct data as [|a [|b [|c [|d data]]]]; simpl; try lia. intros _.
  unfold readU32, data_at. cbn [nth]. rewrite !le_value_cons_lor.
  change (le_value []) with 0. rewrite Z.shiftl_0_l, Z.lor_0_r.
  rewrite !Z.shiftl_lor, !Z.shiftl_shiftl by lia. cbn [Z.add Pos.add Pos.succ Pos.add_carry].
  by rewrite !Z.lor_assoc.
Qed.

Lemma readU16_value data : (2 <= length data)%nat -> readU16 data = le_value (take 2 data).
Proof.
  destruct data as [|a [|b data]]; simpl; try lia. intros _.
  unfold readU16, data_at. cbn [nth].
  pose proof (le_value_range [a; b]) as Hr. rewrite !le_value_cons_lor in Hr |- *.
  change (le_value []) with 0 in *. rewrite Z.shiftl_0_l, Z.lor_0_r in *.
  apply wrap_id. exact Hr.
Qed.

Lemma readU32_nonneg data : 0 <= readU32 data.
Proof.
  unfold readU32, data_at. rewrite !Z.lor_nonneg, !Z.shiftl_nonneg.
  pose proof Z_of_byte_range as Hb. split_and!; apply Hb.
Qed.

(** ** One frame *)

Definition frame (m : Message) : list byte :=
  e_u32 (Z.of_nat (length (msg_payload m))) ++ e_u16 (msg_type m) ++ msg_payload m.

Definition message_wf (m : Message) : Prop :=
  fits 16 (msg_type m) /\ Z.of_nat (length (msg_payload m)) <= kMaxPayloadSize.

Lemma length_frame m : length (frame m) = (kHeaderSize + length (msg_payload m))%nat.
Proof. unfold frame. rewrite !length_app. done. Qed.

Lemma next_message_frame m rest :
  message_wf m -> next_message (frame m ++ rest) = Some (m, rest).
Proof.
  destruct m as [ty pl]. intros [Hty Hlen]. unfold message_wf, kMaxPayloadSize in *.
  cbn [msg_type msg_payload] in *. unfold next_message.
  assert (Hl : length (frame (mkMessage ty pl) ++ rest) =
               (kHeaderSize + length pl + length rest)%nat).
  { by rewrite length_app, length_frame. }
  assert (H32 : readU32 (frame (mkMessage ty pl) ++ rest) = Z.of_nat (length pl)).
  { rewrite readU32_value by (rewrite Hl; unfold kHeaderSize; lia).
    unfold frame. rewrite <- !app_assoc, take_app_length' by done.
    unfold e_u32. rewrite le_value_bytes. apply Z.mod_small. simpl. lia. }
  rewrite H32, Nat2Z.id, Hl.
  rewrite (proj2 (Nat.ltb_ge _ kHeaderSize)) by lia.
  rewrite (proj2 (Z.ltb_ge kMaxPayloadSize _)) by (unfold kMaxPayloadSize; lia).
  rewrite (proj2 (Nat.ltb_ge _ (kHeaderSize + length pl))) by lia.
  do 2 f_equal.
  - f_equal.
    + unfold frame. rewrite <- !app_assoc, drop_app_length' by done.
      rewrite readU16_value by (rewrite !length_app; unfold e_u16; rewrite length_le_bytes; lia).
      rewrite take_app_length' by done. unfold e_u16. rewrite le_value_bytes.
      by apply Z.mod_small.
    + unfold frame. cbn [msg_type msg_payload].
      rewrite (app_assoc (e_u32 _)), <- app_assoc, drop_app_length' by done.
      by apply take_app_length'.
  - apply drop_app_length'. by rewrite length_frame.
Qed.

Lemma next_message_inv buffer m rest :
  next_message buffer = Some (m, rest) -> buffer = frame m ++ rest /\ message_wf m.
Proof.
  unfold next_message. pose proof (readU32_nonneg buffer) as Hpos.
  destruct (Nat.ltb_spec (length buffer) kHeaderSize) as [|H6]; [done|].
  destruct (Z.ltb_spec kMaxPayloadSize (readU32 buffer)) as [|Hmax]; [done|].
  destruct (Nat.ltb_spec (length buffer) (kHeaderSize + Z.to_nat (readU32 buffer))) as [|Hall];
    [done|].
  set (n := Z.to_nat (readU32 buffer)) in *. unfold kHeaderSize in *. intros [= <- <-].
  assert (Hpl : length (take n (drop 6 buffer)) = n).
  { rewrite length_take, length_drop. lia. }
  split.
  - unfold frame. cbn [msg_type msg_payload]. rewrite Hpl.
    replace (Z.of_nat n) with (readU32 buffer) by (unfold n; lia).
    rewrite readU32_value, readU16_value by (rewrite ?length_drop; lia).
    unfold e_u32, e_u16.
    assert (H4 : le_bytes 4 (le_value (take 4 buffer)) = take 4 buffer).
    { rewrite <- (le_bytes_value (take 4 buffer)) at 2. rewrite length_take. f_equal. lia. }
    assert (H2 : le_bytes 2 (le_value (take 2 (drop 4 buffer))) = take 2 (drop 4 buffer)).
    { rewrite <- (le_bytes_value (take 2 (drop 4 buffer))) at 2.
      rewrite length_take, length_drop. f_equal. lia. }
    rewrite H4, H2, <- !app_assoc.
    change (S (S (S (S (S (S n)))))) with (6 + n)%nat.
    rewrite (take_drop_split buffer n 6).
    rewrite (take_drop_split buffer 2 4 : take 2 (drop 4 buffer) ++ drop 6 buffer = _).
    by rewrite take_drop.
  - unfold message_wf. cbn [msg_type msg_payload]. rewrite Hpl. split; [|unfold n; lia].
    apply wrap_fits. lia.
Qed.

(** [next] returns a message exactly when the buffer starts with its frame. *)
Lemma next_message_iff buffer m rest :
  next_message buffer = Some (m, rest) <-> buffer = frame m ++ rest /\ message_wf m.
Proof.
  split; [apply next_message_inv|]. intros [-> Hwf]. by apply next_message_frame.
Qed.

(** ** All complete messages *)

Definition frames (ms : list Message) : list byte := mjoin (frame <$> ms).

Lemma frames_cons m ms : frames (m :: ms) = frame m ++ frames ms.
Proof. done. Qed.

Lemma frames_app ms1 ms2 : frames (ms1 ++ ms2) = frames ms1 ++ frames ms2.
Proof. unfold frames. by rewrite fmap_app, join_app. Qed.

Lemma drain_fuel_spec fuel buffer :
  (length buffer <= fuel)%nat ->
  let '(ms, rest) := drain_fuel fuel buffer in
  buffer = frames ms ++ rest /\ Forall message_wf ms /\ next_message rest = None.
Proof.
  revert buffer. induction fuel as [|fuel IH]; intros buffer Hl; cbn [drain_fuel].
  - destruct buffer; [done|simpl in Hl; lia].
  - destruct (next_message buffer) as [[m rest]|] eqn:E; [|done].
    apply next_message_inv in E as [-> Hwf].
    rewrite length_app, length_frame in Hl. unfold kHeaderSize in Hl.
    specialize (IH rest ltac:(lia)). destruct (drain_fuel fuel rest) as [ms rest'].
    destruct IH as (-> & Hms & Hn). rewrite frames_cons, <- app_assoc. auto.
Qed.

Lemma drain_spec buffer ms rest :
  drain buffer = (ms, rest) ->
  buffer = frames ms ++ rest /\ Forall message_wf ms /\ next_message rest = None.
Proof.
  intros E. pose proof (drain_fuel_spec (length buffer) buffer ltac:(lia)) as H.
  unfold drain in E. by rewrite E in H.
Qed.

Lemma drain_fuel_frames fuel ms rest :
  Forall message_wf ms -> next_message rest = None ->
  (length (frames ms ++ rest) <= fuel)%nat ->
  drain_fuel fuel (frames ms ++ rest) = (ms, rest).
Proof.
  intros Hwf Hn. revert ms Hwf. induction fuel as [|fuel IH]; intros ms Hwf Hl.
  - destruct Hwf as [|m ms Hm Hms].
    + destruct rest; [done|simpl in Hl; lia].
    + rewrite frames_cons, !length_app, length_frame in Hl. unfold kHeaderSize in Hl. lia.
  - cbn [drain_fuel]. destruct Hwf as [|m ms Hm Hms].
    + change (frames [] ++ rest) with rest. by rewrite Hn.
    + rewrite frames_cons, <- app_assoc in Hl |- *. rewrite next_message_frame by done.
      rewrite length_app, length_frame in Hl. unfold kHeaderSize in Hl.
      by rewrite IH by (done || lia).
Qed.

Lemma drain_frames ms rest :
  Forall message_wf ms -> next_message rest = None -> drain (frames ms ++ rest) = (ms, rest).
Proof. intros. by apply drain_fuel_frames. Qed.

Lemma next_message_nil : next_message [] = None.
Proof. done. Qed.

(** Draining in two goes is draining once. *)
Lemma drain_app a b :
  drain (a ++ b) =
  let '(ms, r) := drain a in let '(ms', r') := drain (r ++ b) in (ms ++ ms', r').
Proof.
  destruct (drain a) as [ms r] eqn:Ea. destruct (drain (r ++ b)) as [ms' r'] eqn:Eb.
  apply drain_spec in Ea as (-> & Hms & _). apply drain_spec in Eb as (Hb & Hms' & Hn).
  rewrite <- app_assoc, Hb, app_assoc, <- frames_app.
  apply drain_frames; [by apply Forall_app|done].
Qed.

Lemma drain_step buffer :
  drain buffer =
  match next_message buffer with
  | None => ([], buffer)
  | Some (m, rest) => let '(ms, r) := drain rest in (m :: ms, r)
  end.
Proof.
  destruct (next_message buffer) as [[m rest]|] eqn:E.
  - destruct (drain rest) as [ms r] eqn:Ed. apply next_message_inv in E as [-> Hm].
    apply drain_spec in Ed as (-> & Hms & Hn). rewrite app_assoc, <- frames_cons.
    apply drain_frames; [by constructor|done].
  - by apply (drain_frames [] buffer).
Qed.

(** The receiver: each chunk is appended and all complete messages taken. *)
Fixpoint receive_chunks (chunks : list (list byte)) (buffer : list byte)
    : list Message * list byte :=
  match chunks with
  | [] => ([], buffer)
  | c :: cs =>
      let '(ms, r) := drain (buffer ++ c) in
      let '(ms', r') := receive_chunks cs r in (ms ++ ms', r')
  end.

(** TCP segmentation is invisible: however the bytes are cut into
    chunks, the messages taken and the bytes kept are those of the whole. *)
Theorem receive_chunks_drain (chunks : list (list byte)) (buffer : list byte)
    (Hempty : next_message buffer = None) :
  receive_chunks chunks buffer = drain (buffer ++ mjoin chunks).
Proof.
  revert buffer Hempty. induction chunks as [|c cs IH]; intros buffer Hn; cbn [receive_chunks].
  - change (mjoin []) with (@nil byte). rewrite app_nil_r.
    symmetry. by apply (drain_frames [] buffer).
  - change (mjoin (c :: cs)) with (c ++ mjoin cs). rewrite app_assoc, (drain_app (buffer ++ c)).
    destruct (drain (buffer ++ c)) as [ms r] eqn:E.
    apply drain_spec in E as (_ & _ & Hr). by rewrite (IH r Hr).
Qed.

(** ** The sending side *)

Lemma flush_loop_wire tx buffer offset wire ok offset' complete tx' wire' :
  flush_loop tx buffer offset wire = (ok, offset', complete, tx', wire') ->
  wire' ++ drop offset' buffer = wire ++ drop offset buffer /\
  (complete = true -> (length buffer <= offset')%nat) /\ (complete = true -> ok = true).
Proof.
  revert offset wire. induction tx as [|r tx IH]; intros offset wire; cbn [flush_loop].
  - destruct (Nat.ltb_spec offset (length buffer)); intros [= <- <- <- <- <-];
      split_and!; (done || auto).
  - destruct (Nat.ltb_spec offset (length buffer));
      [|intros [= <- <- <- <- <-]; split_and!; (done || auto)].
    destruct (send_bytes _ r) as [ok' sent]. destruct ok'; cbn [negb].
    + destruct (sent =? 0)%nat; [by intros [= <- <- <- <- <-]|].
      intros E. apply IH in E as (E & Hc & Hok). split; [|auto].
      rewrite E, <- app_assoc. f_equal. apply take_drop_split.
    + intros [= <- <- <- <- <-]. done.
Qed.

(** Writing leaves what is read alone. *)
Lemma flush_keeps_input s :
  ms_readBuffer (flush s).2 = ms_readBuffer s /\
  sk_rx (ms_socket (flush s).2) = sk_rx (ms_socket s).
Proof.
  unfold flush. destruct (flush_loop _ _ _ _) as [[[[ok off] c] tx] wire].
  by destruct c.
Qed.

Lemma send_keeps_input s type payload :
  ms_readBuffer (send s type payload) = ms_readBuffer s /\
  sk_rx (ms_socket (send s type payload)) = sk_rx (ms_socket s).
Proof.
  exact (flush_keeps_input (mkStream (ms_socket s) (ms_readBuffer s) _ (ms_writeOffset s))).
Qed.

(** What has reached the kernel, followed by what is still queued. *)
Definition outgoing (s : MessageStream) : list byte :=
  sk_wire (ms_socket s) ++ drop (ms_writeOffset s) (ms_writeBuffer s).

Lemma flush_outgoing s : outgoing (flush s).2 = outgoing s.
Proof.
  unfold flush, outgoing. destruct (flush_loop _ _ _ _) as [[[[ok off] c] tx] wire] eqn:E.
  apply flush_loop_wire in E as (E & Hc & _). destruct c; cbn [snd ms_socket sk_wire
    ms_writeOffset ms_writeBuffer].
  - rewrite drop_nil, app_nil_r, <- E, drop_ge by auto. by rewrite app_nil_r.
  - done.
Qed.

Lemma flush_false_pending s :
  (flush s).1 = false -> ms_writeBuffer (flush s).2 = ms_writeBuffer s.
Proof.
  unfold flush. destruct (flush_loop _ _ _ _) as [[[[ok off] c] tx] wire] eqn:E.
  apply flush_loop_wire in E as (_ & _ & Hok). destruct c; [|done].
  cbn [fst]. by rewrite Hok.
Qed.

Lemma send_queue_frame s type payload :
  (ms_writeOffset s <= length (ms_writeBuffer s))%nat ->
  message_wf (mkMessage type payload) ->
  outgoing (send s type payload) = outgoing s ++ frame (mkMessage type payload).
Proof.
  intros Hoff [Hty Hlen]. cbn [msg_type msg_payload] in *. unfold send.
  rewrite flush_outgoing. unfold outgoing. cbn [ms_socket ms_writeOffset ms_writeBuffer].
  rewrite <- app_assoc. f_equal.
  rewrite (wrap_id 32) by (unfold fits, kMaxPayloadSize in *; lia).
  rewrite <- drop_app_le by done. f_equal. unfold frame. cbn [msg_type msg_payload].
  autorewrite with writer. destruct (decide (payload = [])) as [->|]; [|unfold raw];
    rewrite <- ?app_assoc; [|done]. by rewrite app_nil_r.
Qed.


Lemma flush_loop_offset tx buffer offset wire ok offset' complete tx' wire' :
  flush_loop tx buffer offset wire = (ok, offset', complete, tx', wire') ->
  (offset <= length buffer)%nat -> (offset' <= length buffer)%nat.
Proof.
  revert offset wire. induction tx as [|r tx IH]; intros offset wire; cbn [flush_loop];
    (destruct (Nat.ltb_spec offset (length buffer)); [|intros [= <- <- <- <- <-]; auto]).
  - by intros [= <- <- <- <- <-].
  - destruct (send_bytes _ r) as [ok' sent] eqn:Es. destruct ok'; cbn [negb];
      [|by intros [= <- <- <- <- <-]].
    destruct (sent =? 0)%nat; [by intros [= <- <- <- <- <-]|].
    intros E _. eapply IH; [exact E|].
    destruct r; simpl in Es; simplify_eq; lia.
Qed.

Definition stream_ok (s : MessageStream) : Prop :=
  (ms_writeOffset s <= length (ms_writeBuffer s))%nat.

Lemma flush_ok s : stream_ok s -> stream_ok (flush s).2.
Proof.
  unfold stream_ok, flush. destruct (flush_loop _ _ _ _) as [[[[ok off] c] tx] wire] eqn:E.
  intros Hok. apply flush_loop_offset in E; [|done]. by destruct c; simpl.
Qed.

Lemma send_ok s type payload : stream_ok s -> stream_ok (send s type payload).
Proof.
  intros Hok. apply flush_ok. unfold stream_ok in *. cbn [ms_writeOffset ms_writeBuffer].
  autorewrite with writer. destruct (decide _); unfold raw; rewrite !length_app; lia.
Qed.

Definition send_all (s : MessageStream) (ms : list Message) : MessageStream :=
  foldl (fun s m => send s (msg_type m) (msg_payload m)) s ms.

Lemma send_all_spec s ms :
  stream_ok s -> Forall message_wf ms ->
  stream_ok (send_all s ms) /\ outgoing (send_all s ms) = outgoing s ++ frames ms.
Proof.
  intros Hok Hwf. revert s Hok. induction Hwf as [|m ms Hm Hms IH]; intros s Hok.
  - by rewrite app_nil_r.
  - cbn [send_all foldl]. fold (send_all (send s (msg_type m) (msg_payload m)) ms).
    destruct (IH (send s (msg_type m) (msg_payload m))) as [H1 H2]; [by apply send_ok|].
    split; [done|]. rewrite H2, send_queue_frame by (done || by destruct m).
    rewrite frames_cons, <- app_assoc. by destruct m.
Qed.

(** ** The receiving side *)

(** A batch of non-empty chunks ahead of a "would block" is read whole. *)
(** All the bytes the kernel has for a socket. *)
Definition rx_bytes (rx : list RecvResult) : list byte :=
  mjoin ((fun r => match r with RecvBytes bs => bs | RecvError _ => [] end) <$> rx).

(** A pump only moves bytes from the kernel to the buffer. *)
Lemma pump_loop_bytes rx : forall buffer buffer' rx',
  pump_loop rx buffer = (true, buffer', rx') ->
  buffer' ++ rx_bytes rx' = buffer ++ rx_bytes rx.
Proof.
  induction rx as [|r rx IH]; intros buffer buffer' rx'; cbn [pump_loop].
  { by intros [= <- <-]. }
  destruct (receive r) as [ok chunk] eqn:Er.
  assert (Hr : ok = true -> rx_bytes (r :: rx) = chunk ++ rx_bytes rx).
  { destruct r as [[|b bs]|[]]; injection Er as <- <-; done. }
  destruct ok; [|done]. rewrite (Hr eq_refl). cbn [negb].
  destruct chunk as [|b chunk]; [by intros [= <- <-]|].
  destruct (_ && _)%bool; [done|]. intros ->%IH. by rewrite <- app_assoc.
Qed.

Lemma pump_bytes s s' :
  pump s = (true, s') ->
  ms_readBuffer s' ++ rx_bytes (sk_rx (ms_socket s')) =
  ms_readBuffer s ++ rx_bytes (sk_rx (ms_socket s)).
Proof.
  unfold pump. destruct (pump_loop _ _) as [[ok buffer] rx] eqn:Ep. intros [= -> <-].
  by apply pump_loop_bytes.
Qed.

Lemma pump_loop_chunks chunks rx buffer :
  Forall (fun c => c <> []) chunks ->
  (forall k, (kHeaderSize <= length (buffer ++ mjoin (take k chunks)))%nat ->
     readU32 (buffer ++ mjoin (take k chunks)) <= kMaxPayloadSize) ->
  pump_loop ((RecvBytes <$> chunks) ++ RecvError true :: rx) buffer =
  (true, buffer ++ mjoin chunks, rx).
Proof.
  intros Hne. revert buffer. induction Hne as [|c cs Hc Hcs IH]; intros buffer Hmax.
  - change (mjoin []) with (@nil byte). by rewrite app_nil_r.
  - cbn [fmap list_fmap app pump_loop]. destruct c as [|b c]; [done|].
    cbn [receive negb].
    pose proof (Hmax 1%nat) as H1. change (take 1 ((b :: c) :: cs)) with [b :: c] in H1.
    assert (Hj : mjoin [b :: c] = b :: c) by (simpl; by rewrite app_nil_r).
    rewrite Hj in H1.
    destruct (Nat.leb_spec kHeaderSize (length (buffer ++ b :: c))) as [Hl|Hl];
      cbn [andb];
      [rewrite (proj2 (Z.ltb_ge kMaxPayloadSize _)) by auto|];
      (rewrite IH; [by rewrite <- app_assoc|]; intros k Hk; specialize (Hmax (S k));
       change (mjoin (take (S k) ((b :: c) :: cs))) with ((b :: c) ++ mjoin (take k cs)) in Hmax;
       rewrite app_assoc in Hmax; auto).
Qed.

(** The head of a prefix of a well-formed stream announces a legal size. *)
Lemma frames_head_legal ms post data :
  Forall message_wf ms -> frames ms = data ++ post -> (kHeaderSize <= length data)%nat ->
  readU32 data <= kMaxPayloadSize.
Proof.
  intros Hwf E Hl. destruct Hwf as [|m ms Hm Hms].
  - destruct data; [unfold kHeaderSize in Hl; simpl in Hl; lia|done].
  - unfold kHeaderSize in Hl. rewrite readU32_value by lia.
    assert (Ht : take 4 (data ++ post) = take 4 data) by (by apply take_app_le; lia).
    rewrite <- Ht, <- E, frames_cons. unfold frame.
    rewrite <- !app_assoc, take_app_length' by done. unfold e_u32. rewrite le_value_bytes.
    destruct Hm as [_ Hm]. unfold kMaxPayloadSize in *. rewrite Z.mod_small; simpl; lia.
Qed.

(** One poll of a receiver: pump, then take every complete message. *)
Definition poll_stream (s : MessageStream) : bool * list Message * MessageStream :=
  let '(ok, s1) := pump s in
  if ok then
    let '(ms, rest) := drain (ms_readBuffer s1) in
    (true, ms, mkStream (ms_socket s1) rest (ms_writeBuffer s1) (ms_writeOffset s1))
  else (false, [], s1).

(** [n] polls, stopping at the first failure. *)
Fixpoint polls (n : nat) (s : MessageStream) : bool * list Message * MessageStream :=
  match n with
  | O => (true, [], s)
  | S n' =>
      let '(ok, ms, s') := poll_stream s in
      if ok then let '(ok', ms', s'') := polls n' s' in (ok', ms ++ ms', s'')
      else (false, ms, s')
  end.

(** The kernel delivers [batches], each batch cut into chunks and followed by
    "would block". *)
Definition arrivals (batches : list (list (list byte))) : list RecvResult :=
  mjoin ((fun b => (RecvBytes <$> b) ++ [RecvError true]) <$> batches).

Lemma frames_split ms a b ms1 r1 :
  Forall message_wf ms -> frames ms = a ++ b -> drain a = (ms1, r1) ->
  exists ms2, ms = ms1 ++ ms2 /\ frames ms2 = r1 ++ b.
Proof.
  intros Hwf E Ha. pose proof (drain_frames ms [] Hwf next_message_nil) as Hd.
  rewrite app_nil_r, E, drain_app, Ha in Hd.
  destruct (drain (r1 ++ b)) as [ms2 r2] eqn:E2. injection Hd as <- ->.
  apply drain_spec in E2 as (E2 & _ & _). rewrite app_nil_r in E2. by exists ms2.
Qed.

Lemma frames_nothing ms r :
  Forall message_wf ms -> frames ms = r -> next_message r = None -> ms = [].
Proof.
  intros Hwf <- Hn. destruct Hwf as [|m ms Hm Hms]; [done|].
  by rewrite frames_cons, next_message_frame in Hn.
Qed.

Definition nonempty_chunks (batches : list (list (list byte))) : Prop :=
  Forall (Forall (fun c => c <> [])) batches.

(** One batch of a well-formed stream is taken into the read buffer. *)
Lemma pump_batch b bs s ms post :
  Forall (fun c => c <> []) b -> Forall message_wf ms ->
  sk_rx (ms_socket s) = arrivals (b :: bs) ->
  frames ms = (ms_readBuffer s ++ mjoin b) ++ mjoin (mjoin <$> bs) ++ post ->
  pump s = (true, mkStream (mkSocket (arrivals bs) (sk_tx (ms_socket s)) (sk_wire (ms_socket s)))
                    (ms_readBuffer s ++ mjoin b) (ms_writeBuffer s) (ms_writeOffset s)).
Proof.
  intros Hb Hwf Hrx E. unfold pump. rewrite Hrx.
  change (arrivals (b :: bs)) with (((RecvBytes <$> b) ++ [RecvError true]) ++ arrivals bs).
  rewrite <- app_assoc. cbn [app].
  rewrite pump_loop_chunks; [done|done|].
  intros k Hk. eapply (frames_head_legal ms (mjoin (drop k b) ++ mjoin (mjoin <$> bs) ++ post));
    [done| |done].
  rewrite E, <- (take_drop k b) at 1. by rewrite join_app, <- !app_assoc.
Qed.

Lemma polls_spec batches : forall s ms post,
  nonempty_chunks batches -> Forall message_wf ms ->
  next_message (ms_readBuffer s) = None ->
  sk_rx (ms_socket s) = arrivals batches ->
  frames ms = ms_readBuffer s ++ mjoin (mjoin <$> batches) ++ post ->
  exists got ms2 s', polls (length batches) s = (true, got, s') /\ ms = got ++ ms2 /\
    frames ms2 = ms_readBuffer s' ++ post /\ next_message (ms_readBuffer s') = None.
Proof.
  induction batches as [|b bs IH]; intros s ms post Hne Hwf Hn Hrx E.
  - exists [], ms, s. rewrite E. done.
  - unfold nonempty_chunks in Hne. apply Forall_cons_1 in Hne as [Hb Hbs]. cbn [polls length].
    change (mjoin (mjoin <$> b :: bs)) with (mjoin b ++ mjoin (mjoin <$> bs)) in E.
    rewrite <- !app_assoc, app_assoc in E.
    pose proof (pump_batch b bs s ms post Hb Hwf Hrx E) as Hp.
    unfold poll_stream. rewrite Hp. cbn [ms_readBuffer ms_socket ms_writeBuffer ms_writeOffset].
    destruct (drain (ms_readBuffer s ++ mjoin b)) as [ms1 r1] eqn:Ed.
    destruct (frames_split _ _ _ _ _ Hwf E Ed) as (ms2 & -> & E2).
    apply drain_spec in Ed as (_ & _ & Hr1).
    apply Forall_app in Hwf as [_ Hwf2].
    edestruct (IH (mkStream (mkSocket (arrivals bs) (sk_tx (ms_socket s)) (sk_wire (ms_socket s)))
      r1 (ms_writeBuffer s) (ms_writeOffset s)) ms2 post) as (got & ms3 & s' & Hpolls & -> & H1 & H2);
      [done..|].
    rewrite Hpolls. exists (ms1 ++ got), ms3, s'. rewrite <- app_assoc. auto.
Qed.

(** C11: Reliable delivery end to end. Whatever the kernels answer, a
    receiver that has been handed a prefix of what left the sender, cut into
    any chunks, has taken a prefix of the messages sent, without a failure;
    once everything has left and arrived, it has taken exactly these. *)
Theorem stream_delivery (ms : list Message) (tx tx' : list SendResult)
    (batches : list (list (list byte))) (post : list byte)
    (Hwf : Forall message_wf ms) (Hne : nonempty_chunks batches)
    (Hpost : mjoin (mjoin <$> batches) ++ post =
             sk_wire (ms_socket (send_all (new_stream (mkSocket [] tx [])) ms))) :
  exists got s',
    polls (length batches) (new_stream (mkSocket (arrivals batches) tx' [])) =
      (true, got, s') /\
    got `prefix_of` ms /\
    (post = [] -> hasPendingWrites (send_all (new_stream (mkSocket [] tx [])) ms) = false ->
     got = ms).
Proof.
  set (sender := send_all _ ms) in *.
  destruct (send_all_spec (new_stream (mkSocket [] tx [])) ms) as [Hok Hout];
    [by unfold stream_ok|done|]. fold sender in Hok, Hout.
  change (outgoing (new_stream _)) with (@nil byte) in Hout. rewrite app_nil_l in Hout.
  set (queued := drop (ms_writeOffset sender) (ms_writeBuffer sender)) in *.
  assert (E : frames ms = [] ++ mjoin (mjoin <$> batches) ++ post ++ queued).
  { rewrite app_nil_l, app_assoc, Hpost, <- Hout. done. }
  destruct (polls_spec batches (new_stream (mkSocket (arrivals batches) tx' [])) ms
    (post ++ queued) Hne Hwf eq_refl eq_refl E) as (got & ms2 & s' & Hp & -> & H2 & Hn).
  exists got, s'. split; [done|]. split; [by apply prefix_app_r|].
  intros -> Hpend. unfold hasPendingWrites in Hpend. apply Nat.ltb_ge in Hpend.
  assert (Hq : queued = []) by (by apply drop_ge). rewrite Hq, app_nil_r in H2.
  apply Forall_app in Hwf as [_ Hwf2].
  by rewrite (frames_nothing ms2 _ Hwf2 H2 Hn), app_nil_r.
Qed.

Definition example_messages : list Message :=
  [mkMessage 200 [x08; x00; x00; x00; x01; x00; x61]; mkMessage 202 []].

(** The kernel accepts the first frame in two pieces and cuts the second. *)
Lemma stream_delivery_witness :
  exists got s',
    polls 2 (new_stream (mkSocket (arrivals
      [[take 3 (frames example_messages)]; [drop 3 (frames example_messages)]]) [] [])) =
      (true, got, s') /\ got `prefix_of` example_messages /\
    (@nil byte = [] -> hasPendingWrites (send_all (new_stream
       (mkSocket [] [SendCount 5; SendError true; SendCount 100] [])) example_messages) = false ->
     got = example_messages).
Proof.
  apply (stream_delivery example_messages [SendCount 5; SendError true; SendCount 100] []
    [[take 3 (frames example_messages)]; [drop 3 (frames example_messages)]] []).
  - repeat constructor; vm_compute; discriminate.
  - repeat constructor; vm_compute; discriminate.
  - vm_compute. reflexivity.
Defined.

(** ** Oversized claims *)

(** A stream that announces more than 1 MiB at its head is refused: no
    message is taken from it, and the next pump that receives anything
    reports failure. *)
Theorem oversized_claim_refused (buffer chunk : list byte) (rx : list RecvResult)
    (Hl : (kHeaderSize <= length buffer)%nat)
    (Hbig : kMaxPayloadSize < readU32 buffer)
    (Hne : chunk <> []) :
  next_message buffer = None /\ drain buffer = ([], buffer) /\
  pump_loop (RecvBytes chunk :: rx) buffer = (false, buffer ++ chunk, rx).
Proof.
  assert (Hn : next_message buffer = None).
  { unfold next_message. destruct (_ <? _)%nat; [done|].
    by rewrite (proj2 (Z.ltb_lt kMaxPayloadSize _)). }
  split; [done|]. split.
  - unfold drain. destruct (length buffer); [done|]. cbn [drain_fuel]. by rewrite Hn.
  - cbn [pump_loop]. destruct chunk as [|b c]; [done|]. cbn [receive negb].
    unfold kHeaderSize in Hl. rewrite length_app, readU32_value by (rewrite length_app; lia).
    rewrite take_app_le, <- readU32_value by lia.
    rewrite (proj2 (Nat.leb_le _ _)) by (unfold kHeaderSize; lia).
    by rewrite (proj2 (Z.ltb_lt kMaxPayloadSize _)).
Qed.

Lemma oversized_claim_refused_witness :
  next_message (repeat xff 6) = None /\ drain (repeat xff 6) = ([], repeat xff 6) /\
  pump_loop [RecvBytes [x00]] (repeat xff 6) = (false, repeat xff 6 ++ [x00], []).
Proof.
  apply (oversized_claim_refused (repeat xff 6) [x00] []).
  - unfold kHeaderSize. simpl. lia.
  - vm_compute. reflexivity.
  - discriminate.
Defined.

(** Bytes that arrive in the same pump as the end of the connection stay in
    the buffer: a user of the stream that stops at a failed pump never takes
    the messages they contain. *)
Lemma final_bytes_not_taken m rx :
  message_wf m ->
  poll_stream (new_stream (mkSocket (RecvBytes (frame m) :: RecvBytes [] :: rx) [] [])) =
  (false, [], mkStream (mkSocket rx [] []) (frame m) [] 0).
Proof.
  intros Hwf. unfold poll_stream, pump. cbn [new_stream ms_socket sk_rx ms_readBuffer pump_loop].
  destruct (frame m) as [|b bs] eqn:E.
  { apply (f_equal length) in E. rewrite length_frame in E. done. }
  cbn [receive negb app]. rewrite <- E.
  assert (Hm : frames [m] = frame m ++ []) by done.
  destruct (Nat.leb_spec kHeaderSize (length (frame m))) as [Hl|Hl]; cbn [andb]; [|done].
  rewrite (proj2 (Z.ltb_ge kMaxPayloadSize _)); [done|].
  by eapply (frames_head_legal [m] [] (frame m)); [apply Forall_singleton| |].
Qed.

Lemma receive_chunks_drain_witness :
  receive_chunks [take 3 (frames example_messages); drop 3 (frames example_messages)] [] =
  drain ([] ++ mjoin [take 3 (frames example_messages); drop 3 (frames example_messages)]).
Proof. apply (receive_chunks_drain _ []). reflexivity. Defined.
