(* ===== verification/Terrain.v ===== *)
(** * The terrain heightfield ([terrain/heightfield.cpp])

    The pure function of position both ends of the protocol stand characters
    on: an integer lattice hash, quintic fade, value noise, five octaves, and
    a smoothing kernel, in [float] arithmetic throughout. *)

From Stdlib Require Import ZArith Lia Floats.SpecFloat.
From stdpp Require Import base list option.
From S2P Require Import Prelude Float32.

Open Scope Z_scope.

(** ** Constants *)

Definition kSeed : Z := 0x9E3779B9.
Definition kBaseWavelength : float := f32_of_Z 340.
Definition kOctaves : nat := 5.
Definition kLacunarity : float := lit32 203 100.
Definition kGain : float := lit32 1 2.
Definition kWorldSize : float := f32_of_Z 1024.
Definition kHalfWorld : float := (kWorldSize * lit32 1 2)%f32.
Definition kMeshResolution : Z := 512.
Definition kAmplitude : float := f32_of_Z 110.

(** ** The lattice hash *)

(** The unsigned 32-bit mix, before the conversion to [float]. *)
Definition hash_bits (x y : Z) : Z :=
  let h := kSeed in
  let h := Z.lxor h (u32 (u32 x * 0x85EBCA6B)) in
  let h := Z.lxor h (u32 (u32 y * 0xC2B2AE35)) in
  let h := Z.lxor h (Z.shiftr h 15) in
  let h := u32 (h * 0x2545F491) in
  let h := Z.lxor h (Z.shiftr h 13) in
  let h := u32 (h * 0x3B9ACB93) in
  Z.lxor h (Z.shiftr h 16).

Definition hash (x y : Z) : float :=
  (f32_of_Z (Z.land (hash_bits x y) 0x00FFFFFF) / f32_of_Z 0x01000000)%f32.

Definition fade (t : float) : float :=
  (t * t * t * (t * (t * f32_of_Z 6 - f32_of_Z 15) + f32_of_Z 10))%f32.

Section Heightfield.
Context `{Libm}.

Definition valueNoise (x y : float) : float :=
  let floorX := f32_floor x in
  let floorY := f32_floor y in
  let cellX := int32_of_f32 floorX in
  let cellY := int32_of_f32 floorY in
  let fx := fade (x - floorX)%f32 in
  let fy := fade (y - floorY)%f32 in
  let topLeft := hash cellX cellY in
  let topRight := hash (cellX + 1) cellY in
  let bottomLeft := hash cellX (cellY + 1) in
  let bottomRight := hash (cellX + 1) (cellY + 1) in
  let top := (topLeft + (topRight - topLeft) * fx)%f32 in
  let bottom := (bottomLeft + (bottomRight - bottomLeft) * fx)%f32 in
  (top + (bottom - top) * fy)%f32.

(** The state of the octave loop. *)
Record Octaves := {
  frequency : float;
  amplitude : float;
  total : float;
  normalisation : float;
}.

Definition octave_step (x z : float) (o : Octaves) : Octaves :=
  {| total := (total o + valueNoise (x * frequency o) (z * frequency o) * amplitude o)%f32;
     normalisation := (normalisation o + amplitude o)%f32;
     frequency := (frequency o * kLacunarity)%f32;
     amplitude := (amplitude o * kGain)%f32 |}.

Definition rawHeight (x z : float) : float :=
  let o := Nat.iter kOctaves (octave_step x z)
    {| frequency := (f32_one / kBaseWavelength)%f32; amplitude := f32_one;
       total := f32_zero; normalisation := f32_zero |} in
  let unit := ((total o / normalisation o) * f32_of_Z 2 - f32_one)%f32 in
  (unit * kAmplitude * lit32 1 2)%f32.

Definition kSmoothRadius : float :=
  (kWorldSize / f32_of_Z kMeshResolution * lit32 1 2)%f32.

Definition heightAt (x z : float) : float :=
  let centre := rawHeight x z in
  let left := rawHeight (x - kSmoothRadius)%f32 z in
  let right := rawHeight (x + kSmoothRadius)%f32 z in
  let back := rawHeight x (z - kSmoothRadius)%f32 in
  let front := rawHeight x (z + kSmoothRadius)%f32 in
  (centre * lit32 1 2 + (left + right + back + front) * lit32 125 1000)%f32.

Definition kStep : float := (kWorldSize / f32_of_Z kMeshResolution)%f32.

Definition normalAt (x z : float) : float * float * float :=
  let dx := (heightAt (x + kStep) z - heightAt (x - kStep) z)%f32 in
  let dz := (heightAt x (z + kStep) - heightAt x (z - kStep))%f32 in
  let nx := (- dx)%f32 in
  let ny := (f32_of_Z 2 * kStep)%f32 in
  let nz := (- dz)%f32 in
  let length := f32_sqrt (nx * nx + ny * ny + nz * nz)%f32 in
  ((nx / length)%f32, (ny / length)%f32, (nz / length)%f32).

End Heightfield.

Global Opaque heightAt normalAt.

(** ** The hash is in the unit interval *)

(** Every lattice value is a number of [0, 1): the hash of any pair of
    cells is finite, not below zero and strictly below one. *)
Theorem hash_unit_interval x y :
  is_finite (hash x y) = true /\
  (f32_zero <=? hash x y)%f32 = true /\ (hash x y <? f32_one)%f32 = true.
Proof.
  unfold hash. set (k := Z.land (hash_bits x y) 0x00FFFFFF).
  assert (Hk : 0 <= k < 2 ^ 24).
  { unfold k. change 0x00FFFFFF with (Z.ones 24). rewrite Z.land_ones by lia.
    apply Z.mod_pos_bound. lia. }
  destruct (decide (k = 0)) as [->|Hk0]; [done|].
  destruct (f32_of_Z_exact k ltac:(lia)) as (m & e & -> & Hm & He).
  rewrite f32_div_pow24 by done. split; [done|]. split; [done|].
  unfold SFltb, SFcompare. change f32_one with (S754_finite false 8388608 (-23)). cbv iota.
  assert (Hlt : (e - 24 ?= -23) = Lt) by (apply Z.compare_lt_iff; lia). by rewrite Hlt.
Qed.
