(* ===== verification/Character.v ===== *)
(** * The shared character simulation ([gamesim/character.cpp])

    One fixed tick of a character, compiled into the world server and the
    client: horizontal velocity from intent, gravity and jump, facing,
    integration, and the resolution of the ground against the heightfield.
    [stepCharacter] is the composition of the phases in the order of the
    code. *)

From Stdlib Require Import ZArith Lia Floats.SpecFloat.
From stdpp Require Import base list option.
From S2P Require Import Prelude Float32 Terrain.

Open Scope Z_scope.

(** ** Tuning *)

Definition kGravity : float := f32_of_Z (-20).
Definition kCapsuleRadius : float := lit32 35 100.
Definition kCapsuleHalfHeight : float := lit32 1 2.
Definition kRestHeight : float := (kCapsuleHalfHeight + kCapsuleRadius)%f32.
Definition kWalkSpeed : float := f32_of_Z 5.
Definition kSprintSpeed : float := f32_of_Z 9.
Definition kJumpSpeed : float := lit32 75 10.
Definition kAirControl : float := lit32 35 100.
Definition kTerminalVelocity : float := f32_of_Z (-50).
Definition kGroundSnapDistance : float := lit32 15 100.

(** ** State *)

(** [gamesim::Vec3]. *)
Record Vec := mkVec { vec_x : float; vec_y : float; vec_z : float }.

Definition vec_zero : Vec := mkVec f32_zero f32_zero f32_zero.

Record CharacterInput := {
  ci_sequence : Z;
  ci_moveForward : float;
  ci_moveRight : float;
  ci_yaw : float;
  ci_jump : bool;
  ci_sprint : bool;
}.

Definition default_input : CharacterInput :=
  {| ci_sequence := 0; ci_moveForward := f32_zero; ci_moveRight := f32_zero;
     ci_yaw := f32_zero; ci_jump := false; ci_sprint := false |}.

Record Character := {
  ch_position : Vec;
  ch_velocity : Vec;
  ch_grounded : bool;
  ch_facingYaw : float;
}.

Definition default_character : Character :=
  {| ch_position := vec_zero; ch_velocity := vec_zero;
     ch_grounded := false; ch_facingYaw := f32_zero |}.

Global Instance float_eq_dec : EqDecision float.
Proof. solve_decision. Defined.
Global Instance Vec_eq_dec : EqDecision Vec.
Proof. solve_decision. Defined.
Global Instance CharacterInput_eq_dec : EqDecision CharacterInput.
Proof. solve_decision. Defined.
Global Instance Character_eq_dec : EqDecision Character.
Proof. solve_decision. Defined.

Section Character.
Context `{Libm}.

(** ** The phases of a tick *)

(** The wish direction before normalisation. *)
Definition wish (input : CharacterInput) : float * float :=
  let sinYaw := f32_sin (ci_yaw input) in
  let cosYaw := f32_cos (ci_yaw input) in
  ((sinYaw * ci_moveForward input + cosYaw * ci_moveRight input)%f32,
   (- cosYaw * ci_moveForward input + sinYaw * ci_moveRight input)%f32).

Definition wishLength (input : CharacterInput) : float :=
  let '(wishX, wishZ) := wish input in f32_sqrt (wishX * wishX + wishZ * wishZ)%f32.

(** The velocity the intent asks for. *)
Definition target (input : CharacterInput) : float * float :=
  let '(wishX, wishZ) := wish input in
  let len := wishLength input in
  let '(wishX, wishZ) :=
    if (f32_one <? len)%f32 then ((wishX / len)%f32, (wishZ / len)%f32) else (wishX, wishZ) in
  let speed := if ci_sprint input then kSprintSpeed else kWalkSpeed in
  ((wishX * speed)%f32, (wishZ * speed)%f32).

(** Horizontal velocity follows intent; in the air it is blended. *)
Definition horizontal (input : CharacterInput) (c : Character) : Character :=
  let '(targetX, targetZ) := target input in
  let v := ch_velocity c in
  let v' :=
    if ch_grounded c then mkVec targetX (vec_y v) targetZ
    else mkVec (vec_x v + (targetX - vec_x v) * kAirControl)%f32 (vec_y v)
               (vec_z v + (targetZ - vec_z v) * kAirControl)%f32 in
  {| ch_position := ch_position c; ch_velocity := v';
     ch_grounded := ch_grounded c; ch_facingYaw := ch_facingYaw c |}.

(** Gravity and jump. *)
Definition vertical (input : CharacterInput) (deltaSeconds : float) (c : Character) : Character :=
  let v := ch_velocity c in
  if ci_jump input && ch_grounded c then
    {| ch_position := ch_position c; ch_velocity := mkVec (vec_x v) kJumpSpeed (vec_z v);
       ch_grounded := false; ch_facingYaw := ch_facingYaw c |}
  else if negb (ch_grounded c) then
    let vy := (vec_y v + kGravity * deltaSeconds)%f32 in
    let vy := if (vy <? kTerminalVelocity)%f32 then kTerminalVelocity else vy in
    {| ch_position := ch_position c; ch_velocity := mkVec (vec_x v) vy (vec_z v);
       ch_grounded := ch_grounded c; ch_facingYaw := ch_facingYaw c |}
  else c.

(** Facing changes only while there is movement intent. *)
Definition face (input : CharacterInput) (c : Character) : Character :=
  {| ch_position := ch_position c; ch_velocity := ch_velocity c; ch_grounded := ch_grounded c;
     ch_facingYaw :=
       if (f32_zero <? wishLength input)%f32 then ci_yaw input else ch_facingYaw c |}.

Definition integrate (deltaSeconds : float) (c : Character) : Character :=
  let p := ch_position c in let v := ch_velocity c in
  {| ch_position := mkVec (vec_x p + vec_x v * deltaSeconds)%f32
                          (vec_y p + vec_y v * deltaSeconds)%f32
                          (vec_z p + vec_z v * deltaSeconds)%f32;
     ch_velocity := v; ch_grounded := ch_grounded c; ch_facingYaw := ch_facingYaw c |}.

(** The height at which a character standing at [p] rests. *)
Definition restY (p : Vec) : float := (heightAt (vec_x p) (vec_z p) + kRestHeight)%f32.

Definition sit (y : float) (c : Character) : Character :=
  let p := ch_position c in let v := ch_velocity c in
  {| ch_position := mkVec (vec_x p) y (vec_z p);
     ch_velocity := mkVec (vec_x v) f32_zero (vec_z v);
     ch_grounded := true; ch_facingYaw := ch_facingYaw c |}.

Definition resolve_ground (c : Character) : Character :=
  let p := ch_position c in
  let rest := restY p in
  let descending := (vec_y (ch_velocity c) <=? f32_zero)%f32 in
  if (vec_y p <=? rest)%f32 then sit rest c
  else if descending && (vec_y p - rest <=? kGroundSnapDistance)%f32 then sit rest c
  else {| ch_position := p; ch_velocity := ch_velocity c;
          ch_grounded := false; ch_facingYaw := ch_facingYaw c |}.

Definition stepCharacter (c : Character) (input : CharacterInput) (deltaSeconds : float)
    : Character :=
  resolve_ground (integrate deltaSeconds (face input (vertical input deltaSeconds
    (horizontal input c)))).

(** ** Lemmas on the phases *)

Lemma resolve_ground_grounded c :
  ch_grounded (resolve_ground c) = true ->
  vec_y (ch_position (resolve_ground c)) = restY (ch_position (resolve_ground c)) /\
  vec_y (ch_velocity (resolve_ground c)) = f32_zero.
Proof. unfold resolve_ground. repeat case_match; intros E; done. Qed.

Lemma resolve_ground_airborne c :
  ch_grounded (resolve_ground c) = false ->
  (vec_y (ch_position (resolve_ground c)) <=? restY (ch_position (resolve_ground c)))%f32
    = false.
Proof. unfold resolve_ground. by repeat case_match. Qed.

Lemma resolve_ground_velocity c :
  vec_y (ch_velocity (resolve_ground c)) = f32_zero \/
  vec_y (ch_velocity (resolve_ground c)) = vec_y (ch_velocity c).
Proof. unfold resolve_ground. repeat case_match; auto. Qed.

Lemma step_velocity_y c input dt :
  vec_y (ch_velocity (stepCharacter c input dt)) = f32_zero \/
  vec_y (ch_velocity (stepCharacter c input dt)) =
    vec_y (ch_velocity (vertical input dt (horizontal input c))).
Proof. apply (resolve_ground_velocity (integrate dt (face input _))). Qed.

Lemma horizontal_velocity_y input c :
  vec_y (ch_velocity (horizontal input c)) = vec_y (ch_velocity c).
Proof. unfold horizontal. by destruct (target input), (ch_grounded c). Qed.

Lemma horizontal_grounded input c : ch_grounded (horizontal input c) = ch_grounded c.
Proof. unfold horizontal. by destruct (target input). Qed.

(** ** Invariants *)

(** A fall no faster than the terminal velocity (a NaN compares false, as in
    the code). *)
Definition fall_bounded (c : Character) : Prop :=
  (vec_y (ch_velocity c) <? kTerminalVelocity)%f32 = false.

(** A grounded character sits at rest height without vertical velocity, and an
    airborne one is not at or below it. *)
Definition on_ground_wf (c : Character) : Prop :=
  if ch_grounded c
  then vec_y (ch_position c) = restY (ch_position c) /\ vec_y (ch_velocity c) = f32_zero
  else (vec_y (ch_position c) <=? restY (ch_position c))%f32 = false.

(** After any tick, whatever the character, the input and the timestep, a
    character is either grounded exactly at the height the terrain gives its
    new position, with no vertical velocity, or it is airborne and not at or
    below that height: no tick leaves a character inside the ground. *)
Theorem stepCharacter_ground c input dt : on_ground_wf (stepCharacter c input dt).
Proof.
  unfold on_ground_wf. destruct (ch_grounded (stepCharacter c input dt)) eqn:E.
  - by apply resolve_ground_grounded.
  - by apply resolve_ground_airborne.
Qed.

Lemma vertical_fall_bounded input dt c :
  fall_bounded c -> fall_bounded (vertical input dt c).
Proof.
  unfold fall_bounded, vertical. intros Hc.
  destruct (ci_jump input && ch_grounded c); [done|].
  destruct (ch_grounded c); [done|]. cbn [negb ch_velocity vec_y].
  destruct (SFltb (vec_y (ch_velocity c) + kGravity * dt)%f32 kTerminalVelocity) eqn:E;
    [done|exact E].
Qed.

(** No sequence of ticks makes a character fall faster than the terminal
    velocity: the bound is an invariant of [stepCharacter], for any inputs and
    timesteps. *)
Theorem terminal_velocity_invariant c (ticks : list (CharacterInput * float)) :
  fall_bounded c ->
  fall_bounded (foldl (fun c t => stepCharacter c (fst t) (snd t)) c ticks).
Proof.
  revert c. induction ticks as [|[input dt] ticks IH]; intros c Hc; [done|].
  cbn [foldl fst snd]. apply IH. unfold fall_bounded.
  destruct (step_velocity_y c input dt) as [-> | ->]; [done|].
  apply (vertical_fall_bounded input dt). unfold fall_bounded. by rewrite horizontal_velocity_y.
Qed.

(** A jump happens only from the ground. A grounded character that asks
    for one leaves the ground phase with the jump speed and airborne; in the air
    the request changes nothing, the tick is the one without it; and a grounded
    character that does not ask keeps its vertical velocity. *)
Theorem jump_only_from_ground c input dt :
  (ci_jump input = true -> ch_grounded c = true ->
   vec_y (ch_velocity (vertical input dt (horizontal input c))) = kJumpSpeed /\
   ch_grounded (vertical input dt (horizontal input c)) = false) /\
  (ch_grounded c = false ->
   stepCharacter c input dt =
   stepCharacter c {| ci_sequence := ci_sequence input;
                      ci_moveForward := ci_moveForward input;
                      ci_moveRight := ci_moveRight input; ci_yaw := ci_yaw input;
                      ci_jump := false; ci_sprint := ci_sprint input |} dt) /\
  (ci_jump input = false -> ch_grounded c = true ->
   vertical input dt (horizontal input c) = horizontal input c).
Proof.
  split; [|split].
  - intros Hj Hg. unfold vertical. by rewrite Hj, horizontal_grounded, Hg.
  - intros Hg. unfold stepCharacter, vertical. by rewrite !horizontal_grounded, Hg, !andb_false_r.
  - intros Hj Hg. unfold vertical. by rewrite Hj, horizontal_grounded, Hg.
Qed.

Lemma resolve_ground_facing c : ch_facingYaw (resolve_ground c) = ch_facingYaw c.
Proof. unfold resolve_ground. by repeat case_match. Qed.

Lemma vertical_facing input dt c : ch_facingYaw (vertical input dt c) = ch_facingYaw c.
Proof. unfold vertical. by destruct (ci_jump input && ch_grounded c), (ch_grounded c). Qed.

Lemma horizontal_facing input c : ch_facingYaw (horizontal input c) = ch_facingYaw c.
Proof. unfold horizontal. by destruct (target input). Qed.

Lemma step_facing c input dt :
  ch_facingYaw (stepCharacter c input dt) =
  if (f32_zero <? wishLength input)%f32 then ci_yaw input else ch_facingYaw c.
Proof.
  unfold stepCharacter. rewrite resolve_ground_facing.
  cbn [integrate face ch_facingYaw]. by rewrite vertical_facing, horizontal_facing.
Qed.

End Character.

(** ** Concrete platform, for evaluation *)

(** A platform whose trigonometry is that of a character looking along the
    world's axis (yaw 0), for evaluating ticks. *)
Definition axis_libm : Libm :=
  {| f32_sin _ := f32_zero; f32_cos _ := f32_one; f32_exp x := x; f32_exp2 x := x;
     f64_sin _ := f64_zero; f64_cos _ := f64_of_Z 1; undefined_int32 _ := - 2 ^ 31 |}.

Definition tick_60hz : float := (f32_one / f32_of_Z 60)%f32.

Definition sprint_forward : CharacterInput :=
  {| ci_sequence := 1; ci_moveForward := f32_one; ci_moveRight := f32_zero;
     ci_yaw := f32_zero; ci_jump := true; ci_sprint := true |}.

Lemma terminal_velocity_invariant_witness :
  fall_bounded default_character /\
  fall_bounded (foldl (fun c t => stepCharacter (H := axis_libm) c (fst t) (snd t))
    default_character [(sprint_forward, tick_60hz); (default_input, f32_of_Z 100)]).
Proof.
  split; [reflexivity|]. apply (terminal_velocity_invariant (H := axis_libm)). reflexivity.
Defined.

Lemma jump_only_from_ground_witness :
  let c := sit (restY (H := axis_libm) vec_zero) default_character in
  vec_y (ch_velocity (vertical sprint_forward tick_60hz
    (horizontal (H := axis_libm) sprint_forward c))) = kJumpSpeed.
Proof.
  intros c.
  apply (proj1 (jump_only_from_ground (H := axis_libm) c sprint_forward tick_60hz));
    reflexivity.
Defined.
