(* ===== verification/Config.v ===== *)
(** * C strings, numbers in text, and the environment

    [server/common/include/serverutil/config.h], with the functions of the C
    library it and the servers use: [strtol], [strtoul], [strtoull], [atoi],
    [std::to_string] and [c_str()]. Results saturate at the limits of 64-bit
    [long] and [unsigned long]. *)

From Stdlib Require Import ZArith Lia Strings.Ascii Strings.String.
From stdpp Require Import base list option strings pretty.
From S2P Require Import Prelude.

Open Scope Z_scope.

(** ** C strings *)

(** What a C function sees of [c_str()]: the characters before the first NUL. *)
Fixpoint c_str (s : string) : string :=
  match s with
  | EmptyString => EmptyString
  | String c s' => if decide (c = Ascii.zero) then EmptyString else String c (c_str s')
  end.

Definition isspace (c : ascii) : bool :=
  let n := Z.of_N (N_of_ascii c) in (n =? 32) || ((9 <=? n) && (n <=? 13)).

Definition digit_value (c : ascii) : option Z :=
  let n := Z.of_N (N_of_ascii c) in
  if (48 <=? n) && (n <=? 57) then Some (n - 48) else None.

Fixpoint skip_spaces (s : string) : string :=
  match s with
  | String c s' => if isspace c then skip_spaces s' else s
  | EmptyString => s
  end.

(** The digits at the head of a string, in base 10, after [acc]. *)
Fixpoint digits (acc : Z) (s : string) : Z :=
  match s with
  | EmptyString => acc
  | String c s' =>
      match digit_value c with
      | Some d => digits (acc * 10 + d) s'
      | None => acc
      end
  end.

(** Optional spaces and sign, then digits: the sign and the magnitude. *)
Definition scan_number (s : string) : bool * Z :=
  match skip_spaces s with
  | String "-" s' => (true, digits 0 s')
  | String "+" s' => (false, digits 0 s')
  | s' => (false, digits 0 s')
  end.

(** [strtol] in base 10: saturates at [LONG_MIN] and [LONG_MAX]. *)
Definition strtol (s : string) : Z :=
  let '(neg, n) := scan_number s in
  let v := if neg then - n else n in
  Z.max (- 2 ^ 63) (Z.min v (2 ^ 63 - 1)).

(** [strtoul] and [strtoull] in base 10: out of range is [ULONG_MAX], a minus
    sign negates modulo 2^64. *)
Definition strtoul (s : string) : Z :=
  let '(neg, n) := scan_number s in
  if 2 ^ 64 <=? n then 2 ^ 64 - 1 else if neg then u64 (- n) else n.

(** [std::atoi]: the [int] of [strtol]. *)
Definition atoi (s : string) : Z := i32 (strtol s).

(** [std::to_string] of an integer. *)
Definition to_string (n : Z) : string := pretty n.

(** ** The environment *)

Section Environment.
(** [std::getenv]. *)
Variable getenv : string -> option string.

Definition envString (name fallback : string) : string :=
  match getenv name with
  | Some value => if decide (c_str value = EmptyString) then fallback else c_str value
  | None => fallback
  end.

Definition envPort (name : string) (fallback : Z) : Z :=
  match getenv name with
  | None => fallback
  | Some value =>
      if decide (c_str value = EmptyString) then fallback
      else
        let parsed := strtol (c_str value) in
        if (0 <? parsed) && (parsed <=? 65535) then u16 parsed else fallback
  end.

Definition envUint (name : string) (fallback : Z) : Z :=
  match getenv name with
  | None => fallback
  | Some value =>
      if decide (c_str value = EmptyString) then fallback
      else u32 (strtoul (c_str value))
  end.

End Environment.

(** ** Numbers survive the trip through text *)

Lemma digit_value_pretty x :
  (x < 10)%N -> digit_value (pretty_N_char x) = Some (Z.of_N x).
Proof.
  intros Hx.
  assert (x = 0 \/ x = 1 \/ x = 2 \/ x = 3 \/ x = 4 \/ x = 5 \/ x = 6 \/ x = 7 \/ x = 8
    \/ x = 9)%N as Hc by lia.
  destruct_or! Hc; by subst.
Qed.

(** Printing [x] in front of [s] scales what is before it. *)
Lemma digits_pretty_go x s acc :
  exists p, (0 <= Z.of_N x < p) /\
    digits acc (pretty_N_go x s) = digits (acc * p + Z.of_N x) s.
Proof.
  revert s acc. induction (N.lt_wf_0 x) as [x _ IH]; intros s acc.
  assert (x = 0 \/ 0 < x)%N as [->|Hx] by lia.
  - exists 1. rewrite pretty_N_go_0. split; [lia|]. f_equal. lia.
  - rewrite pretty_N_go_step by done.
    destruct (IH (x `div` 10)%N ltac:(by apply N.div_lt)
      (String (pretty_N_char (x `mod` 10)) s) acc) as (p & Hp & ->).
    cbn [digits]. rewrite digit_value_pretty by (by apply N.mod_lt).
    assert (Hdm : (x = 10 * (x `div` 10) + x `mod` 10)%N) by (by apply N.div_mod).
    assert (Hm : (x `mod` 10 < 10)%N) by (by apply N.mod_lt).
    exists (p * 10). split; [lia|]. f_equal. lia.
Qed.

Lemma digits_pretty (x : N) : digits 0 (pretty x) = Z.of_N x.
Proof.
  unfold pretty, pretty_N. case_decide as Hx; [by subst|].
  destruct (digits_pretty_go x "" 0) as (p & _ & ->). cbn [digits]. lia.
Qed.

Lemma digits_nonneg s acc : 0 <= acc -> 0 <= digits acc s.
Proof.
  revert acc. induction s as [|c s IH]; intros acc Hacc; cbn [digits]; [done|].
  unfold digit_value. case_match eqn:E; [|done].
  destruct (_ && _) eqn:Eb in E; simplify_eq. bool_to_prop. apply IH. lia.
Qed.

Lemma scan_number_nonneg s : 0 <= (scan_number s).2.
Proof. unfold scan_number. repeat case_match; cbn [snd]; by apply digits_nonneg. Qed.

(** A printed number starts with a digit. *)
Definition starts_with_digit (s : string) : Prop :=
  match s with String c _ => is_Some (digit_value c) | EmptyString => False end.

Lemma pretty_go_digit x s :
  starts_with_digit s -> starts_with_digit (pretty_N_go x s).
Proof.
  revert s. induction (N.lt_wf_0 x) as [x _ IH]; intros s Hs.
  assert (x = 0 \/ 0 < x)%N as [->|Hx] by lia; [by rewrite pretty_N_go_0|].
  rewrite pretty_N_go_step by done. apply IH; [by apply N.div_lt|].
  simpl. rewrite digit_value_pretty by (by apply N.mod_lt). by eexists.
Qed.

Lemma pretty_digit (x : N) : starts_with_digit (pretty x).
Proof.
  unfold pretty, pretty_N. case_decide as Hx; [by eexists|].
  rewrite pretty_N_go_step by lia. apply pretty_go_digit.
  simpl. rewrite digit_value_pretty by (by apply N.mod_lt). by eexists.
Qed.

Lemma digit_not_space c : is_Some (digit_value c) -> isspace c = false.
Proof.
  unfold digit_value, isspace. intros [d Hd].
  destruct ((48 <=? Z.of_N (N_of_ascii c)) && (Z.of_N (N_of_ascii c) <=? 57)) eqn:E; [|done].
  bool_to_prop. apply orb_false_iff. split; [apply Z.eqb_neq; lia|].
  apply andb_false_iff. right. apply Z.leb_gt. lia.
Qed.

Lemma scan_number_digits s : starts_with_digit s -> scan_number s = (false, digits 0 s).
Proof.
  destruct s as [|c s]; [done|]. intros Hd. unfold scan_number. cbn [skip_spaces].
  rewrite digit_not_space by done.
  destruct Hd as [d Hd]. destruct c as [[] [] [] [] [] [] [] []]; done.
Qed.

Lemma to_string_N n : 0 <= n -> to_string n = pretty (Z.to_N n).
Proof. destruct n; [done|done|lia]. Qed.

Lemma scan_number_to_string n : 0 <= n -> scan_number (to_string n) = (false, n).
Proof.
  intros Hn. rewrite to_string_N by done. rewrite scan_number_digits by apply pretty_digit.
  rewrite digits_pretty. f_equal. lia.
Qed.

Lemma strtoul_to_string n : fits 64 n -> strtoul (to_string n) = n.
Proof.
  unfold fits. intros Hn. unfold strtoul. rewrite scan_number_to_string by lia.
  by rewrite (proj2 (Z.leb_gt _ _)) by lia.
Qed.

Lemma strtol_to_string n : 0 <= n < 2 ^ 63 -> strtol (to_string n) = n.
Proof. intros Hn. unfold strtol. rewrite scan_number_to_string by lia. lia. Qed.

Lemma atoi_to_string n : 0 <= n < 2 ^ 31 -> atoi (to_string n) = n.
Proof. intros Hn. unfold atoi. rewrite strtol_to_string by lia. by rewrite i32_id by lia. Qed.

(** A printed number has no NUL. *)
Lemma c_str_id s : Forall (fun c => c <> Ascii.zero) (list_ascii_of_string s) -> c_str s = s.
Proof.
  induction s as [|c s IH]; [done|]. simpl. intros [Hc Hs]%Forall_cons_1.
  rewrite decide_False by done. by rewrite IH.
Qed.

Lemma c_str_pretty_go x s : c_str s = s -> c_str (pretty_N_go x s) = pretty_N_go x s.
Proof.
  revert s. induction (N.lt_wf_0 x) as [x _ IH]; intros s Hs.
  assert (x = 0 \/ 0 < x)%N as [->|Hx] by lia; [by rewrite pretty_N_go_0|].
  rewrite pretty_N_go_step by done. apply IH; [by apply N.div_lt|].
  cbn [c_str]. rewrite decide_False; [by rewrite Hs|].
  intros E. pose proof (digit_value_pretty (x `mod` 10) ltac:(by apply N.mod_lt)) as H.
  by rewrite E in H.
Qed.

Lemma c_str_to_string n : 0 <= n -> c_str (to_string n) = to_string n.
Proof.
  intros Hn. rewrite to_string_N by done. unfold pretty, pretty_N. case_decide; [done|].
  by apply c_str_pretty_go.
Qed.

Lemma to_string_nonempty n : 0 <= n -> to_string n <> EmptyString.
Proof.
  intros Hn E. rewrite to_string_N in E by done.
  pose proof (pretty_digit (Z.to_N n)) as H. by rewrite E in H.
Qed.

(** ** Configuration *)

(** A port from the environment is a port: with a valid fallback the
    result is always between 1 and 65535; a variable that holds the decimal
    text of a port gives that port, and any other number (0, negative, 65536 or
    more, however large) the fallback. *)
Theorem envPort_spec getenv name fallback (Hf : 0 < fallback <= 65535) :
  0 < envPort getenv name fallback <= 65535 /\
  (forall p, 0 < p <= 65535 -> getenv name = Some (to_string p) ->
     envPort getenv name fallback = p) /\
  (forall text, getenv name = Some text ->
     (let '(neg, n) := scan_number (c_str text) in neg = true \/ n = 0 \/ 65535 < n) ->
     envPort getenv name fallback = fallback).
Proof.
  split; [|split].
  - unfold envPort. destruct (getenv name) as [v|]; [|done].
    case_decide; [done|]. destruct (_ && _) eqn:E; [|done]. bool_to_prop.
    rewrite wrap_id by (unfold fits; lia). lia.
  - intros p Hp Hg. unfold envPort. rewrite Hg, c_str_to_string by lia.
    rewrite decide_False by (apply to_string_nonempty; lia).
    rewrite strtol_to_string by lia.
    rewrite (proj2 (Z.ltb_lt 0 p)), (proj2 (Z.leb_le p 65535)) by lia. cbn [andb].
    apply wrap_id. unfold fits. lia.
  - intros text Hg Hbad. unfold envPort. rewrite Hg. case_decide; [done|].
    pose proof (scan_number_nonneg (c_str text)) as Hn.
    unfold strtol. destruct (scan_number (c_str text)) as [neg n]. cbn [snd] in Hn.
    destruct (0 <? _) eqn:E1; [|done]. destruct (_ <=? 65535) eqn:E2; [|done].
    bool_to_prop. destruct neg; destruct_or! Hbad; (done || lia).
Qed.

Lemma envPort_spec_witness :
  envPort (fun _ => Some "7001"%string) "AUTH_SERVER_PORT" 7000 = 7001.
Proof.
  apply (proj1 (proj2 (envPort_spec (fun _ => Some "7001"%string) "AUTH_SERVER_PORT" 7000
    ltac:(lia)))); [lia|reflexivity].
Defined.
