(* ===== verification/Logging.v ===== *)
(** * The servers' log ([server/common/include/serverutil/log.h])

    A log line as the text it puts on its stream. The formatted message is an
    argument, [vfprintf] of the caller's format; the calendar of [localtime] is a
    parameter. The other components leave their log lines out. *)

From Stdlib Require Import ZArith Lia Strings.Ascii Strings.String.
From stdpp Require Import base list option strings.
From S2P Require Import Prelude Config.

Open Scope Z_scope.

(** The stream a line goes to. *)
Inductive LogStream := Stdout | Stderr.

Record Tm := mkTm { tm_hour : Z; tm_min : Z; tm_sec : Z }.

(** [localtime_r], with the ranges of the C standard (a leap second is 60). *)
Class Calendar := {
  localtime : Z -> Tm;
  localtime_ok : forall now,
    0 <= tm_hour (localtime now) < 24 /\ 0 <= tm_min (localtime now) < 60 /\
    0 <= tm_sec (localtime now) <= 60;
}.

Definition two_digits (n : Z) : string :=
  (if n <? 10 then "0" else "") +:+ to_string n.

(** [strftime] with the format [%H:%M:%S]. *)
Definition timestamp (tm : Tm) : string :=
  two_digits (tm_hour tm) +:+ ":" +:+ two_digits (tm_min tm) +:+ ":" +:+ two_digits (tm_sec tm).

(** [%-5s]. *)
Definition pad_right (width : nat) (s : string) : string :=
  s +:+ string_of_list_ascii (repeat " "%char (width - String.length s)).

Definition newline : string := String "010"%char EmptyString.

Section Logging.
Context `{HCal : Calendar}.

(** What the log has put out: the lines of both streams, in order. Each is
    flushed before the call returns. *)
Definition LogOutput : Type := list (LogStream * string).

Definition line_prefix (now : Z) (level tag : string) : string :=
  timestamp (localtime now) +:+ " [" +:+ c_str tag +:+ "] " +:+ pad_right 5 level +:+ " ".

Definition logLine (out : LogStream) (level tag : string) (now : Z) (text : string)
    (log : LogOutput) : LogOutput :=
  log ++ [(out, line_prefix now level tag +:+ text +:+ newline)].

Record Log := mkLog { log_mTag : string }.

Definition log_info (l : Log) : Z -> string -> LogOutput -> LogOutput :=
  logLine Stdout "INFO" (log_mTag l).
Definition log_warn (l : Log) : Z -> string -> LogOutput -> LogOutput :=
  logLine Stderr "WARN" (log_mTag l).
Definition log_error (l : Log) : Z -> string -> LogOutput -> LogOutput :=
  logLine Stderr "ERROR" (log_mTag l).

Lemma length_append (a b : string) : String.length (a +:+ b) = (String.length a + String.length b)%nat.
Proof. induction a as [|c a IH]; [done|]. cbn. by rewrite <- IH. Qed.

Lemma length_two_digits n : 0 <= n < 100 -> String.length (two_digits n) = 2%nat.
Proof.
  intros Hn.
  assert (Hall : Forall (fun n => String.length (two_digits (Z.of_nat n)) = 2%nat) (seq 0 100))
    by (apply (bool_decide_unpack _); vm_compute; exact I).
  rewrite <- (Z2Nat.id n) by lia. apply (proj1 (Forall_forall _ _) Hall). apply elem_of_seq. lia.
Qed.

Lemma length_pad_right width s :
  (String.length s <= width)%nat -> String.length (pad_right width s) = width.
Proof.
  intros Hs. unfold pad_right. rewrite length_append.
  assert (Hp : forall n, String.length (string_of_list_ascii (repeat " "%char n)) = n)
    by (induction n as [|n IH]; [done|cbn; by rewrite IH]).
  rewrite Hp. lia.
Qed.

(** The messages of one service line up: whatever the time and the level, the
    text starts at the same column, and the line is the one call's. *)
Lemma log_lines_align (level tag : string) now text out log :
  (String.length level <= 5)%nat ->
  exists prefix, logLine out level tag now text log = log ++ [(out, prefix +:+ text +:+ newline)] /\
    String.length prefix = (18 + String.length (c_str tag))%nat.
Proof.
  intros Hl. exists (line_prefix now level tag). split; [done|].
  destruct (localtime_ok now) as (H1 & H2 & H3). unfold line_prefix, timestamp.
  rewrite !length_append, length_pad_right, !length_two_digits by (done || lia).
  cbn [String.length]. lia.
Qed.

End Logging.

Definition noon : Calendar.
Proof. refine {| localtime _ := mkTm 12 5 0 |}. intros _. cbn. lia. Defined.

Example info_line :
  log_info (HCal := noon) (mkLog "auth") 0 "listening on port 7001" [] =
  [(Stdout, "12:05:00 [auth] INFO  listening on port 7001" +:+ newline)].
Proof. reflexivity. Qed.

Example error_line :
  log_error (HCal := noon) (mkLog "auth") 0 "libsodium init failed" [] =
  [(Stderr, "12:05:00 [auth] ERROR libsodium init failed" +:+ newline)].
Proof. reflexivity. Qed.
