(* ===== verification/Text.v ===== *)
(** * Numbers and separators in text

    The functions of the standard library that the commands typed by an
    operator go through, besides those of [Config]: [std::string::find] of a
    character, and [strtof] in the C locale, whose result is the correctly
    rounded [float] of the text. *)

From Stdlib Require Import ZArith Lia Strings.Ascii Strings.String Floats.SpecFloat.
From stdpp Require Import base list option strings pretty.
From S2P Require Import Prelude Float32 Config.

Open Scope Z_scope.

(** [std::string::find] of a character, and the text around it. *)
Fixpoint split_at (sep : ascii) (s : string) : option (string * string) :=
  match s with
  | EmptyString => None
  | String c s' =>
      if Ascii.eqb c sep then Some (EmptyString, s')
      else
        match split_at sep s' with
        | Some (before, after) => Some (String c before, after)
        | None => None
        end
  end.

Lemma split_at_app sep a b :
  sep ∉ list_ascii_of_string a -> split_at sep (a +:+ String sep b) = Some (a, b).
Proof.
  induction a as [|c a IH]; intros Hn.
  - change ("" +:+ String sep b) with (String sep b). cbn [split_at].
    by rewrite Ascii.eqb_refl.
  - cbn [list_ascii_of_string] in Hn. apply not_elem_of_cons in Hn as [Hc Hn].
    change (String c a +:+ String sep b) with (String c (a +:+ String sep b)).
    cbn [split_at]. destruct (Ascii.eqb_spec c sep); [congruence|]. by rewrite IH.
Qed.

(** ** [strtof] *)

Definition hex_value (c : ascii) : option Z :=
  let n := Z.of_N (N_of_ascii c) in
  if (48 <=? n) && (n <=? 57) then Some (n - 48)
  else if (65 <=? n) && (n <=? 70) then Some (n - 55)
  else if (97 <=? n) && (n <=? 102) then Some (n - 87)
  else None.

(** The digits at the head of a string: their value after [acc], their number
    after [n], and the rest. *)
Fixpoint scan (digit : ascii -> option Z) (base acc : Z) (n : nat) (s : string)
    : Z * nat * string :=
  match s with
  | EmptyString => (acc, n, s)
  | String c s' =>
      match digit c with
      | Some d => scan digit base (acc * base + d) (S n) s'
      | None => (acc, n, s)
      end
  end.

(** Digits with at most one point among them: their value, how many come after
    the point, and the rest; [None] without a digit. *)
Definition mantissa (digit : ascii -> option Z) (base : Z) (s : string)
    : option (Z * nat * string) :=
  let '(whole, n, rest) := scan digit base 0 0 s in
  match rest with
  | String "." rest' =>
      let '(m, k, rest') := scan digit base whole 0 rest' in
      if (n + k =? 0)%nat then None else Some (m, k, rest')
  | _ => if (n =? 0)%nat then None else Some (whole, 0%nat, rest)
  end.

(** An exponent after one of two letters; 0 when there is none. *)
Definition exponent (lower upper : ascii) (s : string) : Z :=
  match s with
  | String c s' =>
      if Ascii.eqb c lower || Ascii.eqb c upper then
        let '(neg, digits) :=
          match s' with
          | String "-" s'' => (true, s'')
          | String "+" s'' => (false, s'')
          | _ => (false, s')
          end in
        let '(e, n, _) := scan digit_value 10 0 0 digits in
        if (n =? 0)%nat then 0 else if neg : bool then - e else e
      else 0
  | EmptyString => 0
  end.

(** [m * 10^e], correctly rounded. *)
Definition round_decimal (m e : Z) : float :=
  if m =? 0 then f32_zero
  else if 0 <=? e then f32_of_Z (m * 10 ^ e)
  else
    let '(q, e', l) := SFdiv_core_binary 24 128 m 0 (10 ^ (- e)) 0 in
    binary_round_aux 24 128 false q e' l.

Definition lower_ascii (c : ascii) : ascii :=
  let n := N_of_ascii c in
  if (65 <=? n)%N && (n <=? 90)%N then ascii_of_N (n + 32) else c.

(** Whether [s] starts with [p], a lower-case text, ignoring case. *)
Fixpoint starts_with (p s : string) : bool :=
  match p, s with
  | EmptyString, _ => true
  | String a p', String b s' => Ascii.eqb a (lower_ascii b) && starts_with p' s'
  | _, _ => false
  end.

(** A number without its sign. *)
Definition unsigned_float (s : string) : option float :=
  if starts_with "inf" s then Some (S754_infinity false)
  else if starts_with "nan" s then Some S754_nan
  else
    let hexadecimal :=
      if starts_with "0x" s then mantissa hex_value 16 (String.substring 2 (String.length s - 2) s)
      else None in
    match hexadecimal with
    | Some (m, k, rest) =>
        Some (binary_normalize 24 128 m (exponent "p" "P" rest - 4 * Z.of_nat k) false)
    | None =>
        match mantissa digit_value 10 s with
        | Some (m, k, rest) => Some (round_decimal m (exponent "e" "E" rest - Z.of_nat k))
        | None => None
        end
    end.

(** [strtof]; [None] when nothing is converted and [end] stays at the start. *)
Definition strtof (s : string) : option float :=
  match skip_spaces s with
  | String "-" s' => SFopp <$> unsigned_float s'
  | String "+" s' => unsigned_float s'
  | s' => unsigned_float s'
  end.

Example strtof_point : strtof "0.25" = Some (lit32 1 4).
Proof. reflexivity. Qed.
Example strtof_tenth : strtof "  -.1e0x" = Some (SFopp (lit32 1 10)).
Proof. reflexivity. Qed.
Example strtof_hex : strtof "0x1.8p1" = Some (f32_of_Z 3).
Proof. reflexivity. Qed.
Example strtof_zero_x : strtof "0xg" = Some f32_zero.
Proof. reflexivity. Qed.
Example strtof_overflow : strtof "1e39" = Some (S754_infinity false).
Proof. reflexivity. Qed.
Example strtof_smallest : strtof "1e-45" = Some (S754_finite false 1 (-149)).
Proof. reflexivity. Qed.
Example strtof_none : strtof "speed" = None.
Proof. reflexivity. Qed.

(** ** Whole numbers *)

Definition all_digits (s : string) : Prop :=
  Forall (fun c => is_Some (digit_value c)) (list_ascii_of_string s).

Lemma scan_all_digits s : forall acc n,
  all_digits s -> scan digit_value 10 acc n s = (digits acc s, (n + String.length s)%nat, EmptyString).
Proof.
  induction s as [|c s IH]; intros acc n Hs; cbn [scan digits String.length].
  - by rewrite Nat.add_0_r.
  - apply Forall_cons_1 in Hs as [[d Hd] Hs]. rewrite Hd, IH by done. do 2 f_equal. lia.
Qed.

Lemma all_digits_pretty_go x s : all_digits s -> all_digits (pretty_N_go x s).
Proof.
  revert s. induction (N.lt_wf_0 x) as [x _ IH]; intros s Hs.
  assert (x = 0 \/ 0 < x)%N as [->|Hx] by lia; [by rewrite pretty_N_go_0|].
  rewrite pretty_N_go_step by done. apply IH; [by apply N.div_lt|].
  apply Forall_cons. split; [|done]. rewrite digit_value_pretty by (by apply N.mod_lt). by eexists.
Qed.

Lemma all_digits_to_string n : 0 <= n -> all_digits (to_string n).
Proof.
  intros Hn. rewrite to_string_N by done. unfold pretty, pretty_N. case_decide.
  - repeat constructor. by eexists.
  - apply all_digits_pretty_go. constructor.
Qed.

(** No letter, sign or space is a digit. *)
Lemma digit_not_letter c :
  is_Some (digit_value c) ->
  Ascii.eqb "i" (lower_ascii c) = false /\ Ascii.eqb "n" (lower_ascii c) = false /\
  Ascii.eqb "x" (lower_ascii c) = false /\ isspace c = false /\ c <> "-"%char /\ c <> "+"%char.
Proof. destruct c as [[] [] [] [] [] [] [] []]; intros [d Hd]; (discriminate Hd || done). Qed.

Lemma unsigned_float_digits c s :
  all_digits (String c s) ->
  unsigned_float (String c s) = Some (round_decimal (digits 0 (String c s)) 0).
Proof.
  intros Hs. unfold unsigned_float. cbn [starts_with].
  pose proof Hs as [Hc Hs']%Forall_cons_1. destruct (digit_not_letter c Hc) as (-> & -> & _).
  cbn [andb].
  assert (Hx : Ascii.eqb "0" (lower_ascii c) &&
    (match s with String b s'' => Ascii.eqb "x" (lower_ascii b) && true | _ => false end) = false).
  { apply andb_false_iff. right. destruct s as [|b s]; [done|].
    apply Forall_cons_1 in Hs' as [Hb _]. by destruct (digit_not_letter b Hb) as (_ & _ & -> & _). }
  rewrite Hx. unfold mantissa. rewrite scan_all_digits by done. done.
Qed.

(** A whole number as text is the [float] nearest to it. *)
Lemma strtof_to_string n : 0 <= n -> strtof (to_string n) = Some (f32_of_Z n).
Proof.
  intros Hn. pose proof (all_digits_to_string n Hn) as Hd.
  pose proof (scan_number_to_string n Hn) as Hv. pose proof (to_string_nonempty n Hn) as Hne.
  destruct (to_string n) as [|c s] eqn:E; [done|].
  pose proof Hd as [Hc _]%Forall_cons_1. destruct (digit_not_letter c Hc) as (_ & _ & _ & Hsp & H1 & H2).
  assert (Hs : strtof (String c s) = unsigned_float (String c s)).
  { unfold strtof. cbn [skip_spaces]. rewrite Hsp.
    destruct c as [[] [] [] [] [] [] [] []]; done. }
  rewrite Hs, unsigned_float_digits by done.
  rewrite scan_number_digits in Hv by done. apply (f_equal snd) in Hv. cbn [snd] in Hv. rewrite Hv.
  unfold round_decimal.
  destruct (Z.eqb_spec n 0) as [->|]; [done|]. cbn [Z.leb Z.compare]. by rewrite Z.pow_0_r, Z.mul_1_r.
Qed.
