(* ===== verification/Address.v ===== *)
(** * Socket addresses ([net::Address] of [common/net/include/net/socket.h])

    An IPv4 address and port, with the ordering that makes it the key of a
    [std::map], and its text form. *)

From Stdlib Require Import ZArith Lia Strings.String.
From stdpp Require Import base list option strings countable.
From S2P Require Import Prelude Config.

Open Scope Z_scope.

Record Address := mkAddress { ip : Z; port : Z }.

Definition default_address : Address := mkAddress 0 0.

(** [operator==] and [operator<]. *)
Definition address_eqb (a b : Address) : bool := (ip a =? ip b) && (port a =? port b).
Definition address_ltb (a b : Address) : bool :=
  if negb (ip a =? ip b) then ip a <? ip b else port a <? port b.

Definition address_toString (a : Address) : string :=
  to_string (Z.land (Z.shiftr (ip a) 24) 0xFF) +:+ "." +:+
  to_string (Z.land (Z.shiftr (ip a) 16) 0xFF) +:+ "." +:+
  to_string (Z.land (Z.shiftr (ip a) 8) 0xFF) +:+ "." +:+
  to_string (Z.land (ip a) 0xFF) +:+ ":" +:+ to_string (port a).

Global Instance Address_eq_dec : EqDecision Address.
Proof. solve_decision. Defined.

Global Instance Address_countable : Countable Address.
Proof.
  refine (inj_countable' (fun a => (ip a, port a)) (fun p => mkAddress p.1 p.2) _).
  by intros [].
Defined.

Lemma address_eqb_eq a b : address_eqb a b = true <-> a = b.
Proof.
  unfold address_eqb. rewrite andb_true_iff, !Z.eqb_eq. destruct a, b; simpl.
  split; [by intros [-> ->]|by intros [= -> ->]].
Qed.

(** The ordering a [std::map] key needs: irreflexive, transitive, and two
    incomparable addresses are equal. *)
Lemma address_ltb_irrefl a : address_ltb a a = false.
Proof. unfold address_ltb. rewrite Z.eqb_refl. apply Z.ltb_irrefl. Qed.

Lemma address_ltb_iff a b :
  address_ltb a b = true <-> ip a < ip b \/ (ip a = ip b /\ port a < port b).
Proof.
  unfold address_ltb. destruct (Z.eqb_spec (ip a) (ip b)); simpl; rewrite Z.ltb_lt; lia.
Qed.

Lemma address_ltb_trans a b c :
  address_ltb a b = true -> address_ltb b c = true -> address_ltb a c = true.
Proof. rewrite !address_ltb_iff. lia. Qed.

Lemma address_ltb_total a b :
  address_ltb a b = false -> address_ltb b a = false -> a = b.
Proof.
  rewrite <- !not_true_iff_false, !address_ltb_iff. intros H1 H2.
  apply address_eqb_eq. unfold address_eqb. rewrite andb_true_iff, !Z.eqb_eq. lia.
Qed.
