(* ===== verification/TcpServer.v ===== *)
(** * The poll-driven TCP server ([server/common/src/tcp_server.cpp])

    The connection map, the deferred close list and the id counter of
    [TcpServer], and [poll] as a function on the state of the application
    that owns the server: the callbacks are functions on that state, which
    the class [HasServer] relates to the server inside it. What the kernel
    reports to one poll (the sockets [accept] returns until it would block,
    and the handles found readable) is an argument. *)

From Stdlib Require Import ZArith Lia Strings.Byte.
From stdpp Require Import base list option gmap sorting.
From S2P Require Import Prelude ByteStream Framing Address.

Open Scope Z_scope.

Abbreviation ConnectionId := Z (only parsing).

Record Connection := mkConnection {
  cn_stream : MessageStream;
  cn_peer : Address;
}.

Record TcpServer := mkServer {
  mConnections : gmap ConnectionId Connection;
  mClosing : list ConnectionId;
  mNextId : ConnectionId;
}.

Definition new_server : TcpServer := mkServer ∅ [] 1.

(** ** The operations a handler may use *)

Definition set_stream (id : ConnectionId) (stream : MessageStream) (s : TcpServer) : TcpServer :=
  mkServer (alter (fun c => mkConnection stream (cn_peer c)) id (mConnections s))
    (mClosing s) (mNextId s).

Definition server_send (id : ConnectionId) (type : Z) (payload : list byte) (s : TcpServer)
    : TcpServer :=
  match mConnections s !! id with
  | None => s
  | Some c => set_stream id (send (cn_stream c) type payload) s
  end.

Definition closeConnection (id : ConnectionId) (s : TcpServer) : TcpServer :=
  mkServer (mConnections s) (mClosing s ++ [id]) (mNextId s).

Definition peer (id : ConnectionId) (s : TcpServer) : option Address :=
  cn_peer <$> mConnections s !! id.

Definition connectionCount (s : TcpServer) : nat := size (mConnections s).

(** What handlers do to the server: any sequence of sends and closes. *)
Inductive uses : TcpServer -> TcpServer -> Prop :=
| uses_refl s : uses s s
| uses_send id type payload s s' :
    uses (server_send id type payload s) s' -> uses s s'
| uses_close id s s' : uses (closeConnection id s) s' -> uses s s'.

Lemma uses_trans s1 s2 s3 : uses s1 s2 -> uses s2 s3 -> uses s1 s3.
Proof. induction 1; eauto using uses. Qed.

Lemma uses_one_send id type payload s : uses s (server_send id type payload s).
Proof. eapply uses_send, uses_refl. Qed.
Lemma uses_one_close id s : uses s (closeConnection id s).
Proof. eapply uses_close, uses_refl. Qed.

Create HintDb server.
#[export] Hint Resolve uses_refl uses_trans uses_one_send uses_one_close : server.

(** ** What handlers leave alone *)

(** Sends and closes keep the connections, their peers and unread bytes, and
    the id counter; the close list only grows. *)
Definition same_streams (s s' : TcpServer) : Prop :=
  mNextId s' = mNextId s /\ mClosing s `prefix_of` mClosing s' /\
  forall id, (fun c => (cn_peer c, ms_readBuffer (cn_stream c), sk_rx (ms_socket (cn_stream c))))
               <$> mConnections s' !! id
           = (fun c => (cn_peer c, ms_readBuffer (cn_stream c), sk_rx (ms_socket (cn_stream c))))
               <$> mConnections s !! id.

Lemma server_send_same id type payload s : same_streams s (server_send id type payload s).
Proof.
  unfold server_send. destruct (mConnections s !! id) as [c|] eqn:E; [|by repeat split].
  split_and!; [done|done|]. intros id'. cbn [set_stream mConnections].
  destruct (decide (id = id')) as [<-|Hne].
  - rewrite lookup_alter, decide_True, E by done. cbn [fmap option_fmap option_map cn_peer cn_stream].
    destruct (send_keeps_input (cn_stream c) type payload) as [-> ->]. done.
  - by rewrite lookup_alter_ne.
Qed.

Lemma same_streams_trans s1 s2 s3 :
  same_streams s1 s2 -> same_streams s2 s3 -> same_streams s1 s3.
Proof.
  intros (H1 & H2 & H3) (H4 & H5 & H6). split_and!; [congruence|by etrans|].
  intros id. by rewrite H6, H3.
Qed.

Lemma uses_same s s' : uses s s' -> same_streams s s'.
Proof.
  induction 1 as [s|id type payload s s' _ IH|id s s' _ IH].
  - by repeat split.
  - eapply same_streams_trans; [apply server_send_same|done].
  - eapply same_streams_trans; [|done]. split_and!; [done| |done].
    by apply prefix_app_r.
Qed.

(** ** [poll] *)

(** What the kernel answers to one poll. *)
Record Events := mkEvents {
  ev_accepted : list (Socket * Address);
  ev_readable : list ConnectionId;
}.

(** The state of a program that owns a server. *)
Class HasServer (St : Type) := {
  server : St -> TcpServer;
  set_server : TcpServer -> St -> St;
  server_set : forall s st, server (set_server s st) = s;
}.

Definition on_server {St} `{HasServer St} (f : TcpServer -> TcpServer) (st : St) : St :=
  set_server (f (server st)) st.

Lemma server_on_server {St} `{HasServer St} f (st : St) :
  server (on_server f st) = f (server st).
Proof. unfold on_server. apply server_set. Qed.

Section Poll.
Context {St : Type} `{HasServer St}.
Variable onConnect : ConnectionId -> Address -> St -> St.
Variable onMessage : ConnectionId -> Z -> list byte -> St -> St.
Variable onDisconnect : ConnectionId -> St -> St.

(** Registers one accepted socket; [emplace] keeps an existing entry. *)
Definition register (accepted : Socket * Address) (s : TcpServer) : TcpServer :=
  let id := mNextId s in
  mkServer
    (match mConnections s !! id with
     | Some _ => mConnections s
     | None => <[id := mkConnection (new_stream accepted.1) accepted.2]> (mConnections s)
     end) (mClosing s) (u64 (id + 1)).

Definition accept_one (st : St) (accepted : Socket * Address) : St :=
  onConnect (mNextId (server st)) accepted.2 (on_server (register accepted) st).

(** [while (stream.next(&message)) ...]. Each turn takes a frame off the read
    buffer, so its length is enough fuel (see [dispatch_drains]). *)
Fixpoint message_loop (fuel : nat) (id : ConnectionId) (st : St) : St :=
  match fuel with
  | O => st
  | S fuel' =>
      match mConnections (server st) !! id with
      | None => st
      | Some c =>
          match next (cn_stream c) with
          | None => st
          | Some (m, stream) =>
              let st := onMessage id (msg_type m) (msg_payload m)
                (on_server (set_stream id stream) st) in
              match mConnections (server st) !! id with
              | None => st
              | Some _ => message_loop fuel' id st
              end
          end
      end
  end.

(** One readable connection: pump it, then dispatch its messages. *)
Definition dispatch (id : ConnectionId) (st : St) : St :=
  match mConnections (server st) !! id with
  | None => st
  | Some c =>
      let '(ok, stream) := pump (cn_stream c) in
      let st := on_server (set_stream id stream) st in
      if negb ok then on_server (closeConnection id) st
      else message_loop (length (ms_readBuffer stream)) id st
  end.

Definition dispatch_if (readable : list ConnectionId) (st : St) (id : ConnectionId) : St :=
  if bool_decide (id ∈ readable) then dispatch id st else st.

(** One entry of the deferred close list. *)
Definition close_one (st : St) (id : ConnectionId) : St :=
  match mConnections (server st) !! id with
  | None => st
  | Some _ =>
      on_server (fun s => mkServer (delete id (mConnections s)) (mClosing s) (mNextId s))
        (onDisconnect id st)
  end.

Definition poll (ev : Events) (st : St) : St :=
  let ids := map_keys (mConnections (server st)) in
  let st := foldl accept_one st (ev_accepted ev) in
  let st := foldl (dispatch_if (ev_readable ev)) st ids in
  let st := foldl close_one st (mClosing (server st)) in
  on_server (fun s => mkServer (mConnections s) [] (mNextId s)) st.

(** ** What a poll preserves *)

Lemma poll_preserves (P : St -> Prop) ev st :
  (forall s st, P st -> P (set_server s st)) ->
  (forall id a st, P st -> P (onConnect id a st)) ->
  (forall id type payload st, P st -> P (onMessage id type payload st)) ->
  (forall id st, P st -> P (onDisconnect id st)) ->
  P st -> P (poll ev st).
Proof.
  intros Hset Hc Hm Hd.
  assert (Hfold : forall {A} (f : St -> A -> St) l st,
    (forall st a, P st -> P (f st a)) -> P st -> P (foldl f st l)).
  { intros A f l. induction l as [|a l IH]; intros st0 Hf H0; [done|]. simpl. auto. }
  assert (Hloop : forall fuel id st, P st -> P (message_loop fuel id st)).
  { induction fuel as [|fuel IH]; intros id st0 H0; [done|]. cbn [message_loop].
    unfold on_server. repeat case_match; auto. }
  intros Hst. unfold poll, on_server. apply Hset, Hfold; [|apply Hfold; [|apply Hfold; [|done]]].
  - intros st0 id H0. unfold close_one, on_server. case_match; auto.
  - intros st0 id H0. unfold dispatch_if, dispatch, on_server.
    repeat case_match; auto.
  - intros st0 a H0. unfold accept_one, on_server. auto.
Qed.

(** ** Dispatch: every complete message, once, in order *)

(** [handled id ms st st']: the handler was called for exactly the messages
    [ms] of connection [id], each taken off the read buffer in turn. *)
Inductive handled (id : ConnectionId) : list Message -> St -> St -> Prop :=
| handled_nil st : handled id [] st st
| handled_cons m ms st c stream st' :
    mConnections (server st) !! id = Some c ->
    next (cn_stream c) = Some (m, stream) ->
    handled id ms (onMessage id (msg_type m) (msg_payload m)
      (on_server (set_stream id stream) st)) st' ->
    handled id (m :: ms) st st'.

Definition handler_ok (f : St -> St) : Prop := forall st, uses (server st) (server (f st)).

Hypothesis message_uses : forall id type payload, handler_ok (onMessage id type payload).

Lemma set_stream_lookup id stream s c :
  mConnections s !! id = Some c ->
  mConnections (set_stream id stream s) !! id = Some (mkConnection stream (cn_peer c)).
Proof. intros E. cbn [set_stream mConnections]. by rewrite lookup_alter, decide_True, E. Qed.

(** The handler leaves the rest of the connection's read buffer in place. *)
Lemma handler_keeps_buffer id id' type payload stream st c :
  mConnections (server st) !! id = Some c ->
  exists c', mConnections (server (onMessage id' type payload
      (on_server (set_stream id stream) st))) !! id = Some c' /\
    ms_readBuffer (cn_stream c') = ms_readBuffer stream.
Proof.
  intros E. pose proof (uses_same _ _ (message_uses id' type payload
    (on_server (set_stream id stream) st))) as (_ & _ & Hs).
  specialize (Hs id). rewrite server_on_server, (set_stream_lookup _ _ _ _ E) in Hs.
  destruct (mConnections (server (onMessage id' type payload _)) !! id) as [c'|]; [|done].
  exists c'. cbn [fmap option_fmap option_map cn_stream] in Hs. split; congruence.
Qed.

Lemma message_loop_spec fuel : forall id st c,
  mConnections (server st) !! id = Some c ->
  (length (ms_readBuffer (cn_stream c)) <= fuel)%nat ->
  handled id (drain (ms_readBuffer (cn_stream c))).1 st (message_loop fuel id st) /\
  exists c', mConnections (server (message_loop fuel id st)) !! id = Some c' /\
    ms_readBuffer (cn_stream c') = (drain (ms_readBuffer (cn_stream c))).2.
Proof.
  induction fuel as [|fuel IH]; intros id st c E Hl; cbn [message_loop].
  - destruct (ms_readBuffer (cn_stream c)) as [|b bs] eqn:Eb; [|simpl in Hl; lia].
    split; [constructor|]. by exists c.
  - rewrite E. unfold next. rewrite drain_step.
    destruct (next_message (ms_readBuffer (cn_stream c))) as [[m rest]|] eqn:En;
      [|split; [constructor|by exists c]].
    set (stream := mkStream _ rest _ _).
    destruct (handler_keeps_buffer id id (msg_type m) (msg_payload m) stream st c E)
      as (c1 & E1 & Hb). cbn [ms_readBuffer stream] in Hb. rewrite E1.
    destruct (IH id _ c1 E1) as [Hh Hr].
    { rewrite Hb. apply next_message_inv in En as [En _].
      rewrite En, length_app, length_frame in Hl. unfold kHeaderSize in Hl. lia. }
    rewrite Hb in Hh, Hr. destruct (drain rest) as [ms r]. split; [|done].
    eapply handled_cons; [done| |done]. unfold next. by rewrite En.
Qed.

Lemma dispatch_pumped id st c stream :
  mConnections (server st) !! id = Some c ->
  pump (cn_stream c) = (true, stream) ->
  handled id (drain (ms_readBuffer stream)).1 (on_server (set_stream id stream) st)
    (dispatch id st) /\
  exists c', mConnections (server (dispatch id st)) !! id = Some c' /\
    ms_readBuffer (cn_stream c') = (drain (ms_readBuffer stream)).2.
Proof.
  intros E Hp. unfold dispatch. rewrite E, Hp. cbn [negb].
  apply (message_loop_spec _ id _ (mkConnection stream (cn_peer c))); [|done].
  rewrite server_on_server. by apply set_stream_lookup.
Qed.

(** ** The lifetime of a connection *)

Hypothesis connect_uses : forall id a, handler_ok (onConnect id a).
Hypothesis disconnect_uses : forall id, handler_ok (onDisconnect id).

(** Along a run the id counter grows, and a connection is an earlier one with
    its peer, or one whose id was given out on the way. *)
Definition evolves (s s' : TcpServer) : Prop :=
  mNextId s <= mNextId s' /\
  forall id c', mConnections s' !! id = Some c' ->
    (exists c, mConnections s !! id = Some c /\ cn_peer c = cn_peer c') \/
    mNextId s <= id < mNextId s'.

Lemma evolves_refl s : evolves s s.
Proof. split; [lia|]. eauto. Qed.

Lemma evolves_trans s1 s2 s3 : evolves s1 s2 -> evolves s2 s3 -> evolves s1 s3.
Proof.
  intros [H1 H2] [H3 H4]. split; [lia|]. intros id c3 E3.
  destruct (H4 id c3 E3) as [(c2 & E2 & Hp)|]; [|right; lia].
  destruct (H2 id c2 E2) as [(c1 & E1 & Hp1)|]; [|right; lia].
  left. exists c1. split; [done|congruence].
Qed.

Lemma same_evolves s s' : same_streams s s' -> evolves s s'.
Proof.
  intros (H1 & _ & H3). split; [lia|]. intros id c' E. left.
  specialize (H3 id). rewrite E in H3. destruct (mConnections s !! id) as [c|]; [|done].
  exists c. cbn [fmap option_fmap option_map] in H3. split; [done|congruence].
Qed.

Lemma uses_evolves s s' : uses s s' -> evolves s s'.
Proof. intros. by apply same_evolves, uses_same. Qed.

Lemma set_stream_evolves id stream s : evolves s (set_stream id stream s).
Proof.
  split; [cbn; lia|]. intros id' c'. cbn [set_stream mConnections].
  destruct (decide (id = id')) as [<-|Hne].
  - rewrite lookup_alter, decide_True by done. destruct (mConnections s !! id) as [c|]; [|done].
    intros [= <-]. eauto.
  - rewrite lookup_alter_ne by done. eauto.
Qed.

Lemma register_evolves a s : mNextId s + 1 < 2 ^ 64 -> 0 <= mNextId s -> evolves s (register a s).
Proof.
  intros Hn H0. unfold register, evolves. cbn [mNextId mConnections].
  rewrite wrap_id by (unfold fits; lia). split; [lia|]. intros id c'.
  destruct (mConnections s !! mNextId s) eqn:E; [by eauto|].
  destruct (decide (id = mNextId s)) as [->|Hne]; [right; lia|].
  rewrite lookup_insert_ne by done. eauto.
Qed.

Lemma accept_evolves accepted : forall st,
  0 <= mNextId (server st) ->
  mNextId (server st) + Z.of_nat (length accepted) < 2 ^ 64 ->
  let st' := foldl accept_one st accepted in
  evolves (server st) (server st') /\
  mNextId (server st') = mNextId (server st) + Z.of_nat (length accepted).
Proof.
  induction accepted as [|a accepted IH]; intros st H0 Hn; cbn [foldl length].
  - split; [apply evolves_refl|lia].
  - cbn [length] in Hn.
    assert (Hu : uses (register a (server st)) (server (accept_one st a))).
    { unfold accept_one. rewrite <- (server_on_server (register a) st). apply connect_uses. }
    assert (Hr : mNextId (register a (server st)) = mNextId (server st) + 1).
    { unfold register. cbn [mNextId]. apply wrap_id. unfold fits. lia. }
    assert (Hid : mNextId (server (accept_one st a)) = mNextId (server st) + 1).
    { destruct (uses_same _ _ Hu) as (Hi & _). lia. }
    destruct (IH (accept_one st a)) as [He Hl]; [lia|lia|]. split; [|lia].
    eapply evolves_trans; [|apply He].
    eapply evolves_trans; [apply (register_evolves a); lia|by apply uses_evolves].
Qed.

Lemma message_loop_evolves fuel : forall id st,
  evolves (server st) (server (message_loop fuel id st)) /\
  mNextId (server (message_loop fuel id st)) = mNextId (server st).
Proof.
  induction fuel as [|fuel IH]; intros id st; cbn [message_loop];
    [split; [apply evolves_refl|done]|].
  destruct (mConnections (server st) !! id) as [c|]; [|split; [apply evolves_refl|done]].
  destruct (next (cn_stream c)) as [[m stream]|]; [|split; [apply evolves_refl|done]].
  set (st1 := onMessage _ _ _ _).
  assert (H1 : evolves (server st) (server st1) /\ mNextId (server st1) = mNextId (server st)).
  { pose proof (message_uses id (msg_type m) (msg_payload m)
      (on_server (set_stream id stream) st)) as Hu. rewrite server_on_server in Hu.
    split.
    - eapply evolves_trans; [apply (set_stream_evolves id stream)|by apply uses_evolves].
    - by apply uses_same in Hu as (Hu & _). }
  destruct (mConnections (server st1) !! id); [|done]. destruct (IH id st1) as [H2 H3].
  split; [by eapply evolves_trans; [apply H1|]|]. destruct H1. congruence.
Qed.

Lemma dispatch_evolves id st :
  evolves (server st) (server (dispatch id st)) /\
  mNextId (server (dispatch id st)) = mNextId (server st).
Proof.
  unfold dispatch. destruct (mConnections (server st) !! id) as [c|];
    [|split; [apply evolves_refl|done]].
  destruct (pump (cn_stream c)) as [ok stream]. destruct ok; cbn [negb].
  - destruct (message_loop_evolves (length (ms_readBuffer stream)) id
      (on_server (set_stream id stream) st)) as [H1 H2].
    rewrite server_on_server in H1, H2. split; [|done].
    eapply evolves_trans; [apply set_stream_evolves|done].
  - rewrite !server_on_server. split; [|done].
    eapply evolves_trans; [apply set_stream_evolves|]. apply uses_evolves. auto with server.
Qed.

Lemma dispatch_all_evolves readable ids : forall st,
  evolves (server st) (server (foldl (dispatch_if readable) st ids)) /\
  mNextId (server (foldl (dispatch_if readable) st ids)) = mNextId (server st).
Proof.
  induction ids as [|id ids IH]; intros st; cbn [foldl]; [split; [apply evolves_refl|done]|].
  destruct (IH (dispatch_if readable st id)) as [H1 H2]. unfold dispatch_if in *.
  case_bool_decide; [|done]. destruct (dispatch_evolves id st) as [H3 H4].
  split; [by eapply evolves_trans|congruence].
Qed.

Lemma close_one_spec id st :
  evolves (server st) (server (close_one st id)) /\
  mNextId (server (close_one st id)) = mNextId (server st) /\
  mConnections (server (close_one st id)) !! id = None /\
  (forall id', id' <> id -> is_Some (mConnections (server (close_one st id)) !! id') <->
    is_Some (mConnections (server st) !! id')).
Proof.
  unfold close_one. destruct (mConnections (server st) !! id) as [c|] eqn:E.
  - rewrite server_on_server. pose proof (disconnect_uses id st) as Hu.
    apply uses_same in Hu as Hs. destruct Hs as (Hi & _ & Hs).
    split_and!; [|done|cbn; by rewrite lookup_delete, decide_True|].
    + eapply evolves_trans; [by apply uses_evolves|].
      split; [cbn; lia|]. cbn [mConnections]. intros id' c' [_ E']%lookup_delete_Some. eauto.
    + intros id' Hne. cbn [mConnections]. rewrite lookup_delete_ne by done.
      specialize (Hs id'). split; intros [c' Ec']; rewrite Ec' in Hs.
      * by destruct (mConnections (server st) !! id').
      * by destruct (mConnections (server (onDisconnect id st)) !! id').
  - split_and!; [apply evolves_refl|done|done|done].
Qed.

Lemma close_all_spec ids : forall st,
  evolves (server st) (server (foldl close_one st ids)) /\
  mNextId (server (foldl close_one st ids)) = mNextId (server st) /\
  (forall id, is_Some (mConnections (server (foldl close_one st ids)) !! id) <->
    is_Some (mConnections (server st) !! id) /\ id ∉ ids).
Proof.
  induction ids as [|i ids IH]; intros st; cbn [foldl].
  - split_and!; [apply evolves_refl|done|].
    intros id. split; [intros Hc; split; [done|apply not_elem_of_nil]|tauto].
  - destruct (IH (close_one st i)) as (H1 & H2 & H3).
    destruct (close_one_spec i st) as (H4 & H5 & H6 & H7).
    split_and!; [by eapply evolves_trans|congruence|]. intros id. rewrite H3.
    rewrite not_elem_of_cons. destruct (decide (id = i)) as [->|Hne].
    + rewrite H6. split; [intros [[? ?] _]; done|tauto].
    + rewrite (H7 id Hne). tauto.
Qed.

(** Whatever happens in a poll, the server's map evolves, the counter advances
    by the number of sockets accepted, and no close is left pending. *)
Lemma poll_spec ev st :
  0 <= mNextId (server st) ->
  mNextId (server st) + Z.of_nat (length (ev_accepted ev)) < 2 ^ 64 ->
  evolves (server st) (server (poll ev st)) /\
  mNextId (server (poll ev st)) = mNextId (server st) + Z.of_nat (length (ev_accepted ev)) /\
  mClosing (server (poll ev st)) = [].
Proof.
  intros H0 Hn. unfold poll. rewrite server_on_server. cbn [mNextId mClosing].
  destruct (accept_evolves (ev_accepted ev) st H0 Hn) as [H1 H2].
  set (st1 := foldl accept_one st _) in *.
  destruct (dispatch_all_evolves (ev_readable ev) (map_keys (mConnections (server st))) st1)
    as [H3 H4].
  set (st2 := foldl (dispatch_if _) st1 _) in *.
  destruct (close_all_spec (mClosing (server st2)) st2) as (H5 & H6 & _).
  split_and!; [|congruence|done].
  eapply evolves_trans; [exact H1|]. eapply evolves_trans; [exact H3|]. exact H5.
Qed.

Definition polls_server (evs : list Events) (st : St) : St := foldl (fun st ev => poll ev st) st evs.

Lemma polls_server_spec evs : forall st,
  0 <= mNextId (server st) ->
  mNextId (server st) + Z.of_nat (sum_list_with (fun ev => length (ev_accepted ev)) evs)
    < 2 ^ 64 ->
  evolves (server st) (server (polls_server evs st)).
Proof.
  induction evs as [|ev evs IH]; intros st H0 Hn; [apply evolves_refl|].
  cbn [sum_list_with] in Hn. destruct (poll_spec ev st) as (H1 & H2 & _); [lia|lia|].
  eapply evolves_trans; [exact H1|]. apply IH; lia.
Qed.

(** ** Properties *)

(** A connection id is never reused. Once an id that has been given out is
    no longer in the map, no later poll, whatever the kernel reports and
    whatever the handlers do, puts a connection under it again: a message sent
    to the stale id reaches nobody and its peer is unknown. *)
Theorem ids_never_reused (evs : list Events) (st : St) (id : ConnectionId)
    (H0 : 0 <= mNextId (server st))
    (Hn : mNextId (server st)
      + Z.of_nat (sum_list_with (fun ev => length (ev_accepted ev)) evs) < 2 ^ 64)
    (Hgiven : id < mNextId (server st))
    (Hgone : mConnections (server st) !! id = None) :
  let s := server (polls_server evs st) in
  mConnections s !! id = None /\ peer id s = None /\
  forall type payload, server_send id type payload s = s.
Proof.
  intros s. destruct (polls_server_spec evs st H0 Hn) as [_ He]. fold s in He.
  assert (Hs : mConnections s !! id = None).
  { destruct (mConnections s !! id) as [c'|] eqn:E; [|done].
    destruct (He id c' E) as [(c & Ec & _)|]; [congruence|lia]. }
  split; [done|]. unfold peer, server_send. by rewrite Hs.
Qed.

(** C29: A readable connection is pumped once; when that succeeds the handler is
    called exactly once for every complete message in the buffer, in order of
    arrival, and the bytes of an incomplete message stay for the next poll --
    even when a handler asks for the connection to be closed. When the pump
    reports the end of the connection or an error nothing is dispatched, the
    messages that came with it included, and the connection is queued for
    closing. *)
Theorem dispatch_messages (st : St) (id : ConnectionId) (c : Connection)
    (Hc : mConnections (server st) !! id = Some c) :
  let '(ok, stream) := pump (cn_stream c) in
  let pumped := on_server (set_stream id stream) st in
  if ok then
    let '(messages, rest) := drain (ms_readBuffer stream) in
    handled id messages pumped (dispatch id st) /\
    exists c', mConnections (server (dispatch id st)) !! id = Some c' /\
      ms_readBuffer (cn_stream c') = rest
  else dispatch id st = on_server (closeConnection id) pumped.
Proof.
  destruct (pump (cn_stream c)) as [[] stream] eqn:Hp; cbn zeta.
  - pose proof (dispatch_pumped id st c stream Hc Hp) as Hd.
    by destruct (drain (ms_readBuffer stream)).
  - unfold dispatch. by rewrite Hc, Hp.
Qed.

(** Closing is deferred to the end of the poll and complete there: a
    connection is gone after a poll exactly when it was absent or queued for
    closing after the dispatch, so every close requested by a handler takes
    effect in the same poll and no other connection is dropped. *)
Theorem poll_closes (ev : Events) (st : St) (id : ConnectionId) :
  let dispatched := foldl (dispatch_if (ev_readable ev))
    (foldl accept_one st (ev_accepted ev)) (map_keys (mConnections (server st))) in
  is_Some (mConnections (server (poll ev st)) !! id) <->
  is_Some (mConnections (server dispatched) !! id) /\ id ∉ mClosing (server dispatched).
Proof.
  intros dispatched. unfold poll. rewrite server_on_server. cbn [mConnections].
  apply close_all_spec.
Qed.

End Poll.

(** ** An echo server *)

Global Instance echo_has_server : HasServer TcpServer :=
  {| server s := s; set_server s _ := s; server_set s st := eq_refl |}.

Definition echo (id : ConnectionId) (type : Z) (payload : list byte) (s : TcpServer)
  : TcpServer := server_send id type payload s.

Lemma echo_ok id type payload : handler_ok (echo id type payload).
Proof. intros s. apply uses_one_send. Qed.

Lemma ignore_ok : handler_ok (fun s : TcpServer => s).
Proof. intros s. apply uses_refl. Qed.

Definition echo_poll : Events -> TcpServer -> TcpServer :=
  poll (fun _ _ s => s) echo (fun _ s => s).

(** Two sockets arrive; the first sends a frame and is then shut down. *)
Definition echo_events : list Events :=
  [mkEvents [(mkSocket [RecvBytes (frame (mkMessage 1 [x01])); RecvError true; RecvBytes []]
                [SendCount 100] [], mkAddress 1 1000);
             (mkSocket [] [] [], mkAddress 2 2000)] [];
   mkEvents [] [1]; mkEvents [] [1]].

Lemma ids_never_reused_witness :
  mConnections (polls_server (fun _ _ s => s) echo (fun _ s => s)
    [mkEvents [(mkSocket [] [] [], mkAddress 3 3000)] []]
    (foldl (fun s ev => echo_poll ev s) new_server echo_events)) !! 1 = None.
Proof.
  apply (ids_never_reused (St := TcpServer) (fun _ _ s => s) echo (fun _ s => s)
    echo_ok (fun _ _ => ignore_ok) (fun _ => ignore_ok)
    [mkEvents [(mkSocket [] [] [], mkAddress 3 3000)] []]
    (foldl (fun s ev => echo_poll ev s) new_server echo_events) 1);
    vm_compute; (reflexivity || congruence).
Defined.

Lemma dispatch_messages_witness :
  let st := echo_poll (mkEvents (ev_accepted (mkEvents [(mkSocket
    [RecvBytes (frame (mkMessage 1 [x01]))] [SendCount 100] [], mkAddress 1 1000)] [])) [])
    new_server in
  exists c', mConnections (dispatch echo 1 st) !! 1 = Some c' /\
    ms_readBuffer (cn_stream c') = [].
Proof.
  intros st.
  exact (proj2 (dispatch_messages (St := TcpServer) echo echo_ok st 1
    (mkConnection (new_stream (mkSocket [RecvBytes (frame (mkMessage 1 [x01]))] [SendCount 100]
      [])) (mkAddress 1 1000)) eq_refl)).
Defined.

Lemma poll_closes_witness :
  is_Some (mConnections (echo_poll (mkEvents [] [1]) new_server) !! 1) <->
  is_Some (mConnections new_server !! 1) /\ 1 ∉ mClosing new_server.
Proof.
  exact (poll_closes (St := TcpServer) (fun _ _ s => s) echo (fun _ s => s)
    (fun _ => ignore_ok) (mkEvents [] [1]) new_server 1).
Defined.
