(* ===== verification/DbClient.v ===== *)
(** * Client of the database RPC ([server/common/src/db_client.cpp])

    Requests carry an id, the replies echo it. A callback is an element of a
    family [K] indexed by the call it answers, the closures of the program
    that owns the client in defunctionalised form; the class [DbCallbacks]
    gives their meaning as functions on that program's state. *)

From Stdlib Require Import ZArith Lia Strings.Byte Strings.String.
From stdpp Require Import base list option gmap sorting strings.
From S2P Require Import Prelude ByteStream Protocol Framing.
Import ByteWriter.

Open Scope Z_scope.

(** ** Calls and replies *)

(** The operations of [DbClient] that expect a reply. *)
Inductive DbCall :=
| CallLookupAccount | CallCreateAccount | CallDeleteAccount | CallCreateAccountWithLevel
| CallSetPermissionLevel | CallAdminExists | CallCreateSession | CallLookupSession
| CallDeleteSession.

Record AccountLookup := {
  al_found : bool;
  al_accountId : Z;
  al_passwordHash : string;
  al_permissionLevel : Z;
}.

Record SessionLookup := {
  sl_found : bool;
  sl_accountId : Z;
  sl_username : string;
  sl_permissionLevel : Z;
}.

Definition default_account : AccountLookup :=
  {| al_found := false; al_accountId := 0; al_passwordHash := ""; al_permissionLevel := 0 |}.
Definition default_session : SessionLookup :=
  {| sl_found := false; sl_accountId := 0; sl_username := ""; sl_permissionLevel := 0 |}.

(** What a callback is given besides [ok]. [None] is a result code outside
    the enumeration. *)
Definition Reply (c : DbCall) : Type :=
  match c with
  | CallLookupAccount => AccountLookup
  | CallCreateAccount | CallCreateAccountWithLevel => option DbResult * Z
  | CallAdminExists => bool
  | CallLookupSession => SessionLookup
  | CallDeleteAccount | CallSetPermissionLevel | CallCreateSession | CallDeleteSession =>
      option DbResult
  end.

(** What the callback is given when there is no reply. *)
Definition no_reply (c : DbCall) : Reply c :=
  match c with
  | CallLookupAccount => default_account
  | CallCreateAccount => (Some DbError, 0)
  | CallCreateAccountWithLevel => (Some DbError, 0)
  | CallAdminExists => false
  | CallLookupSession => default_session
  | CallDeleteAccount => Some DbError
  | CallSetPermissionLevel => Some DbError
  | CallCreateSession => Some DbError
  | CallDeleteSession => Some DbError
  end.

Definition response_type (c : DbCall) : Z :=
  db_message_code match c with
  | CallLookupAccount => AccountLookupResponse
  | CallCreateAccount | CallCreateAccountWithLevel => AccountCreateResponse
  | CallDeleteAccount => AccountDeleteResponse
  | CallSetPermissionLevel => AccountSetLevelResponse
  | CallAdminExists => AdminExistsResponse
  | CallCreateSession => SessionCreateResponse
  | CallLookupSession => SessionLookupResponse
  | CallDeleteSession => SessionDeleteResponse
  end.

(** The fields of a reply, after the request id. *)
Definition read_account : Reader AccountLookup :=
  found <-- r_u8 ;; accountId <-- r_u64 ;; passwordHash <-- r_string ;;
  permissionLevel <-- r_u8 ;;
  rret {| al_found := negb (found =? 0); al_accountId := accountId;
          al_passwordHash := passwordHash; al_permissionLevel := permissionLevel |}.

Definition read_session : Reader SessionLookup :=
  found <-- r_u8 ;; accountId <-- r_u64 ;; username <-- r_string ;;
  permissionLevel <-- r_u8 ;;
  rret {| sl_found := negb (found =? 0); sl_accountId := accountId;
          sl_username := username; sl_permissionLevel := permissionLevel |}.

Definition read_created : Reader (option DbResult * Z) :=
  result <-- r_u8 ;; accountId <-- r_u64 ;; rret (db_result_of result, accountId).

Definition read_result : Reader (option DbResult) :=
  result <-- r_u8 ;; rret (db_result_of result).

Definition read_exists : Reader bool := e <-- r_u8 ;; rret (negb (e =? 0)).

Definition read_reply (c : DbCall) : Reader (Reply c) :=
  match c with
  | CallLookupAccount => read_account
  | CallCreateAccount => read_created
  | CallCreateAccountWithLevel => read_created
  | CallAdminExists => read_exists
  | CallLookupSession => read_session
  | CallDeleteAccount => read_result
  | CallSetPermissionLevel => read_result
  | CallCreateSession => read_result
  | CallDeleteSession => read_result
  end.

(** The handler each method registers: the flag and reply its callback gets
    for a message (or, with [ok] false, for a lost connection). *)
Definition handler_reply (c : DbCall) (ok : bool) (type : Z) (data : list byte)
    : bool * Reply c :=
  if negb ok || negb (type =? response_type c) then (false, no_reply c)
  else
    let '(reply, reader) := (_ <-- r_u32 ;; read_reply c) (open_reader data) in
    (negb (failed reader), reply).

(** ** Requests *)

Inductive Request :=
| ReqLookupAccount (username : string)
| ReqCreateAccount (username passwordHash : string)
| ReqDeleteAccount (username : string)
| ReqCreateAccountWithLevel (username passwordHash : string) (level : Z)
| ReqSetPermissionLevel (username : string) (level : Z)
| ReqAdminExists
| ReqCreateSession (accountId : Z) (token : string) (ttlSeconds : Z)
| ReqLookupSession (token : string)
| ReqDeleteSession (token : string).

Definition call_of (r : Request) : DbCall :=
  match r with
  | ReqLookupAccount _ => CallLookupAccount
  | ReqCreateAccount _ _ => CallCreateAccount
  | ReqDeleteAccount _ => CallDeleteAccount
  | ReqCreateAccountWithLevel _ _ _ => CallCreateAccountWithLevel
  | ReqSetPermissionLevel _ _ => CallSetPermissionLevel
  | ReqAdminExists => CallAdminExists
  | ReqCreateSession _ _ _ => CallCreateSession
  | ReqLookupSession _ => CallLookupSession
  | ReqDeleteSession _ => CallDeleteSession
  end.

Definition request_type (r : Request) : Z :=
  db_message_code match r with
  | ReqLookupAccount _ => AccountLookupRequest
  | ReqCreateAccount _ _ => AccountCreateRequest
  | ReqDeleteAccount _ => AccountDeleteRequest
  | ReqCreateAccountWithLevel _ _ _ => AccountCreateWithLevelRequest
  | ReqSetPermissionLevel _ _ => AccountSetLevelRequest
  | ReqAdminExists => AdminExistsRequest
  | ReqCreateSession _ _ _ => SessionCreateRequest
  | ReqLookupSession _ => SessionLookupRequest
  | ReqDeleteSession _ => SessionDeleteRequest
  end.

Definition write_request (r : Request) (payload : list byte) : list byte :=
  match r with
  | ReqLookupAccount username => w_string username payload
  | ReqCreateAccount username passwordHash =>
      w_string passwordHash (w_string username payload)
  | ReqDeleteAccount username => w_string username payload
  | ReqCreateAccountWithLevel username passwordHash level =>
      w_u8 level (w_string passwordHash (w_string username payload))
  | ReqSetPermissionLevel username level => w_u8 level (w_string username payload)
  | ReqAdminExists => payload
  | ReqCreateSession accountId token ttlSeconds =>
      w_u32 ttlSeconds (w_string token (w_u64 accountId payload))
  | ReqLookupSession token => w_string token payload
  | ReqDeleteSession token => w_string token payload
  end.

Definition request_payload (requestId : Z) (r : Request) : list byte :=
  write_request r (w_u32 requestId []).

(** ** The client *)

(** A registered handler: the call it answers and its callback. *)
Record Pending (K : DbCall -> Type) := mkPending { p_call : DbCall; p_callback : K p_call }.
Arguments mkPending {K}.
Arguments p_call {K}.
Arguments p_callback {K}.

Record DbClient (K : DbCall -> Type) := mkDbClient {
  mStream : option MessageStream;
  mPending : gmap Z (Pending K);
  mNextRequestId : Z;
  mConnected : bool;
}.
Arguments mkDbClient {K}.
Arguments mStream {K}.
Arguments mPending {K}.
Arguments mNextRequestId {K}.
Arguments mConnected {K}.

Definition new_db_client {K} : DbClient K := mkDbClient None ∅ 1 false.

Class HasDbClient (St : Type) (K : DbCall -> Type) := {
  db : St -> DbClient K;
  set_db : DbClient K -> St -> St;
  db_set : forall d st, db (set_db d st) = d;
}.

(** The meaning of the callbacks. *)
Class DbCallbacks (St : Type) (K : DbCall -> Type) :=
  run : forall c, K c -> bool -> Reply c -> St -> St.

(** What a request does to the client: take an id, send, register. *)
Definition issue {K} (r : Request) (k : K (call_of r)) (d : DbClient K) : DbClient K :=
  let requestId := mNextRequestId d in
  mkDbClient
    ((fun stream => send stream (request_type r) (request_payload requestId r)) <$> mStream d)
    (match mPending d !! requestId with
     | Some _ => mPending d
     | None => <[requestId := mkPending (call_of r) k]> (mPending d)
     end)
    (u32 (requestId + 1)) (mConnected d).

Section Client.
Context {St : Type} {K : DbCall -> Type} `{HD : HasDbClient St K} `{CB : DbCallbacks St K}.

Definition on_db (f : DbClient K -> DbClient K) (st : St) : St := set_db (f (db st)) st.

Lemma db_on_db f st : db (on_db f st) = f (db st).
Proof. unfold on_db. apply db_set. Qed.

(** [DbClient::connect]: the socket is [None] when resolving, connecting or
    the wait for its result fails. *)
Definition connect (socket : option Socket) (st : St) : bool * St :=
  match socket with
  | None => (false, st)
  | Some s =>
      (true, on_db (fun d => mkDbClient (Some (new_stream s)) (mPending d) (mNextRequestId d) true)
               st)
  end.

(** The shape of every request method. *)
Definition request (r : Request) (k : K (call_of r)) (st : St) : St :=
  if negb (mConnected (db st)) then run (call_of r) k false (no_reply (call_of r)) st
  else on_db (issue r k) st.

Definition lookupAccount (username : string) (k : K CallLookupAccount) : St -> St :=
  request (ReqLookupAccount username) k.
Definition createAccount (username passwordHash : string) (k : K CallCreateAccount)
    : St -> St :=
  request (ReqCreateAccount username passwordHash) k.
Definition deleteAccount (username : string) (k : K CallDeleteAccount) : St -> St :=
  request (ReqDeleteAccount username) k.
Definition createAccountWithLevel (username passwordHash : string) (level : Z)
    (k : K CallCreateAccountWithLevel) : St -> St :=
  request (ReqCreateAccountWithLevel username passwordHash level) k.
Definition setPermissionLevel (username : string) (level : Z) (k : K CallSetPermissionLevel)
    : St -> St :=
  request (ReqSetPermissionLevel username level) k.
Definition adminExists (k : K CallAdminExists) : St -> St := request ReqAdminExists k.
Definition createSession (accountId : Z) (token : string) (ttlSeconds : Z)
    (k : K CallCreateSession) : St -> St :=
  request (ReqCreateSession accountId token ttlSeconds) k.
Definition lookupSession (token : string) (k : K CallLookupSession) : St -> St :=
  request (ReqLookupSession token) k.
Definition deleteSession (token : string) (k : K CallDeleteSession) : St -> St :=
  request (ReqDeleteSession token) k.

Definition run_failed (st : St) (p : Pending K) : St :=
  let '(ok, reply) := handler_reply (p_call p) false 0 [] in
  run (p_call p) (p_callback p) ok reply st.

(** The pending handlers in the order of their ids. *)
Definition pending_list (m : gmap Z (Pending K)) : list (Pending K) :=
  omap (fun id => m !! id) (map_keys m).

Definition failAllPending (st : St) : St :=
  let pending := mPending (db st) in
  let st := on_db (fun d => mkDbClient (mStream d) ∅ (mNextRequestId d) (mConnected d)) st in
  foldl run_failed st (pending_list pending).

Definition remove_pending (id : Z) (d : DbClient K) : DbClient K :=
  mkDbClient (mStream d) (delete id (mPending d)) (mNextRequestId d) (mConnected d).

(** One message of [poll]'s loop: find, erase, then call the handler. *)
Definition deliver (m : Message) (st : St) : St :=
  let '(requestId, reader) := r_u32 (open_reader (msg_payload m)) in
  if failed reader then st
  else
    match mPending (db st) !! requestId with
    | None => st
    | Some (mkPending c k) =>
        let st := on_db (remove_pending requestId) st in
        let '(ok, reply) := handler_reply c true (msg_type m) (msg_payload m) in
        run c k ok reply st
    end.

Definition set_db_stream (stream : MessageStream) (d : DbClient K) : DbClient K :=
  mkDbClient (Some stream) (mPending d) (mNextRequestId d) (mConnected d).

Fixpoint reply_loop (fuel : nat) (st : St) : St :=
  match fuel with
  | O => st
  | S fuel' =>
      match mStream (db st) with
      | None => st
      | Some stream =>
          match next stream with
          | None => st
          | Some (m, stream) =>
              reply_loop fuel' (deliver m (on_db (set_db_stream stream) st))
          end
      end
  end.

Definition db_poll (st : St) : bool * St :=
  if negb (mConnected (db st)) then (false, st)
  else
    match mStream (db st) with
    | None => (false, st)
    | Some stream =>
        let '(ok, stream) := pump stream in
        let st := on_db (set_db_stream stream) st in
        if negb ok then
          (false, failAllPending
             (on_db (fun d => mkDbClient (mStream d) (mPending d) (mNextRequestId d) false) st))
        else (true, reply_loop (length (ms_readBuffer stream)) st)
    end.

(** ** What callbacks do to the client

    [calls n d d']: [d'] is [d] after [n] requests were issued on the live
    connection. Every callback of the two servers issues at most one. *)

Inductive calls : nat -> DbClient K -> DbClient K -> Prop :=
| calls_0 d : calls 0 d d
| calls_S n r k d d' : mConnected d = true -> calls n (issue r k d) d' -> calls (S n) d d'.

Definition callback_ok (f : St -> St) : Prop :=
  forall st, exists n, (n <= 1)%nat /\ calls n (db st) (db (f st)).

Hypothesis callbacks_ok : forall c k ok reply, callback_ok (run c k ok reply).

Definition buffered (d : DbClient K) : list byte :=
  match mStream d with Some s => ms_readBuffer s | None => [] end.

(** The pending map only loses entries, or gains some under new ids. *)
Definition db_evolves (d d' : DbClient K) : Prop :=
  mNextRequestId d <= mNextRequestId d' /\
  forall id p, mPending d' !! id = Some p ->
    mPending d !! id = Some p \/ mNextRequestId d <= id < mNextRequestId d'.

Lemma db_evolves_refl d : db_evolves d d.
Proof. split; [lia|auto]. Qed.

Lemma db_evolves_trans d1 d2 d3 : db_evolves d1 d2 -> db_evolves d2 d3 -> db_evolves d1 d3.
Proof.
  intros [H1 H2] [H3 H4]. split; [lia|]. intros id p E.
  destruct (H4 id p E) as [E2|]; [|right; lia]. destruct (H2 id p E2); [auto|right; lia].
Qed.

Lemma issue_evolves r k d :
  0 <= mNextRequestId d -> mNextRequestId d + 1 < 2 ^ 32 ->
  db_evolves d (issue r k d) /\ mNextRequestId (issue r k d) = mNextRequestId d + 1.
Proof.
  intros H0 Hn. unfold issue. cbn [mNextRequestId].
  assert (Hw : u32 (mNextRequestId d + 1) = mNextRequestId d + 1).
  { apply wrap_id. unfold fits. lia. }
  split; [|done]. unfold db_evolves. cbn [mNextRequestId mPending]. rewrite Hw.
  split; [lia|]. intros id p. destruct (mPending d !! mNextRequestId d) eqn:E; [auto|].
  destruct (decide (id = mNextRequestId d)) as [->|Hne]; [right; lia|].
  rewrite lookup_insert_ne by done. auto.
Qed.

Lemma send_buffer s type payload : ms_readBuffer (send s type payload) = ms_readBuffer s.
Proof.
  unfold send, flush. destruct (flush_loop _ _ _ _) as [[[[ok off] c] tx] wire]. by destruct c.
Qed.

Lemma issue_keeps r k d :
  mConnected (issue r k d) = mConnected d /\ buffered (issue r k d) = buffered d /\
  (is_Some (mStream (issue r k d)) <-> is_Some (mStream d)).
Proof.
  unfold issue, buffered. cbn [mConnected mStream].
  destruct (mStream d) as [s|]; cbn [fmap option_fmap option_map]; [rewrite send_buffer|];
    split_and!; try done; split; by eauto.
Qed.

Lemma calls_keeps n d d' :
  calls n d d' ->
  mConnected d' = mConnected d /\ buffered d' = buffered d /\
  (is_Some (mStream d') <-> is_Some (mStream d)).
Proof.
  induction 1 as [d|n r k d d' Hc _ (H1 & H2 & H3)]; [done|].
  destruct (issue_keeps r k d) as (H4 & H5 & H6).
  split_and!; [congruence|congruence|by rewrite H3].
Qed.

Lemma calls_disconnected n d d' : calls n d d' -> mConnected d = false -> d' = d.
Proof. destruct 1; [done|congruence]. Qed.

Lemma calls_evolves n d d' :
  calls n d d' -> 0 <= mNextRequestId d -> mNextRequestId d + Z.of_nat n < 2 ^ 32 ->
  db_evolves d d' /\ mNextRequestId d' = mNextRequestId d + Z.of_nat n.
Proof.
  induction 1 as [d|n r k d d' Hc _ IH]; intros H0 Hn; [split; [apply db_evolves_refl|lia]|].
  destruct (issue_evolves r k d) as [H1 H2]; [lia|lia|].
  destruct IH as [H3 H4]; [lia|lia|]. split; [by eapply db_evolves_trans|lia].
Qed.

(** ** One reply *)

Lemma deliver_keeps m st :
  mConnected (db (deliver m st)) = mConnected (db st) /\
  buffered (db (deliver m st)) = buffered (db st) /\
  (is_Some (mStream (db (deliver m st))) <-> is_Some (mStream (db st))).
Proof.
  unfold deliver. destruct (r_u32 _) as [requestId reader]. destruct (failed reader); [done|].
  destruct (mPending (db st) !! requestId) as [[c k]|]; [|done].
  destruct (handler_reply c true _ _) as [ok reply].
  set (st1 := on_db _ st). destruct (callbacks_ok c k ok reply st1) as (n & _ & Hc).
  apply calls_keeps in Hc as (H1 & H2 & H3). unfold st1 in H1, H2, H3.
  rewrite db_on_db in H1, H2, H3. done.
Qed.

Lemma deliver_evolves m st :
  0 <= mNextRequestId (db st) -> mNextRequestId (db st) + 1 < 2 ^ 32 ->
  db_evolves (db st) (db (deliver m st)) /\
  mNextRequestId (db (deliver m st)) <= mNextRequestId (db st) + 1.
Proof.
  intros H0 Hn. unfold deliver. destruct (r_u32 _) as [requestId reader].
  destruct (failed reader); [split; [apply db_evolves_refl|lia]|].
  destruct (mPending (db st) !! requestId) as [[c k]|]; [|split; [apply db_evolves_refl|lia]].
  destruct (handler_reply c true _ _) as [ok reply].
  set (st1 := on_db _ st). destruct (callbacks_ok c k ok reply st1) as (n & Hn1 & Hc).
  assert (E1 : db st1 = remove_pending requestId (db st)) by (unfold st1; by rewrite db_on_db).
  apply calls_evolves in Hc as [H1 H2]; [|rewrite E1; cbn [remove_pending mNextRequestId]; lia..].
  rewrite E1 in H1, H2. cbn [remove_pending mNextRequestId] in H2. split; [|lia]. eapply db_evolves_trans; [|exact H1]. split; [cbn; lia|].
  cbn [remove_pending mPending]. intros id p [_ E]%lookup_delete_Some. auto.
Qed.

Definition deliver_all (ms : list Message) (st : St) : St := foldl (fun st m => deliver m st) st ms.

Lemma deliver_all_evolves ms : forall st,
  0 <= mNextRequestId (db st) ->
  mNextRequestId (db st) + Z.of_nat (length ms) < 2 ^ 32 ->
  db_evolves (db st) (db (deliver_all ms st)).
Proof.
  induction ms as [|m ms IH]; intros st H0 Hn; [apply db_evolves_refl|]. cbn [length] in Hn.
  destruct (deliver_evolves m st) as [H1 H2]; [lia|lia|].
  eapply db_evolves_trans; [exact H1|]. apply IH; destruct H1; lia.
Qed.

(** The reply with id [id] to a pending request: the handler registered for
    it runs, once the entry is out of the map. *)
Lemma deliver_pending id c k type body st :
  fits 32 id -> mPending (db st) !! id = Some (mkPending c k) ->
  let m := mkMessage type (e_u32 id ++ body) in
  let '(ok, reply) := handler_reply c true type (msg_payload m) in
  deliver m st =
  run c k ok reply (on_db (remove_pending id) st).
Proof.
  intros Hid E m. unfold deliver, m. cbn [msg_payload msg_type].
  rewrite (reads_open r_u32 (e_u32 id) body id) by (by apply reads_u32).
  cbn [failed mFailed]. rewrite E. by destruct (handler_reply c true type _).
Qed.

Lemma deliver_unknown id type body st :
  fits 32 id -> mPending (db st) !! id = None ->
  deliver (mkMessage type (e_u32 id ++ body)) st = st.
Proof.
  intros Hid E. unfold deliver. cbn [msg_payload].
  rewrite (reads_open r_u32 (e_u32 id) body id) by (by apply reads_u32).
  cbn [failed mFailed]. by rewrite E.
Qed.

(** ** A lost connection *)

Lemma run_failed_disconnected st p :
  mConnected (db st) = false -> db (run_failed st p) = db st.
Proof.
  intros Hc. unfold run_failed. destruct (handler_reply _ _ _ _) as [ok reply].
  destruct (callbacks_ok (p_call p) (p_callback p) ok reply st) as (n & _ & Hn).
  by apply calls_disconnected in Hn.
Qed.

Lemma run_failed_all_disconnected ps : forall st,
  mConnected (db st) = false -> db (foldl run_failed st ps) = db st.
Proof.
  induction ps as [|p ps IH]; intros st Hc; [done|]. cbn [foldl].
  rewrite IH; by rewrite run_failed_disconnected.
Qed.

Lemma elem_of_pending_list m p : p ∈ pending_list m <-> exists id, m !! id = Some p.
Proof.
  unfold pending_list. rewrite list_elem_of_omap. split.
  - intros (id & _ & E). eauto.
  - intros (id & E). exists id. split; [apply elem_of_map_keys; eauto|done].
Qed.

Lemma length_pending_list m : length (pending_list m) = size m.
Proof.
  unfold pending_list. rewrite <- (size_dom (D := gset Z) m).
  change (size (dom m)) with (length (elements (dom m))).
  assert (Hl : forall ks, Forall (fun id => is_Some (m !! id)) ks ->
    length (omap (fun id => m !! id) ks) = length ks).
  { induction 1 as [|id ks [p E] _ IH]; [done|]. simpl. rewrite E. simpl. by f_equal. }
  rewrite Hl.
  - unfold map_keys. by rewrite (merge_sort_Permutation Z.le).
  - apply Forall_forall. intros id. apply elem_of_map_keys.
Qed.

(** ** The reply loop *)

(** [delivered ms st st']: each of [ms] was taken off the stream's buffer and
    delivered, in order. *)
Inductive delivered : list Message -> St -> St -> Prop :=
| delivered_nil st : delivered [] st st
| delivered_cons m ms st s stream st' :
    mStream (db st) = Some s -> next s = Some (m, stream) ->
    delivered ms (deliver m (on_db (set_db_stream stream) st)) st' ->
    delivered (m :: ms) st st'.

Lemma reply_loop_spec fuel : forall st,
  is_Some (mStream (db st)) -> (length (buffered (db st)) <= fuel)%nat ->
  delivered (drain (buffered (db st))).1 st (reply_loop fuel st) /\
  buffered (db (reply_loop fuel st)) = (drain (buffered (db st))).2.
Proof.
  induction fuel as [|fuel IH]; intros st [s Es] Hl; cbn [reply_loop].
  - destruct (buffered (db st)) eqn:Eb; [|simpl in Hl; lia]. split; [constructor|done].
  - rewrite Es. unfold buffered in *. rewrite Es in Hl |- *. unfold next. rewrite drain_step.
    destruct (next_message (ms_readBuffer s)) as [[m rest]|] eqn:En;
      [|split; [constructor|by rewrite Es]].
    set (stream := mkStream _ rest _ _). set (st1 := on_db (set_db_stream stream) st).
    destruct (deliver_keeps m st1) as (_ & Hb & Hs). unfold buffered in Hb.
    assert (E1 : mStream (db st1) = Some stream) by (unfold st1; by rewrite db_on_db).
    rewrite E1 in Hb, Hs. cbn [ms_readBuffer stream] in Hb.
    apply next_message_inv in En as En'. destruct En' as [En' _].
    destruct (IH (deliver m st1)) as [H1 H2]; [apply Hs; eauto| |].
    { rewrite Hb. rewrite En', length_app, length_frame in Hl. unfold kHeaderSize in Hl. lia. }
    rewrite Hb in H1, H2. destruct (drain rest) as [ms r]. split; [|done].
    eapply delivered_cons; [exact Es| |exact H1]. unfold next. by rewrite En.
Qed.

(** ** What a poll preserves *)

Definition set_disconnected (d : DbClient K) : DbClient K :=
  mkDbClient (mStream d) (mPending d) (mNextRequestId d) false.

Definition clear_pending (d : DbClient K) : DbClient K :=
  mkDbClient (mStream d) ∅ (mNextRequestId d) (mConnected d).

Lemma db_poll_preserves (P : St -> Prop) st :
  (forall stream st, P st -> P (on_db (set_db_stream stream) st)) ->
  (forall st, P st -> P (on_db set_disconnected st)) ->
  (forall st, P st -> P (on_db clear_pending st)) ->
  (forall c k st, P st -> P (run c k false (no_reply c) st)) ->
  (forall n c k type data st, mPending (db st) !! n = Some (mkPending c k) -> P st ->
     let '(ok, reply) := handler_reply c true type data in
     P (run c k ok reply (on_db (remove_pending n) st))) ->
  P st -> P (db_poll st).2.
Proof.
  intros Hstream Hdis Hclear Hfail Hreply Hst. unfold db_poll.
  destruct (mConnected (db st)); [|done]. cbn [negb].
  destruct (mStream (db st)) as [stream|]; [|done].
  destruct (pump stream) as [ok stream'].
  specialize (Hstream stream' st Hst) as H1. destruct ok; cbn [negb snd].
  - generalize (length (ms_readBuffer stream')). intros fuel.
    generalize dependent (on_db (set_db_stream stream') st).
    induction fuel as [|fuel IH]; intros st1 H1; [done|]. cbn [reply_loop].
    destruct (mStream (db st1)) as [s1|]; [|done].
    destruct (next s1) as [[m s2]|]; [|done]. apply IH.
    specialize (Hstream s2 st1 H1). set (st2 := on_db _ st1) in *.
    unfold deliver. destruct (r_u32 _) as [n r]. destruct (failed r); [done|].
    destruct (mPending (db st2) !! n) as [[c k]|] eqn:E; [|done].
    specialize (Hreply n c k (msg_type m) (msg_payload m) st2 E Hstream).
    by destruct (handler_reply c true (msg_type m) (msg_payload m)).
  - unfold failAllPending.
    specialize (Hclear _ (Hdis _ H1)).
    change (on_db (fun d => mkDbClient (mStream d) (mPending d) (mNextRequestId d) false))
      with (on_db set_disconnected).
    change (on_db (fun d => mkDbClient (mStream d) ∅ (mNextRequestId d) (mConnected d)))
      with (on_db clear_pending).
    generalize (pending_list (mPending (db (on_db set_disconnected
      (on_db (set_db_stream stream') st))))). intros ps.
    generalize dependent (on_db clear_pending (on_db set_disconnected
      (on_db (set_db_stream stream') st))).
    induction ps as [|[c k] ps IH]; intros st1 Hs; [done|]. cbn [foldl]. apply IH.
    by apply (Hfail c k).
Qed.

(** ** Correlation *)

(** A message that carries the id of a reply. *)
Definition answers (id : Z) (m : Message) : bool :=
  let '(requestId, reader) := r_u32 (open_reader (msg_payload m)) in
  negb (failed reader) && (requestId =? id).

Lemma issue_pending r k (d : DbClient K) id p :
  mPending d !! id = Some p -> mPending (issue r k d) !! id = Some p.
Proof.
  intros E. unfold issue. cbn [mPending].
  destruct (mPending d !! mNextRequestId d) eqn:En; [done|].
  rewrite lookup_insert_ne; [done|congruence].
Qed.

Lemma calls_pending n d d' id p :
  calls n d d' -> mPending d !! id = Some p -> mPending d' !! id = Some p.
Proof. induction 1; auto using issue_pending. Qed.

Lemma deliver_other m st id p :
  answers id m = false -> mPending (db st) !! id = Some p ->
  mPending (db (deliver m st)) !! id = Some p.
Proof.
  unfold answers, deliver. destruct (r_u32 _) as [requestId reader].
  destruct (failed reader); [done|]. cbn [negb andb]. intros Hne%Z.eqb_neq E.
  destruct (mPending (db st) !! requestId) as [[c k]|]; [|done].
  destruct (handler_reply c true _ _) as [ok reply]. set (st1 := on_db _ st).
  destruct (callbacks_ok c k ok reply st1) as (n & _ & Hc).
  eapply calls_pending; [exact Hc|]. unfold st1. rewrite db_on_db. cbn [remove_pending mPending].
  by rewrite lookup_delete_ne.
Qed.

Lemma deliver_all_other ms : forall st id p,
  Forall (fun m => answers id m = false) ms -> mPending (db st) !! id = Some p ->
  mPending (db (deliver_all ms st)) !! id = Some p.
Proof.
  induction ms as [|m ms IH]; intros st id p Hms E; [done|].
  apply Forall_cons in Hms as [Hm Hms]. cbn [deliver_all foldl]. apply IH; [done|].
  by apply deliver_other.
Qed.

Lemma deliver_all_next ms : forall st,
  0 <= mNextRequestId (db st) ->
  mNextRequestId (db st) + Z.of_nat (length ms) < 2 ^ 32 ->
  mNextRequestId (db st) <= mNextRequestId (db (deliver_all ms st))
    <= mNextRequestId (db st) + Z.of_nat (length ms).
Proof.
  induction ms as [|m ms IH]; intros st H0 Hn; [cbn; lia|]. cbn [length] in Hn.
  destruct (deliver_evolves m st) as [[H1 _] H2]; [lia|lia|].
  cbn [deliver_all foldl length]. pose proof (IH (deliver m st)) as H3.
  unfold deliver_all in H3. lia.
Qed.

(** C28: A reply reaches the callback of the request it answers, once. A
    request on a live connection is registered under an id no outstanding
    request has; whatever replies to other requests (duplicates, unknown ids,
    malformed messages) come first, the first message carrying the id runs that
    request's callback, on the reply decoded for that call, with the entry
    already out of the map; and when the same reply comes again, after
    anything else, it is ignored. *)
Theorem reply_reaches_callback_once (st : St) (r : Request) (k : K (call_of r))
    (before after : list Message) (type : Z) (body : list byte)
    (Hc : mConnected (db st) = true)
    (Hid : 0 <= mNextRequestId (db st))
    (Hn : mNextRequestId (db st) + Z.of_nat (length before) + Z.of_nat (length after) + 2
          < 2 ^ 32)
    (Hfresh : mPending (db st) !! mNextRequestId (db st) = None)
    (Hbefore : Forall (fun m => answers (mNextRequestId (db st)) m = false) before) :
  let id := mNextRequestId (db st) in
  let reply := mkMessage type (e_u32 id ++ body) in
  let st1 := deliver_all before (request r k st) in
  let st2 := deliver reply st1 in
  (let '(ok, value) := handler_reply (call_of r) true type (msg_payload reply) in
   st2 = run (call_of r) k ok value
     (on_db (remove_pending id) st1)) /\
  deliver reply (deliver_all after st2) = deliver_all after st2.
Proof.
  intros id reply st1 st2. fold id in Hid, Hn, Hfresh, Hbefore.
  assert (Hfit : fits 32 id) by (unfold fits; lia).
  assert (Er : db (request r k st) = issue r k (db st)).
  { unfold request. rewrite Hc. apply db_on_db. }
  destruct (issue_evolves r k (db st)) as [_ Hnext]; [fold id; lia|fold id; lia|].
  fold id in Hnext.
  assert (Hreg : mPending (db (request r k st)) !! id = Some (mkPending (call_of r) k)).
  { rewrite Er. unfold issue. cbn [mPending]. fold id. rewrite Hfresh.
    by rewrite lookup_insert, decide_True. }
  assert (H1 : mPending (db st1) !! id = Some (mkPending (call_of r) k)).
  { by apply deliver_all_other. }
  assert (Hn1 : id + 1 <= mNextRequestId (db st1) <= id + 1 + Z.of_nat (length before)).
  { rewrite <- Er in Hnext. rewrite <- Hnext. apply deliver_all_next; lia. }
  split; [by apply deliver_pending|]. apply deliver_unknown; [done|].
  pose proof (deliver_pending id (call_of r) k type body st1 Hfit H1) as Hd. cbv zeta in Hd.
  fold reply st2 in Hd. destruct (handler_reply (call_of r) true type _) as [ok value].
  assert (Hgone : db_evolves (remove_pending id (db st1)) (db st2) /\
    mNextRequestId (db st2) <= mNextRequestId (db st1) + 1).
  { rewrite Hd. destruct (callbacks_ok (call_of r) k ok value (on_db (remove_pending id) st1))
      as (n & Hn2 & Hcalls).
    rewrite db_on_db in Hcalls. apply calls_evolves in Hcalls as [He Hq];
      cbn [remove_pending mNextRequestId] in *; [|lia|lia]. split; [done|lia]. }
  destruct Hgone as [Hev Hle].
  assert (Hall : db_evolves (remove_pending id (db st1)) (db (deliver_all after st2))).
  { eapply db_evolves_trans; [exact Hev|]. destruct Hev as [Hev _]. cbn [remove_pending mNextRequestId] in Hev.
    apply deliver_all_evolves; lia. }
  destruct (mPending (db (deliver_all after st2)) !! id) as [p|] eqn:E; [|done].
  destruct (proj2 Hall id p E) as [Hin|Hin]; cbn [remove_pending mPending mNextRequestId] in Hin; [|lia].
  rewrite lookup_delete in Hin. by rewrite decide_True in Hin.
Qed.

(** The outcome of a poll. Not connected: false, and nothing happens. A
    failed pump: false, the client is disconnected with nothing pending, and
    every pending callback was run exactly once, in the order of the ids, with
    a failure -- callbacks that try to issue new requests included. Otherwise
    true: every complete message in the buffer was taken off it and delivered
    once, in order, and the rest stays buffered. *)
Theorem db_poll_spec (st : St) :
  match mStream (db st), mConnected (db st) with
  | Some stream, true =>
      let '(ok, stream') := pump stream in
      let pumped := on_db (set_db_stream stream') st in
      if ok then
        let '(messages, rest) := drain (ms_readBuffer stream') in
        (db_poll st).1 = true /\ delivered messages pumped (db_poll st).2 /\
        buffered (db (db_poll st).2) = rest
      else
        let lost := mkDbClient (Some stream') ∅ (mNextRequestId (db st)) false in
        exists st0 st1, db_poll st = (false, st1) /\ db st0 = lost /\ db st1 = lost /\
          st1 = foldl run_failed st0 (pending_list (mPending (db st))) /\
          length (pending_list (mPending (db st))) = size (mPending (db st))
  | _, _ => db_poll st = (false, st)
  end.
Proof.
  unfold db_poll. destruct (mStream (db st)) as [stream|] eqn:Es;
    [|by destruct (mConnected (db st))].
  destruct (mConnected (db st)) eqn:Ec; [|done]. cbn [negb].
  destruct (pump stream) as [ok stream']. destruct ok; cbn [negb].
  - set (pumped := on_db (set_db_stream stream') st).
    assert (Eb : buffered (db pumped) = ms_readBuffer stream').
    { unfold buffered, pumped. by rewrite db_on_db. }
    destruct (reply_loop_spec (length (ms_readBuffer stream')) pumped) as [H1 H2].
    { unfold pumped. rewrite db_on_db. by eexists. }
    { by rewrite Eb. }
    rewrite Eb in H1, H2. cbn [fst snd]. by destruct (drain (ms_readBuffer stream')).
  - unfold failAllPending. rewrite !db_on_db. cbn [mPending set_db_stream].
    set (st0 := on_db _ (on_db _ (on_db _ st))). exists st0, (foldl run_failed st0
      (pending_list (mPending (db st)))).
    assert (E0 : db st0 = mkDbClient (Some stream') ∅ (mNextRequestId (db st)) false).
    { unfold st0. by rewrite !db_on_db. }
    split_and!; [done|done| |done|apply length_pending_list].
    rewrite run_failed_all_disconnected; by rewrite E0.
Qed.

End Client.

(** ** A client that records its callbacks *)

Record Recorder := mkRecorder {
  rec_db : DbClient (fun _ => nat);
  rec_calls : list (nat * bool);
}.

Global Instance recorder_has_client : HasDbClient Recorder (fun _ => nat) :=
  {| db := rec_db;
     set_db d st := mkRecorder d (rec_calls st);
     db_set d st := eq_refl |}.

Global Instance recorder_callbacks : DbCallbacks Recorder (fun _ => nat) :=
  fun c k ok reply st => mkRecorder (rec_db st) (rec_calls st ++ [(k, ok)]).

Lemma recorder_ok c k ok reply :
  callback_ok (St := Recorder) (K := fun _ => nat) (run c k ok reply).
Proof. intros st. exists 0%nat. split; [lia|constructor]. Qed.

Definition connected_recorder : Recorder :=
  (connect (Some (mkSocket [] [] [])) (mkRecorder new_db_client [])).2.

Definition exists_reply (id : Z) : Message :=
  mkMessage (db_message_code AdminExistsResponse) (e_u32 id ++ e_u8 1).

Lemma reply_reaches_callback_once_witness :
  let st2 := deliver (exists_reply 1)
    (deliver_all [exists_reply 9] (request ReqAdminExists 7%nat connected_recorder)) in
  rec_calls st2 = [(7%nat, true)] /\
  deliver (exists_reply 1) (deliver_all [exists_reply 1; exists_reply 2] st2) =
    deliver_all [exists_reply 1; exists_reply 2] st2.
Proof.
  destruct (reply_reaches_callback_once (St := Recorder) (K := fun _ => nat) recorder_ok
    connected_recorder ReqAdminExists 7%nat [exists_reply 9] [exists_reply 1; exists_reply 2]
    (db_message_code AdminExistsResponse) (e_u8 1)) as [H1 H2];
    [reflexivity|vm_compute; congruence|vm_compute; reflexivity|reflexivity| |].
  - by repeat constructor.
  - split; [|exact H2]. vm_compute. reflexivity.
Defined.

Lemma db_poll_spec_witness :
  exists st0 st1, db_poll (set_db (mkDbClient (Some (new_stream (mkSocket [RecvBytes []] [] [])))
      {[ 3 := mkPending CallAdminExists 8%nat; 2 := mkPending CallDeleteSession 9%nat ]} 4 true)
      connected_recorder) = (false, st1) /\
    db st0 = mkDbClient (Some (new_stream (mkSocket [] [] []))) ∅ 4 false /\
    db st1 = db st0 /\ rec_calls st1 = rec_calls st0 ++ [(9%nat, false); (8%nat, false)].
Proof.
  destruct (db_poll_spec (St := Recorder) (K := fun _ => nat) recorder_ok
    (set_db (mkDbClient (Some (new_stream (mkSocket [RecvBytes []] [] [])))
      {[ 3 := mkPending CallAdminExists 8%nat; 2 := mkPending CallDeleteSession 9%nat ]} 4 true)
      connected_recorder)) as (st0 & st1 & H1 & H2 & H3 & H4 & _).
  exists st0, st1. split; [exact H1|]. split; [exact H2|].
  split; [rewrite H3; symmetry; exact H2|]. rewrite H4.
  transitivity (rec_calls (foldl run_failed st0
    [mkPending (K := fun _ => nat) CallDeleteSession 9%nat; mkPending CallAdminExists 8%nat])).
  - do 2 f_equal.
  - cbn. by rewrite <- app_assoc.
Defined.
