(* ===== verification/Database.v ===== *)
(** * The Postgres wrapper ([server/dbserver/src/database.cpp])

    libpq is a parameter: the class [Postgres] has its functions, on a state
    that stands for the connection and the server behind it. Every method of
    [Database] is a state-passing function that checks the connection, sends
    the SQL text of the source with its parameters as C strings, and reads the
    result rows back. *)

From Stdlib Require Import ZArith Lia Strings.Ascii Strings.String.
From stdpp Require Import base list option strings.
From S2P Require Import Prelude Config ByteStream.

Open Scope Z_scope.
Open Scope sm_scope.

(** ** libpq *)

Inductive ExecStatus := PGRES_COMMAND_OK | PGRES_TUPLES_OK | PGRES_FATAL_ERROR.

Record PGresult := {
  PQresultStatus : ExecStatus;
  (** the rows, each column in its text form *)
  pq_rows : list (list string);
  (** the affected-row count of a command *)
  PQcmdTuples : string;
}.

Class Postgres (PG : Type) := {
  PQconnectdb : string -> PG -> PG;
  PQfinish : PG -> PG;
  PQreset : PG -> PG;
  (** [PQstatus(...) == CONNECTION_OK] *)
  PQstatus : PG -> bool;
  PQerrorMessage : PG -> string;
  PQexecParams : string -> list string -> PG -> PGresult * PG;
}.

Definition PQntuples (r : PGresult) : Z := Z.of_nat (length (pq_rows r)).
Definition PQgetvalue (r : PGresult) (row column : nat) : string :=
  nth column (nth row (pq_rows r) []) EmptyString.

Global Instance ExecStatus_eq_dec : EqDecision ExecStatus.
Proof. solve_decision. Defined.

(** ** State *)

Record Account := {
  acc_id : Z;
  acc_username : string;
  acc_passwordHash : string;
  acc_permissionLevel : Z;
}.

Record Session := {
  ses_accountId : Z;
  ses_username : string;
  ses_permissionLevel : Z;
}.

Definition no_account : Account :=
  {| acc_id := 0; acc_username := ""; acc_passwordHash := ""; acc_permissionLevel := 0 |}.
Definition no_session : Session :=
  {| ses_accountId := 0; ses_username := ""; ses_permissionLevel := 0 |}.

(** [mConnection] is only ever null or the one connection, which is part of
    [db_pg]. *)
Record Database (PG : Type) := mkDatabase {
  db_mConnection : bool;
  db_mConninfo : string;
  db_mLastError : string;
  db_pg : PG;
}.
Arguments mkDatabase {PG}.
Arguments db_mConnection {PG}.
Arguments db_mConninfo {PG}.
Arguments db_mLastError {PG}.
Arguments db_pg {PG}.

(** ** The statements of the source *)

Definition sql_migrate : string :=
  "ALTER TABLE accounts ADD COLUMN IF NOT EXISTS permission_level SMALLINT NOT NULL DEFAULT 0".
Definition sql_setPermissionLevel : string :=
  "UPDATE accounts SET permission_level = $1 WHERE lower(username) = lower($2) RETURNING id".
Definition sql_hasAdmin : string :=
  "SELECT 1 FROM accounts WHERE permission_level >= 2 LIMIT 1".
Definition sql_findAccount : string :=
  "SELECT id, username, password_hash, permission_level FROM accounts WHERE lower(username) = lower($1)".
Definition sql_createAccount : string :=
  "INSERT INTO accounts (username, password_hash) VALUES ($1, $2) ON CONFLICT DO NOTHING RETURNING id".
Definition sql_touchLastLogin : string :=
  "UPDATE accounts SET last_login_at = now() WHERE id = $1".
Definition sql_deleteAccount : string :=
  "DELETE FROM accounts WHERE lower(username) = lower($1) RETURNING id".
Definition sql_createSession : string :=
  "INSERT INTO sessions (token, account_id, expires_at) VALUES ($1, $2, now() + ($3 || ' seconds')::interval)".
Definition sql_lookupSession : string :=
  "SELECT s.account_id, a.username, a.permission_level FROM sessions s JOIN accounts a ON a.id = s.account_id WHERE s.token = $1 AND s.expires_at > now()".
Definition sql_deleteSession : string := "DELETE FROM sessions WHERE token = $1".
Definition sql_purgeExpiredSessions : string :=
  "DELETE FROM sessions WHERE expires_at <= now()".

Section Database.
Context {PG : Type} `{Postgres PG}.

Abbreviation DbM := (SM (Database PG)).

Definition on_pg (f : PG -> PG) : DbM () :=
  sm_modify (fun d => mkDatabase (db_mConnection d) (db_mConninfo d) (db_mLastError d)
                        (f (db_pg d))).
Definition set_connection (c : bool) : DbM () :=
  sm_modify (fun d => mkDatabase c (db_mConninfo d) (db_mLastError d) (db_pg d)).
Definition set_conninfo (s : string) : DbM () :=
  sm_modify (fun d => mkDatabase (db_mConnection d) s (db_mLastError d) (db_pg d)).
(** [mLastError = PQerrorMessage(mConnection)]. *)
Definition note_error : DbM () :=
  sm_modify (fun d => mkDatabase (db_mConnection d) (db_mConninfo d)
                        (PQerrorMessage (db_pg d)) (db_pg d)).

Definition status : DbM bool := sm_gets (fun d => PQstatus (db_pg d)).

Definition exec (sql : string) (values : list string) : DbM PGresult := fun d =>
  let '(r, pg) := PQexecParams sql values (db_pg d) in
  (r, mkDatabase (db_mConnection d) (db_mConninfo d) (db_mLastError d) pg).

Definition disconnect : DbM () :=
  let! connected := sm_gets db_mConnection in
  if connected : bool then on_pg PQfinish ;; set_connection false else sm_ret tt.

Definition connect (conninfo : string) : DbM bool :=
  disconnect ;;
  set_conninfo conninfo ;;
  on_pg (PQconnectdb (c_str conninfo)) ;;
  let! ok := status in
  if negb ok then note_error ;; on_pg PQfinish ;; set_connection false ;; sm_ret false
  else set_connection true ;; sm_ret true.

Definition ensureConnected : DbM bool :=
  let! connected := sm_gets db_mConnection in
  let! ok := status in
  let! conninfo := sm_gets db_mConninfo in
  if (connected && ok)%bool then sm_ret true
  else if connected : bool then
    on_pg PQreset ;;
    let! ok := status in
    if ok : bool then sm_ret true else connect conninfo
  else connect conninfo.

(** Runs a statement; [None] is the error path that keeps the message. *)
Definition checked (expected : ExecStatus) (sql : string) (values : list string)
    : DbM (option PGresult) :=
  let! result := exec sql values in
  if decide (PQresultStatus result = expected) then sm_ret (Some result)
  else note_error ;; sm_ret None.

(** The shape of every method: reconnect if needed, run the statement, read
    the result; [failure] is what the method returns on its error paths. *)
Definition query {A} (expected : ExecStatus) (sql : string) (values : list string)
    (failure : A) (read : PGresult -> A) : DbM A :=
  let! up := ensureConnected in
  if negb up then sm_ret failure
  else
    let! result := checked expected sql values in
    sm_ret match result with None => failure | Some r => read r end.

Definition migrate : DbM bool :=
  query PGRES_COMMAND_OK sql_migrate [] false (fun _ => true).

(** Below, the returned flag comes first, then the output parameters. *)
Definition setPermissionLevel (username : string) (level : Z) : DbM (bool * bool) :=
  query PGRES_TUPLES_OK sql_setPermissionLevel [to_string level; c_str username]
    (false, false) (fun r => (true, 0 <? PQntuples r)).

Definition hasAdmin : DbM (bool * bool) :=
  query PGRES_TUPLES_OK sql_hasAdmin [] (false, false) (fun r => (true, 0 <? PQntuples r)).

Definition read_found_account (r : PGresult) : bool * bool * Account :=
  if PQntuples r =? 0 then (true, false, no_account)
  else (true, true,
        {| acc_id := strtoul (PQgetvalue r 0 0); acc_username := PQgetvalue r 0 1;
           acc_passwordHash := PQgetvalue r 0 2;
           acc_permissionLevel := u8 (atoi (PQgetvalue r 0 3)) |}).

Definition findAccount (username : string) : DbM (bool * bool * Account) :=
  query PGRES_TUPLES_OK sql_findAccount [c_str username] (false, false, no_account)
    read_found_account.

(** Flag, [conflict], account id. *)
Definition createAccount (username passwordHash : string) : DbM (bool * bool * Z) :=
  query PGRES_TUPLES_OK sql_createAccount [c_str username; c_str passwordHash]
    (false, false, 0)
    (fun r => if PQntuples r =? 0 then (true, true, 0)
              else (true, false, strtoul (PQgetvalue r 0 0))).

Definition touchLastLogin (accountId : Z) : DbM bool :=
  query PGRES_COMMAND_OK sql_touchLastLogin [to_string accountId] false (fun _ => true).

Definition deleteAccount (username : string) : DbM (bool * bool) :=
  query PGRES_TUPLES_OK sql_deleteAccount [c_str username] (false, false)
    (fun r => (true, 0 <? PQntuples r)).

Definition createSession (accountId : Z) (token : string) (ttlSeconds : Z) : DbM bool :=
  query PGRES_COMMAND_OK sql_createSession
    [c_str token; to_string accountId; to_string ttlSeconds] false (fun _ => true).

Definition read_found_session (r : PGresult) : bool * bool * Session :=
  if PQntuples r =? 0 then (true, false, no_session)
  else (true, true,
        {| ses_accountId := strtoul (PQgetvalue r 0 0); ses_username := PQgetvalue r 0 1;
           ses_permissionLevel := u8 (atoi (PQgetvalue r 0 2)) |}).

Definition lookupSession (token : string) : DbM (bool * bool * Session) :=
  query PGRES_TUPLES_OK sql_lookupSession [c_str token] (false, false, no_session)
    read_found_session.

Definition deleteSession (token : string) : DbM bool :=
  query PGRES_COMMAND_OK sql_deleteSession [c_str token] false (fun _ => true).

Definition purgeExpiredSessions : DbM (bool * Z) :=
  query PGRES_COMMAND_OK sql_purgeExpiredSessions [] (false, 0)
    (fun r => (true, if decide (PQcmdTuples r = EmptyString) then 0 else atoi (PQcmdTuples r))).

End Database.

(** ** What the statements do

    The documented behaviour of Postgres on the schema of
    [server/sql/schema.sql], for the statements above: an in-memory meaning of
    each on the two tables. [None] is a statement that fails (a foreign key or
    a primary key violated, the sequence of ids used up). Times are in microseconds. *)

Record AccountRow := {
  ar_id : Z;
  ar_username : string;
  ar_password_hash : string;
  ar_permission_level : Z;
}.

Record SessionRow := {
  sr_token : string;
  sr_account_id : Z;
  sr_expires_at : Z;
}.

Record Tables := mkTables {
  t_accounts : list AccountRow;
  t_sessions : list SessionRow;
  (** the sequence behind [id BIGSERIAL] *)
  t_nextval : Z;
}.

Section Statements.
(** The locale's [lower()]. *)
Variable lower : string -> string.

Definition same_name (name : string) (a : AccountRow) : bool :=
  bool_decide (lower (ar_username a) = lower name).

Definition with_level (level : Z) (a : AccountRow) : AccountRow :=
  {| ar_id := ar_id a; ar_username := ar_username a;
     ar_password_hash := ar_password_hash a; ar_permission_level := level |}.

Definition id_row (a : AccountRow) : list string := [to_string (ar_id a)].

Definition account_row (a : AccountRow) : list string :=
  [to_string (ar_id a); ar_username a; ar_password_hash a; to_string (ar_permission_level a)].

Definition find_rows (name : string) (t : Tables) : list AccountRow :=
  List.filter (same_name name) (t_accounts t).

Definition do_setPermissionLevel (level : Z) (name : string) (t : Tables) : Tables :=
  mkTables ((fun a => if same_name name a then with_level level a else a) <$> t_accounts t)
    (t_sessions t) (t_nextval t).

Definition do_createAccount (name hash : string) (t : Tables) : Tables :=
  mkTables (t_accounts t ++
      [{| ar_id := t_nextval t; ar_username := name; ar_password_hash := hash;
          ar_permission_level := 0 |}])
    (t_sessions t) (t_nextval t + 1).

Definition do_deleteAccount (name : string) (t : Tables) : Tables :=
  mkTables (List.filter (fun a => negb (same_name name a)) (t_accounts t))
    (List.filter (fun s => negb (existsb (fun a => ar_id a =? sr_account_id s) (find_rows name t)))
      (t_sessions t))
    (t_nextval t).

Definition do_createSession (token : string) (account expires : Z) (t : Tables) : Tables :=
  mkTables (t_accounts t)
    (t_sessions t ++
      [{| sr_token := token; sr_account_id := account; sr_expires_at := expires |}])
    (t_nextval t).

Definition do_deleteSession (token : string) (t : Tables) : Tables :=
  mkTables (t_accounts t)
    (List.filter (fun s => negb (bool_decide (sr_token s = token))) (t_sessions t))
    (t_nextval t).

Definition do_purge (now : Z) (t : Tables) : Tables :=
  mkTables (t_accounts t) (List.filter (fun s => now <? sr_expires_at s) (t_sessions t))
    (t_nextval t).

(** The join of [lookupSession]. *)
Definition session_rows (now : Z) (token : string) (t : Tables) : list (list string) :=
  s ← List.filter (fun s => bool_decide (sr_token s = token) && (now <? sr_expires_at s))
        (t_sessions t);
  a ← List.filter (fun a => ar_id a =? sr_account_id s) (t_accounts t);
  [[to_string (sr_account_id s); ar_username a; to_string (ar_permission_level a)]].

(** The meaning of a statement: its rows and the tables after it. *)
Definition statement (now : Z) (sql : string) (values : list string) (t : Tables)
    : option (list (list string) * Tables) :=
  if decide (sql = sql_migrate) then Some ([], t)
  else if decide (sql = sql_setPermissionLevel) then
    match values with
    | [level; name] =>
        Some (id_row <$> find_rows name t, do_setPermissionLevel (strtol level) name t)
    | _ => None
    end
  else if decide (sql = sql_hasAdmin) then
    Some (take 1 ((fun _ => ["1"%string]) <$>
            List.filter (fun a => 2 <=? ar_permission_level a) (t_accounts t)), t)
  else if decide (sql = sql_findAccount) then
    match values with
    | [name] => Some (account_row <$> find_rows name t, t)
    | _ => None
    end
  else if decide (sql = sql_createAccount) then
    match values with
    | [name; hash] =>
        if 2 ^ 63 <=? t_nextval t then None
        else if decide (find_rows name t = []) then
          Some ([[to_string (t_nextval t)]], do_createAccount name hash t)
        else Some ([], mkTables (t_accounts t) (t_sessions t) (t_nextval t + 1))
    | _ => None
    end
  else if decide (sql = sql_touchLastLogin) then Some ([], t)
  else if decide (sql = sql_deleteAccount) then
    match values with
    | [name] => Some (id_row <$> find_rows name t, do_deleteAccount name t)
    | _ => None
    end
  else if decide (sql = sql_createSession) then
    match values with
    | [token; account; ttl] =>
        if existsb (fun a => ar_id a =? strtoul account) (t_accounts t)
           && negb (existsb (fun s => bool_decide (sr_token s = token)) (t_sessions t))
        then Some ([], do_createSession token (strtoul account) (now + strtoul ttl * 10 ^ 6) t)
        else None
    | _ => None
    end
  else if decide (sql = sql_lookupSession) then
    match values with
    | [token] => Some (session_rows now token t, t)
    | _ => None
    end
  else if decide (sql = sql_deleteSession) then
    match values with
    | [token] => Some ([], do_deleteSession token t)
    | _ => None
    end
  else if decide (sql = sql_purgeExpiredSessions) then Some ([], do_purge now t)
  else None.

Definition statements : list string :=
  [sql_migrate; sql_setPermissionLevel; sql_hasAdmin; sql_findAccount; sql_createAccount;
   sql_touchLastLogin; sql_deleteAccount; sql_createSession; sql_lookupSession;
   sql_deleteSession; sql_purgeExpiredSessions].

(** Whether a statement answers with rows. *)
Definition returns_rows (sql : string) : bool :=
  bool_decide (sql ∈ [sql_setPermissionLevel; sql_hasAdmin; sql_findAccount;
    sql_createAccount; sql_deleteAccount; sql_lookupSession]).

End Statements.

(** One of the source's statements. *)
Ltac solve_statement := by (unfold statements; rewrite !elem_of_cons; tauto).

(** The laws the theorems rely on, for the source's statements: a successful
    one has the effect above at some moment of its execution; a failed one has
    no effect, or all of it when the connection broke after the commit; and the
    connection functions change no table. *)
Class PostgresLaws (PG : Type) `{Postgres PG} := {
  lower : string -> string;
  tables : PG -> Tables;
  clock : PG -> Z;
  exec_clock : forall sql values pg,
    clock pg <= clock (PQexecParams sql values pg).2;
  exec_success : forall sql values pg, sql ∈ statements ->
    let '(r, pg') := PQexecParams sql values pg in
    PQresultStatus r <> PGRES_FATAL_ERROR ->
    exists now, clock pg <= now <= clock pg' /\
      statement lower now sql values (tables pg) = Some (pq_rows r, tables pg') /\
      PQresultStatus r = if returns_rows sql then PGRES_TUPLES_OK else PGRES_COMMAND_OK;
  exec_failure : forall sql values pg, sql ∈ statements ->
    let '(r, pg') := PQexecParams sql values pg in
    PQresultStatus r = PGRES_FATAL_ERROR ->
    tables pg' = tables pg \/
    exists now rows, clock pg <= now <= clock pg' /\
      statement lower now sql values (tables pg) = Some (rows, tables pg');
  connect_tables : forall conninfo pg,
    tables (PQconnectdb conninfo pg) = tables pg /\ clock pg <= clock (PQconnectdb conninfo pg);
  finish_tables : forall pg, tables (PQfinish pg) = tables pg /\ clock pg <= clock (PQfinish pg);
  reset_tables : forall pg, tables (PQreset pg) = tables pg /\ clock pg <= clock (PQreset pg);
}.

(** ** The schema's invariants *)

(** A text that a [ByteWriter] string carries whole, and without a NUL. *)
Definition wire_text (s : string) : Prop :=
  (String.length s <= kMaxStringLength)%nat /\ c_str s = s.

(** Ids are unique and below the sequence, names are unique up to case, tokens
    are unique, every session belongs to an account, levels are bytes, and the
    texts fit the strings of the wire. *)
Record tables_ok (lower : string -> string) (t : Tables) : Prop := {
  ok_ids : NoDup (ar_id <$> t_accounts t);
  ok_id_range : Forall (fun a => 0 < ar_id a < t_nextval t) (t_accounts t);
  ok_names : NoDup ((fun a => lower (ar_username a)) <$> t_accounts t);
  ok_tokens : NoDup (sr_token <$> t_sessions t);
  ok_owners : Forall (fun s => sr_account_id s ∈ ar_id <$> t_accounts t) (t_sessions t);
  ok_levels : Forall (fun a => fits 8 (ar_permission_level a)) (t_accounts t);
  ok_texts : Forall (fun a => wire_text (ar_username a) /\ wire_text (ar_password_hash a))
    (t_accounts t);
}.

Lemma elem_of_filter_ {A} (f : A -> bool) l x : x ∈ List.filter f l <-> f x = true /\ x ∈ l.
Proof. rewrite !list_elem_of_In, List.filter_In. tauto. Qed.

Lemma Forall_filter_ {A} (P : A -> Prop) (f : A -> bool) l : Forall P l -> Forall P (List.filter f l).
Proof. rewrite !Forall_forall. intros Hl x [_ Hx]%elem_of_filter_. auto. Qed.

Lemma NoDup_fmap_filter {A B} (g : A -> B) (f : A -> bool) l :
  NoDup (g <$> l) -> NoDup (g <$> List.filter f l).
Proof.
  induction l as [|x l IH]; [done|]. rewrite fmap_cons, NoDup_cons. intros [Hx Hl].
  simpl. destruct (f x); [|auto]. rewrite fmap_cons, NoDup_cons. split; [|auto].
  intros (y & Hy & [_ Hin]%elem_of_filter_)%list_elem_of_fmap. apply Hx. rewrite Hy.
  by apply list_elem_of_fmap_2.
Qed.

Lemma existsb_account id (l : list AccountRow) :
  existsb (fun a => ar_id a =? id) l = true <-> id ∈ ar_id <$> l.
Proof.
  rewrite existsb_exists, list_elem_of_fmap. split.
  - intros (a & Ha & E%Z.eqb_eq). exists a. rewrite list_elem_of_In. auto.
  - intros (a & -> & Ha%list_elem_of_In). exists a. by rewrite Z.eqb_refl.
Qed.

Lemma c_str_idemp s : c_str (c_str s) = c_str s.
Proof. induction s as [|c s IH]; [done|]. simpl. case_decide; [done|]. simpl.
  rewrite decide_False by done. by rewrite IH. Qed.

Lemma length_c_str s : (String.length (c_str s) <= String.length s)%nat.
Proof. induction s as [|c s IH]; [done|]. simpl. case_decide; simpl; lia. Qed.

Lemma wire_text_c_str s : (String.length s <= kMaxStringLength)%nat -> wire_text (c_str s).
Proof. intros Hs. split; [|apply c_str_idemp]. pose proof (length_c_str s). lia. Qed.

Section Invariant.
Variable lower : string -> string.

Lemma set_level_ok level name t :
  fits 8 level -> tables_ok lower t -> tables_ok lower (do_setPermissionLevel lower level name t).
Proof.
  intros Hl [H1 H2 H3 H4 H5 H6 H7].
  set (f := fun a => if same_name lower name a then with_level level a else a).
  assert (Hid : forall B (g : AccountRow -> B), (forall a, g (with_level level a) = g a) ->
    g <$> (f <$> t_accounts t) = g <$> t_accounts t).
  { intros B g Hg. rewrite <- list_fmap_compose. apply list_fmap_ext. intros i a _.
    unfold compose, f. by destruct (same_name lower name a). }
  assert (Hall : forall P : AccountRow -> Prop, (forall a, P a -> P (with_level level a)) ->
    Forall P (t_accounts t) -> Forall P (f <$> t_accounts t)).
  { intros P HP HF. apply Forall_fmap. eapply Forall_impl; [exact HF|].
    intros a Ha. unfold compose, f. destruct (same_name lower name a); auto. }
  constructor; cbn [do_setPermissionLevel t_accounts t_sessions t_nextval]; fold f.
  - by rewrite Hid.
  - by apply Hall.
  - by rewrite (Hid _ (fun a => lower (ar_username a))).
  - done.
  - by rewrite Hid.
  - by apply Hall.
  - by apply Hall.
Qed.

Lemma find_rows_nil name t :
  find_rows lower name t = [] -> lower name ∉ (fun a => lower (ar_username a)) <$> t_accounts t.
Proof.
  intros E (a & Ha & Hin)%list_elem_of_fmap.
  assert (a ∈ find_rows lower name t) as Hf.
  { apply elem_of_filter_. split; [|done]. unfold same_name. by apply bool_decide_eq_true. }
  rewrite E in Hf. by apply not_elem_of_nil in Hf.
Qed.

Lemma create_account_ok name hash t :
  wire_text name -> wire_text hash -> 0 < t_nextval t -> find_rows lower name t = [] -> tables_ok lower t ->
  tables_ok lower (do_createAccount name hash t).
Proof.
  intros Hname Hhash Hpos Hnew [H1 H2 H3 H4 H5 H6 H7].
  constructor; cbn [do_createAccount t_accounts t_sessions t_nextval].
  - rewrite fmap_app. apply NoDup_app. split; [done|]. split.
    + intros i (a & -> & Ha)%list_elem_of_fmap Hi. apply list_elem_of_singleton in Hi.
      rewrite Forall_forall in H2. specialize (H2 a Ha). simpl in Hi. lia.
    + apply NoDup_singleton.
  - apply Forall_app. split; [eapply Forall_impl; [exact H2|simpl; lia]|].
    apply Forall_singleton. simpl. lia.
  - rewrite fmap_app. apply NoDup_app. split; [done|]. split; [|apply NoDup_singleton].
    intros n Hn Hn'. apply list_elem_of_singleton in Hn'. simpl in Hn'. subst n.
    by apply find_rows_nil in Hnew.
  - done.
  - eapply Forall_impl; [exact H5|]. intros s Hs. rewrite fmap_app, elem_of_app. auto.
  - apply Forall_app. split; [done|]. by apply Forall_singleton.
  - apply Forall_app. split; [done|]. by apply Forall_singleton.
Qed.

Lemma delete_account_ok name t :
  tables_ok lower t -> tables_ok lower (do_deleteAccount lower name t).
Proof.
  intros [H1 H2 H3 H4 H5 H6 H7].
  constructor; cbn [do_deleteAccount t_accounts t_sessions t_nextval];
    auto using NoDup_fmap_filter, Forall_filter_.
  apply Forall_forall. intros s (Hf & Hs)%elem_of_filter_. apply negb_true_iff in Hf.
  rewrite Forall_forall in H5. destruct (proj1 (list_elem_of_fmap _ _ _) (H5 s Hs))
    as (a & Ea & Ha).
  rewrite Ea. apply list_elem_of_fmap_2, elem_of_filter_. split; [|done].
  apply negb_true_iff. destruct (same_name lower name a) eqn:E; [|done].
  assert (Hin : sr_account_id s ∈ ar_id <$> find_rows lower name t).
  { rewrite Ea. apply list_elem_of_fmap_2, elem_of_filter_. auto. }
  apply existsb_account in Hin. congruence.
Qed.

Lemma create_session_ok token account expires t :
  existsb (fun a => ar_id a =? account) (t_accounts t) = true ->
  existsb (fun s => bool_decide (sr_token s = token)) (t_sessions t) = false ->
  tables_ok lower t -> tables_ok lower (do_createSession token account expires t).
Proof.
  intros Hacc Htok [H1 H2 H3 H4 H5 H6 H7].
  constructor; cbn [do_createSession t_accounts t_sessions t_nextval]; try done.
  - rewrite fmap_app. apply NoDup_app. split; [done|]. split; [|apply NoDup_singleton].
    intros tok (s & -> & Hs)%list_elem_of_fmap Hi. apply list_elem_of_singleton in Hi.
    simpl in Hi. apply not_true_iff_false in Htok. apply Htok, existsb_exists.
    exists s. rewrite <- list_elem_of_In. split; [done|]. by apply bool_decide_eq_true.
  - apply Forall_app. split; [done|]. apply Forall_singleton. simpl. by apply existsb_account.
Qed.

Lemma filter_sessions_ok f t :
  tables_ok lower t ->
  tables_ok lower (mkTables (t_accounts t) (List.filter f (t_sessions t)) (t_nextval t)).
Proof. intros [H1 H2 H3 H4 H5 H6 H7]. constructor; simpl; auto using NoDup_fmap_filter, Forall_filter_. Qed.

Lemma nextval_ok t :
  tables_ok lower t -> tables_ok lower (mkTables (t_accounts t) (t_sessions t) (t_nextval t + 1)).
Proof.
  intros [H1 H2 H3 H4 H5 H6 H7]. constructor; simpl; try done.
  eapply Forall_impl; [exact H2|]. simpl. lia.
Qed.

(** The sequence starts at 1, never goes back and stops at 2^63. *)
Definition store_ok (t : Tables) : Prop := tables_ok lower t /\ 0 < t_nextval t <= 2 ^ 63.

(** The statements whose parameters the code takes care of. *)
Definition values_ok (sql : string) (values : list string) : Prop :=
  (sql = sql_setPermissionLevel -> forall level name, values = [level; name] ->
    fits 8 (strtol level)) /\
  (sql = sql_createAccount -> Forall wire_text values).

Lemma statement_ok now sql values t rows t' :
  statement lower now sql values t = Some (rows, t') -> values_ok sql values ->
  store_ok t -> store_ok t'.
Proof.
  unfold statement. intros E [Hv Hv'] [Hok Hpos].
  repeat (case_decide; simplify_eq/=; [try done|]); repeat case_match; simplify_eq/=; try done.
  - split; [|done]. apply set_level_ok; [by eapply Hv|done].
  - split; [|bool_to_prop; simpl; lia].
    specialize (Hv' eq_refl). rewrite !Forall_cons in Hv'.
    destruct Hv' as (Hn & Hh & _). apply create_account_ok; (done || lia).
  - split; [by apply nextval_ok|bool_to_prop; simpl; lia].
  - split; [by apply delete_account_ok|done].
  - split; [|done].
    match goal with H : (_ && _)%bool = true |- _ => apply andb_true_iff in H as [Ha Hb] end.
    apply negb_true_iff in Hb. by apply create_session_ok.
  - split; [by apply filter_sessions_ok|done].
  - split; [by apply filter_sessions_ok|done].
Qed.

End Invariant.

(** ** The methods, under the laws *)

Section Laws.
Context {PG : Type} `{PostgresLaws PG}.

Definition tables_of (d : Database PG) : Tables := tables (db_pg d).
Definition clock_of (d : Database PG) : Z := clock (db_pg d).

(** Operations on the connection change no table. *)
Definition quiet {A} (m : SM (Database PG) A) : Prop :=
  forall d, tables_of (m d).2 = tables_of d /\ clock_of d <= clock_of (m d).2.

Lemma quiet_ret {A} (a : A) : quiet (sm_ret a).
Proof. intros d. split; [done|simpl; lia]. Qed.

Lemma quiet_bind {A B} (m : SM (Database PG) A) (k : A -> SM (Database PG) B) :
  quiet m -> (forall a, quiet (k a)) -> quiet (sm_bind m k).
Proof.
  intros Hm Hk d. unfold sm_bind. specialize (Hm d). destruct (m d) as [a d1].
  destruct Hm as [H1 H2]. destruct (Hk a d1) as [H3 H4]. simpl in *. split; [congruence|lia].
Qed.

Lemma quiet_gets {A} (f : Database PG -> A) : quiet (sm_gets f).
Proof. intros d. split; [done|simpl; lia]. Qed.

Lemma quiet_modify f :
  (forall d, tables_of (f d) = tables_of d /\ clock_of d <= clock_of (f d)) -> quiet (sm_modify f).
Proof. intros Hf d. apply Hf. Qed.

Lemma quiet_ensureConnected : quiet ensureConnected.
Proof.
  unfold ensureConnected, connect, disconnect, on_pg, set_connection, set_conninfo, note_error,
    status.
  repeat first
    [ apply quiet_ret | apply quiet_gets
    | apply quiet_modify; intros d; unfold tables_of, clock_of; cbn [db_pg];
      first [apply connect_tables | apply finish_tables | apply reset_tables | split; [done|lia]]
    | apply quiet_bind; [|intros ?] | case_match ].
Qed.

(** What a statement may have done to the tables between two states. *)
Definition ran (sql : string) (values : list string) (rows : list (list string))
    (d d' : Database PG) : Prop :=
  exists now, clock_of d <= now <= clock_of d' /\
    statement lower now sql values (tables_of d) = Some (rows, tables_of d').

(** A method either ran its statement and read the rows, or reports failure
    with the tables as they were, or as the statement leaves them. *)
Lemma query_spec {A} expected sql values (failure : A) read d :
  sql ∈ statements -> expected <> PGRES_FATAL_ERROR ->
  let '(a, d') := query expected sql values failure read d in
  (exists r, ran sql values (pq_rows r) d d' /\ a = read r) \/
  (a = failure /\ (tables_of d' = tables_of d \/ exists rows, ran sql values rows d d')).
Proof.
  intros Hsql Hexp. unfold query, sm_bind. pose proof (quiet_ensureConnected d) as [Hq1 Hq2].
  destruct (ensureConnected d) as [up d1]. simpl in Hq1, Hq2.
  destruct up; cbn [negb]; [|by right; auto].
  unfold checked, sm_bind, exec.
  pose proof (exec_success sql values (db_pg d1) Hsql) as Hs.
  pose proof (exec_failure sql values (db_pg d1) Hsql) as Hf.
  unfold ran, tables_of, clock_of in *.
  destruct (PQexecParams sql values (db_pg d1)) as [r pg]. rewrite Hq1 in Hs, Hf.
  case_decide as Hst; cbn [sm_ret sm_modify note_error db_pg].
  - left. exists r. split; [|done].
    destruct Hs as (now & Hc & Hrun & _); [congruence|]. exists now. split; [lia|done].
  - right. split; [done|].
    destruct (decide (PQresultStatus r = PGRES_FATAL_ERROR)) as [Hbad|Hgood].
    + destruct (Hf Hbad) as [Ht|(now & rows & Hc & Hst')]; [by left|].
      right. exists rows, now. split; [lia|done].
    + destruct (Hs Hgood) as (now & Hc & Hrun & _). right. exists (pq_rows r), now.
      split; [lia|done].
Qed.

Lemma query_clock {A} expected sql values (failure : A) read d :
  clock_of d <= clock_of (query expected sql values failure read d).2.
Proof.
  unfold query, sm_bind. pose proof (quiet_ensureConnected d) as [_ Hq].
  destruct (ensureConnected d) as [up d1]. simpl in Hq. destruct up; [|done]. cbn [negb].
  unfold checked, sm_bind, exec. pose proof (exec_clock sql values (db_pg d1)) as Hc.
  unfold clock_of in *. destruct (PQexecParams sql values (db_pg d1)) as [r pg].
  cbn [snd] in Hc. case_decide; cbn [sm_ret sm_modify note_error snd db_pg]; lia.
Qed.

(** ** Every method keeps the invariant *)

Definition keeps {A} (m : SM (Database PG) A) : Prop :=
  forall d, store_ok lower (tables_of d) -> store_ok lower (tables_of (m d).2).

Lemma keeps_ret {A} (a : A) : keeps (sm_ret a).
Proof. by intros d. Qed.

Lemma keeps_bind {A B} (m : SM (Database PG) A) (k : A -> SM (Database PG) B) :
  keeps m -> (forall a, keeps (k a)) -> keeps (sm_bind m k).
Proof.
  intros Hm Hk d Hd. unfold sm_bind. specialize (Hm d Hd). destruct (m d) as [a d1].
  by apply Hk.
Qed.

Lemma keeps_query {A} expected sql values (failure : A) read :
  sql ∈ statements -> expected <> PGRES_FATAL_ERROR -> values_ok sql values ->
  keeps (query expected sql values failure read).
Proof.
  intros Hsql Hexp Hv d Hd.
  pose proof (query_spec expected sql values failure read d Hsql Hexp) as Hq.
  destruct (query expected sql values failure read d) as [a d'].
  destruct Hq as [(r & (now & _ & Hrun) & _)|(_ & [Ht|(rows & now & _ & Hrun)])]; simpl.
  - by eapply statement_ok.
  - by rewrite Ht.
  - by eapply statement_ok.
Qed.

Lemma values_ok_other sql values :
  sql <> sql_setPermissionLevel -> sql <> sql_createAccount -> values_ok sql values.
Proof. done. Qed.

Lemma keeps_findAccount u : keeps (findAccount u).
Proof. apply keeps_query; [solve_statement|done|by apply values_ok_other]. Qed.
Lemma keeps_hasAdmin : keeps hasAdmin.
Proof. apply keeps_query; [solve_statement|done|by apply values_ok_other]. Qed.
Lemma keeps_deleteAccount u : keeps (deleteAccount u).
Proof. apply keeps_query; [solve_statement|done|by apply values_ok_other]. Qed.
Lemma keeps_touchLastLogin i : keeps (touchLastLogin i).
Proof. apply keeps_query; [solve_statement|done|by apply values_ok_other]. Qed.
Lemma keeps_createSession i t n : keeps (createSession i t n).
Proof. apply keeps_query; [solve_statement|done|by apply values_ok_other]. Qed.
Lemma keeps_lookupSession t : keeps (lookupSession t).
Proof. apply keeps_query; [solve_statement|done|by apply values_ok_other]. Qed.
Lemma keeps_deleteSession t : keeps (deleteSession t).
Proof. apply keeps_query; [solve_statement|done|by apply values_ok_other]. Qed.
Lemma keeps_purge : keeps purgeExpiredSessions.
Proof. apply keeps_query; [solve_statement|done|by apply values_ok_other]. Qed.

Lemma keeps_setPermissionLevel u level : fits 8 level -> keeps (setPermissionLevel u level).
Proof.
  intros Hl. apply keeps_query; [solve_statement|done|]. split; [|done].
  intros _ l n [= <- <-]. by rewrite strtol_to_string by (unfold fits in Hl; lia).
Qed.

Lemma keeps_createAccount u h :
  wire_text (c_str u) -> wire_text (c_str h) -> keeps (createAccount u h).
Proof.
  intros Hu Hh. apply keeps_query; [solve_statement|done|]. split; [done|].
  intros _. by rewrite Forall_cons, Forall_singleton.
Qed.

(** ** What every method does *)

Definition account_of_row (a : AccountRow) : Account :=
  {| acc_id := ar_id a; acc_username := ar_username a;
     acc_passwordHash := ar_password_hash a; acc_permissionLevel := ar_permission_level a |}.

Definition session_of_row (a : AccountRow) : Session :=
  {| ses_accountId := ar_id a; ses_username := ar_username a;
     ses_permissionLevel := ar_permission_level a |}.

(** The account a token stands for at a moment. *)
Definition live (now : Z) (token : string) (t : Tables) : option AccountRow :=
  s ← List.find (fun s => bool_decide (sr_token s = token) && (now <? sr_expires_at s))
        (t_sessions t);
  List.find (fun a => ar_id a =? sr_account_id s) (t_accounts t).

Lemma row_numbers t a :
  store_ok lower t -> a ∈ t_accounts t ->
  strtoul (to_string (ar_id a)) = ar_id a /\
  u8 (atoi (to_string (ar_permission_level a))) = ar_permission_level a.
Proof.
  intros [[_ H2 _ _ _ H6 _] Hn] Ha. rewrite Forall_forall in H2, H6.
  specialize (H2 a Ha). specialize (H6 a Ha). unfold fits in H6. split.
  - apply strtoul_to_string. unfold fits. lia.
  - rewrite atoi_to_string by lia. by apply wrap_id.
Qed.

Lemma read_found_account_row t a rows st cmd :
  store_ok lower t -> a ∈ t_accounts t ->
  read_found_account {| PQresultStatus := st; pq_rows := account_row a :: rows;
                        PQcmdTuples := cmd |} = (true, true, account_of_row a).
Proof.
  intros Hok Ha. destruct (row_numbers t a Hok Ha) as [E1 E2].
  unfold read_found_account, PQntuples, PQgetvalue, account_row. cbn [pq_rows length nth].
  destruct (_ =? 0) eqn:E; bool_to_prop; [lia|]. by rewrite E1, E2.
Qed.

Definition quiet_or {A} (m : SM (Database PG) A) (failure : A)
    (effect : Z -> Tables -> A -> Tables -> Prop) (d : Database PG) : Prop :=
  let '(a, d') := m d in
  (exists now, clock_of d <= now <= clock_of d' /\ effect now (tables_of d) a (tables_of d')) \/
  (a = failure /\ (tables_of d' = tables_of d \/
     exists now a', clock_of d <= now <= clock_of d' /\
       effect now (tables_of d) a' (tables_of d'))).

(** From the meaning of the statement to that of the method. *)
Lemma query_effect {A} expected sql values (failure : A) read effect d :
  sql ∈ statements -> expected <> PGRES_FATAL_ERROR ->
  (forall now rows t' st cmd,
     statement lower now sql values (tables_of d) = Some (rows, t') ->
     effect now (tables_of d)
       (read {| PQresultStatus := st; pq_rows := rows; PQcmdTuples := cmd |}) t') ->
  quiet_or (query expected sql values failure read) failure effect d.
Proof.
  intros Hsql Hexp Heff. unfold quiet_or.
  pose proof (query_spec expected sql values failure read d Hsql Hexp) as Hq.
  destruct (query expected sql values failure read d) as [a d'].
  destruct Hq as [([st rows cmd] & (now & Hc & Hrun) & ->)|(-> & Hq)].
  - left. exists now. split; [done|]. by apply Heff.
  - right. split; [done|]. destruct Hq as [Ht|(rows & now & Hc & Hrun)]; [by left|].
    right. exists now. eexists. split; [done|].
    by apply (Heff now rows (tables_of d') PGRES_TUPLES_OK EmptyString).
Qed.

Definition rows_found (name : string) (t : Tables) : bool :=
  match find_rows lower name t with [] => false | _ => true end.

Lemma findAccount_effect username d :
  store_ok lower (tables_of d) ->
  quiet_or (findAccount username) (false, false, no_account)
    (fun _ t res t' => t' = t /\
       res = match find_rows lower (c_str username) t with
             | [] => (true, false, no_account)
             | a :: _ => (true, true, account_of_row a)
             end) d.
Proof.
  intros Hok. apply query_effect; [solve_statement|done|].
  intros now rows t' st cmd [= <- <-]. split; [done|].
  destruct (find_rows lower (c_str username) (tables_of d)) as [|a rows] eqn:E; [done|].
  apply (read_found_account_row (tables_of d)); [done|].
  assert (a ∈ find_rows lower (c_str username) (tables_of d)) as Ha by (rewrite E; left).
  by apply elem_of_filter_ in Ha as [_ Ha].
Qed.

Lemma createAccount_effect username hash d :
  store_ok lower (tables_of d) ->
  quiet_or (createAccount username hash) (false, false, 0)
    (fun _ t res t' =>
       if rows_found (c_str username) t
       then res = (true, true, 0) /\ t' = mkTables (t_accounts t) (t_sessions t) (t_nextval t + 1)
       else res = (true, false, t_nextval t) /\
            t' = do_createAccount (c_str username) (c_str hash) t) d.
Proof.
  intros [_ Hn]. apply query_effect; [solve_statement|done|].
  intros now rows t' st cmd E. unfold rows_found.
  change (statement lower now sql_createAccount [c_str username; c_str hash] (tables_of d)) with
    (if 2 ^ 63 <=? t_nextval (tables_of d) then None
     else if decide (find_rows lower (c_str username) (tables_of d) = []) then
       Some ([[to_string (t_nextval (tables_of d))]],
         do_createAccount (c_str username) (c_str hash) (tables_of d))
     else Some ([], mkTables (t_accounts (tables_of d)) (t_sessions (tables_of d))
                      (t_nextval (tables_of d) + 1))) in E.
  destruct (2 ^ 63 <=? _) eqn:El; [done|]. bool_to_prop.
  destruct (find_rows lower (c_str username) (tables_of d)); case_decide; simplify_eq; [|done].
  split; [|done]. unfold PQntuples, PQgetvalue. cbn [pq_rows length nth].
  destruct (_ =? 0) eqn:E0; bool_to_prop; [lia|].
  rewrite strtoul_to_string; [done|]. unfold fits. lia.
Qed.

Lemma setPermissionLevel_effect username level d :
  fits 8 level ->
  quiet_or (setPermissionLevel username level) (false, false)
    (fun _ t res t' => res = (true, rows_found (c_str username) t) /\
       t' = do_setPermissionLevel lower level (c_str username) t) d.
Proof.
  intros Hl. apply query_effect; [solve_statement|done|].
  intros now rows t' st cmd [= <- <-].
  rewrite strtol_to_string by (unfold fits in Hl; lia). split; [|done].
  unfold rows_found, PQntuples. cbn [pq_rows]. rewrite length_fmap.
  by destruct (find_rows lower (c_str username) (tables_of d)).
Qed.

Lemma deleteAccount_effect username d :
  quiet_or (deleteAccount username) (false, false)
    (fun _ t res t' => res = (true, rows_found (c_str username) t) /\
       t' = do_deleteAccount lower (c_str username) t) d.
Proof.
  apply query_effect; [solve_statement|done|].
  intros now rows t' st cmd [= <- <-]. split; [|done].
  unfold rows_found, PQntuples. cbn [pq_rows]. rewrite length_fmap.
  by destruct (find_rows lower (c_str username) (tables_of d)).
Qed.

Lemma hasAdmin_effect d :
  quiet_or hasAdmin (false, false)
    (fun _ t res t' => t' = t /\
       res = (true, existsb (fun a => 2 <=? ar_permission_level a) (t_accounts t))) d.
Proof.
  apply query_effect; [solve_statement|done|].
  intros now rows t' st cmd [= <- <-]. split; [done|]. f_equal.
  unfold PQntuples. cbn [pq_rows].
  induction (t_accounts (tables_of d)) as [|a l IH]; [done|]. simpl.
  by destruct (2 <=? ar_permission_level a).
Qed.

Lemma touchLastLogin_effect i d :
  quiet_or (touchLastLogin i) false (fun _ t res t' => res = true /\ t' = t) d.
Proof. apply query_effect; [solve_statement|done|]. by intros now rows t' st cmd [= <- <-]. Qed.

Lemma createSession_effect account token ttl d :
  fits 64 account -> fits 32 ttl ->
  quiet_or (createSession account token ttl) false
    (fun now t res t' => res = true /\ account ∈ (ar_id <$> t_accounts t) /\
       (c_str token ∉ sr_token <$> t_sessions t) /\
       t' = do_createSession (c_str token) account (now + ttl * 10 ^ 6) t) d.
Proof.
  intros Ha Ht. apply query_effect; [solve_statement|done|].
  intros now rows t' st cmd E.
  change (statement lower now sql_createSession [c_str token; to_string account; to_string ttl]
      (tables_of d)) with
    (if existsb (fun a => ar_id a =? strtoul (to_string account)) (t_accounts (tables_of d))
        && negb (existsb (fun s => bool_decide (sr_token s = c_str token))
                   (t_sessions (tables_of d)))
     then Some (@nil (list string), do_createSession (c_str token) (strtoul (to_string account))
                      (now + strtoul (to_string ttl) * 10 ^ 6) (tables_of d))
     else None) in E.
  rewrite (strtoul_to_string account), (strtoul_to_string ttl) in E by
    (unfold fits in *; lia).
  destruct (_ && _) eqn:Ec; [|done]. simplify_eq. apply andb_true_iff in Ec as [E1 E2].
  apply existsb_account in E1. split_and!; try done.
  intros (s & Es & Hs)%list_elem_of_fmap. apply negb_true_iff, not_true_iff_false in E2.
  apply E2, existsb_exists. exists s. rewrite <- list_elem_of_In. split; [done|].
  by apply bool_decide_eq_true.
Qed.

Lemma deleteSession_effect token d :
  quiet_or (deleteSession token) false
    (fun _ t res t' => res = true /\ t' = do_deleteSession (c_str token) t) d.
Proof. apply query_effect; [solve_statement|done|]. by intros now rows t' st cmd [= <- <-]. Qed.

Lemma purge_effect d :
  quiet_or purgeExpiredSessions (false, 0) (fun now t res t' => res.1 = true /\ t' = do_purge now t) d.
Proof. apply query_effect; [solve_statement|done|]. by intros now rows t' st cmd [= <- <-]. Qed.

Lemma find_filter_head {A} (f : A -> bool) l :
  List.find f l = match List.filter f l with [] => None | x :: _ => Some x end.
Proof. induction l as [|x l IH]; [done|]. simpl. by destruct (f x). Qed.

(** The head of the join is the live session's account. *)
Lemma session_rows_live now token t :
  tables_ok lower t ->
  match live now token t with
  | None => session_rows now token t = []
  | Some a => a ∈ t_accounts t /\ exists rows, session_rows now token t =
      [to_string (ar_id a); ar_username a; to_string (ar_permission_level a)] :: rows
  end.
Proof.
  intros Hok. unfold live, session_rows. rewrite find_filter_head.
  set (ss := List.filter _ (t_sessions t)).
  destruct ss as [|s ss'] eqn:Ess; [done|]. cbn [mbind option_bind list_bind].
  assert (Hs : s ∈ t_sessions t).
  { assert (s ∈ ss) as Hin by (rewrite Ess; left). by apply elem_of_filter_ in Hin as [_ Hin]. }
  pose proof (ok_owners _ _ Hok) as Ho. rewrite Forall_forall in Ho. specialize (Ho s Hs).
  apply existsb_account, existsb_exists in Ho as (a0 & Ha0 & E0).
  rewrite find_filter_head.
  destruct (List.filter (fun a => ar_id a =? sr_account_id s) (t_accounts t)) as [|a l] eqn:El.
  - assert (a0 ∈ List.filter (fun a => ar_id a =? sr_account_id s) (t_accounts t)) as Hin.
    { apply elem_of_filter_. by rewrite list_elem_of_In. }
    rewrite El in Hin. by apply not_elem_of_nil in Hin.
  - assert (a ∈ List.filter (fun a => ar_id a =? sr_account_id s) (t_accounts t)) as Hin
      by (rewrite El; left).
    apply elem_of_filter_ in Hin as [Hid Hin]. apply Z.eqb_eq in Hid. split; [done|].
    rewrite Hid. by eexists.
Qed.

Lemma lookupSession_effect token d :
  store_ok lower (tables_of d) ->
  quiet_or (lookupSession token) (false, false, no_session)
    (fun now t res t' => t' = t /\
       res = match live now (c_str token) t with
             | None => (true, false, no_session)
             | Some a => (true, true, session_of_row a)
             end) d.
Proof.
  intros Hok. apply query_effect; [solve_statement|done|].
  intros now rows t' st cmd [= <- <-]. split; [done|].
  pose proof (session_rows_live now (c_str token) (tables_of d) (proj1 Hok)) as Hl.
  destruct (live now (c_str token) (tables_of d)) as [a|].
  - destruct Hl as [Ha [rows E]].
    change (session_rows now (c_str token) (tables_of d)) with
      (session_rows now (c_str token) (tables_of d)).
    destruct (row_numbers (tables_of d) a Hok Ha) as [E1 E2].
    unfold read_found_session, PQntuples, PQgetvalue. cbn [pq_rows]. rewrite E.
    cbn [length nth]. destruct (_ =? 0) eqn:E0; bool_to_prop; [lia|]. by rewrite E1, E2.
  - unfold read_found_session, PQntuples. cbn [pq_rows]. by rewrite Hl.
Qed.

End Laws.

(** ** An in-memory Postgres

    A concrete server that obeys the laws: it executes the statements at a
    fixed clock and fails them while it is down. *)

Module InMemory.

Record Server := mkMem { mem_tables : Tables; mem_clock : Z; mem_up : bool }.

(** [lower()] of the C locale. *)
Fixpoint ascii_lower (s : string) : string :=
  match s with
  | EmptyString => EmptyString
  | String c s' =>
      let n := Ascii.N_of_ascii c in
      String (if (65 <=? n)%N && (n <=? 90)%N then Ascii.ascii_of_N (n + 32) else c)
        (ascii_lower s')
  end.

Definition mem_exec (sql : string) (values : list string) (pg : Server) : PGresult * Server :=
  let failed := {| PQresultStatus := PGRES_FATAL_ERROR; pq_rows := []; PQcmdTuples := "" |} in
  if mem_up pg then
    match statement ascii_lower (mem_clock pg) sql values (mem_tables pg) with
    | None => (failed, pg)
    | Some (rows, t) =>
        ({| PQresultStatus := if returns_rows sql then PGRES_TUPLES_OK else PGRES_COMMAND_OK;
            pq_rows := rows; PQcmdTuples := "" |}, mkMem t (mem_clock pg) true)
    end
  else (failed, pg).

Global Instance mem_postgres : Postgres Server :=
  {| PQconnectdb _ pg := pg; PQfinish pg := pg; PQreset pg := pg; PQstatus := mem_up;
     PQerrorMessage _ := "";
     PQexecParams := mem_exec |}.

Global Instance mem_laws : PostgresLaws Server.
Proof.
  refine {| lower := ascii_lower; tables := mem_tables; clock := mem_clock |}.
  - intros sql values pg. cbn [PQexecParams mem_postgres]. unfold mem_exec.
    destruct (mem_up pg); [|simpl; lia].
    destruct (statement _ _ _ _ _) as [[rows t]|]; simpl; lia.
  - intros sql values pg _. cbn [PQexecParams mem_postgres]. unfold mem_exec.
    destruct (mem_up pg); [|done].
    destruct (statement _ _ _ _ _) as [[rows t]|] eqn:E; [|done].
    intros _. exists (mem_clock pg). cbn [mem_clock mem_tables pq_rows PQresultStatus].
    split; [lia|done].
  - intros sql values pg _. cbn [PQexecParams mem_postgres]. unfold mem_exec.
    destruct (mem_up pg); [|by left].
    destruct (statement _ _ _ _ _) as [[rows t]|]; [|by left].
    cbn [PQresultStatus]. by destruct (returns_rows sql).
  - intros. split; [done|simpl; lia].
  - intros. split; [done|simpl; lia].
  - intros. split; [done|simpl; lia].
Defined.

Definition empty_tables : Tables := mkTables [] [] 1.

Definition mem_database (t : Tables) : Database Server :=
  mkDatabase true "" "" (mkMem t 1000 true).

Lemma empty_ok : store_ok ascii_lower empty_tables.
Proof. split; [constructor; simpl; constructor|simpl; lia]. Qed.

End InMemory.
