(* ===== verification/DbServer.v ===== *)
(** * The database server ([server/dbserver/src/main.cpp])

    The message handler: one request in, at most one reply out, on the
    [TcpServer] the program owns and the [Database] behind it; and the body of
    the main loop with its periodic purge. *)

From Stdlib Require Import ZArith Lia Strings.Byte Strings.String.
From stdpp Require Import base list option gmap strings.
From S2P Require Import Prelude Config ByteStream Protocol Framing Address TcpServer DbClient.
From S2P Require Import Database.
Import ByteWriter.

Open Scope Z_scope.
Open Scope sm_scope.

Section DbServer.
Context {PG : Type} `{Postgres PG}.

Record DbServer := mkDbServer {
  ds_server : TcpServer;
  ds_database : Database PG;
  ds_ticksUntilPurge : Z;
}.

Global Instance db_server_has_server : HasServer DbServer :=
  {| server := ds_server;
     set_server s st := mkDbServer s (ds_database st) (ds_ticksUntilPurge st);
     server_set s st := eq_refl |}.

Definition buildConnInfo (getenv : string -> option string) : string :=
  "host=" +:+ envString getenv "PGHOST" "postgres" +:+
  " port=" +:+ to_string (envPort getenv "PGPORT" 5432) +:+
  " dbname=" +:+ envString getenv "PGDATABASE" "untitled" +:+
  " user=" +:+ envString getenv "PGUSER" "untitled" +:+
  " password=" +:+ envString getenv "PGPASSWORD" "untitled" +:+
  " connect_timeout=5".

(** ** One handler per request: the reply's payload *)

Definition bool_code (b : bool) : Z := if b then 1 else 0.

(** [!ok ? Error : !found ? NotFound : Ok]. *)
Definition found_result (ok found : bool) : DbResult :=
  if negb ok then DbError else if negb found then DbNotFound else DbOk.

Definition handleAccountLookup (requestId : Z) (r : ByteReader)
    : SM (Database PG) (list byte) :=
  let '(username, r) := r_string r in
  let! res := if failed r then sm_ret (false, false, no_account) else findAccount username in
  let '(ok, found, account) := res in
  sm_ret (w_u8 (acc_permissionLevel account) (w_string (acc_passwordHash account)
    (w_u64 (acc_id account) (w_u8 (bool_code (ok && found)) (w_u32 requestId []))))).

Definition handleAdminExists (requestId : Z) (r : ByteReader) : SM (Database PG) (list byte) :=
  let! res := hasAdmin in
  let '(ok, exists_) := res in
  sm_ret (w_u8 (bool_code (ok && exists_)) (w_u32 requestId [])).

Definition handleAccountSetLevel (requestId : Z) (r : ByteReader)
    : SM (Database PG) (list byte) :=
  let '(username, r) := r_string r in
  let '(level, r) := r_u8 r in
  let! res := if failed r then sm_ret (false, false) else setPermissionLevel username level in
  let '(ok, found) := res in
  sm_ret (w_u8 (db_result_code (found_result ok found)) (w_u32 requestId [])).

(** [AccountCreateRequest] and [AccountCreateWithLevelRequest]. The result of
    setting the level of a new account is not looked at. *)
Definition handleAccountCreate (with_level : bool) (requestId : Z) (r : ByteReader)
    : SM (Database PG) (list byte) :=
  let '(username, r) := r_string r in
  let '(passwordHash, r) := r_string r in
  let '(level, r) := if with_level then r_u8 r else (0, r) in
  let! res :=
    if failed r then sm_ret (false, false, 0) else createAccount username passwordHash in
  let '(ok, conflict, accountId) := res in
  let! _ :=
    if ok && negb conflict && negb (level =? 0) then setPermissionLevel username level
    else sm_ret (false, false) in
  sm_ret (w_u64 accountId (w_u8 (db_result_code
    (if negb ok then DbError else if conflict : bool then DbConflict else DbOk))
    (w_u32 requestId []))).

Definition handleAccountDelete (requestId : Z) (r : ByteReader) : SM (Database PG) (list byte) :=
  let '(username, r) := r_string r in
  let! res := if failed r then sm_ret (false, false) else deleteAccount username in
  let '(ok, found) := res in
  sm_ret (w_u8 (db_result_code (found_result ok found)) (w_u32 requestId [])).

Definition handleSessionCreate (requestId : Z) (r : ByteReader) : SM (Database PG) (list byte) :=
  let '(accountId, r) := r_u64 r in
  let '(token, r) := r_string r in
  let '(ttl, r) := r_u32 r in
  let! created := if failed r then sm_ret false else createSession accountId token ttl in
  let! ok := if created : bool then touchLastLogin accountId else sm_ret false in
  sm_ret (w_u8 (db_result_code (if ok : bool then DbOk else DbError)) (w_u32 requestId [])).

Definition handleSessionLookup (requestId : Z) (r : ByteReader) : SM (Database PG) (list byte) :=
  let '(token, r) := r_string r in
  let! res := if failed r then sm_ret (false, false, no_session) else lookupSession token in
  let '(ok, found, session) := res in
  sm_ret (w_u8 (ses_permissionLevel session) (w_string (ses_username session)
    (w_u64 (ses_accountId session) (w_u8 (bool_code (ok && found)) (w_u32 requestId []))))).

Definition handleSessionDelete (requestId : Z) (r : ByteReader) : SM (Database PG) (list byte) :=
  let '(token, r) := r_string r in
  let! ok := if failed r then sm_ret false else deleteSession token in
  sm_ret (w_u8 (db_result_code (if ok : bool then DbOk else DbError)) (w_u32 requestId [])).

(** The [switch] of the message handler: the type of the reply, and its
    handler; nothing for the types the server does not answer. *)
Definition dispatchRequest (type : Z)
    : option (DbMessage * (Z -> ByteReader -> SM (Database PG) (list byte))) :=
  match db_message_of type with
  | Some AccountLookupRequest => Some (AccountLookupResponse, handleAccountLookup)
  | Some AdminExistsRequest => Some (AdminExistsResponse, handleAdminExists)
  | Some AccountSetLevelRequest => Some (AccountSetLevelResponse, handleAccountSetLevel)
  | Some AccountCreateWithLevelRequest =>
      Some (AccountCreateResponse, handleAccountCreate true)
  | Some AccountCreateRequest => Some (AccountCreateResponse, handleAccountCreate false)
  | Some AccountDeleteRequest => Some (AccountDeleteResponse, handleAccountDelete)
  | Some SessionCreateRequest => Some (SessionCreateResponse, handleSessionCreate)
  | Some SessionLookupRequest => Some (SessionLookupResponse, handleSessionLookup)
  | Some SessionDeleteRequest => Some (SessionDeleteResponse, handleSessionDelete)
  | _ => None
  end.

(** The body of the message handler: the reply, if there is one. *)
Definition handleMessage (type : Z) (data : list byte) (d : Database PG)
    : option Message * Database PG :=
  let '(requestId, r) := r_u32 (open_reader data) in
  if failed r then (None, d)
  else
    match dispatchRequest type with
    | None => (None, d)
    | Some (response, handler) =>
        let '(payload, d) := handler requestId r d in
        (Some (mkMessage (db_message_code response) payload), d)
    end.

Definition onMessage (id : ConnectionId) (type : Z) (data : list byte) (st : DbServer)
    : DbServer :=
  let '(reply, d) := handleMessage type data (ds_database st) in
  mkDbServer
    match reply with
    | Some m => server_send id (msg_type m) (msg_payload m) (ds_server st)
    | None => ds_server st
    end d (ds_ticksUntilPurge st).

(** The body of the main loop. *)
Definition main_step (ev : Events) (st : DbServer) : DbServer :=
  let st := poll (fun _ _ st => st) onMessage (fun _ st => st) ev st in
  let ticks := ds_ticksUntilPurge st - 1 in
  if ticks <=? 0 then
    let '(_, d) := purgeExpiredSessions (ds_database st) in
    mkDbServer (ds_server st) d (5 * 60 * 5)
  else mkDbServer (ds_server st) (ds_database st) ticks.

End DbServer.
Arguments DbServer PG : clear implicits.

(** ** The tables stay well-formed *)

Section Correctness.
Context {PG : Type} `{PostgresLaws PG}.

Create HintDb dbkeeps.
#[local] Hint Resolve keeps_ret keeps_findAccount keeps_hasAdmin keeps_deleteAccount
  keeps_touchLastLogin keeps_createSession keeps_lookupSession keeps_deleteSession
  keeps_purge : dbkeeps.

Lemma wire_string r : wire_text (c_str (r_string r).1).
Proof. apply wire_text_c_str, r_string_length. Qed.

Ltac solve_keeps :=
  first
    [ solve [auto with dbkeeps]
    | case_match; solve_keeps
    | apply keeps_bind; [solve_keeps|intros ?; solve_keeps] ].

Lemma dispatch_keeps type response handler requestId r :
  dispatchRequest type = Some (response, handler) -> keeps (handler requestId r).
Proof.
  unfold dispatchRequest. intros E. destruct (db_message_of type) as [m|]; [|done].
  destruct m; simplify_eq.
  - unfold handleAccountLookup. destruct (r_string r) as [u r1]. solve_keeps.
  - unfold handleAccountCreate.
    pose proof (wire_string r) as Hu. destruct (r_string r) as [u r1].
    pose proof (wire_string r1) as Hh. destruct (r_string r1) as [h r2]. cbn [fst] in Hu, Hh.
    apply keeps_bind; [|intros [[ok conflict] accountId]].
    + destruct (failed r2); [apply keeps_ret|by apply keeps_createAccount].
    + apply keeps_bind; [|intros; apply keeps_ret].
      rewrite andb_false_r. apply keeps_ret.
  - unfold handleSessionCreate. destruct (r_u64 r) as [a r1], (r_string r1) as [t r2],
      (r_u32 r2) as [ttl r3]. solve_keeps.
  - unfold handleSessionLookup. destruct (r_string r) as [u r1]. solve_keeps.
  - unfold handleSessionDelete. destruct (r_string r) as [u r1]. solve_keeps.
  - unfold handleAccountDelete. destruct (r_string r) as [u r1]. solve_keeps.
  - unfold handleAccountSetLevel. destruct (r_string r) as [u r1].
    pose proof (r_u8_fits r1) as Hl. destruct (r_u8 r1) as [level r2]. cbn [fst] in Hl.
    apply keeps_bind; [|intros [ok found]; apply keeps_ret].
    destruct (failed r2); [apply keeps_ret|by apply keeps_setPermissionLevel].
  - unfold handleAccountCreate.
    pose proof (wire_string r) as Hu. destruct (r_string r) as [u r1].
    pose proof (wire_string r1) as Hh. destruct (r_string r1) as [h r2].
    pose proof (r_u8_fits r2) as Hl. destruct (r_u8 r2) as [level r3]. cbn [fst] in Hu, Hh, Hl.
    apply keeps_bind; [|intros [[ok conflict] accountId]].
    + destruct (failed r3); [apply keeps_ret|by apply keeps_createAccount].
    + apply keeps_bind; [|intros; apply keeps_ret].
      destruct (_ && _); [by apply keeps_setPermissionLevel|apply keeps_ret].
  - unfold handleAdminExists. solve_keeps.
Qed.

Definition db_server_ok (st : DbServer PG) : Prop :=
  store_ok lower (tables_of (ds_database st)).

Lemma keeps_handleMessage type data : keeps (handleMessage type data).
Proof.
  intros d Hok. unfold handleMessage. destruct (r_u32 _) as [requestId r].
  destruct (failed r); [done|].
  destruct (dispatchRequest type) as [[response handler]|] eqn:E; [|done].
  pose proof (dispatch_keeps type response handler requestId r E _ Hok) as Hk.
  by destruct (handler requestId r d).
Qed.

Lemma onMessage_ok id type data st : db_server_ok st -> db_server_ok (onMessage id type data st).
Proof.
  unfold db_server_ok, onMessage. intros Hok.
  pose proof (keeps_handleMessage type data _ Hok) as Hk.
  by destruct (handleMessage type data (ds_database st)).
Qed.

(** The schema's invariants survive anything the services send. Whatever
    bytes arrive on whatever connections, however Postgres answers, one turn of
    the database server's main loop keeps the stored tables well-formed: unique
    ids, names unique up to case, unique tokens, no session without its account,
    permission levels that fit a byte. *)
Lemma main_step_keeps_tables (ev : Events) (st : DbServer PG) (Hok : db_server_ok st) :
  db_server_ok (main_step ev st).
Proof.
  unfold main_step. set (st1 := poll _ _ _ ev st).
  assert (H1 : db_server_ok st1).
  { apply poll_preserves; auto using onMessage_ok. }
  destruct (_ <=? 0); [|done].
  pose proof (keeps_purge (ds_database st1) H1) as Hk.
  by destruct (purgeExpiredSessions (ds_database st1)).
Qed.

(** ** What the service promises its clients

    [served now r reply t t']: request [r], executed at time [now] on the
    tables [t], is answered [reply] and leaves [t']. *)

Definition account_reply (rows : list AccountRow) : AccountLookup :=
  match rows with
  | [] => default_account
  | a :: _ =>
      {| al_found := true; al_accountId := ar_id a; al_passwordHash := ar_password_hash a;
         al_permissionLevel := ar_permission_level a |}
  end.

Definition session_reply (a : option AccountRow) : SessionLookup :=
  match a with
  | None => default_session
  | Some a =>
      {| sl_found := true; sl_accountId := ar_id a; sl_username := ar_username a;
         sl_permissionLevel := ar_permission_level a |}
  end.

Definition bumped (t : Tables) : Tables :=
  mkTables (t_accounts t) (t_sessions t) (t_nextval t + 1).

(** Creating an account; an existing name only uses up an id. *)
Inductive created (u h : string) (t : Tables) : option DbResult * Z -> Tables -> Prop :=
| created_new : find_rows lower (c_str u) t = [] ->
    created u h t (Some DbOk, t_nextval t) (do_createAccount (c_str u) (c_str h) t)
| created_conflict : find_rows lower (c_str u) t <> [] ->
    created u h t (Some DbConflict, 0) (bumped t).

Definition found_code (u : string) (t : Tables) : option DbResult :=
  Some (if decide (find_rows lower (c_str u) t = []) then DbNotFound else DbOk).

Inductive served (now : Z) : forall r : Request, Reply (call_of r) -> Tables -> Tables -> Prop :=
| served_lookupAccount u t :
    served now (ReqLookupAccount u) (account_reply (find_rows lower (c_str u) t)) t t
| served_createAccount u h t reply t' :
    created u h t reply t' -> served now (ReqCreateAccount u h) reply t t'
| served_createAccountWithLevel u h level t reply t' t'' :
    created u h t reply t' ->
    (* the level is set by a second statement, whose failure is not reported *)
    t'' = t' \/ (reply.1 = Some DbOk /\ level <> 0 /\
                 t'' = do_setPermissionLevel lower level (c_str u) t') ->
    served now (ReqCreateAccountWithLevel u h level) reply t t''
| served_deleteAccount u t :
    served now (ReqDeleteAccount u) (found_code u t) t (do_deleteAccount lower (c_str u) t)
| served_setPermissionLevel u level t :
    served now (ReqSetPermissionLevel u level) (found_code u t) t
      (do_setPermissionLevel lower level (c_str u) t)
| served_adminExists t :
    served now ReqAdminExists
      (existsb (fun a => 2 <=? ar_permission_level a) (t_accounts t)) t t
| served_createSession account token ttl t :
    account ∈ ar_id <$> t_accounts t -> c_str token ∉ sr_token <$> t_sessions t ->
    served now (ReqCreateSession account token ttl) (Some DbOk) t
      (do_createSession (c_str token) account (now + ttl * 10 ^ 6) t)
| served_lookupSession token t :
    served now (ReqLookupSession token) (session_reply (live now (c_str token) t)) t t
| served_deleteSession token t :
    served now (ReqDeleteSession token) (Some DbOk) t (do_deleteSession (c_str token) t).

(** A request whose fields the wire carries whole. *)
Definition request_wf (r : Request) : Prop :=
  let short s := (String.length s <= kMaxStringLength)%nat in
  match r with
  | ReqLookupAccount u | ReqDeleteAccount u | ReqLookupSession u | ReqDeleteSession u => short u
  | ReqCreateAccount u h => short u /\ short h
  | ReqCreateAccountWithLevel u h level => short u /\ short h /\ fits 8 level
  | ReqSetPermissionLevel u level => short u /\ fits 8 level
  | ReqAdminExists => True
  | ReqCreateSession account token ttl => fits 64 account /\ short token /\ fits 32 ttl
  end.

(** ** Reading a reply back *)

Lemma handler_reply_decode c payload reply :
  reads ((_ <-- r_u32 ;; read_reply c)%reader) payload reply ->
  handler_reply c true (response_type c) payload = (true, reply).
Proof.
  intros Hr. unfold handler_reply. rewrite Z.eqb_refl. cbn [negb orb].
  pose proof (reads_open _ _ [] _ Hr) as E. rewrite app_nil_r in E. by rewrite E.
Qed.

(** Every reply starts with the id of its request. *)
Lemma handler_prefix type resp handler n r (d : Database PG) :
  dispatchRequest type = Some (resp, handler) ->
  exists rest, (handler n r d).1 = e_u32 n ++ rest.
Proof.
  unfold dispatchRequest. intros E. destruct (db_message_of type) as [m|]; [|done].
  destruct m; simplify_eq;
    unfold handleAccountLookup, handleAccountCreate, handleSessionCreate, handleSessionLookup,
      handleSessionDelete, handleAccountDelete, handleAccountSetLevel, handleAdminExists, sm_bind;
    repeat match goal with |- context [let '(_, _) := ?e in _] => destruct e end;
    cbn [sm_ret fst]; autorewrite with writer; rewrite app_nil_l, <- ?app_assoc; by eexists.
Qed.

Lemma reply_answers n type payload rest :
  fits 32 n -> payload = e_u32 n ++ rest -> answers n (mkMessage type payload) = true.
Proof.
  intros Hn ->. unfold answers. cbn [msg_payload].
  rewrite (reads_open r_u32 (e_u32 n) rest n) by (by apply reads_u32).
  cbn [failed mFailed negb andb]. apply Z.eqb_refl.
Qed.

Lemma bool_code_fits b : fits 8 (bool_code b).
Proof. unfold fits. by destruct b. Qed.

Lemma db_result_code_fits x : fits 8 (db_result_code x).
Proof. unfold fits. by destruct x. Qed.

Lemma bool_code_decode b : negb (bool_code b =? 0) = b.
Proof. by destruct b. Qed.

Lemma db_result_decode x : db_result_of (db_result_code x) = Some x.
Proof. by destruct x. Qed.

#[local] Hint Resolve bool_code_fits db_result_code_fits : reader.

Lemma reads_result n x :
  fits 32 n ->
  reads ((_ <-- r_u32 ;; read_result)%reader) (w_u8 (db_result_code x) (w_u32 n [])) (Some x).
Proof.
  intros Hn. unfold read_result. rewrite <- db_result_decode. autorewrite with writer.
  rewrite app_nil_l. rewrite <- (app_nil_r (e_u8 _)). solve_reads.
Qed.

Lemma reads_created n x id :
  fits 32 n -> fits 64 id ->
  reads ((_ <-- r_u32 ;; read_created)%reader)
    (w_u64 id (w_u8 (db_result_code x) (w_u32 n []))) (Some x, id).
Proof.
  intros Hn Hid. unfold read_created. rewrite <- db_result_decode. autorewrite with writer.
  rewrite app_nil_l, <- app_assoc. rewrite <- (app_nil_r (e_u64 _)). solve_reads.
Qed.

Lemma reads_exists n b :
  fits 32 n ->
  reads ((_ <-- r_u32 ;; read_exists)%reader) (w_u8 (bool_code b) (w_u32 n [])) b.
Proof.
  intros Hn. unfold read_exists. rewrite <- (bool_code_decode b) at 2. autorewrite with writer.
  rewrite app_nil_l. rewrite <- (app_nil_r (e_u8 _)). solve_reads.
Qed.

Lemma reads_account n b id h level :
  fits 32 n -> fits 64 id -> (String.length h <= kMaxStringLength)%nat -> fits 8 level ->
  reads ((_ <-- r_u32 ;; read_account)%reader)
    (w_u8 level (w_string h (w_u64 id (w_u8 (bool_code b) (w_u32 n [])))))
    {| al_found := b; al_accountId := id; al_passwordHash := h; al_permissionLevel := level |}.
Proof.
  intros Hn Hid Hh Hl. unfold read_account. rewrite <- (bool_code_decode b) at 2.
  autorewrite with writer. rewrite app_nil_l, <- !app_assoc.
  rewrite <- (app_nil_r (e_u8 level)). solve_reads.
Qed.

Lemma reads_session n b id u level :
  fits 32 n -> fits 64 id -> (String.length u <= kMaxStringLength)%nat -> fits 8 level ->
  reads ((_ <-- r_u32 ;; read_session)%reader)
    (w_u8 level (w_string u (w_u64 id (w_u8 (bool_code b) (w_u32 n [])))))
    {| sl_found := b; sl_accountId := id; sl_username := u; sl_permissionLevel := level |}.
Proof.
  intros Hn Hid Hh Hl. unfold read_session. rewrite <- (bool_code_decode b) at 2.
  autorewrite with writer. rewrite app_nil_l, <- !app_assoc.
  rewrite <- (app_nil_r (e_u8 level)). solve_reads.
Qed.

(** ** Every handler serves its request *)

Definition answered (n : Z) (r : Request)
    (handler : Z -> ByteReader -> SM (Database PG) (list byte)) (d : Database PG) : Prop :=
  let '(payload, d') := handler n (mkReader (request_payload n r) 4 false) d in
  exists reply, reads ((_ <-- r_u32 ;; read_reply (call_of r))%reader) payload reply /\
    ((exists now, clock_of d <= now <= clock_of d' /\
        served now r reply (tables_of d) (tables_of d')) \/
     (reply = no_reply (call_of r) /\
        (tables_of d' = tables_of d \/
         exists now reply', clock_of d <= now <= clock_of d' /\
           served now r reply' (tables_of d) (tables_of d')))).

Ltac side := first [done | unfold fits; lia | simpl; lia].

Lemma find_rows_in name t a rows :
  find_rows lower name t = a :: rows -> a ∈ t_accounts t.
Proof.
  intros E. assert (a ∈ find_rows lower name t) as Ha by (rewrite E; left).
  by apply elem_of_filter_ in Ha as [_ Ha].
Qed.

Lemma live_in now token t a : live now token t = Some a -> a ∈ t_accounts t.
Proof.
  unfold live. destruct (List.find _ (t_sessions t)) as [s|]; [|done]. cbn [mbind option_bind].
  intros [Ha _]%List.find_some. by apply list_elem_of_In.
Qed.

Lemma row_fits t a :
  store_ok lower t -> a ∈ t_accounts t ->
  fits 64 (ar_id a) /\ fits 8 (ar_permission_level a) /\
  (String.length (ar_username a) <= kMaxStringLength)%nat /\
  (String.length (ar_password_hash a) <= kMaxStringLength)%nat.
Proof.
  intros [[_ H2 _ _ _ H6 H7] Hn] Ha. rewrite Forall_forall in H2, H6, H7.
  specialize (H2 a Ha). specialize (H7 a Ha) as [[Hu _] [Hh _]].
  split_and!; auto. unfold fits. lia.
Qed.

Lemma answered_lookupAccount n u d :
  store_ok lower (tables_of d) -> request_wf (ReqLookupAccount u) -> fits 32 n ->
  answered n (ReqLookupAccount u) handleAccountLookup d.
Proof.
  intros Hok Hu Hn. simpl in Hu. unfold answered, handleAccountLookup, request_payload,
    write_request. autorewrite with writer. rewrite app_nil_l.
  read_field (e_u32 n) (@nil byte) (reads_string u). cbn [failed mFailed]. unfold sm_bind.
  pose proof (findAccount_effect u d Hok) as He. unfold quiet_or in He.
  destruct (findAccount u d) as [[[ok found] account] d'].
  destruct He as [(now & Hc & Ht & E)|(E & Ht)].
  - destruct (find_rows lower (c_str u) (tables_of d)) as [|a rows] eqn:Ef; simplify_eq;
      cbn [sm_ret andb]; exists (account_reply (find_rows lower (c_str u) (tables_of d)));
      rewrite Ef; (split; [|left; exists now; split; [done|]; rewrite Ht, <- Ef; constructor]).
    + apply (reads_account n false 0 EmptyString 0); side.
    + apply find_rows_in in Ef. destruct (row_fits _ _ Hok Ef) as (H1 & H2 & H3 & H4).
      apply (reads_account n true); side.
  - simplify_eq. cbn [sm_ret andb]. exists default_account.
    split; [apply (reads_account n false 0 EmptyString 0); side|]. right. split; [done|].
    left. by destruct Ht as [Ht|(? & ? & _ & Ht & _)].
Qed.

Lemma answered_lookupSession n token d :
  store_ok lower (tables_of d) -> request_wf (ReqLookupSession token) -> fits 32 n ->
  answered n (ReqLookupSession token) handleSessionLookup d.
Proof.
  intros Hok Hu Hn. simpl in Hu. unfold answered, handleSessionLookup, request_payload,
    write_request. autorewrite with writer. rewrite app_nil_l.
  read_field (e_u32 n) (@nil byte) (reads_string token). cbn [failed mFailed]. unfold sm_bind.
  pose proof (lookupSession_effect token d Hok) as He. unfold quiet_or in He.
  destruct (lookupSession token d) as [[[ok found] session] d'].
  destruct He as [(now & Hc & Ht & E)|(E & Ht)].
  - exists (session_reply (live now (c_str token) (tables_of d))).
    destruct (live now (c_str token) (tables_of d)) as [a|] eqn:Ef; simplify_eq;
      cbn [sm_ret andb]; (split; [|left; exists now; split; [done|]; rewrite Ht, <- Ef;
        constructor]).
    + apply live_in in Ef. destruct (row_fits _ _ Hok Ef) as (H1 & H2 & H3 & H4).
      apply (reads_session n true); side.
    + apply (reads_session n false 0 EmptyString 0); side.
  - simplify_eq. cbn [sm_ret andb]. exists default_session.
    split; [apply (reads_session n false 0 EmptyString 0); side|]. right. split; [done|].
    left. by destruct Ht as [Ht|(? & ? & _ & Ht & _)].
Qed.

Lemma answered_adminExists n d :
  fits 32 n -> answered n ReqAdminExists handleAdminExists d.
Proof.
  intros Hn. unfold answered, handleAdminExists, sm_bind.
  pose proof (hasAdmin_effect d) as He. unfold quiet_or in He.
  destruct (hasAdmin d) as [[ok e] d']. cbn [sm_ret].
  exists (ok && e)%bool. split; [by apply reads_exists|].
  destruct He as [(now & Hc & Ht & E)|(E & Ht)]; simplify_eq.
  - left. exists now. split; [done|]. rewrite Ht. constructor.
  - right. split; [done|]. left. by destruct Ht as [Ht|(? & ? & _ & Ht & _)].
Qed.

(** The two requests answered by [found_result]. *)
Lemma found_result_code u t : db_result_of (db_result_code (found_result true (rows_found (c_str u) t)))
  = found_code u t.
Proof. unfold found_code, rows_found. by destruct (find_rows lower (c_str u) t). Qed.

Lemma answered_deleteAccount n u d :
  request_wf (ReqDeleteAccount u) -> fits 32 n ->
  answered n (ReqDeleteAccount u) handleAccountDelete d.
Proof.
  intros Hu Hn. simpl in Hu. unfold answered, handleAccountDelete, request_payload,
    write_request. autorewrite with writer. rewrite app_nil_l.
  read_field (e_u32 n) (@nil byte) (reads_string u). cbn [failed mFailed]. unfold sm_bind.
  pose proof (deleteAccount_effect u d) as He. unfold quiet_or in He.
  destruct (deleteAccount u d) as [[ok found] d']. cbn [sm_ret].
  exists (Some (found_result ok found)). split; [by apply reads_result|].
  assert (Hs : forall now, served now (ReqDeleteAccount u) (found_code u (tables_of d))
    (tables_of d) (do_deleteAccount lower (c_str u) (tables_of d))) by constructor.
  destruct He as [(now & Hc & E & Ht)|(E & Ht)]; simplify_eq.
  - left. exists now. split; [done|]. rewrite <- db_result_decode, found_result_code, Ht. apply Hs.
  - right. split; [done|]. destruct Ht as [Ht|(now & ? & Hc & _ & Ht)]; [by left|right].
    exists now. eexists. split; [done|]. rewrite Ht. apply Hs.
Qed.

Lemma answered_setPermissionLevel n u level d :
  request_wf (ReqSetPermissionLevel u level) -> fits 32 n ->
  answered n (ReqSetPermissionLevel u level) handleAccountSetLevel d.
Proof.
  intros [Hu Hl] Hn. unfold answered, handleAccountSetLevel, request_payload,
    write_request. autorewrite with writer. rewrite app_nil_l.
  read_field (e_u32 n) (e_u8 level) (reads_string u).
  read_field (e_u32 n ++ e_string u) (@nil byte) (reads_u8 level).
  cbn [failed mFailed]. unfold sm_bind.
  pose proof (setPermissionLevel_effect u level d Hl) as He. unfold quiet_or in He.
  destruct (setPermissionLevel u level d) as [[ok found] d']. cbn [sm_ret].
  exists (Some (found_result ok found)). split; [by apply reads_result|].
  assert (Hs : forall now, served now (ReqSetPermissionLevel u level)
    (found_code u (tables_of d)) (tables_of d)
    (do_setPermissionLevel lower level (c_str u) (tables_of d))) by constructor.
  destruct He as [(now & Hc & E & Ht)|(E & Ht)]; simplify_eq.
  - left. exists now. split; [done|]. rewrite <- db_result_decode, found_result_code, Ht. apply Hs.
  - right. split; [done|]. destruct Ht as [Ht|(now & ? & Hc & _ & Ht)]; [by left|right].
    exists now. eexists. split; [done|]. rewrite Ht. apply Hs.
Qed.

Lemma answered_deleteSession n token d :
  request_wf (ReqDeleteSession token) -> fits 32 n ->
  answered n (ReqDeleteSession token) handleSessionDelete d.
Proof.
  intros Hu Hn. simpl in Hu. unfold answered, handleSessionDelete, request_payload,
    write_request. autorewrite with writer. rewrite app_nil_l.
  read_field (e_u32 n) (@nil byte) (reads_string token). cbn [failed mFailed]. unfold sm_bind.
  pose proof (deleteSession_effect token d) as He. unfold quiet_or in He.
  destruct (deleteSession token d) as [ok d']. cbn [sm_ret].
  exists (Some (if ok then DbOk else DbError)). split; [by apply reads_result|].
  destruct He as [(now & Hc & -> & Ht)|(-> & Ht)].
  - left. exists now. split; [done|]. rewrite Ht. constructor.
  - right. split; [done|]. destruct Ht as [Ht|(now & ? & Hc & _ & Ht)]; [by left|right].
    exists now. eexists. split; [done|]. rewrite Ht. constructor.
Qed.

(** What [createAccount] leaves is one of the two outcomes of [created]. *)
Lemma created_effect u h t res t' :
  (if rows_found (c_str u) t
   then res = (true, true, 0) /\ t' = mkTables (t_accounts t) (t_sessions t) (t_nextval t + 1)
   else res = (true, false, t_nextval t) /\ t' = do_createAccount (c_str u) (c_str h) t) ->
  created u h t (Some (if res.1.2 then DbConflict else DbOk), res.2) t' /\ res.1.1 = true /\
  (res.1.2 = true -> res.2 = 0).
Proof.
  unfold rows_found. destruct (find_rows lower (c_str u) t) eqn:E; intros [-> ->];
    cbn [fst snd]; (split; [|done]).
  - by constructor.
  - constructor. by rewrite E.
Qed.

Lemma answered_createAccount n u h d :
  store_ok lower (tables_of d) -> request_wf (ReqCreateAccount u h) -> fits 32 n ->
  answered n (ReqCreateAccount u h) (handleAccountCreate false) d.
Proof.
  intros Hok [Hu Hh] Hn. unfold answered, handleAccountCreate, request_payload,
    write_request. autorewrite with writer. rewrite app_nil_l.
  read_field (e_u32 n) (e_string h) (reads_string u).
  read_field (e_u32 n ++ e_string u) (@nil byte) (reads_string h).
  cbn [failed mFailed]. unfold sm_bind.
  pose proof (createAccount_effect u h d Hok) as He. unfold quiet_or in He.
  destruct (createAccount u h d) as [[[ok conflict] id] d'].
  rewrite andb_false_r. cbn [sm_ret].
  destruct He as [(now & Hc & Heff)|(E & Ht)].
  - pose proof (created_effect u h _ _ _ Heff) as (Hcr & Hok' & Hid). cbn [fst snd] in *.
    subst ok. cbn [negb]. exists (Some (if conflict then DbConflict else DbOk), id).
    split; [|left; exists now; split; [done|by constructor]].
    apply reads_created; [done|]. inversion Hcr; [|side].
    destruct Hok as [_ Hb]. unfold fits. lia.
  - simplify_eq. exists (Some DbError, 0). split; [apply reads_created; side|].
    right. split; [done|]. destruct Ht as [Ht|(now & [[ok' c'] id'] & Hc & Heff)]; [by left|right].
    pose proof (created_effect u h _ _ _ Heff) as (Hcr & _ & _).
    exists now. eexists. split; [done|]. constructor. exact Hcr.
Qed.

Lemma answered_createAccountWithLevel n u h level d :
  store_ok lower (tables_of d) -> request_wf (ReqCreateAccountWithLevel u h level) -> fits 32 n ->
  answered n (ReqCreateAccountWithLevel u h level) (handleAccountCreate true) d.
Proof.
  intros Hok (Hu & Hh & Hl) Hn. unfold answered, handleAccountCreate, request_payload,
    write_request. autorewrite with writer. rewrite app_nil_l.
  read_field (e_u32 n) (e_string h ++ e_u8 level) (reads_string u).
  read_field (e_u32 n ++ e_string u) (e_u8 level) (reads_string h).
  read_field ((e_u32 n ++ e_string u) ++ e_string h) (@nil byte) (reads_u8 level).
  cbn [failed mFailed]. unfold sm_bind.
  pose proof (createAccount_effect u h d Hok) as He. unfold quiet_or in He.
  destruct (createAccount u h d) as [[[ok conflict] id] d'].
  destruct He as [(now & Hc & Heff)|(E & Ht)].
  - pose proof (created_effect u h _ _ _ Heff) as (Hcr & Hok' & Hid). cbn [fst snd] in *.
    subst ok. cbn [negb andb].
    assert (Hr : reads ((_ <-- r_u32 ;; read_created)%reader)
      (w_u64 id (w_u8 (db_result_code (if conflict then DbConflict else DbOk)) (w_u32 n [])))
      (Some (if conflict then DbConflict else DbOk), id)).
    { apply reads_created; [done|]. inversion Hcr; [|side].
      destruct Hok as [_ Hb]. unfold fits. lia. }
    destruct (negb conflict && negb (level =? 0)) eqn:Ec.
    + apply andb_true_iff in Ec as [Ec El]. apply negb_true_iff in Ec as ->.
      apply negb_true_iff, Z.eqb_neq in El.
      pose proof (setPermissionLevel_effect u level d' Hl) as He2. unfold quiet_or in He2.
      assert (Hck : clock_of d' <= clock_of (setPermissionLevel u level d').2) by apply query_clock.
      destruct (setPermissionLevel u level d') as [res d'']. cbn [sm_ret snd] in *.
      exists (Some DbOk, id). split; [exact Hr|]. left. exists now.
      assert (Hs : tables_of d'' = tables_of d' \/
        tables_of d'' = do_setPermissionLevel lower level (c_str u) (tables_of d')).
      { destruct He2 as [(? & _ & _ & E)|(_ & [E|(? & ? & _ & _ & E)])]; auto. }
      split; [lia|].
      eapply served_createAccountWithLevel; [exact Hcr|].
      destruct Hs as [Hs|Hs]; [by left|right; auto].
    + cbn [sm_ret]. exists (Some (if conflict then DbConflict else DbOk), id).
      split; [exact Hr|]. left. exists now. split; [done|].
      eapply served_createAccountWithLevel; [exact Hcr|by left].
  - simplify_eq. cbn [andb sm_ret negb]. exists (Some DbError, 0).
    split; [apply reads_created; side|].
    right. split; [done|]. destruct Ht as [Ht|(now & [[ok' c'] id'] & Hc & Heff)]; [by left|right].
    pose proof (created_effect u h _ _ _ Heff) as (Hcr & _ & _).
    exists now. eexists. split; [done|]. eapply served_createAccountWithLevel; [exact Hcr|by left].
Qed.

Lemma answered_createSession n account token ttl d :
  request_wf (ReqCreateSession account token ttl) -> fits 32 n ->
  answered n (ReqCreateSession account token ttl) handleSessionCreate d.
Proof.
  intros (Ha & Ht & Httl) Hn. unfold answered, handleSessionCreate, request_payload,
    write_request. autorewrite with writer. rewrite app_nil_l.
  read_field (e_u32 n) (e_string token ++ e_u32 ttl) (reads_u64 account).
  read_field (e_u32 n ++ e_u64 account) (e_u32 ttl) (reads_string token).
  read_field ((e_u32 n ++ e_u64 account) ++ e_string token) (@nil byte) (reads_u32 ttl).
  cbn [failed mFailed]. unfold sm_bind.
  pose proof (createSession_effect account token ttl d Ha Httl) as He. unfold quiet_or in He.
  destruct (createSession account token ttl d) as [ok d'].
  assert (Hserved : forall now t', account ∈ ar_id <$> t_accounts (tables_of d) ->
    c_str token ∉ sr_token <$> t_sessions (tables_of d) ->
    t' = do_createSession (c_str token) account (now + ttl * 10 ^ 6) (tables_of d) ->
    served now (ReqCreateSession account token ttl) (Some DbOk) (tables_of d) t').
  { intros now t' H1 H2 ->. by constructor. }
  destruct He as [(now & Hc & -> & Hacc & Htok & Ht')|(-> & Ht')].
  - pose proof (touchLastLogin_effect account d') as Htl. unfold quiet_or in Htl.
    assert (Hck : clock_of d' <= clock_of (touchLastLogin account d').2) by apply query_clock.
    destruct (touchLastLogin account d') as [ok d'']. cbn [sm_ret snd] in *.
    exists (Some (if ok then DbOk else DbError)). split; [by apply reads_result|].
    assert (E : tables_of d'' = tables_of d').
    { destruct Htl as [(? & _ & _ & E)|(_ & [E|(? & ? & _ & _ & E)])]; auto. }
    assert (Hs : served now (ReqCreateSession account token ttl) (Some DbOk) (tables_of d)
      (tables_of d'')) by (apply Hserved; [done|done|congruence]).
    destruct ok; [left; exists now; split; [lia|exact Hs]|right; split; [done|right]].
    exists now. eexists. split; [lia|exact Hs].
  - cbn [sm_ret]. exists (Some DbError). split; [by apply (reads_result n DbError)|].
    right. split; [done|]. destruct Ht' as [Ht'|(now & ? & Hc & _ & Hacc & Htok & Ht')];
      [by left|right]. exists now. eexists. split; [done|]. by apply Hserved.
Qed.

(** Every request starts with its id. *)
Lemma request_open n r :
  fits 32 n ->
  r_u32 (open_reader (request_payload n r)) = (n, mkReader (request_payload n r) 4 false).
Proof.
  intros Hn. assert (Hp : exists rest, request_payload n r = e_u32 n ++ rest).
  { unfold request_payload, write_request.
    destruct r; autorewrite with writer; rewrite ?app_nil_l, <- ?app_assoc; by eexists. }
  destruct Hp as [rest ->]. by apply (reads_open r_u32), reads_u32.
Qed.

(** The message handler on a request: one reply, which the client decodes to
    the result of executing the call. *)
Lemma handleMessage_serves n r (d : Database PG) :
  store_ok lower (tables_of d) -> request_wf r -> fits 32 n ->
  let '(m, d') := handleMessage (request_type r) (request_payload n r) d in
  let within now := clock_of d <= now <= clock_of d' in
  exists payload reply,
    m = Some (mkMessage (response_type (call_of r)) payload) /\
    answers n (mkMessage (response_type (call_of r)) payload) = true /\
    handler_reply (call_of r) true (response_type (call_of r)) payload = (true, reply) /\
    ((exists now, within now /\ served now r reply (tables_of d) (tables_of d')) \/
     (reply = no_reply (call_of r) /\
        (tables_of d' = tables_of d \/
         exists now reply', within now /\ served now r reply' (tables_of d) (tables_of d')))).
Proof.
  intros Hok Hwf Hn.
  assert (Hd : exists resp handler, dispatchRequest (request_type r) = Some (resp, handler) /\
    db_message_code resp = response_type (call_of r) /\ answered n r handler d).
  { destruct r; do 2 eexists; (split; [reflexivity|]); (split; [reflexivity|]).
    - by apply answered_lookupAccount.
    - by apply answered_createAccount.
    - by apply answered_deleteAccount.
    - by apply answered_createAccountWithLevel.
    - by apply answered_setPermissionLevel.
    - by apply answered_adminExists.
    - by apply answered_createSession.
    - by apply answered_lookupSession.
    - by apply answered_deleteSession. }
  destruct Hd as (resp & handler & Hd & Hresp & Hans).
  destruct (handler_prefix _ _ _ n (mkReader (request_payload n r) 4 false) d Hd) as [rest Hrest].
  unfold answered in Hans. unfold handleMessage. rewrite request_open by done. cbn [failed mFailed]. rewrite Hd.
  destruct (handler n (mkReader (request_payload n r) 4 false) d) as [payload d'].
  destruct Hans as (reply & Hr & Ho). exists payload, reply. cbn [fst] in Hrest. rewrite Hresp.
  split; [done|]. split; [by eapply reply_answers|]. split; [by apply handler_reply_decode|].
  exact Ho.
Qed.

(** C20: The remote call works end to end. For every request of [DbClient]
    whose fields fit the wire, on well-formed tables: the server answers it with
    exactly one message, to the connection it came from, which carries the
    request's id and which the client's handler for that call decodes
    completely. The decoded reply and the tables are those of executing the
    call's meaning [served] at some moment of the handling -- or the reply is
    the call's failure, and the tables are as before or as the call leaves them
    (Postgres failed, before or after the commit). *)
Theorem rpc_served (conn : ConnectionId) (n : Z) (r : Request) (st : DbServer PG)
    (Hok : db_server_ok st) (Hwf : request_wf r) (Hn : fits 32 n) :
  let st' := onMessage conn (request_type r) (request_payload n r) st in
  let t := tables_of (ds_database st) in
  let t' := tables_of (ds_database st') in
  let within now := clock_of (ds_database st) <= now <= clock_of (ds_database st') in
  exists payload reply,
    ds_server st' = server_send conn (response_type (call_of r)) payload (ds_server st) /\
    answers n (mkMessage (response_type (call_of r)) payload) = true /\
    handler_reply (call_of r) true (response_type (call_of r)) payload = (true, reply) /\
    ((exists now, within now /\ served now r reply t t') \/
     (reply = no_reply (call_of r) /\
        (t' = t \/ exists now reply', within now /\ served now r reply' t t'))).
Proof.
  intros st' t t' within. unfold within, t', t, st', onMessage.
  pose proof (handleMessage_serves n r (ds_database st) Hok Hwf Hn) as Hs.
  destruct (handleMessage _ _ (ds_database st)) as [m d'].
  destruct Hs as (payload & reply & -> & H1 & H2 & H3). by exists payload, reply.
Qed.

End Correctness.

(** ** Concrete runs *)

Definition mem_db_server : DbServer InMemory.Server :=
  mkDbServer new_server (InMemory.mem_database InMemory.empty_tables) 1.

(** A turn in which a service connects, then one that finds its request and
    purges. *)
Lemma main_step_keeps_tables_witness :
  db_server_ok (main_step (mkEvents [] [1]) (main_step (mkEvents [(mkSocket
      [RecvBytes (frame (mkMessage 102 (request_payload 7
         (ReqCreateAccount "alex" "hash")))); RecvError true] [] [], mkAddress 1 1)] [])
    mem_db_server)).
Proof.
  apply main_step_keeps_tables, main_step_keeps_tables. apply InMemory.empty_ok.
Defined.

Lemma rpc_served_witness :
  exists payload reply,
    ds_server (onMessage 3 102 (request_payload 7 (ReqCreateAccount "Alex" "hash"))
      mem_db_server) = server_send 3 103 payload new_server /\
    answers 7 (mkMessage 103 payload) = true /\
    handler_reply CallCreateAccount true 103 payload = (true, reply).
Proof.
  destruct (rpc_served 3 7 (ReqCreateAccount "Alex" "hash") mem_db_server) as
    (payload & reply & H1 & H2 & H3 & _).
  - apply InMemory.empty_ok.
  - vm_compute. split; lia.
  - unfold fits. lia.
  - exists payload, reply. auto.
Defined.

(** Registering a name twice in different case: the second is a conflict. *)
Example register_twice :
  let run r d := (handleAccountCreate false 7 (mkReader (request_payload 7 r) 4 false) d) in
  let '(p1, d1) := run (ReqCreateAccount "Alex" "h1") (InMemory.mem_database
    InMemory.empty_tables) in
  let '(p2, d2) := run (ReqCreateAccount "alex" "h2") d1 in
  handler_reply CallCreateAccount true 103 p1 = (true, (Some DbOk, 1)) /\
  handler_reply CallCreateAccount true 103 p2 = (true, (Some DbConflict, 0)).
Proof. vm_compute. done. Qed.
