(* ===== verification/Outputs.v ===== *)
(** * What the handlers of a server do

    The auth and world servers own a [TcpServer] and a [DbClient]. Their
    handlers act on the two only through messages sent, connections closed
    and requests issued; [outputs] relates the two components before and after
    to the list of these actions, and the lemmas below compute it for the
    operations the handlers are made of. *)

From Stdlib Require Import ZArith Lia Strings.Byte.
From stdpp Require Import base list option gmap.
From S2P Require Import Prelude ByteStream Framing TcpServer DbClient.

Open Scope Z_scope.

(** The two components are separate parts of the state. *)
Class ServerWithDb (St : Type) (K : DbCall -> Type) `{HasServer St, HasDbClient St K} := {
  db_set_server : forall s st, db (set_server s st) = db st;
  server_set_db : forall d st, server (set_db d st) = server st;
}.

Inductive Output (K : DbCall -> Type) :=
| OSend (id : ConnectionId) (type : Z) (payload : list byte)
| OClose (id : ConnectionId)
| ORequest (r : Request) (k : K (call_of r)).
Arguments OSend {K}.
Arguments OClose {K}.
Arguments ORequest {K}.

Section Outputs.
Context {St : Type} {K : DbCall -> Type} `{HS : HasServer St} `{HD : HasDbClient St K}.
Context `{SD : !ServerWithDb St K} `{CB : DbCallbacks St K}.

Inductive outputs : TcpServer -> DbClient K -> list (Output K) -> TcpServer -> DbClient K -> Prop :=
| outputs_nil s d : outputs s d [] s d
| outputs_send id type payload s d log s' d' :
    outputs (server_send id type payload s) d log s' d' ->
    outputs s d (OSend id type payload :: log) s' d'
| outputs_close id s d log s' d' :
    outputs (closeConnection id s) d log s' d' -> outputs s d (OClose id :: log) s' d'
| outputs_request r k s d log s' d' :
    mConnected d = true -> outputs s (issue r k d) log s' d' ->
    outputs s d (ORequest r k :: log) s' d'.

Lemma outputs_app s1 d1 l1 s2 d2 l2 s3 d3 :
  outputs s1 d1 l1 s2 d2 -> outputs s2 d2 l2 s3 d3 -> outputs s1 d1 (l1 ++ l2) s3 d3.
Proof. induction 1; simpl; eauto using outputs. Qed.

Definition requests (log : list (Output K)) : nat :=
  length (List.filter (fun o => match o with ORequest _ _ => true | _ => false end) log).

Lemma outputs_uses s d log s' d' : outputs s d log s' d' -> uses s s'.
Proof. induction 1; eauto using uses. Qed.

Lemma outputs_calls s d log s' d' : outputs s d log s' d' -> calls (requests log) d d'.
Proof. induction 1; cbn; eauto using calls. Qed.

(** Every pending request was pending before, or has just been issued. *)
Lemma outputs_pending s d log s' d' n p :
  outputs s d log s' d' -> mPending d' !! n = Some p ->
  mPending d !! n = Some p \/
  exists r k, ORequest r k ∈ log /\ p = mkPending (call_of r) k.
Proof.
  induction 1 as [s d|id type payload s d log s' d' Ho IH|id s d log s' d' Ho IH
    |r k s d log s' d' Hc Ho IH]; intros E; [by left| | |].
  - destruct (IH E) as [?|(r & k & Hin & ->)]; [by left|right]. exists r, k. by split; [right|].
  - destruct (IH E) as [?|(r & k & Hin & ->)]; [by left|right]. exists r, k. by split; [right|].
  - destruct (IH E) as [E'|(r' & k' & Hin & ->)].
    + unfold issue in E'. cbn [mPending] in E'.
      destruct (mPending d !! mNextRequestId d) as [q|] eqn:Eq; [by left|].
      apply lookup_insert_Some in E' as [[_ <-]|[_ E']]; [right|by left].
      exists r, k. by split; [left|].
    + right. exists r', k'. by split; [right|].
Qed.

(** [emits P n st st']: [st'] is [st] after actions that all satisfy [P], of
    which at most [n] are requests. *)
Definition emits (P : Output K -> Prop) (n : nat) (st st' : St) : Prop :=
  exists log, outputs (server st) (db st) log (server st') (db st') /\
    Forall P log /\ (requests log <= n)%nat.

Lemma emits_nothing P n st st' :
  server st' = server st -> db st' = db st -> emits P n st st'.
Proof. intros H1 H2. exists []. rewrite H1, H2. split_and!; [constructor|done|cbn; lia]. Qed.

Lemma emits_refl P n st : emits P n st st.
Proof. by apply emits_nothing. Qed.

Lemma emits_send (P : Output K -> Prop) n id type payload st :
  P (OSend id type payload) -> emits P n st (on_server (server_send id type payload) st).
Proof.
  intros HP. exists [OSend id type payload].
  rewrite server_on_server. unfold on_server. rewrite db_set_server.
  split_and!; [apply outputs_send, outputs_nil|by apply Forall_singleton|cbn; lia].
Qed.

Lemma emits_close (P : Output K -> Prop) n id st :
  P (OClose id) -> emits P n st (on_server (closeConnection id) st).
Proof.
  intros HP. exists [OClose id].
  rewrite server_on_server. unfold on_server. rewrite db_set_server.
  split_and!; [apply outputs_close, outputs_nil|by apply Forall_singleton|cbn; lia].
Qed.

(** A request is issued, or its callback runs at once with a failure. *)
Lemma emits_request (P : Output K -> Prop) n r k st :
  (1 <= n)%nat -> P (ORequest r k) ->
  emits P n st (run (call_of r) k false (no_reply (call_of r)) st) ->
  emits P n st (request r k st).
Proof.
  intros Hn HP Hrun. unfold request. destruct (mConnected (db st)) eqn:Ec; [|done].
  cbn [negb]. exists [ORequest r k]. rewrite db_on_db. unfold on_db. rewrite server_set_db.
  split_and!; [eapply outputs_request; [done|apply outputs_nil]|by apply Forall_singleton|].
  cbn. lia.
Qed.

Lemma emits_trans P n m st1 st2 st3 :
  emits P n st1 st2 -> emits P m st2 st3 -> emits P (n + m) st1 st3.
Proof.
  intros (l1 & H1 & H2 & H3) (l2 & H4 & H5 & H6). exists (l1 ++ l2).
  split_and!; [by eapply outputs_app|by apply Forall_app|].
  unfold requests in *. rewrite List.filter_app, length_app. lia.
Qed.

Lemma emits_weaken (P Q : Output K -> Prop) n m st st' :
  (forall o, P o -> Q o) -> (n <= m)%nat -> emits P n st st' -> emits Q m st st'.
Proof.
  intros HPQ Hnm (l & H1 & H2 & H3). exists l. split_and!; [done| |lia].
  by eapply Forall_impl.
Qed.

(** A later internal change that touches neither component. *)
Lemma emits_then P n st1 st2 st3 :
  emits P n st1 st2 -> server st3 = server st2 -> db st3 = db st2 -> emits P n st1 st3.
Proof. intros (l & H1 & H2) Es Ed. exists l. by rewrite Es, Ed. Qed.

Lemma emits_from P n st0 st1 st2 :
  server st1 = server st0 -> db st1 = db st0 -> emits P n st1 st2 -> emits P n st0 st2.
Proof. intros Es Ed (l & H1 & H2). exists l. by rewrite <- Es, <- Ed. Qed.

(** ** One handler

    What a handler did, from the state it found: a reply to a pending request
    takes that one out of the map first. *)

Definition handler_outputs (st st' : St) (log : list (Output K)) : Prop :=
  exists d, (forall n p, mPending d !! n = Some p -> mPending (db st) !! n = Some p) /\
    mStream d = mStream (db st) /\ mConnected d = mConnected (db st) /\
    mNextRequestId d = mNextRequestId (db st) /\
    outputs (server st) d log (server st') (db st').

Lemma emits_handled P n st st' :
  emits P n st st' ->
  exists log, handler_outputs st st' log /\ Forall P log /\ (requests log <= n)%nat.
Proof. intros (log & H1 & H2). exists log. split; [|exact H2]. by exists (db st). Qed.

Lemma emits_handled_reply P n id st st' :
  emits P n (on_db (remove_pending id) st) st' ->
  exists log, handler_outputs st st' log /\ Forall P log /\ (requests log <= n)%nat.
Proof.
  intros (log & H1 & H2). exists log. split; [|exact H2]. exists (remove_pending id (db st)).
  unfold on_db in H1. rewrite server_set_db, db_set in H1. split_and!; try done.
  cbn [remove_pending mPending]. by intros n' p [_ Hp]%lookup_delete_Some.
Qed.

End Outputs.
