(* ===== verification/Correlation.v ===== *)
(** * Requests and replies across a link

    What holds between a client of the database server ([db_client.cpp], the
    [DbClient] of the auth and of the world server) and that server, at every
    moment of a run in which requests and replies are in flight, the connection
    breaks and is made anew, and requests of a broken connection may still be
    executed. The client is its real state; the handlers of DbClient.v and the
    message handler of DbServer.v make the steps; the ghost list of the requests
    issued so far states which reply belongs to which request. *)

From Stdlib Require Import ZArith Lia Strings.Byte Strings.String.
From stdpp Require Import base list option gmap strings.
From S2P Require Import Prelude Config ByteStream Protocol Framing TcpServer DbClient Database.
From S2P Require Import DbServer Outputs.
Import ByteWriter.

Open Scope Z_scope.

(** ** What arrives of a request

    The writer cuts a string at its limit and an integer at its width. *)

Definition cut_text (s : string) : string :=
  string_of_bytes (take kMaxStringLength (bytes_of_string s)).

Definition cut (r : Request) : Request :=
  match r with
  | ReqLookupAccount u => ReqLookupAccount (cut_text u)
  | ReqCreateAccount u h => ReqCreateAccount (cut_text u) (cut_text h)
  | ReqDeleteAccount u => ReqDeleteAccount (cut_text u)
  | ReqCreateAccountWithLevel u h level =>
      ReqCreateAccountWithLevel (cut_text u) (cut_text h) (u8 level)
  | ReqSetPermissionLevel u level => ReqSetPermissionLevel (cut_text u) (u8 level)
  | ReqAdminExists => ReqAdminExists
  | ReqCreateSession account token ttl => ReqCreateSession (u64 account) (cut_text token) (u32 ttl)
  | ReqLookupSession token => ReqLookupSession (cut_text token)
  | ReqDeleteSession token => ReqDeleteSession (cut_text token)
  end.

Lemma length_cut_text s : String.length (cut_text s) = Nat.min kMaxStringLength (String.length s).
Proof.
  unfold cut_text. rewrite <- length_bytes_of_string, bytes_of_string_of_bytes, length_take.
  by rewrite length_bytes_of_string.
Qed.

Lemma cut_text_id s : (String.length s <= kMaxStringLength)%nat -> cut_text s = s.
Proof.
  intros Hs. unfold cut_text. rewrite take_ge by (by rewrite length_bytes_of_string).
  apply string_of_bytes_of_string.
Qed.

Lemma e_string_cut s : e_string (cut_text s) = e_string s.
Proof.
  unfold e_string, w_string. rewrite length_cut_text. unfold cut_text at 1.
  rewrite bytes_of_string_of_bytes, take_take.
  replace (Nat.min (Nat.min kMaxStringLength (String.length s)) kMaxStringLength)
    with (Nat.min (String.length s) kMaxStringLength) by lia.
  by rewrite <- Nat.min_assoc, Nat.min_id.
Qed.

Lemma le_bytes_wrap n v : le_bytes n (wrap (8 * Z.of_nat n) v) = le_bytes n v.
Proof.
  unfold wrap. rewrite <- le_value_bytes. rewrite <- (length_le_bytes n v) at 1.
  apply le_bytes_value.
Qed.

Lemma e_u8_wrap v : e_u8 (u8 v) = e_u8 v.
Proof. exact (le_bytes_wrap 1 v). Qed.

Lemma e_u32_wrap v : e_u32 (u32 v) = e_u32 v.
Proof. exact (le_bytes_wrap 4 v). Qed.

Lemma e_u64_wrap v : e_u64 (u64 v) = e_u64 v.
Proof. exact (le_bytes_wrap 8 v). Qed.

Lemma request_payload_cut n r : request_payload n (cut r) = request_payload n r.
Proof.
  unfold request_payload, write_request.
  destruct r; cbn [cut]; autorewrite with writer;
    by rewrite ?e_string_cut, ?e_u8_wrap, ?e_u32_wrap, ?e_u64_wrap.
Qed.

Lemma request_type_cut r : request_type (cut r) = request_type r.
Proof. by destruct r. Qed.

Lemma call_of_cut r : call_of (cut r) = call_of r.
Proof. by destruct r. Qed.

Lemma request_wf_cut r : request_wf (cut r).
Proof.
  assert (Hs : forall s, (String.length (cut_text s) <= kMaxStringLength)%nat)
    by (intros s; rewrite length_cut_text; lia).
  destruct r; cbn [cut request_wf]; split_and?; try apply Hs; try done; by apply wrap_fits.
Qed.

(** A cut request fits one frame. *)
Lemma length_e_string s : (length (e_string s) <= 2 + kMaxStringLength)%nat.
Proof.
  unfold e_string, w_string, raw, w_u16, little, raw.
  rewrite app_nil_l, length_app, length_le_bytes, length_take. lia.
Qed.

Lemma request_message_wf n r : message_wf (mkMessage (request_type r) (request_payload n r)).
Proof.
  split; [cbn [msg_type]; unfold fits; by destruct r|]. cbn [msg_payload].
  assert (Hs := length_e_string). unfold kMaxStringLength in Hs. unfold kMaxPayloadSize.
  unfold request_payload, write_request.
  destruct r as [u|u h|u|u h lv|u lv| |a tok ttl|tok|tok]; autorewrite with writer;
    rewrite ?length_app; unfold e_u8, e_u32, e_u64; rewrite ?length_le_bytes; cbn [length];
    try pose proof (Hs u); try pose proof (Hs h); try pose proof (Hs tok); lia.
Qed.

(** ** The requests issued *)

Record Asked (K : DbCall -> Type) := mkAsked {
  aq_id : Z;
  aq_request : Request;
  aq_pending : Pending K;
}.
Arguments mkAsked {K}.
Arguments aq_id {K}.
Arguments aq_request {K}.
Arguments aq_pending {K}.

(** A request of the database server, as the trace of a run records it: the
    clock before and after it, and the tables it was executed on. *)
Record Served := mkServed { se_before : Z; se_after : Z; se_tables : Tables }.

(** The messages between a client and the database server: requests in flight,
    requests left over from broken connections, replies in flight. *)
Record Channel := mkChannel {
  ch_up : list Message;
  ch_lost : list Message;
  ch_down : list Message;
}.

Definition empty_channel : Channel := mkChannel [] [] [].

Definition post (ms : list Message) (ch : Channel) : Channel :=
  mkChannel (ch_up ch ++ ms) (ch_lost ch) (ch_down ch).

(** The connection breaks: requests in flight may still be executed, but no
    reply to them or to earlier ones arrives. *)
Definition break (ch : Channel) : Channel := mkChannel [] (ch_lost ch ++ ch_up ch) [].

Section Client.
Context {K : DbCall -> Type}.

Definition asked_message (q : Asked K) : Message :=
  mkMessage (request_type (aq_request q)) (request_payload (aq_id q) (aq_request q)).

(** The requests among a handler's actions, with the ids they get. *)
Fixpoint asked_from (n : Z) (log : list (Output K)) : list (Asked K) :=
  match log with
  | [] => []
  | ORequest r k :: log => mkAsked n r (mkPending (call_of r) k) :: asked_from (u32 (n + 1)) log
  | _ :: log => asked_from n log
  end.

Lemma length_asked_from log : forall n, length (asked_from n log) = requests log.
Proof. induction log as [|[] log IH]; intros n; cbn; auto. Qed.

Lemma asked_from_in q log : forall n,
  q ∈ asked_from n log ->
  exists k, ORequest (aq_request q) k ∈ log /\ aq_pending q = mkPending _ k.
Proof.
  induction log as [|[id ty pl|id|r k] log IH]; intros n; cbn [asked_from].
  - by intros ?%not_elem_of_nil.
  - intros Hin. destruct (IH _ Hin) as (k & ? & ?). exists k. by split; [right|].
  - intros Hin. destruct (IH _ Hin) as (k & ? & ?). exists k. by split; [right|].
  - intros [->|Hin]%elem_of_cons; [exists k; by split; [left|]|].
    destruct (IH _ Hin) as (k' & ? & ?). exists k'. by split; [right|].
Qed.

(** A handler issues at most one request, so it gets the next id. *)
Lemma asked_from_id q log : forall n,
  (requests log <= 1)%nat -> q ∈ asked_from n log -> aq_id q = n.
Proof.
  induction log as [|[id ty pl|id|r k] log IH]; intros n Hr; cbn [asked_from].
  - by intros ?%not_elem_of_nil.
  - by apply IH.
  - by apply IH.
  - intros [->|Hq]%elem_of_cons; [done|]. cbn in Hr. fold (requests log) in Hr.
    apply list_elem_of_lookup_1 in Hq as [i Hi]. apply lookup_lt_Some in Hi.
    rewrite length_asked_from in Hi. lia.
Qed.

(** The bytes a client has written to its connection. *)
Definition db_wire (d : DbClient K) : list byte :=
  match mStream d with Some s => outgoing s | None => [] end.

Definition connection_ok (d : DbClient K) : Prop :=
  mConnected d = true -> exists s, mStream d = Some s /\ stream_ok s.

(** The messages a handler put on the connection. *)
Definition sends (d d' : DbClient K) (ms : list Message) : Prop :=
  db_wire d' = db_wire d ++ frames ms /\ Forall message_wf ms.

Lemma sends_unique d d' ms ms' : sends d d' ms -> sends d d' ms' -> ms = ms'.
Proof.
  intros [H1 H2] [H3 H4]. rewrite H1 in H3. apply app_inv_head in H3.
  pose proof (drain_frames ms [] H2 next_message_nil) as D1.
  pose proof (drain_frames ms' [] H4 next_message_nil) as D2.
  rewrite !app_nil_r in *. congruence.
Qed.

Lemma issue_sends r k (d : DbClient K) :
  mConnected d = true -> connection_ok d ->
  let q := mkAsked (mNextRequestId d) r (mkPending (call_of r) k) in
  db_wire (issue r k d) = db_wire d ++ frames [asked_message q] /\ connection_ok (issue r k d).
Proof.
  intros Hc Hok. destruct (Hok Hc) as (s & Es & Hs). cbn zeta. unfold connection_ok, db_wire.
  unfold issue. cbn [mStream mConnected]. rewrite Es. cbn [fmap option_fmap option_map].
  split.
  - rewrite send_queue_frame by (done || apply request_message_wf).
    rewrite frames_cons. change (frames []) with (@nil byte). by rewrite app_nil_r.
  - intros _. eexists. split; [done|]. by apply send_ok.
Qed.

(** Whatever a handler does to its client: the bytes of its requests go out,
    in order, and what is pending afterwards was so before or is among them. *)
Lemma outputs_sends s (d : DbClient K) log s' d' :
  outputs s d log s' d' -> connection_ok d ->
  sends d d' (asked_message <$> asked_from (mNextRequestId d) log) /\ connection_ok d' /\
  forall n p, mPending d' !! n = Some p ->
    mPending d !! n = Some p \/
    exists q, q ∈ asked_from (mNextRequestId d) log /\ aq_id q = n /\ aq_pending q = p.
Proof.
  induction 1 as [s d|id ty pl s d log s' d' _ IH|id s d log s' d' _ IH
    |r k s d log s' d' Hc _ IH]; intros Hok; [|by apply IH|by apply IH|].
  - split_and!; [|done|by left]. split; [|done]. cbn. by rewrite app_nil_r.
  - destruct (issue_sends r k d Hc Hok) as [Hw Hok']. destruct (IH Hok') as ([H1 H2] & H3 & H4).
    cbn [asked_from]. split_and!; [|done|].
    + split; [|constructor; [apply request_message_wf|exact H2]].
      rewrite H1, Hw, <- app_assoc, <- frames_app. done.
    + intros n p E. destruct (H4 n p E) as [E'|(q & Hq & Hp)].
      * unfold issue in E'. cbn [mPending] in E'.
        destruct (mPending d !! mNextRequestId d) eqn:Eq; [by left|].
        apply lookup_insert_Some in E' as [[<- <-]|[_ E']]; [right|by left].
        eexists. split; [left|done].
      * right. exists q. by split; [right|].
Qed.

Lemma outputs_next s (d : DbClient K) log s' d' :
  outputs s d log s' d' -> 0 <= mNextRequestId d ->
  mNextRequestId d + Z.of_nat (requests log) < 2 ^ 32 ->
  mNextRequestId d' = mNextRequestId d + Z.of_nat (requests log).
Proof. intros Ho H0 Hn. by eapply calls_evolves; [eapply outputs_calls|..]. Qed.

(** ** The reply a message is taken for *)

(** [deliver] as a function of the entry it finds. *)
Definition reply_to (m : Message) (d : DbClient K) : option (Z * Pending K) :=
  let '(requestId, reader) := r_u32 (open_reader (msg_payload m)) in
  if failed reader then None else (fun p => (requestId, p)) <$> mPending d !! requestId.

Lemma reply_to_Some m d n p :
  reply_to m d = Some (n, p) -> answers n m = true /\ mPending d !! n = Some p.
Proof.
  unfold reply_to, answers. destruct (r_u32 _) as [n' r]. destruct (failed r); [done|].
  cbn [negb andb]. destruct (mPending d !! n') eqn:E; [|done]. intros [= -> ->].
  by rewrite Z.eqb_refl.
Qed.

Lemma deliver_reply_to {St} `{HasDbClient St K} `{CB : DbCallbacks St K} m (st : St) :
  deliver m st =
  match reply_to m (db st) with
  | None => st
  | Some (n, mkPending c k) =>
      let '(ok, reply) := handler_reply c true (msg_type m) (msg_payload m) in
      run c k ok reply (on_db (remove_pending n) st)
  end.
Proof.
  unfold deliver, reply_to. destruct (r_u32 _) as [n r]. destruct (failed r); [done|].
  by destruct (mPending (db st) !! n) as [[c k]|].
Qed.

Lemma answers_unique n n' m : answers n m = true -> answers n' m = true -> n = n'.
Proof.
  unfold answers. destruct (r_u32 _) as [i r]. rewrite !andb_true_iff, !Z.eqb_eq.
  intros [_ ->] [_ ->]. done.
Qed.

End Client.

(** ** What the database server makes of a request *)

Section Linked.
Context {PG : Type} `{PostgresLaws PG} {K : DbCall -> Type}.

Implicit Types (q : Asked K) (qs : list (Asked K)) (d : DbClient K) (ev : list Served).

(** The replies to lookups are read off the tables. *)
Lemma served_lookup now r reply t t' :
  served now r reply t t' ->
  match r as r return Reply (call_of r) -> Prop with
  | ReqLookupAccount u => fun reply => reply = account_reply (find_rows lower (c_str u) t)
  | ReqLookupSession token => fun reply => reply = session_reply (live now (c_str token) t)
  | _ => fun _ => True
  end reply.
Proof. by destruct 1. Qed.

Lemma live_session now token t row :
  live now token t = Some row ->
  exists session, row ∈ t_accounts t /\ session ∈ t_sessions t /\ sr_token session = token /\
    sr_account_id session = ar_id row /\ now < sr_expires_at session.
Proof.
  unfold live. destruct (List.find _ (t_sessions t)) as [session|] eqn:Es; [|done].
  cbn [mbind option_bind]. intros [Hr Hid%Z.eqb_eq]%List.find_some.
  apply List.find_some in Es as [Hs [Ht%bool_decide_eq_true He%Z.ltb_lt]%andb_true_iff].
  exists session. rewrite !list_elem_of_In. done.
Qed.

(** Who a session belongs to: a row of the tables after a request was there
    before, or the request created it. *)
Lemma served_sessions now r reply t t' session :
  served now r reply t t' -> session ∈ t_sessions t' ->
  session ∈ t_sessions t \/
  exists account token ttl, r = ReqCreateSession account token ttl /\
    sr_account_id session = account /\ sr_token session = c_str token.
Proof.
  intros Hs Hin. destruct Hs as [u t|u h t reply t' Hc|u h lv t reply t' t'' Hc Ht|u t|u lv t|t
    |a tok ttl t H1 H2|tok t|tok t]; auto.
  - left. by destruct Hc.
  - left. destruct Ht as [->|(_ & _ & ->)]; by destruct Hc.
  - left. cbn in Hin. by apply elem_of_filter_ in Hin as [_ Hin].
  - cbn in Hin. apply elem_of_app in Hin as [Hin|Hin%list_elem_of_singleton]; [by left|right].
    subst session. by exists a, tok, ttl.
  - left. cbn in Hin. by apply elem_of_filter_ in Hin as [_ Hin].
Qed.

(** The requests that change accounts. *)
Lemma served_accounts now r reply t t' :
  served now r reply t t' -> t_accounts t' <> t_accounts t ->
  match r with
  | ReqCreateAccount _ _ | ReqCreateAccountWithLevel _ _ _ | ReqDeleteAccount _
  | ReqSetPermissionLevel _ _ => True
  | _ => False
  end.
Proof. by destruct 1. Qed.

(** Executing a request on the tables of [e]. *)
Definition served_in (e : Served) (r : Request) (reply : Reply (call_of r)) (t' : Tables)
    : Prop :=
  exists now, se_before e <= now <= se_after e /\ served now r reply (se_tables e) t'.

(** Message [m] answers request [q]: it carries its id, and the client's handler
    for that call decodes it to the call's failure or to the result of executing
    the request on tables the database held. *)
Definition reply_of ev q (m : Message) : Prop :=
  answers (aq_id q) m = true /\
  exists reply,
    handler_reply (call_of (cut (aq_request q))) true (msg_type m) (msg_payload m)
      = (true, reply) /\
    (reply = no_reply (call_of (cut (aq_request q))) \/
     exists e t', e ∈ ev /\ store_ok lower (se_tables e) /\
       served_in e (cut (aq_request q)) reply t').

Lemma reply_of_mono ev ev' q m : reply_of ev q m -> reply_of (ev ++ ev') q m.
Proof.
  intros (H1 & reply & H2 & [H3|(e & t' & H3 & H4)]); (split; [done|]); exists reply;
    (split; [done|]); [by left|right].
  exists e, t'. split; [|done]. apply elem_of_app. by left.
Qed.

(** The tables after a request was executed: unchanged, or as it leaves them. *)
Definition effect (e : Served) (r : Request) (t' : Tables) : Prop :=
  t' = se_tables e \/ exists reply, served_in e r reply t'.

(** The message handler on a request in flight. *)
Lemma asked_served ev q (data data' : Database PG) reply :
  store_ok lower (tables_of data) -> fits 32 (aq_id q) ->
  handleMessage (msg_type (asked_message q)) (msg_payload (asked_message q)) data = (reply, data') ->
  let e := mkServed (clock_of data) (clock_of data') (tables_of data) in
  (exists m, reply = Some m /\ reply_of (ev ++ [e]) q m) /\
  effect e (cut (aq_request q)) (tables_of data').
Proof.
  intros Hok Hn Eh. cbn zeta.
  cbn [asked_message msg_type msg_payload] in Eh.
  rewrite <- request_type_cut, <- request_payload_cut in Eh.
  pose proof (handleMessage_serves (aq_id q) (cut (aq_request q)) data Hok
    (request_wf_cut _) Hn) as Hs.
  rewrite Eh in Hs. destruct Hs as (payload & rep & -> & H1 & H2 & H3). split.
  - eexists. split; [done|]. split; [exact H1|]. exists rep. split; [exact H2|].
    destruct H3 as [(now & Hc & Hs)|[-> _]]; [right|by left].
    eexists _, _. split; [apply elem_of_app; right; left|]. split; [exact Hok|].
    by exists now.
  - destruct H3 as [(now & Hc & Hs)|[-> [Ht|(now & rep' & Hc & Hs)]]]; [right|by left|right].
    + exists rep, now. done.
    + exists rep', now. done.
Qed.

(** ** The invariant of a client and its channel *)

Record linked ev qs d (ch : Channel) : Prop := {
  linked_next : mNextRequestId d = 1 + Z.of_nat (length qs);
  linked_ids : forall q, q ∈ qs -> 1 <= aq_id q < mNextRequestId d;
  linked_unique : forall q q', q ∈ qs -> q' ∈ qs -> aq_id q = aq_id q' -> q = q';
  linked_calls : forall q, q ∈ qs -> p_call (aq_pending q) = call_of (aq_request q);
  linked_pending : forall n p, mPending d !! n = Some p ->
    exists q, q ∈ qs /\ aq_id q = n /\ aq_pending q = p;
  linked_sent : forall m, m ∈ ch_up ch ++ ch_lost ch -> exists q, q ∈ qs /\ m = asked_message q;
  linked_replies : forall m, m ∈ ch_down ch -> exists q, q ∈ qs /\ reply_of ev q m;
  linked_connection : connection_ok d;
}.

Lemma linked_start d :
  mPending d = ∅ -> mNextRequestId d = 1 -> connection_ok d -> linked [] [] d empty_channel.
Proof.
  intros Hp Hn Hc. split; try done.
  - intros ? []%not_elem_of_nil.
  - intros ? ? []%not_elem_of_nil.
  - intros ? []%not_elem_of_nil.
  - intros n p. by rewrite Hp, lookup_empty.
  - intros ? []%not_elem_of_nil.
  - intros ? []%not_elem_of_nil.
Qed.

Lemma linked_mono ev ev' qs d ch : linked ev qs d ch -> linked (ev ++ ev') qs d ch.
Proof.
  intros [H1 H2 H3 H4 H5 H6 H7 H8]. split; try done.
  intros m Hm. destruct (H7 m Hm) as (q & Hq & Hr). exists q. by eauto using reply_of_mono.
Qed.

(** Messages may be taken out of the channel. *)
Lemma linked_channel ev qs d ch ch' :
  linked ev qs d ch ->
  (forall m, m ∈ ch_up ch' ++ ch_lost ch' -> m ∈ ch_up ch ++ ch_lost ch) ->
  (forall m, m ∈ ch_down ch' -> m ∈ ch_down ch) -> linked ev qs d ch'.
Proof. intros [H1 H2 H3 H4 H5 H6 H7 H8] Hs Hd. split; try done; auto. Qed.

Lemma linked_break ev qs d ch : linked ev qs d ch -> linked ev qs d (break ch).
Proof.
  intros Hl. apply (linked_channel _ _ _ _ _ Hl); cbn.
  - intros m. rewrite !elem_of_app. tauto.
  - intros m Hm. by apply not_elem_of_nil in Hm.
Qed.

(** Requests are dropped, and the connection replaced, between the handlers. *)
Lemma linked_internal ev qs d d' ch :
  linked ev qs d ch ->
  (forall n p, mPending d' !! n = Some p -> mPending d !! n = Some p) ->
  mNextRequestId d' = mNextRequestId d -> connection_ok d' -> linked ev qs d' ch.
Proof.
  intros [H1 H2 H3 H4 H5 H6 H7 H8] Hp Hn Hc. split; try done; try congruence.
  - intros q Hq. rewrite Hn. auto.
  - intros n p E. auto.
Qed.

(** A reply that is taken is the reply to the request its entry was made for. *)
Lemma linked_reply ev qs d up lost m down n p :
  linked ev qs d (mkChannel up lost (m :: down)) -> reply_to m d = Some (n, p) ->
  exists q, q ∈ qs /\ aq_pending q = p /\ reply_of ev q m.
Proof.
  intros Hl [Ha Hp]%reply_to_Some.
  destruct (linked_pending _ _ _ _ Hl n p Hp) as (q & Hq & <- & <-).
  destruct (linked_replies _ _ _ _ Hl m ltac:(left)) as (q' & Hq' & Hr).
  assert (q' = q) as ->.
  { apply (linked_unique _ _ _ _ Hl); try done. by eapply answers_unique; [apply Hr|]. }
  by exists q.
Qed.

Lemma linked_taken ev qs d up lost m down :
  linked ev qs d (mkChannel up lost (m :: down)) -> linked ev qs d (mkChannel up lost down).
Proof. intros Hl. apply (linked_channel _ _ _ _ _ Hl); cbn; [done|]. intros m' Hm. by right. Qed.

(** A request in flight, or left over, is executed. *)
Lemma linked_executed ev qs d ch m (data data' : Database PG) reply :
  linked ev qs d ch -> mNextRequestId d < 2 ^ 32 -> store_ok lower (tables_of data) ->
  m ∈ ch_up ch ++ ch_lost ch ->
  handleMessage (msg_type m) (msg_payload m) data = (reply, data') ->
  let e := mkServed (clock_of data) (clock_of data') (tables_of data) in
  exists q m', q ∈ qs /\ reply = Some m' /\ reply_of (ev ++ [e]) q m' /\
    effect e (cut (aq_request q)) (tables_of data').
Proof.
  intros Hl Hn Hok Hm Eh e. destruct (linked_sent _ _ _ _ Hl m Hm) as (q & Hq & ->).
  pose proof (linked_ids _ _ _ _ Hl q Hq) as Hi.
  destruct (asked_served ev q data data' reply Hok) as [(m' & -> & Hr) He];
    [unfold fits; lia|done|]. by exists q, m'.
Qed.

Lemma linked_replied ev qs d up lost down q m :
  linked ev qs d (mkChannel up lost down) -> q ∈ qs -> reply_of ev q m ->
  linked ev qs d (mkChannel up lost (down ++ [m])).
Proof.
  intros [H1 H2 H3 H4 H5 H6 H7 H8] Hq Hr. split; try done.
  cbn. intros m' [Hm| ->%list_elem_of_singleton]%elem_of_app; [by apply H7|]. by exists q.
Qed.

Lemma linked_posted ev qs d ch q :
  linked ev qs d ch -> q ∈ qs -> linked ev qs d (post [asked_message q] ch).
Proof.
  intros [H1 H2 H3 H4 H5 H6 H7 H8] Hq. split; try done. cbn.
  intros m. rewrite !elem_of_app, list_elem_of_singleton.
  intros [[Hm| ->]|Hm]; [|by exists q|]; apply H6, elem_of_app; auto.
Qed.

(** A handler issues at most one request, under a new id. *)
Lemma linked_handled {St} `{HS : HasServer St, HD : HasDbClient St K} ev qs ch (st st' : St) log ms :
  linked ev qs (db st) ch -> handler_outputs st st' log -> (requests log <= 1)%nat ->
  Z.of_nat (length qs) + 2 < 2 ^ 32 -> sends (db st) (db st') ms ->
  exists new,
    (forall q, q ∈ new ->
       exists k, ORequest (aq_request q) k ∈ log /\ aq_pending q = mkPending _ k) /\
    (length new <= 1)%nat /\ linked ev (qs ++ new) (db st') (post ms ch).
Proof.
  intros [H1 H2 H3 H4 H5 H6 H7 H8] (d & Hp & Es & Ec & En & Ho) Hr Hb Hms.
  assert (Hok : connection_ok d) by (unfold connection_ok; by rewrite Es, Ec).
  destruct (outputs_sends _ _ _ _ _ Ho Hok) as (Hsend & Hok' & Hpend).
  assert (Hms' : sends d (db st') ms) by (unfold sends, db_wire; by rewrite Es).
  pose proof (outputs_next _ _ _ _ _ Ho ltac:(lia) ltac:(lia)) as Hn.
  rewrite (sends_unique _ _ _ _ Hms' Hsend). clear ms Hms Hms' Hsend.
  set (new := asked_from (mNextRequestId d) log) in *.
  assert (Hlen : length new = requests log) by apply length_asked_from.
  assert (Hid : forall q, q ∈ new -> aq_id q = mNextRequestId d).
  { intros q Hq. by eapply asked_from_id. }
  exists new. split; [|split; [lia|]].
  { intros q Hq. by apply (asked_from_in q log (mNextRequestId d)). }
  split; try done.
  - rewrite Hn, length_app. lia.
  - intros q [Hq|Hq]%elem_of_app.
    + specialize (H2 q Hq). lia.
    + rewrite (Hid q Hq). assert (length new <> 0%nat) by (by destruct new; [apply not_elem_of_nil in Hq|]).
      lia.
  - assert (Hnew : forall q q', q ∈ new -> q' ∈ new -> q = q').
    { intros q q' Hq Hq'. destruct new as [|a [|b l]]; cbn in Hlen; [| |lia].
      - by apply not_elem_of_nil in Hq.
      - apply list_elem_of_singleton in Hq, Hq'. congruence. }
    intros q q' [Hq|Hq]%elem_of_app [Hq'|Hq']%elem_of_app E; auto.
    + specialize (H2 q Hq). rewrite (Hid q' Hq') in E. lia.
    + specialize (H2 q' Hq'). rewrite (Hid q Hq) in E. lia.
  - intros q [Hq|Hq]%elem_of_app; [auto|].
    destruct (asked_from_in q log _ Hq) as (k & _ & ->). done.
  - intros n p E. destruct (Hpend n p E) as [E'|(q & Hq & Hx)].
    + destruct (H5 n p (Hp n p E')) as (q & Hq & Hx). exists q. rewrite elem_of_app. auto.
    + exists q. rewrite elem_of_app. auto.
  - cbn. intros m. rewrite !elem_of_app. intros [[Hm|Hm]|Hm].
    + destruct (H6 m) as (q & Hq & Hx); [rewrite elem_of_app; auto|]. exists q.
      rewrite elem_of_app. auto.
    + apply list_elem_of_fmap in Hm as (q & -> & Hq). exists q. rewrite elem_of_app. auto.
    + destruct (H6 m) as (q & Hq & Hx); [rewrite elem_of_app; auto|]. exists q.
      rewrite elem_of_app. auto.
  - cbn. intros m Hm. destruct (H7 m Hm) as (q & Hq & Hx). exists q. rewrite elem_of_app. auto.
Qed.

(** The same, with what a handler's actions say about its requests. *)
Lemma linked_explained {St} `{HS : HasServer St, HD : HasDbClient St K}
    (explained : Output K -> Prop) (fact : Asked K -> Prop) ev qs ch (st st' : St) ms :
  (forall n r k, explained (ORequest r k) -> fact (mkAsked n r (mkPending (call_of r) k))) ->
  linked ev qs (db st) ch -> (forall q, q ∈ qs -> fact q) ->
  (exists log, handler_outputs st st' log /\ Forall explained log /\ (requests log <= 1)%nat) ->
  Z.of_nat (length qs) + 2 < 2 ^ 32 -> sends (db st) (db st') ms ->
  exists new, (length new <= 1)%nat /\ (forall q, q ∈ qs ++ new -> fact q) /\
    linked ev (qs ++ new) (db st') (post ms ch).
Proof.
  intros Hf Hl Hqs (log & Ho & Hex & Hr) Hb Hms.
  destruct (linked_handled ev qs ch st st' log ms Hl Ho Hr Hb Hms) as (new & Hnew & Hlen & Hl').
  exists new. split; [done|]. split; [|done]. intros q [Hq|Hq]%elem_of_app; [auto|].
  destruct (Hnew q Hq) as (k & Hin & Hp). rewrite Forall_forall in Hex.
  specialize (Hf (aq_id q) _ k (Hex _ Hin)). rewrite <- Hp in Hf. by destruct q.
Qed.

(** A callback that was given [reply] got it from a message that answers its
    request. *)
Definition replied ev qs (c : DbCall) (k : K c) (reply : Reply c) : Prop :=
  exists q m, q ∈ qs /\ aq_pending q = mkPending c k /\ reply_of ev q m /\
    handler_reply c true (msg_type m) (msg_payload m) = (true, reply).

Lemma replied_mono ev ev' qs new c k reply :
  replied ev qs c k reply -> replied (ev ++ ev') (qs ++ new) c k reply.
Proof.
  intros (q & m & H1 & H2 & H3 & H4). exists q, m. rewrite elem_of_app.
  split_and!; auto using reply_of_mono.
Qed.

Lemma linked_replies_to ev qs d up lost m down n c k reply :
  linked ev qs d (mkChannel up lost (m :: down)) -> reply_to m d = Some (n, mkPending c k) ->
  handler_reply c true (msg_type m) (msg_payload m) = (true, reply) -> replied ev qs c k reply.
Proof.
  intros Hl Hr Hh. destruct (linked_reply _ _ _ _ _ _ _ _ _ Hl Hr) as (q & Hq & Hp & Ha).
  by exists q, m.
Qed.

(** What a session lookup was told, when it found one. *)
Lemma replied_session ev qs ch d (k : K CallLookupSession) session :
  linked ev qs d ch -> replied ev qs CallLookupSession k session -> sl_found session = true ->
  exists q token e row srow,
    q ∈ qs /\ aq_pending q = mkPending CallLookupSession k /\
    aq_request q = ReqLookupSession token /\
    e ∈ ev /\ row ∈ t_accounts (se_tables e) /\
    session = session_reply (Some row) /\
    srow ∈ t_sessions (se_tables e) /\ sr_token srow = c_str (cut_text token) /\
    sr_account_id srow = ar_id row /\ se_before e < sr_expires_at srow.
Proof.
  intros Hl (q & m & Hq & Hp & (_ & reply & Hd & Hr) & Hh) Hf.
  pose proof (linked_calls _ _ _ _ Hl q Hq) as Hc. rewrite Hp in Hc. cbn [p_call] in Hc.
  destruct (aq_request q) as [| | | | | | |token|] eqn:Er; try discriminate.
  cbn [cut call_of] in *. rewrite Hh in Hd. injection Hd as <-.
  destruct Hr as [->|(e & t' & He & _ & now & Hn & Hs)]; [done|].
  apply served_lookup in Hs. cbv beta iota in Hs.
  destruct (live now (c_str (cut_text token)) (se_tables e)) as [row|] eqn:El; [|by rewrite Hs in Hf].
  apply live_session in El as (srow & H1 & H2 & H3 & H4 & H5).
  exists q, token, e, row, srow. split_and!; try done. lia.
Qed.

(** And an account lookup. *)
Lemma replied_account ev qs ch d (k : K CallLookupAccount) account :
  linked ev qs d ch -> replied ev qs CallLookupAccount k account -> al_found account = true ->
  exists q username e row,
    q ∈ qs /\ aq_pending q = mkPending CallLookupAccount k /\
    aq_request q = ReqLookupAccount username /\
    e ∈ ev /\ store_ok lower (se_tables e) /\ row ∈ t_accounts (se_tables e) /\
    same_name lower (c_str (cut_text username)) row = true /\
    account = account_reply [row].
Proof.
  intros Hl (q & m & Hq & Hp & (_ & reply & Hd & Hr) & Hh) Hf.
  pose proof (linked_calls _ _ _ _ Hl q Hq) as Hc. rewrite Hp in Hc. cbn [p_call] in Hc.
  destruct (aq_request q) as [u| | | | | | | |] eqn:Er; try discriminate.
  cbn [cut call_of] in *. rewrite Hh in Hd. injection Hd as <-.
  destruct Hr as [->|(e & t' & He & Hok & now & _ & Hs)]; [done|].
  apply served_lookup in Hs. cbv beta iota in Hs.
  destruct (find_rows lower (c_str (cut_text u)) (se_tables e)) as [|row rows] eqn:Ef; [by rewrite Hs in Hf|].
  assert (Hin : row ∈ find_rows lower (c_str (cut_text u)) (se_tables e)) by (rewrite Ef; left).
  apply elem_of_filter_ in Hin as [Hname Hin].
  by exists q, u, e, row.
Qed.

(** A session a request leaves behind was there, or the request created it. *)
Definition opens (r : Request) (session : SessionRow) : Prop :=
  match r with
  | ReqCreateSession account token _ =>
      sr_account_id session = u64 account /\ sr_token session = c_str (cut_text token)
  | _ => False
  end.

Lemma effect_sessions e r t' session :
  effect e (cut r) t' -> session ∈ t_sessions t' ->
  session ∈ t_sessions (se_tables e) \/ opens r session.
Proof.
  intros [->|(reply & now & _ & Hs)] Hin; [by left|].
  destruct (served_sessions _ _ _ _ _ _ Hs Hin) as [?|(a & tok & ttl & E & H1 & H2)]; [by left|].
  right. destruct r; try discriminate. cbn [cut] in E. by simplify_eq.
Qed.

Lemma effect_accounts e r t' :
  effect e (cut r) t' -> t_accounts t' <> t_accounts (se_tables e) ->
  match r with
  | ReqCreateAccount _ _ | ReqCreateAccountWithLevel _ _ _ | ReqDeleteAccount _
  | ReqSetPermissionLevel _ _ => True
  | _ => False
  end.
Proof.
  intros [->|(reply & now & _ & Hs)] Hne; [done|].
  pose proof (served_accounts _ _ _ _ _ Hs Hne) as Hr. by destruct r.
Qed.

End Linked.
