(* ===== verification/Platform.v ===== *)
(** * What the servers take from the platform

    libsodium and the clocks of [<chrono>] and [<ctime>], as operations on the
    state of the environment they draw from: nothing is assumed of the values
    they return. *)

From Stdlib Require Import ZArith Strings.Byte Strings.String Floats.SpecFloat.
From stdpp Require Import base list option.
From S2P Require Import Prelude Float32.

Open Scope Z_scope.

(** libsodium, with the state its random generator draws from. *)
Class Sodium (E : Type) := {
  randombytes_buf : nat -> E -> list byte * E;
  (** [None]: a non-zero result, out of memory *)
  crypto_pwhash_str : string -> E -> option string * E;
  (** [crypto_pwhash_str_verify(hash, password) == 0] *)
  crypto_pwhash_str_verify : string -> string -> bool;
}.

(** What hashing a password may give. *)
Definition hashed {E} `{Sodium E} (password hash : string) : Prop :=
  exists e : E, (crypto_pwhash_str password e).1 = Some hash.

(** The clocks, read once per use. *)
Class Clocks (E : Type) := {
  (** [steady_clock::now()], in nanoseconds since its epoch *)
  steady_now : E -> Z * E;
  (** [system_clock::now()] in seconds since the epoch, as a [double] *)
  realSeconds : E -> double * E;
  (** the local time: [tm_hour * 3600 + tm_min * 60 + tm_sec] *)
  secondsToday : E -> Z * E;
}.

Definition nanos_per_second : Z := 1000000000.

(** [duration<double>] of a count of nanoseconds. *)
Definition seconds_of_nanos (ns : Z) : double :=
  (f64_of_Z ns / f64_of_Z nanos_per_second)%f64.

(** [duration_cast<milliseconds>], towards zero, as a [uint64_t]. *)
Definition millis_of_nanos (ns : Z) : Z := u64 (Z.quot ns 1000000).

(** [std::atof]: how a decimal text rounds is the C library's. *)
Class Atof := { atof : string -> double }.
