(* ===== verification/AuthServer.v ===== *)
(** * The auth server ([server/authserver/src/main.cpp])

    Login, registration and the administrative commands. The closures the
    handlers pass to the database client are the constructors of [AuthK], with
    the variables they capture; [callback] gives their bodies. libsodium is a
    parameter, the class [Sodium]; so is the configuration. *)

From Stdlib Require Import ZArith Lia Strings.Byte Strings.Ascii Strings.String.
From stdpp Require Import base list option gmap strings.
From S2P Require Import Prelude Platform Config ByteStream Protocol Framing TcpServer DbClient.
From S2P Require Import Outputs.
Import ByteWriter.

Open Scope Z_scope.

Definition kTokenBytes : nat := 32.
Definition kMinPasswordLength : nat := 6.
Definition kMaxUsernameLength : nat := 32.

Record AuthConfig := {
  cfg_worldHost : string;
  cfg_worldPort : Z;
  cfg_sessionTtl : Z;
}.

(** ** Continuations *)

Inductive AuthK : DbCall -> Type :=
| KLoginLookup (id : ConnectionId) (password username : string) : AuthK CallLookupAccount
| KLoginSession (id : ConnectionId) (token username : string) (accountId level : Z)
    : AuthK CallCreateSession
| KRegister (id : ConnectionId) (username : string) : AuthK CallCreateAccount
| KAdminLookup (id : ConnectionId) (command responseType : AuthMessage)
    (target password : string) (level : Z) : AuthK CallLookupSession
| KAdminCreate (id : ConnectionId) (responseType : AuthMessage) (target : string) (level : Z)
    (actor : string) : AuthK CallCreateAccountWithLevel
| KAdminDelete (id : ConnectionId) (responseType : AuthMessage) (target actor : string)
    : AuthK CallDeleteAccount
| KAdminSetLevel (id : ConnectionId) (responseType : AuthMessage) (target : string) (level : Z)
    (actor : string) : AuthK CallSetPermissionLevel
| KBootstrapExists : AuthK CallAdminExists
| KBootstrapDelete : AuthK CallDeleteAccount.

Record AuthServer (E : Type) := mkAuth {
  as_server : TcpServer;
  as_db : DbClient AuthK;
  as_entropy : E;
}.
Arguments mkAuth {E}.
Arguments as_server {E}.
Arguments as_db {E}.
Arguments as_entropy {E}.

Global Instance auth_has_server {E} : HasServer (AuthServer E) :=
  {| server := as_server;
     set_server s st := mkAuth s (as_db st) (as_entropy st);
     server_set s st := eq_refl |}.

Global Instance auth_has_db {E} : HasDbClient (AuthServer E) AuthK :=
  {| db := as_db;
     set_db d st := mkAuth (as_server st) d (as_entropy st);
     db_set d st := eq_refl |}.

Global Instance auth_server_with_db {E} : ServerWithDb (AuthServer E) AuthK.
Proof. by split. Qed.

(** ** Helpers *)

Definition hex_digit (n : Z) : ascii :=
  default "0"%char (String.get (Z.to_nat n) "0123456789abcdef").

Definition hex_of_bytes (raw : list byte) : string :=
  foldr (fun b out => String (hex_digit (Z.shiftr (Z_of_byte b) 4))
                        (String (hex_digit (Z.land (Z_of_byte b) 0x0F)) out)) EmptyString raw.

Definition allowed (c : ascii) : bool :=
  let n := Z.of_N (N_of_ascii c) in
  ((97 <=? n) && (n <=? 122)) || ((65 <=? n) && (n <=? 90))
  || ((48 <=? n) && (n <=? 57)) || (n =? 95) || (n =? 45).

Definition validUsername (username : string) : bool :=
  if (String.length username =? 0)%nat || (kMaxUsernameLength <? String.length username)%nat
  then false
  else forallb allowed (list_ascii_of_string username).

Definition login_payload (result : AuthResult) (token worldHost : string)
    (worldPort accountId permissionLevel : Z) : list byte :=
  w_u8 permissionLevel (w_u64 accountId (w_u16 worldPort (w_string worldHost (w_string token
    (w_u8 (auth_result_code result) []))))).

Definition result_payload (result : AuthResult) : list byte :=
  w_u8 (auth_result_code result) [].

Section AuthServer.
Context {Ent : Type} `{HSod : Sodium Ent}.
Variable cfg : AuthConfig.

Abbreviation St := (AuthServer Ent).

Definition generateToken (st : St) : string * St :=
  let '(raw, e) := randombytes_buf kTokenBytes (as_entropy st) in
  (hex_of_bytes raw, mkAuth (as_server st) (as_db st) e).

Definition hashPassword (password : string) (st : St) : option string * St :=
  let '(hashed, e) := crypto_pwhash_str password (as_entropy st) in
  (hashed, mkAuth (as_server st) (as_db st) e).

Definition verifyPassword (hash password : string) : bool :=
  crypto_pwhash_str_verify (Config.c_str hash) password.

Definition sendLoginResponse (id : ConnectionId) (result : AuthResult) (token worldHost : string)
    (worldPort accountId permissionLevel : Z) : St -> St :=
  on_server (server_send id (auth_message_code LoginResponse)
    (login_payload result token worldHost worldPort accountId permissionLevel)).

Definition sendAdminResponse (id : ConnectionId) (type : AuthMessage) (result : AuthResult)
    : St -> St :=
  on_server (server_send id (auth_message_code type) (result_payload result)).

Definition sendRegisterResponse (id : ConnectionId) (result : AuthResult) : St -> St :=
  on_server (server_send id (auth_message_code RegisterResponse) (result_payload result)).

(** ** The callbacks

    First those that issue no request of their own. *)

Definition onLoginSession (id : ConnectionId) (token username : string) (accountId level : Z)
    (sessionOk : bool) (result : option DbResult) (st : St) : St :=
  if negb sessionOk || negb (bool_decide (result = Some DbOk)) then
    sendLoginResponse id AuthServerError "" "" 0 0 0 st
  else
    sendLoginResponse id AuthSuccess token (cfg_worldHost cfg) (cfg_worldPort cfg) accountId level
      st.

Definition onRegistered (id : ConnectionId) (username : string) (ok : bool)
    (result : option DbResult) (accountId : Z) (st : St) : St :=
  if negb ok then sendRegisterResponse id AuthServerError st
  else if bool_decide (result = Some DbConflict) then sendRegisterResponse id AccountExists st
  else sendRegisterResponse id AuthSuccess st.

Definition onAdminCreated (id : ConnectionId) (responseType : AuthMessage) (created : bool)
    (result : option DbResult) (st : St) : St :=
  if negb created then sendAdminResponse id responseType AuthServerError st
  else if bool_decide (result = Some DbConflict) then
    sendAdminResponse id responseType AccountExists st
  else sendAdminResponse id responseType AuthSuccess st.

(** The callbacks of deleting an account and of setting a level. *)
Definition onAdminDone (id : ConnectionId) (responseType : AuthMessage) (done_ : bool)
    (result : option DbResult) (st : St) : St :=
  if negb done_ then sendAdminResponse id responseType AuthServerError st
  else if bool_decide (result = Some DbNotFound) then
    sendAdminResponse id responseType NoSuchAccount st
  else sendAdminResponse id responseType AuthSuccess st.

Definition final_callback : DbCallbacks St AuthK := fun c k =>
  match k in AuthK c return bool -> Reply c -> St -> St with
  | KLoginSession id token username accountId level =>
      fun ok result => onLoginSession id token username accountId level ok result
  | KRegister id username => fun ok r => onRegistered id username ok r.1 r.2
  | KAdminCreate id responseType _ _ _ => fun ok r => onAdminCreated id responseType ok r.1
  | KAdminDelete id responseType _ _ => fun ok result => onAdminDone id responseType ok result
  | KAdminSetLevel id responseType _ _ _ => fun ok result => onAdminDone id responseType ok result
  | KBootstrapDelete => fun _ _ st => st
  | _ => fun _ _ st => st
  end.

(** Then those that do: the callback of that request is one of the above. *)

Definition onLoginLookup (id : ConnectionId) (password username : string) (ok : bool)
    (account : AccountLookup) (st : St) : St :=
  if negb ok then sendLoginResponse id AuthServerError "" "" 0 0 0 st
  else if negb (al_found account) || negb (verifyPassword (al_passwordHash account) password)
  then sendLoginResponse id InvalidCredentials "" "" 0 0 0 st
  else
    let '(token, st) := generateToken st in
    createSession (CB := final_callback) (al_accountId account) token (cfg_sessionTtl cfg)
      (KLoginSession id token username (al_accountId account) (al_permissionLevel account)) st.

Definition onAdminLookup (id : ConnectionId) (command responseType : AuthMessage)
    (target password : string) (level : Z) (ok : bool) (session : SessionLookup) (st : St) : St :=
  if negb ok then sendAdminResponse id responseType AuthServerError st
  else if negb (sl_found session) then sendAdminResponse id responseType SessionExpired st
  else if sl_permissionLevel session <? permission_code Admin then
    sendAdminResponse id responseType InsufficientPermission st
  else
    let actor := sl_username session in
    if bool_decide (command = AdminAccountCreateRequest) then
      if negb (validUsername target) || (String.length password <? kMinPasswordLength)%nat
         || (permission_code Admin <? level)
      then sendAdminResponse id responseType MalformedRequest st
      else
        let '(hash, st) := hashPassword password st in
        match hash with
        | None => sendAdminResponse id responseType AuthServerError st
        | Some hash =>
            createAccountWithLevel (CB := final_callback) target hash level
              (KAdminCreate id responseType target level actor) st
        end
    else if bool_decide (command = AdminAccountDeleteRequest) then
      deleteAccount (CB := final_callback) target (KAdminDelete id responseType target actor) st
    else if permission_code Admin <? level then
      sendAdminResponse id responseType MalformedRequest st
    else
      setPermissionLevel (CB := final_callback) target level
        (KAdminSetLevel id responseType target level actor) st.

(** The startup check for an admin also removes a leftover account, whatever
    the answer. *)
Definition onBootstrapExists (ok exists_ : bool) (st : St) : St :=
  deleteAccount (CB := final_callback) "bootstrap" KBootstrapDelete st.

Global Instance callback : DbCallbacks St AuthK := fun c k =>
  match k in AuthK c return bool -> Reply c -> St -> St with
  | KLoginLookup id password username => fun ok account =>
      onLoginLookup id password username ok account
  | KAdminLookup id command responseType target password level => fun ok session =>
      onAdminLookup id command responseType target password level ok session
  | KBootstrapExists => fun ok e => onBootstrapExists ok e
  | k => final_callback _ k
  end.

(** ** The message handler *)

Definition handleLogin (id : ConnectionId) (r : ByteReader) (st : St) : St :=
  let '(version, r) := r_u32 r in
  let '(username, r) := r_string r in
  let '(password, r) := r_string r in
  if failed r then sendLoginResponse id MalformedRequest "" "" 0 0 0 st
  else if negb (version =? kProtocolVersion) then
    sendLoginResponse id AuthVersionMismatch "" "" 0 0 0 st
  else lookupAccount username (KLoginLookup id password username) st.

Definition handleRegister (id : ConnectionId) (r : ByteReader) (st : St) : St :=
  let '(version, r) := r_u32 r in
  let '(username, r) := r_string r in
  let '(password, r) := r_string r in
  if failed r then sendRegisterResponse id MalformedRequest st
  else if negb (version =? kProtocolVersion) then
    sendRegisterResponse id AuthVersionMismatch st
  else if negb (validUsername username) || (String.length password <? kMinPasswordLength)%nat
  then sendRegisterResponse id MalformedRequest st
  else
    let '(hash, st) := hashPassword password st in
    match hash with
    | None => sendRegisterResponse id AuthServerError st
    | Some hash => createAccount username hash (KRegister id username) st
    end.

Definition admin_response (command : AuthMessage) : AuthMessage :=
  match command with
  | AdminAccountCreateRequest => AdminAccountCreateResponse
  | AdminAccountDeleteRequest => AdminAccountDeleteResponse
  | _ => AdminSetLevelResponse
  end.

Definition handleAdmin (command : AuthMessage) (id : ConnectionId) (r : ByteReader) (st : St)
    : St :=
  let '(token, r) := r_string r in
  let '(target, r) := r_string r in
  let '(password, r) :=
    if bool_decide (command = AdminAccountCreateRequest) then r_string r
    else (EmptyString, r) in
  let '(level, r) :=
    if bool_decide (command = AdminAccountCreateRequest)
       || bool_decide (command = AdminSetLevelRequest) then r_u8 r
    else (0, r) in
  let responseType := admin_response command in
  if failed r || (String.length target =? 0)%nat then
    sendAdminResponse id responseType MalformedRequest st
  else
    lookupSession token (KAdminLookup id command responseType target password level) st.

Definition onMessage (id : ConnectionId) (type : Z) (data : list byte) (st : St) : St :=
  let r := open_reader data in
  match auth_message_of type with
  | Some LoginRequest => handleLogin id r st
  | Some RegisterRequest => handleRegister id r st
  | Some AdminAccountCreateRequest => handleAdmin AdminAccountCreateRequest id r st
  | Some AdminAccountDeleteRequest => handleAdmin AdminAccountDeleteRequest id r st
  | Some AdminSetLevelRequest => handleAdmin AdminSetLevelRequest id r st
  | _ => st
  end.

(** ** Startup and the main loop *)

(** Reconnecting: one attempt per entry, until one succeeds; the attempts end
    with the process. *)
Fixpoint reconnect (attempts : list (option Socket)) (st : St) : St :=
  match attempts with
  | [] => st
  | a :: attempts' =>
      let '(ok, st) := connect a st in
      if ok : bool then st else reconnect attempts' st
  end.

(** Asking whether there is an admin, with a limited number of polls for the
    answers. *)
Definition bootstrap (polls : nat) (st : St) : St :=
  Nat.iter polls (fun st => (db_poll st).2) (adminExists KBootstrapExists st).

Definition main_step (ev : Events) (attempts : list (option Socket)) (st : St) : St :=
  let st := poll (fun _ _ st => st) onMessage (fun _ st => st) ev st in
  let '(ok, st) := db_poll st in
  if ok : bool then st else reconnect attempts st.

(** ** The server as a transition system

    The handlers run on three occasions: a message of a client, a reply of
    the database server to a pending request, and the failure of a request.
    The history records the first two. *)

Inductive Label :=
| LMessage (id : ConnectionId) (type : Z) (data : list byte)
| LReply (c : DbCall) (k : AuthK c) (ok : bool) (reply : Reply c).

Inductive handler_step (st : St) : option Label -> St -> Prop :=
| step_message id type data :
    handler_step st (Some (LMessage id type data)) (onMessage id type data st)
| step_reply n c k type data ok reply :
    mPending (db st) !! n = Some (mkPending c k) ->
    handler_reply c true type data = (ok, reply) ->
    handler_step st (Some (LReply c k ok reply))
      (run c k ok reply (on_db (remove_pending n) st))
| step_failed c k : handler_step st None (run c k false (no_reply c) st)
| step_bootstrap : handler_step st None (adminExists KBootstrapExists st).

(** Between the handlers the two components move on their own: connections
    and buffers change, pending requests are dropped. *)
Inductive internal_step (st : St) : St -> Prop :=
| internal_server s : internal_step st (set_server s st)
| internal_db d :
    (forall n p, mPending d !! n = Some p -> mPending (db st) !! n = Some p) ->
    internal_step st (set_db d st).

Inductive history : list Label -> St -> Prop :=
| history_start st : mPending (db st) = ∅ -> history [] st
| history_internal h st st' : history h st -> internal_step st st' -> history h st'
| history_handler h st l st' :
    history h st -> handler_step st l st' -> history (h ++ option_list l) st'.

(** The program is an instance: a turn of the main loop is a run of steps. *)

Definition extends (h : list Label) (st : St) : Prop := exists h', history (h ++ h') st.

Lemma extends_internal h st st' : extends h st -> internal_step st st' -> extends h st'.
Proof. intros [h' Hh] Hs. exists h'. by eapply history_internal. Qed.

Lemma extends_handler h st l st' : extends h st -> handler_step st l st' -> extends h st'.
Proof.
  intros [h' Hh] Hs. exists (h' ++ option_list l). rewrite app_assoc.
  by eapply history_handler.
Qed.

Lemma extends_on_db h st f :
  extends h st ->
  (forall n p, mPending (f (db st)) !! n = Some p -> mPending (db st) !! n = Some p) ->
  extends h (on_db f st).
Proof. intros Hh Hf. eapply extends_internal; [exact Hh|]. by apply internal_db. Qed.

Lemma reconnect_extends h attempts : forall st, extends h st -> extends h (reconnect attempts st).
Proof.
  induction attempts as [|[s|] attempts IH]; intros st Hh; [done| |by apply IH].
  cbn [reconnect connect]. by apply extends_on_db.
Qed.

Lemma db_poll_extends h st : extends h st -> extends h (db_poll st).2.
Proof.
  intros Hh. apply db_poll_preserves; try done.
  - intros stream st1 H1. by apply extends_on_db.
  - intros st1 H1. by apply extends_on_db.
  - intros st1 H1. by apply extends_on_db.
  - intros c k st1 H1. eapply extends_handler; [exact H1|]. apply step_failed.
  - intros n c k type data st1 E H1. destruct (handler_reply c true type data) as [ok reply] eqn:Er.
    eapply extends_handler; [exact H1|]. by eapply step_reply.
Qed.

Lemma bootstrap_extends h polls st : extends h st -> extends h (bootstrap polls st).
Proof.
  intros Hh. unfold bootstrap. induction polls as [|polls IH]; [|by apply db_poll_extends].
  eapply extends_handler; [exact Hh|]. apply step_bootstrap.
Qed.

Lemma poll_extends h ev st :
  extends h st -> extends h (poll (fun _ _ st => st) onMessage (fun _ st => st) ev st).
Proof.
  intros Hh. apply poll_preserves; try done.
  - intros s st1 H1. eapply extends_internal; [exact H1|]. constructor.
  - intros id type data st1 H1. eapply extends_handler; [exact H1|]. constructor.
Qed.

(** ** What every step sends and requests *)

(** The credentials in the payload of a login request. *)
Definition login_fields (data : list byte) : option (string * string) :=
  let '(version, r) := r_u32 (open_reader data) in
  let '(username, r) := r_string r in
  let '(password, r) := r_string r in
  if failed r || negb (version =? kProtocolVersion) then None else Some (username, password).

(** The layout of each administrative request: the session token, the account
    it is about, the password and the level. *)
Definition read_admin (command : AuthMessage) : Reader (string * string * string * Z) :=
  (match command with
   | AdminAccountCreateRequest =>
       token <-- r_string ;; target <-- r_string ;; password <-- r_string ;; level <-- r_u8 ;;
       rret (token, target, password, level)
   | AdminSetLevelRequest =>
       token <-- r_string ;; target <-- r_string ;; level <-- r_u8 ;;
       rret (token, target, ""%string, level)
   | _ => token <-- r_string ;; target <-- r_string ;; rret (token, target, ""%string, 0)
   end)%reader.

Definition admin_command (command : AuthMessage) : Prop :=
  command ∈ [AdminAccountCreateRequest; AdminAccountDeleteRequest; AdminSetLevelRequest].

(** The fields in the payload of an administrative request. *)
Definition admin_fields (command : AuthMessage) (data : list byte)
    : option (string * string * string * Z) :=
  let '((token, target, password, level), r) := read_admin command (open_reader data) in
  if failed r || bool_decide (target = EmptyString) then None
  else Some (token, target, password, level).

(** Client [id] sent credentials, the database answered the lookup of that
    name with an account, and the password verifies against its hash. *)
Definition authenticated (h : list Label) (id : ConnectionId) (username : string)
    (accountId level : Z) : Prop :=
  exists data password account,
    LMessage id (auth_message_code LoginRequest) data ∈ h /\
    login_fields data = Some (username, password) /\
    LReply CallLookupAccount (KLoginLookup id password username) true account ∈ h /\
    al_found account = true /\ verifyPassword (al_passwordHash account) password = true /\
    al_accountId account = accountId /\ al_permissionLevel account = level.

(** What is known of a pending request. *)
Definition justified (h : list Label) (p : Pending AuthK) : Prop :=
  match p_callback p with
  | KLoginLookup id password username =>
      exists data, LMessage id (auth_message_code LoginRequest) data ∈ h /\
        login_fields data = Some (username, password)
  | KLoginSession id token username accountId level => authenticated h id username accountId level
  | KAdminLookup id command responseType target password level =>
      admin_command command /\ responseType = admin_response command /\
      exists data token, LMessage id (auth_message_code command) data ∈ h /\
        admin_fields command data = Some (token, target, password, level)
  | KAdminCreate _ responseType _ _ _ | KAdminDelete _ responseType _ _
  | KAdminSetLevel _ responseType _ _ _ => responseType <> LoginResponse
  | KRegister _ _ | KBootstrapExists | KBootstrapDelete => True
  end.

(** The request a continuation waits for: where it comes from a message of a
    client, what [from] says of the message, and that the request is made of what
    the message says. *)
Definition asks (from : Label -> Prop) (r : Request) (p : Pending AuthK) : Prop :=
  match p_callback p with
  | KLoginLookup _ _ username => r = ReqLookupAccount username
  | KLoginSession _ token _ accountId _ =>
      r = ReqCreateSession accountId token (cfg_sessionTtl cfg)
  | KRegister id username =>
      exists data password hash, from (LMessage id (auth_message_code RegisterRequest) data) /\
        login_fields data = Some (username, password) /\ validUsername username = true /\
        (kMinPasswordLength <= String.length password)%nat /\ hashed (E := Ent) password hash /\
        r = ReqCreateAccount username hash
  | KAdminLookup id command _ target password level =>
      exists data token, from (LMessage id (auth_message_code command) data) /\
        admin_fields command data = Some (token, target, password, level) /\
        r = ReqLookupSession token
  | KAdminCreate _ _ target level _ => exists hash, r = ReqCreateAccountWithLevel target hash level
  | KAdminDelete _ _ target _ => r = ReqDeleteAccount target
  | KAdminSetLevel _ _ target level _ => r = ReqSetPermissionLevel target level
  | KBootstrapExists => r = ReqAdminExists
  | KBootstrapDelete => r = ReqDeleteAccount "bootstrap"
  end.

(** A successful login reply leaves only when the database confirmed the
    session of an authenticated client, and carries that session's token. *)
Definition login_explained (h : list Label) (l : option Label) (id : ConnectionId)
    (payload : list byte) : Prop :=
  exists token username accountId level,
    payload = login_payload AuthSuccess token (cfg_worldHost cfg) (cfg_worldPort cfg)
      accountId level /\
    l = Some (LReply CallCreateSession (KLoginSession id token username accountId level) true
          (Some DbOk)) /\
    authenticated h id username accountId level.

(** Requests that change accounts on behalf of a client. *)
Definition privileged (r : Request) : Prop :=
  match r with
  | ReqCreateAccountWithLevel _ _ _ | ReqSetPermissionLevel _ _ => True
  | ReqDeleteAccount name => name <> "bootstrap"%string
  | _ => False
  end.

(** Request [r] is what an administrative command asks for: of the account it
    names, with its level, which exists, and for a new account with a valid name
    and a hash of its password, which is long enough. *)
Definition commanded (command : AuthMessage) (target password : string) (level : Z) (r : Request)
    : Prop :=
  match r with
  | ReqCreateAccountWithLevel name hash level' =>
      command = AdminAccountCreateRequest /\ name = target /\ level' = level /\
      level <= permission_code Admin /\ validUsername target = true /\
      (kMinPasswordLength <= String.length password)%nat /\ hashed (E := Ent) password hash
  | ReqSetPermissionLevel name level' =>
      command = AdminSetLevelRequest /\ name = target /\ level' = level /\
      level <= permission_code Admin
  | ReqDeleteAccount name => command = AdminAccountDeleteRequest /\ name = target
  | _ => False
  end.

(** They leave only on a session of an admin, for the command the client sent,
    with the fields of its message. *)
Definition admin_explained (h : list Label) (l : option Label) (r : Request) : Prop :=
  exists id command responseType target password level session data token,
    l = Some (LReply CallLookupSession
          (KAdminLookup id command responseType target password level) true session) /\
    LMessage id (auth_message_code command) data ∈ h /\
    admin_fields command data = Some (token, target, password, level) /\
    sl_found session = true /\ permission_code Admin <= sl_permissionLevel session /\
    commanded command target password level r.

Definition creates (r : Request) : option string :=
  match r with
  | ReqCreateAccount name _ | ReqCreateAccountWithLevel name _ _ => Some name
  | _ => None
  end.

Definition explained (h : list Label) (l : option Label) (o : Output AuthK) : Prop :=
  match o with
  | OSend id type payload =>
      type = auth_message_code LoginResponse -> head payload = Some x00 ->
      login_explained h l id payload
  | OClose _ => False
  | ORequest r k =>
      (privileged r -> admin_explained h l r) /\
      (forall name, creates r = Some name -> validUsername name = true) /\
      justified (h ++ option_list l) (mkPending (call_of r) k) /\
      asks (fun a => l = Some a) r (mkPending (call_of r) k)
  end.

(** ** Lemmas *)

Lemma login_payload_head result token host port account level :
  head (login_payload result token host port account level) =
  Some (byte_of_Z (auth_result_code result)).
Proof. unfold login_payload. autorewrite with writer. by rewrite app_nil_l, <- !app_assoc. Qed.

Lemma result_code_success result :
  byte_of_Z (auth_result_code result) = x00 -> result = AuthSuccess.
Proof. by destruct result. Qed.

Lemma explained_login_failure h l id result token host port account level :
  result <> AuthSuccess ->
  explained h l (OSend id (auth_message_code LoginResponse)
    (login_payload result token host port account level)).
Proof.
  intros Hne _ Hh. rewrite login_payload_head in Hh. injection Hh as Hh.
  by apply result_code_success in Hh.
Qed.

Lemma explained_result h l id type result :
  type <> LoginResponse \/ result <> AuthSuccess ->
  explained h l (OSend id (auth_message_code type) (result_payload result)).
Proof.
  intros Hor Ht Hh. destruct Hor as [Hr|Hr]; [by destruct type|].
  injection Hh as Hh. by apply result_code_success in Hh.
Qed.

Lemma emits_sendLogin h l n id result st :
  result <> AuthSuccess ->
  emits (explained h l) n st (sendLoginResponse id result "" "" 0 0 0 st).
Proof. intros Hne. by apply emits_send, explained_login_failure. Qed.

Lemma emits_sendAdmin h l n id type result st :
  type <> LoginResponse \/ result <> AuthSuccess ->
  emits (explained h l) n st (sendAdminResponse id type result st).
Proof. intros Hor. by apply emits_send, explained_result. Qed.

Lemma emits_sendRegister h l n id result st :
  emits (explained h l) n st (sendRegisterResponse id result st).
Proof. apply emits_send, explained_result. by left. Qed.

Lemma authenticated_app h h' id u a lv :
  authenticated h id u a lv -> authenticated (h ++ h') id u a lv.
Proof.
  intros (data & pw & acc & H1 & H2 & H3 & H4). exists data, pw, acc.
  rewrite !elem_of_app. auto.
Qed.

Lemma justified_app h h' p : justified h p -> justified (h ++ h') p.
Proof.
  unfold justified. destruct (p_callback p); try done.
  - intros (data & H1 & H2). exists data. rewrite elem_of_app. auto.
  - apply authenticated_app.
  - intros (H0 & H1 & data & token & H2 & H3). split; [done|]. split; [done|].
    exists data, token. rewrite elem_of_app. auto.
Qed.

Lemma asks_mono (from from' : Label -> Prop) r p :
  (forall a, from a -> from' a) -> asks from r p -> asks from' r p.
Proof.
  intros Hf. unfold asks. destruct (p_callback p); try done.
  - intros (data & password & hash & H1 & H2). exists data, password, hash. auto.
  - intros (data & token & H1 & H2). exists data, token. auto.
Qed.

(** Callbacks that report a failure, and the final ones. *)
Lemma emits_final h l n c k ok reply st :
  ok = false \/ (justified h (mkPending c k) /\ l = Some (LReply c k ok reply)) ->
  emits (explained h l) n st (final_callback c k ok reply st).
Proof.
  intros Hl. destruct k; cbn [final_callback]; try apply emits_refl.
  - unfold onLoginSession. destruct ok; cbn [negb orb]; [|by apply emits_sendLogin].
    case_bool_decide as Hr; cbn [negb]; [|by apply emits_sendLogin].
    apply emits_send. intros _ _. destruct Hl as [|[Hj ->]]; [done|]. rewrite Hr in *.
    exists token, username, accountId, level. split; [done|]. split; [done|exact Hj].
  - unfold onRegistered. repeat case_match; apply emits_sendRegister.
  - unfold onAdminCreated. destruct ok; cbn [negb]; [|apply emits_sendAdmin; auto].
    destruct Hl as [|[Hj _]]; [done|]. case_bool_decide; apply emits_sendAdmin; auto.
  - unfold onAdminDone. destruct ok; cbn [negb]; [|apply emits_sendAdmin; auto].
    destruct Hl as [|[Hj _]]; [done|]. case_bool_decide; apply emits_sendAdmin; auto.
  - unfold onAdminDone. destruct ok; cbn [negb]; [|apply emits_sendAdmin; auto].
    destruct Hl as [|[Hj _]]; [done|]. case_bool_decide; apply emits_sendAdmin; auto.
Qed.

Lemma emits_final_request h l r (k : AuthK (call_of r)) st :
  explained h l (ORequest r k) ->
  emits (explained h l) 1 st (request (CB := final_callback) r k st).
Proof.
  intros He. apply emits_request; [lia|done|]. apply emits_final. by left.
Qed.

Lemma emits_loginLookup h l id password username ok account st :
  ok = false \/
  (justified h (mkPending _ (KLoginLookup id password username)) /\
   l = Some (LReply CallLookupAccount (KLoginLookup id password username) ok account)) ->
  emits (explained h l) 1 st (onLoginLookup id password username ok account st).
Proof.
  intros Hl. unfold onLoginLookup. destruct ok; cbn [negb]; [|by apply emits_sendLogin].
  destruct Hl as [|[(data & Hd & Hf) ->]]; [done|].
  destruct (al_found account) eqn:Ef; cbn [negb orb]; [|by apply emits_sendLogin].
  destruct (verifyPassword (al_passwordHash account) password) eqn:Ev; cbn [negb];
    [|by apply emits_sendLogin].
  unfold generateToken. destruct (randombytes_buf kTokenBytes (as_entropy st)) as [raw e].
  eapply emits_from; [..|apply emits_final_request]; [done|done|].
  split; [done|]. split; [done|]. split; [|done]. exists data, password, account.
  split; [apply elem_of_app; by left|]. split; [done|].
  split; [apply elem_of_app; right; left|done].
Qed.

Lemma emits_adminLookup h l id command responseType target password level ok session st :
  let k := KAdminLookup id command responseType target password level in
  ok = false \/ (justified h (mkPending _ k) /\
    l = Some (LReply CallLookupSession k ok session)) ->
  emits (explained h l) 1 st
    (onAdminLookup id command responseType target password level ok session st).
Proof.
  intros k Hl. unfold onAdminLookup.
  destruct ok; cbn [negb]; [|apply emits_sendAdmin; by right].
  destruct Hl as [|[(Hcmd & Hresp & data & token & Hd & Hfields) ->]]; [done|].
  destruct (sl_found session) eqn:Ef; cbn [negb]; [|apply emits_sendAdmin; by right].
  destruct (sl_permissionLevel session <? permission_code Admin) eqn:Ep; bool_to_prop;
    [apply emits_sendAdmin; by right|].
  assert (Hne : responseType <> LoginResponse) by (rewrite Hresp; by destruct command).
  case_bool_decide as Hc; [|case_bool_decide as Hc2].
  - destruct (_ || _)%bool eqn:Eb; [apply emits_sendAdmin; by right|].
    apply orb_false_iff in Eb as [Eb Elv]. apply orb_false_iff in Eb as [Eu Epw].
    apply negb_false_iff in Eu. apply Nat.ltb_ge in Epw. bool_to_prop.
    unfold hashPassword. destruct (crypto_pwhash_str password (as_entropy st)) as [[hash|] e] eqn:Eh.
    + eapply emits_from; [..|apply emits_final_request]; [done|done|].
      split; [|split; [by intros name [= <-]|split; [done|by exists hash]]].
      intros _. unfold admin_explained. do 9 eexists. cbn [commanded]. split_and!; try done.
      exists (as_entropy st). by rewrite Eh.
    + eapply emits_from; [..|apply emits_sendAdmin]; [done|done|by right].
  - apply emits_final_request. split; [|split; [done|by split]].
    intros _. unfold admin_explained. do 9 eexists. cbn [commanded]. split_and!; try done.
  - destruct (permission_code Admin <? level) eqn:Elv; bool_to_prop;
      [apply emits_sendAdmin; by right|].
    apply emits_final_request. split; [|split; [done|by split]].
    intros _. unfold admin_explained. do 9 eexists. cbn [commanded]. split_and!; try done.
    unfold admin_command in Hcmd. rewrite !elem_of_cons, elem_of_nil in Hcmd. tauto.
Qed.

Lemma emits_bootstrap h l ok e st : emits (explained h l) 1 st (onBootstrapExists ok e st).
Proof. by apply emits_final_request. Qed.

(** Any callback, with a reply to a pending request or with a failure. *)
Lemma emits_callback h l c k ok reply st :
  ok = false \/ (justified h (mkPending c k) /\ l = Some (LReply c k ok reply)) ->
  emits (explained h l) 1 st (run c k ok reply st).
Proof.
  intros Hl. unfold run, callback. destruct k;
    first [by apply emits_loginLookup | by apply emits_adminLookup | apply emits_bootstrap
          | by apply (emits_final h l 1)].
Qed.

Lemma emits_callback_request h l r (k : AuthK (call_of r)) st :
  explained h l (ORequest r k) -> emits (explained h l) 1 st (request r k st).
Proof. intros He. apply emits_request; [lia|done|]. apply emits_callback. by left. Qed.

(** An administrative message: the handler reads the fields of its layout. *)
Lemma handleAdmin_fields command id data st :
  admin_command command ->
  handleAdmin command id (open_reader data) st =
  match admin_fields command data with
  | None => sendAdminResponse id (admin_response command) MalformedRequest st
  | Some (token, target, password, level) =>
      lookupSession token (KAdminLookup id command (admin_response command) target password level) st
  end.
Proof.
  assert (He : forall target, (String.length target =? 0)%nat = bool_decide (target = EmptyString)).
  { intros []; [done|]. by rewrite bool_decide_eq_false_2. }
  unfold admin_command. rewrite !elem_of_cons, elem_of_nil. unfold handleAdmin, admin_fields, read_admin.
  intros [->|[->|[->|[]]]]; unfold rbind, rret;
    destruct (r_string _) as [token r1]; destruct (r_string r1) as [target r2];
    repeat match goal with
    | |- context [bool_decide (?c = ?c)] => rewrite (bool_decide_eq_true_2 (c = c)) by done
    | |- context [@bool_decide (@eq AuthMessage ?c ?c') _] =>
        rewrite (bool_decide_eq_false_2 (c = c')) by done
    end; cbn [orb].
  - destruct (r_string r2) as [password r3], (r_u8 r3) as [level r4].
    rewrite He. by destruct (_ || _)%bool.
  - rewrite He. by destruct (_ || _)%bool.
  - destruct (r_u8 r2) as [level r3]. rewrite He. by destruct (_ || _)%bool.
Qed.

Lemma emits_admin h id command data st :
  admin_command command ->
  emits (explained h (Some (LMessage id (auth_message_code command) data))) 1 st
    (handleAdmin command id (open_reader data) st).
Proof.
  intros Hc. rewrite handleAdmin_fields by done.
  destruct (admin_fields command data) as [[[[token target] password] level]|] eqn:Ef;
    [|apply emits_sendAdmin; by right].
  apply emits_callback_request. split; [done|]. split; [done|]. split; [|by exists data, token].
  split; [done|]. split; [done|]. exists data, token. split; [apply elem_of_app; right; left|done].
Qed.

Lemma emits_message h id type data st :
  emits (explained h (Some (LMessage id type data))) 1 st (onMessage id type data st).
Proof.
  unfold onMessage. destruct (auth_message_of type) as [m|] eqn:Em; [|apply emits_refl].
  apply find_code_Some in Em as <-. set (l := Some _).
  assert (Hin : LMessage id (auth_message_code m) data ∈ h ++ option_list l)
    by (apply elem_of_app; right; left).
  destruct m; try apply emits_refl; try (by apply emits_admin; repeat constructor).
  - unfold handleLogin. destruct (r_u32 (open_reader data)) as [version r1] eqn:E1.
    destruct (r_string r1) as [username r2] eqn:E2. destruct (r_string r2) as [password r3] eqn:E3.
    destruct (failed r3) eqn:E4; [by apply emits_sendLogin|].
    destruct (version =? kProtocolVersion) eqn:E5; cbn [negb]; [|by apply emits_sendLogin].
    apply emits_callback_request. split; [done|]. split; [done|]. split; [|done].
    exists data. split; [done|]. unfold login_fields. by rewrite E1, E2, E3, E4, E5.
  - unfold handleRegister. destruct (r_u32 (open_reader data)) as [version r1] eqn:E1.
    destruct (r_string r1) as [username r2] eqn:E2. destruct (r_string r2) as [password r3] eqn:E3.
    destruct (failed r3) eqn:E4; [apply emits_sendRegister|].
    destruct (version =? kProtocolVersion) eqn:E5; cbn [negb]; [|apply emits_sendRegister].
    destruct (validUsername username) eqn:Ev; cbn [negb orb]; [|apply emits_sendRegister].
    destruct (_ <? _)%nat eqn:El; [apply emits_sendRegister|]. apply Nat.ltb_ge in El.
    unfold hashPassword. destruct (crypto_pwhash_str password (as_entropy st)) as [[hash|] e] eqn:Eh.
    + eapply emits_from; [..|apply emits_callback_request]; [done|done|].
      split; [done|]. split; [by intros name [= <-]|]. split; [done|].
      exists data, password, hash. split; [done|].
      split; [unfold login_fields; by rewrite E1, E2, E3, E4, E5|].
      split_and!; try done. exists (as_entropy st). by rewrite Eh.
    + eapply emits_from; [..|apply emits_sendRegister]; done.
Qed.

Definition pending_justified (h : list Label) (st : St) : Prop :=
  forall n p, mPending (db st) !! n = Some p -> justified h p.

Lemma handler_step_explained h st l st' :
  pending_justified h st -> handler_step st l st' ->
  exists log, handler_outputs st st' log /\ Forall (explained h l) log /\ (requests log <= 1)%nat.
Proof.
  intros Hj Hs. destruct Hs as [id type data|n c k type data ok reply E Er|c k|].
  - apply emits_handled, emits_message.
  - apply (emits_handled_reply _ _ n), emits_callback. right. split; [by eapply Hj|done].
  - apply emits_handled, (emits_callback h None). by left.
  - by apply emits_handled, (emits_callback_request h None ReqAdminExists KBootstrapExists).
Qed.

(** Every pending request is justified by the history. *)
Lemma history_justified h st : history h st -> pending_justified h st.
Proof.
  induction 1 as [st E|h st st' Hh IH Hs|h st l st' Hh IH Hs].
  - intros n p. by rewrite E, lookup_empty.
  - intros n p E. destruct Hs as [s|d Hd]; [by eapply IH|]. eapply IH, Hd. exact E.
  - intros n p E. destruct (handler_step_explained h st l st' IH Hs)
      as (log & (d & Hd & _ & _ & _ & Ho) & Hex & _).
    destruct (outputs_pending _ _ _ _ _ _ _ Ho E) as [Ep|(r & k & Hin & ->)].
    + apply justified_app. by eapply IH, Hd.
    + rewrite Forall_forall in Hex. by destruct (Hex _ Hin) as (_ & _ & ? & _).
Qed.

(** ** Properties *)

(** C9: No login without the password. In every run of the server, whatever a
    handler puts out while it handles a message or a reply of the database: if
    it sends a client a successful login response, then the database has just
    confirmed that it stored a session, the response carries exactly that
    session's token and account, and earlier in the run that same connection
    sent a login request whose password verified against the hash the database
    returned for the name in the request, for that account. *)
Theorem login_success_authenticated h st l st'
    (Hh : history h st) (Hs : handler_step st l st') :
  exists log, handler_outputs st st' log /\
    forall id payload,
      OSend id (auth_message_code LoginResponse) payload ∈ log ->
      head payload = Some x00 -> login_explained h l id payload.
Proof.
  destruct (handler_step_explained h st l st' (history_justified h st Hh) Hs)
    as (log & Ho & Hex & _).
  exists log. split; [done|]. intros id payload Hin Hhead.
  rewrite Forall_forall in Hex. by apply (Hex _ Hin).
Qed.

(** C17: Accounts change only on an admin's session. In every run, if a handler
    asks the database to create an account with a level, to set a level or to
    delete an account (other than the leftover the startup removes), then the
    database has just found the session of an administrator for a command that a
    client sent, and the request is what that client's message says: its account,
    its level, which exists, and for a new account a hash of its password. The
    token the database is asked about for a command is the one in the message that
    is being handled, with the account, the password and the level of the same
    message kept for the answer. Any account created, by registration too, has a
    valid name, and a registration's is the one of its message, with a hash of its
    password. *)
Theorem admin_commands_authorised h st l st'
    (Hh : history h st) (Hs : handler_step st l st') :
  exists log, handler_outputs st st' log /\
    forall r k, ORequest r k ∈ log ->
      (privileged r -> admin_explained h l r) /\
      (forall name, creates r = Some name -> validUsername name = true) /\
      asks (fun a => l = Some a) r (mkPending (call_of r) k).
Proof.
  destruct (handler_step_explained h st l st' (history_justified h st Hh) Hs)
    as (log & Ho & Hex & _).
  exists log. split; [done|]. intros r k Hin.
  rewrite Forall_forall in Hex. by destruct (Hex _ Hin) as (H1 & H2 & _ & H4).
Qed.

(** The main loop is a run of these steps: from any state reached with
    history [h], one turn, whatever the clients and the database server send
    and however often the link to the latter breaks, reaches a state whose
    history extends [h]. *)
Lemma main_step_history h ev attempts st (Hh : history h st) :
  exists h', history (h ++ h') (main_step ev attempts st).
Proof.
  change (extends h (main_step ev attempts st)). unfold main_step.
  assert (H0 : extends h st) by (exists []; by rewrite app_nil_r).
  pose proof (db_poll_extends h _ (poll_extends h ev st H0)) as H1.
  destruct (db_poll _) as [ok st1]. destruct ok; [done|]. by apply reconnect_extends.
Qed.

(** The login reply does not tell whether the name exists. For the same
    request, an unknown account and a known one whose hash the password does
    not match leave the server in the same state: the same bytes on the same
    connection, and nothing else. *)
Theorem login_no_enumeration id password username (unknown known : AccountLookup) st
    (Hu : al_found unknown = false)
    (Hk : verifyPassword (al_passwordHash known) password = false) :
  onLoginLookup id password username true unknown st =
  onLoginLookup id password username true known st.
Proof. unfold onLoginLookup. rewrite Hu, Hk. cbn [negb orb]. by rewrite orb_true_r. Qed.

(** A database that answers with an error is reported as a success, when an
    account is registered and when one is created, deleted or changed. *)
Lemma error_reported_as_success id username type st :
  onRegistered id username true (Some DbError) 0 st = sendRegisterResponse id AuthSuccess st /\
  onAdminCreated id type true (Some DbError) st = sendAdminResponse id type AuthSuccess st /\
  onAdminDone id type true (Some DbError) st = sendAdminResponse id type AuthSuccess st.
Proof. done. Qed.

End AuthServer.

(** ** Names and tokens *)

(** The characters of a name: letters, digits, underscore and hyphen. *)
Definition name_char (c : ascii) : Prop :=
  let n := Z.of_N (N_of_ascii c) in
  97 <= n <= 122 \/ 65 <= n <= 90 \/ 48 <= n <= 57 \/ c = "_"%char \/ c = "-"%char.

Lemma ascii_code c n : (n < 256)%N -> Z.of_N (N_of_ascii c) = Z.of_N n <-> c = ascii_of_N n.
Proof.
  intros Hn. split.
  - intros E%N2Z.inj. by rewrite <- E, ascii_N_embedding.
  - intros ->. by rewrite N_ascii_embedding.
Qed.

Lemma allowed_iff c : allowed c = true <-> name_char c.
Proof.
  unfold allowed, name_char.
  rewrite <- (ascii_code c 95), <- (ascii_code c 45) by done.
  rewrite !orb_true_iff, !andb_true_iff, !Z.leb_le, !Z.eqb_eq. simpl. tauto.
Qed.

(** A name is valid exactly when it has between 1 and 32 characters, all
    of them ASCII letters, digits, underscores or hyphens. *)
Theorem validUsername_iff (username : string) :
  validUsername username = true <->
  (1 <= String.length username <= 32)%nat /\
  forall c, c ∈ list_ascii_of_string username -> name_char c.
Proof.
  unfold validUsername, kMaxUsernameLength.
  destruct (Nat.eqb_spec (String.length username) 0) as [E|E]; cbn [orb];
    [split; [done|lia]|].
  destruct (Nat.ltb_spec 32 (String.length username)) as [E2|E2]; [split; [done|lia]|].
  rewrite forallb_forall. split.
  - intros Hall. split; [lia|]. intros c Hc. by apply allowed_iff, Hall, list_elem_of_In.
  - intros [_ Hall] c Hc. by apply allowed_iff, Hall, list_elem_of_In.
Qed.

Definition hex_char (c : ascii) : Prop := c ∈ list_ascii_of_string "0123456789abcdef".

Definition unhex (c : ascii) : Z :=
  let n := Z.of_N (N_of_ascii c) in if n <=? 57 then n - 48 else n - 87.

Lemma hex_digit_spec n : 0 <= n < 16 -> hex_char (hex_digit n) /\ unhex (hex_digit n) = n.
Proof.
  intros Hn.
  assert (Hall : Forall (fun m => hex_char (hex_digit m) /\ unhex (hex_digit m) = m)
                   (Z.of_nat <$> seq 0 16))
    by (cbn [seq fmap list_fmap]; repeat constructor; by apply (bool_decide_unpack _)).
  rewrite Forall_fmap in Hall. rewrite <- (Z2Nat.id n) by lia.
  refine (proj1 (Forall_forall _ _) Hall (Z.to_nat n) _). apply elem_of_seq. lia.
Qed.

Lemma unhex_digit n : 0 <= n < 16 -> unhex (hex_digit n) = n.
Proof. intros Hn. by apply hex_digit_spec. Qed.

Lemma nibbles b :
  0 <= Z.shiftr (Z_of_byte b) 4 < 16 /\ 0 <= Z.land (Z_of_byte b) 15 < 16 /\
  Z_of_byte b = Z.shiftr (Z_of_byte b) 4 * 16 + Z.land (Z_of_byte b) 15.
Proof.
  pose proof (Z_of_byte_range b) as Hb. rewrite Z.shiftr_div_pow2 by lia.
  change 15 with (Z.ones 4). rewrite Z.land_ones by lia. change (2 ^ 4) with 16.
  pose proof (Z.div_mod (Z_of_byte b) 16). pose proof (Z.mod_pos_bound (Z_of_byte b) 16).
  split_and!; lia.
Qed.

Lemma hex_of_bytes_inj raw1 : forall raw2, hex_of_bytes raw1 = hex_of_bytes raw2 -> raw1 = raw2.
Proof.
  induction raw1 as [|b1 raw1 IH]; intros [|b2 raw2] E; [done|done|done|].
  injection E as E1 E2 E3. f_equal; [|by apply IH].
  destruct (nibbles b1) as (H1 & H2 & H3), (nibbles b2) as (H4 & H5 & H6).
  apply (f_equal unhex) in E1, E2.
  rewrite !unhex_digit in E1, E2 by done.
  apply Z_of_byte_inj. lia.
Qed.

Lemma hex_of_bytes_chars raw :
  String.length (hex_of_bytes raw) = (2 * length raw)%nat /\
  forall c, c ∈ list_ascii_of_string (hex_of_bytes raw) -> hex_char c.
Proof.
  induction raw as [|b raw [IH1 IH2]]; [split; [done|intros c Hc; by apply not_elem_of_nil in Hc]|].
  destruct (nibbles b) as (H1 & H2 & _). split.
  { change (S (S (String.length (hex_of_bytes raw))) = (2 * S (length raw))%nat). lia. }
  intros c. cbn [hex_of_bytes foldr list_ascii_of_string]. rewrite !elem_of_cons.
  intros [->|[->|Hc]]; [by apply hex_digit_spec|by apply hex_digit_spec|by apply IH2].
Qed.

(** A token is 64 hexadecimal digits, and it keeps all the randomness it was
    made from: two tokens are equal only if the 32 random bytes were. *)
Theorem generateToken_spec {Ent} `{Sodium Ent} (st st' : AuthServer Ent)
    (Hlen : length (randombytes_buf kTokenBytes (as_entropy st)).1 = kTokenBytes) :
  let token := (generateToken st).1 in
  String.length token = 64%nat /\
  (forall c, c ∈ list_ascii_of_string token -> hex_char c) /\
  ((generateToken st').1 = token ->
   (randombytes_buf kTokenBytes (as_entropy st')).1 =
   (randombytes_buf kTokenBytes (as_entropy st)).1).
Proof.
  unfold generateToken. destruct (randombytes_buf kTokenBytes (as_entropy st)) as [raw e].
  destruct (randombytes_buf kTokenBytes (as_entropy st')) as [raw' e']. cbn [fst] in *.
  destruct (hex_of_bytes_chars raw) as [H1 H2]. split_and!; [|done|apply hex_of_bytes_inj].
  rewrite H1, Hlen. done.
Qed.

(** ** A concrete run *)

(** A generator that counts and a hash that hides nothing. *)
Definition toy_sodium : Sodium Z :=
  {| randombytes_buf n e := (repeat (byte_of_Z e) n, e + 1);
     crypto_pwhash_str password e := (Some ("h:" +:+ password)%string, e);
     crypto_pwhash_str_verify hash password := bool_decide (hash = "h:" +:+ password)%string |}.

#[local] Existing Instance toy_sodium.

Definition toy_config : AuthConfig :=
  {| cfg_worldHost := "127.0.0.1"; cfg_worldPort := 7002; cfg_sessionTtl := 120 |}.

Definition login_request : list byte :=
  w_string "secret1" (w_string "alex" (w_u32 kProtocolVersion [])).

Definition toy_start : AuthServer Z :=
  mkAuth (mkServer {[ 1 := mkConnection (new_stream (mkSocket [] [] [])) (Address.mkAddress 1 1) ]}
      [] 2)
    (mkDbClient (Some (new_stream (mkSocket [] [] []))) ∅ 1 true) 42.

Definition lookup_reply : list byte :=
  w_u8 0 (w_string "h:secret1" (w_u64 5 (w_u8 1 (w_u32 1 [])))).
Definition session_reply : list byte := w_u8 0 (w_u32 2 []).

Definition toy_k1 := KLoginLookup 1 "secret1" "alex".
Definition toy_account : AccountLookup :=
  {| al_found := true; al_accountId := 5; al_passwordHash := "h:secret1";
     al_permissionLevel := 0 |}.
Definition toy_k2 := KLoginSession 1 (hex_of_bytes (repeat (byte_of_Z 42) 32)) "alex" 5 0.

Definition toy_1 : AuthServer Z := onMessage toy_config 1 1 login_request toy_start.
Definition toy_2 : AuthServer Z :=
  callback toy_config _ toy_k1 true toy_account (on_db (remove_pending 1) toy_1).
Definition toy_3 : AuthServer Z :=
  callback toy_config _ toy_k2 true (Some DbOk) (on_db (remove_pending 2) toy_2).

Definition toy_history : list Label :=
  [LMessage 1 1 login_request; LReply _ toy_k1 true toy_account].

Lemma toy_history_ok : history toy_config toy_history toy_2.
Proof.
  change toy_history with (([] ++ option_list (Some (LMessage 1 1 login_request)))
    ++ option_list (Some (LReply _ toy_k1 true toy_account))).
  eapply (history_handler toy_config _ toy_1);
    [eapply (history_handler toy_config _ toy_start); [by apply history_start|]|].
  - apply step_message.
  - by eapply (step_reply toy_config toy_1 1 _ toy_k1 101 lookup_reply).
Defined.

Lemma login_success_authenticated_witness :
  exists log, handler_outputs toy_2 toy_3 log /\
    forall id payload,
      OSend id (auth_message_code LoginResponse) payload ∈ log ->
      head payload = Some x00 ->
      login_explained toy_config toy_history
        (Some (LReply CallCreateSession toy_k2 true (Some DbOk))) id payload.
Proof.
  apply (login_success_authenticated toy_config toy_history toy_2 _ toy_3 toy_history_ok).
  by eapply (step_reply toy_config toy_2 2 _ toy_k2 105 session_reply).
Defined.

(** An administrator creates an account. *)
Definition create_request : list byte :=
  w_u8 1 (w_string "secret2" (w_string "kim" (w_string "t0ken" []))).
Definition admin_reply : list byte :=
  w_u8 2 (w_string "root" (w_u64 1 (w_u8 1 (w_u32 1 [])))).
Definition toy_admin : SessionLookup :=
  {| sl_found := true; sl_accountId := 1; sl_username := "root"; sl_permissionLevel := 2 |}.

Definition toy_create : Label := LMessage 1 (auth_message_code AdminAccountCreateRequest) create_request.
Definition toy_ka : AuthK CallLookupSession :=
  KAdminLookup 1 AdminAccountCreateRequest AdminAccountCreateResponse "kim" "secret2" 1.
Definition toy_a1 : AuthServer Z :=
  onMessage toy_config 1 (auth_message_code AdminAccountCreateRequest) create_request toy_start.
Definition toy_a2 : AuthServer Z :=
  callback toy_config _ toy_ka true toy_admin (on_db (remove_pending 1) toy_a1).

Lemma toy_create_heard : history toy_config [toy_create] toy_a1.
Proof.
  apply (history_handler toy_config [] toy_start (Some toy_create)); [by apply history_start|].
  apply step_message.
Defined.

Lemma admin_commands_authorised_witness :
  exists log r k hash, handler_outputs toy_a1 toy_a2 log /\ ORequest r k ∈ log /\
    r = ReqCreateAccountWithLevel "kim" hash 1 /\ validUsername "kim" = true /\
    admin_explained [toy_create] (Some (LReply CallLookupSession toy_ka true toy_admin)) r.
Proof.
  destruct (admin_commands_authorised toy_config [toy_create] toy_a1
    (Some (LReply CallLookupSession toy_ka true toy_admin)) toy_a2 toy_create_heard)
    as (log & Ho & Hlog).
  { by eapply (step_reply toy_config toy_a1 1 _ toy_ka 107 admin_reply). }
  pose proof Ho as (d & Hd & _ & _ & _ & Houts).
  destruct (outputs_pending _ _ _ _ _ 2 (mkPending CallCreateAccountWithLevel
    (KAdminCreate 1 AdminAccountCreateResponse "kim" 1 "root")) Houts) as [Hp|(r & k & Hin & Hk)].
  - vm_compute. reflexivity.
  - apply Hd in Hp. vm_compute in Hp. discriminate Hp.
  - destruct (Hlog r k Hin) as (Hpriv & Hname & Hasks). rewrite <- Hk in Hasks.
    destruct Hasks as [hash Hr]. exists log, r, k, hash.
    split; [exact Ho|]. split; [exact Hin|]. split; [exact Hr|]. rewrite Hr in Hpriv, Hname |- *.
    exact (conj (Hname "kim"%string eq_refl) (Hpriv I)).
Defined.

Lemma main_step_history_witness :
  exists h', history toy_config (toy_history ++ h')
    (main_step toy_config (mkEvents [] [1]) [None] toy_2).
Proof. apply main_step_history, toy_history_ok. Defined.

Lemma login_no_enumeration_witness :
  onLoginLookup toy_config 1 "wrong" "alex" true default_account toy_1 =
  onLoginLookup toy_config 1 "wrong" "alex" true toy_account toy_1.
Proof. by apply login_no_enumeration. Defined.

Lemma generateToken_spec_witness :
  String.length (generateToken toy_1).1 = 64%nat.
Proof. apply (generateToken_spec toy_1 toy_1). reflexivity. Defined.

(** The client of the run is told it is in, with the token that was stored. *)
Example toy_login_succeeds :
  (fun c => sk_wire (ms_socket (cn_stream c))
            ++ drop (ms_writeOffset (cn_stream c)) (ms_writeBuffer (cn_stream c)))
    <$> mConnections (as_server toy_3) !! 1 =
  Some (frame (mkMessage 2 (login_payload AuthSuccess
    (hex_of_bytes (repeat (byte_of_Z 42) 32)) "127.0.0.1" 7002 5 0))).
Proof. vm_compute. reflexivity. Qed.
