(* ===== verification/Simulation.v ===== *)
(** * The authoritative simulation ([server/worldserver/src/simulation.cpp])

    Players and their inputs, the tick, the world clock (an anchor and a rate)
    and the snapshot of the state. The two readings of the system clock,
    [realSeconds()] and the local seconds of the day behind
    [wallClockTimeOfDay()], are arguments of the operations that take them. *)

From Stdlib Require Import ZArith Lia Floats.SpecFloat.
From stdpp Require Import base list option gmap.
From S2P Require Import Prelude Float32 Protocol Snapshot Terrain Character.

Open Scope Z_scope.

Definition kCubeEntityId : Z := 1.
Definition kFirstPlayerEntityId : Z := 1000.
Definition kSpawnClearance : float := lit32 2 10.
Definition kCubeSize : float := f32_one.
Definition kSpinRadiansPerSecond : float := lit32 6 10.
Definition kStrafeAmplitude : float := f32_of_Z 3.
Definition kStrafeRadiansPerSecond : float := lit32 8 10.
Definition f32_half : float := lit32 1 2.
Definition seconds_per_day : float := f32_of_Z 86400.

(** [Simulation::Player]. *)
Record SimPlayer := mkSimPlayer {
  sp_entityId : Z;
  sp_character : Character;
  sp_input : CharacterInput;
  sp_lastInputSequence : Z;
}.

Record Simulation := mkSimulation {
  sim_players : gmap Z SimPlayer;
  sim_nextPlayerEntityId : Z;
  sim_cubePosition : Vec3;
  sim_cubeRotation : Quat;
  sim_cubeVelocity : Vec3;
  sim_tick : Z;
  sim_elapsed : double;
  sim_timeOfDay : float;
  sim_anchorRealSeconds : double;
  sim_anchorTimeOfDay : float;
  sim_timeSpeed : float;
}.

Definition new_simulation : Simulation :=
  {| sim_players := ∅; sim_nextPlayerEntityId := kFirstPlayerEntityId;
     sim_cubePosition := vec3_default; sim_cubeRotation := quat_default;
     sim_cubeVelocity := vec3_default; sim_tick := 0; sim_elapsed := f64_zero;
     sim_timeOfDay := lit32 3 10; sim_anchorRealSeconds := f64_zero;
     sim_anchorTimeOfDay := f32_zero; sim_timeSpeed := f32_one |}.

(** ** Updates of one part of the state *)

Definition set_players (ps : gmap Z SimPlayer) (s : Simulation) : Simulation :=
  mkSimulation ps (sim_nextPlayerEntityId s) (sim_cubePosition s) (sim_cubeRotation s)
    (sim_cubeVelocity s) (sim_tick s) (sim_elapsed s) (sim_timeOfDay s)
    (sim_anchorRealSeconds s) (sim_anchorTimeOfDay s) (sim_timeSpeed s).

Definition set_clock (timeOfDay : float) (anchorReal : double) (anchorTime speed : float)
    (s : Simulation) : Simulation :=
  mkSimulation (sim_players s) (sim_nextPlayerEntityId s) (sim_cubePosition s)
    (sim_cubeRotation s) (sim_cubeVelocity s) (sim_tick s) (sim_elapsed s) timeOfDay anchorReal
    anchorTime speed.

Definition set_cube (position : Vec3) (rotation : Quat) (velocity : Vec3) (s : Simulation)
    : Simulation :=
  mkSimulation (sim_players s) (sim_nextPlayerEntityId s) position rotation velocity
    (sim_tick s) (sim_elapsed s) (sim_timeOfDay s) (sim_anchorRealSeconds s)
    (sim_anchorTimeOfDay s) (sim_timeSpeed s).

(** ** The world clock *)

(** [static_cast<float>(secondsToday) / 86400.0f]. *)
Definition wallClockTimeOfDay (secondsToday : Z) : float :=
  (f32_of_Z secondsToday / seconds_per_day)%f32.

Definition reanchor (real : double) (s : Simulation) : Simulation :=
  set_clock (sim_timeOfDay s) real (sim_timeOfDay s) (sim_timeSpeed s) s.

(** [x - std::floor(x)]. *)
Definition wrap_day (x : float) : float := (x - f32_floor x)%f32.

Definition setTimeOfDay (real : double) (timeOfDay : float) (s : Simulation) : Simulation :=
  let timeOfDay := wrap_day timeOfDay in
  reanchor real (set_clock timeOfDay (sim_anchorRealSeconds s) (sim_anchorTimeOfDay s)
    (sim_timeSpeed s) s).

Definition setTimeSpeed (real : double) (speed : float) (s : Simulation) : Simulation :=
  let s := reanchor real s in
  set_clock (sim_timeOfDay s) (sim_anchorRealSeconds s) (sim_anchorTimeOfDay s) speed s.

Definition resetClock (real : double) (secondsToday : Z) (s : Simulation) : Simulation :=
  reanchor real (set_clock (wallClockTimeOfDay secondsToday) (sim_anchorRealSeconds s)
    (sim_anchorTimeOfDay s) f32_one s).

(** The clock at real time [real]. *)
Definition clock_at (real : double) (s : Simulation) : float :=
  let elapsed := (real - sim_anchorRealSeconds s)%f64 in
  wrap_day (sim_anchorTimeOfDay s
            + f32_of_f64 (elapsed * f64_of_f32 (sim_timeSpeed s) / f64_of_Z 86400)%f64)%f32.

(** A time of day: at least zero (not the negative zero) and below one. *)
Definition in_day (x : float) : bool :=
  match x with
  | S754_zero s => negb s
  | S754_finite s m e => negb s && bounded 24 128 m e && (x <? f32_one)%f32
  | _ => false
  end.

Lemma wrap_day_in_day x :
  f32_valid x = true -> is_finite x = true -> (f32_zero <=? x)%f32 = true ->
  in_day (wrap_day x) = true.
Proof.
  unfold wrap_day. intros Hv Hf Hp. destruct x as [s| | |s m e]; try done.
  - by destruct s.
  - destruct s; [done|]. cbn [f32_valid valid_binary] in Hv.
    destruct (f32_sub_floor m e Hv) as [->|(m' & e' & Er & Hb & Hlt)]; [done|].
    cbv zeta in Hlt. rewrite Er in Hlt |- *. unfold in_day. by rewrite Hb, Hlt.
Qed.

Lemma wrap_day_id x : in_day x = true -> wrap_day x = x.
Proof.
  unfold wrap_day, in_day. destruct x as [s| | |s m e]; try done; [by destruct s|].
  rewrite !andb_true_iff, negb_true_iff. intros [[-> Hb] Hlt].
  apply (f32_lt_one m e Hb) in Hlt as [He Hm]. unfold f32_floor, floor.
  rewrite (proj2 (Z.leb_gt 0 e)) by done. unfold floor_Z. cbn [cond_Zopp].
  rewrite <- (Z.opp_involutive e) at 2. rewrite Z.shiftl_opp_r, Z.shiftr_div_pow2 by lia.
  by rewrite Z.div_small by lia.
Qed.

(** The clock read at the moment of its anchor. *)
Lemma clock_at_anchor real s :
  sim_anchorRealSeconds s = real -> is_finite real = true ->
  is_finite (f64_of_f32 (sim_timeSpeed s)) = true -> in_day (sim_anchorTimeOfDay s) = true ->
  clock_at real s = sim_anchorTimeOfDay s.
Proof.
  intros Hr Hreal Hspeed Hday. unfold clock_at. rewrite Hr.
  assert (Hz : (real - real)%f64 = f64_zero).
  { destruct real as [sr| | |sr mr er]; try done; [by destruct sr|].
    cbn [SFsub]. by rewrite Z.sub_diag. }
  rewrite Hz. rewrite <- (wrap_day_id _ Hday) at 2. f_equal.
  destruct (f64_of_f32 (sim_timeSpeed s)) as [s0| | |s0 m0 e0]; try done;
    destruct (sim_anchorTimeOfDay s) as [s1| | |s1 m1 e1]; try done;
    destruct s0; try done; by destruct s1.
Qed.

(** Changing the speed of the world clock never makes it jump: at the moment
    of the change the clock reads the time of day it had, whatever the old and
    the new speed are. *)
Theorem setTimeSpeed_no_jump (real : double) (speed : float) (s : Simulation)
    (Hreal : is_finite real = true)
    (Hspeed : is_finite (f64_of_f32 speed) = true)
    (Hday : in_day (sim_timeOfDay s) = true) :
  clock_at real (setTimeSpeed real speed s) = sim_timeOfDay s /\
  sim_timeSpeed (setTimeSpeed real speed s) = speed /\
  sim_timeOfDay (setTimeSpeed real speed s) = sim_timeOfDay s.
Proof. split_and!; [|done|done]. by apply (clock_at_anchor real (setTimeSpeed real speed s)). Qed.

Lemma setTimeSpeed_no_jump_witness :
  let s := setTimeSpeed (f64_of_Z 100) (f32_of_Z 60) new_simulation in
  clock_at (f64_of_Z 200) (setTimeSpeed (f64_of_Z 200) (f32_of_Z 2) s) = lit32 3 10.
Proof.
  refine (proj1 (setTimeSpeed_no_jump (f64_of_Z 200) (f32_of_Z 2)
    (setTimeSpeed (f64_of_Z 100) (f32_of_Z 60) new_simulation) _ _ _)); vm_compute; reflexivity.
Defined.

(** The administrator's time of day wraps into the day. For every number that
    is not negative the clock is set to a time in [0, 1), which is the number
    itself when it is one, and the clock runs on from there. *)
Theorem setTimeOfDay_in_day (real : double) (t : float) (s : Simulation)
    (Hreal : is_finite real = true)
    (Hspeed : is_finite (f64_of_f32 (sim_timeSpeed s)) = true)
    (Hv : f32_valid t = true) (Hf : is_finite t = true)
    (Hpos : (f32_zero <=? t)%f32 = true) :
  let s' := setTimeOfDay real t s in
  in_day (sim_timeOfDay s') = true /\
  (in_day t = true -> sim_timeOfDay s' = t) /\
  clock_at real s' = sim_timeOfDay s'.
Proof.
  cbv zeta. assert (Hd : in_day (wrap_day t) = true) by by apply wrap_day_in_day.
  split_and!; [done|apply wrap_day_id|].
  by apply (clock_at_anchor real (setTimeOfDay real t s)).
Qed.

Lemma setTimeOfDay_in_day_witness :
  in_day (sim_timeOfDay (setTimeOfDay (f64_of_Z 100) (lit32 75 10) new_simulation)) = true.
Proof.
  refine (proj1 (setTimeOfDay_in_day (f64_of_Z 100) (lit32 75 10) new_simulation _ _ _ _ _));
    vm_compute; reflexivity.
Defined.

Section Simulation.
Context `{Libm}.

Definition cube_height (x z : float) : float := (heightAt x z + kCubeSize * f32_half)%f32.

Definition init (real : double) (secondsToday : Z) (timeSpeed : float) (s : Simulation)
    : Simulation :=
  let speed := if (f32_zero <? timeSpeed)%f32 then timeSpeed else f32_one in
  let s := set_clock (sim_timeOfDay s) (sim_anchorRealSeconds s) (sim_anchorTimeOfDay s) speed s in
  let s := resetClock real secondsToday s in
  set_cube (mkVec3 f32_zero (cube_height f32_zero f32_zero) f32_zero) (sim_cubeRotation s)
    (sim_cubeVelocity s) s.

Definition shutdown (s : Simulation) : Simulation := set_players ∅ s.

(** ** Players *)

Definition spawn_character (count : Z) : Character :=
  let angle := (f32_of_Z count * lit32 12 10)%f32 in
  let spawnX := (f32_cos angle * f32_of_Z 3)%f32 in
  let spawnZ := (f32_of_Z 6 + f32_sin angle * f32_of_Z 2)%f32 in
  {| ch_position := mkVec spawnX (heightAt spawnX spawnZ + kRestHeight + kSpawnClearance)%f32
                      spawnZ;
     ch_velocity := vec_zero; ch_grounded := false; ch_facingYaw := f32_zero |}.

Definition addPlayer (playerId : Z) (s : Simulation) : Z * Simulation :=
  match sim_players s !! playerId with
  | Some p => (sp_entityId p, s)
  | None =>
      let entityId := sim_nextPlayerEntityId s in
      let player := mkSimPlayer entityId (spawn_character (Z.of_nat (size (sim_players s))))
        default_input 0 in
      (entityId,
       mkSimulation (<[playerId := player]> (sim_players s)) (u32 (entityId + 1))
         (sim_cubePosition s) (sim_cubeRotation s) (sim_cubeVelocity s) (sim_tick s)
         (sim_elapsed s) (sim_timeOfDay s) (sim_anchorRealSeconds s) (sim_anchorTimeOfDay s)
         (sim_timeSpeed s))
  end.

Definition removePlayer (playerId : Z) (s : Simulation) : Simulation :=
  set_players (delete playerId (sim_players s)) s.

Definition setInput (playerId : Z) (input : CharacterInput) (s : Simulation) : Simulation :=
  match sim_players s !! playerId with
  | None => s
  | Some p =>
      if negb (ci_sequence input =? 0) && (ci_sequence input <? ci_sequence (sp_input p)) then s
      else
        set_players (<[playerId := mkSimPlayer (sp_entityId p) (sp_character p) input
                                     (sp_lastInputSequence p)]> (sim_players s)) s
  end.

(** ** The tick *)

Definition without_jump (i : CharacterInput) : CharacterInput :=
  {| ci_sequence := ci_sequence i; ci_moveForward := ci_moveForward i;
     ci_moveRight := ci_moveRight i; ci_yaw := ci_yaw i; ci_jump := false;
     ci_sprint := ci_sprint i |}.

Definition step_player (deltaSeconds : float) (p : SimPlayer) : SimPlayer :=
  mkSimPlayer (sp_entityId p) (stepCharacter (sp_character p) (sp_input p) deltaSeconds)
    (without_jump (sp_input p)) (ci_sequence (sp_input p)).

(** The scripted cube at [elapsed]; its depth and vertical velocity stay. *)
Definition step_cube (elapsed : double) (s : Simulation) : Simulation :=
  let phase := (elapsed * f64_of_f32 kStrafeRadiansPerSecond)%f64 in
  let x := (kStrafeAmplitude * f32_of_f64 (f64_sin phase))%f32 in
  let z := vz (sim_cubePosition s) in
  let velocityX :=
    (kStrafeAmplitude * kStrafeRadiansPerSecond * f32_of_f64 (f64_cos phase))%f32 in
  let angle := (elapsed * f64_of_f32 kSpinRadiansPerSecond)%f64 in
  let half := (angle * lit64 1 2)%f64 in
  set_cube (mkVec3 x (cube_height x z) z)
    (mkQuat f32_zero (f32_of_f64 (f64_sin half)) f32_zero (f32_of_f64 (f64_cos half)))
    (mkVec3 velocityX (vy (sim_cubeVelocity s)) (vz (sim_cubeVelocity s))) s.

Definition step (real : double) (deltaSeconds : float) (s : Simulation) : Simulation :=
  let elapsed := (sim_elapsed s + f64_of_f32 deltaSeconds)%f64 in
  step_cube elapsed
    (mkSimulation (step_player deltaSeconds <$> sim_players s) (sim_nextPlayerEntityId s)
       (sim_cubePosition s) (sim_cubeRotation s) (sim_cubeVelocity s) (u32 (sim_tick s + 1))
       elapsed (clock_at real s) (sim_anchorRealSeconds s) (sim_anchorTimeOfDay s)
       (sim_timeSpeed s)).

(** ** Snapshots *)

Definition cube_entity (s : Simulation) : EntityState :=
  mkEntity kCubeEntityId (entity_type_code CubeEntity) (sim_cubePosition s) (sim_cubeRotation s)
    (sim_cubeVelocity s) (mkVec3 f32_zero kSpinRadiansPerSecond f32_zero) 0.

Definition net_vec (v : Vec) : Vec3 := mkVec3 (vec_x v) (vec_y v) (vec_z v).

Definition player_entity (p : SimPlayer) : EntityState :=
  let facing := ch_facingYaw (sp_character p) in
  mkEntity (sp_entityId p) (entity_type_code PlayerEntity)
    (net_vec (ch_position (sp_character p)))
    (mkQuat f32_zero (f32_sin (- facing * f32_half)%f32) f32_zero (f32_cos (facing * f32_half)%f32))
    (net_vec (ch_velocity (sp_character p))) vec3_default (sp_lastInputSequence p).

(** [serverTimeMs] is left to the caller. *)
Definition buildSnapshot (s : Simulation) (out : Snapshot) : Snapshot :=
  mkSnapshot (sim_tick s) (sn_serverTimeMs out) (sim_timeOfDay s)
    (cube_entity s :: omap (fun id => player_entity <$> sim_players s !! id)
                        (map_keys (sim_players s))).

Definition playerCount (s : Simulation) : nat := size (sim_players s).

(** ** Inputs in any order *)

Definition newer (cur new : CharacterInput) : bool :=
  (ci_sequence new =? 0) || (ci_sequence cur <=? ci_sequence new).

(** What [setInput] does to the player it is for. *)
Definition take_input (input : CharacterInput) (p : SimPlayer) : SimPlayer :=
  if newer (sp_input p) input
  then mkSimPlayer (sp_entityId p) (sp_character p) input (sp_lastInputSequence p) else p.

Lemma set_players_self s : set_players (sim_players s) s = s.
Proof. by destruct s. Qed.

Lemma setInput_alter playerId input s :
  setInput playerId input s
  = set_players (alter (take_input input) playerId (sim_players s)) s.
Proof.
  unfold setInput. destruct (sim_players s !! playerId) as [p|] eqn:E.
  - assert (Ha : alter (take_input input) playerId (sim_players s)
                 = <[playerId := take_input input p]> (sim_players s)).
    { apply map_eq. intros k. rewrite lookup_alter, lookup_insert.
      destruct (decide (playerId = k)) as [<-|]; [by rewrite E|done]. }
    rewrite Ha. unfold take_input, newer. rewrite Z.leb_antisym. destruct (ci_sequence input =? 0); [done|]. cbn [negb andb orb].
    destruct (ci_sequence input <? ci_sequence (sp_input p)); cbn [negb]; [|done].
    by rewrite insert_id, set_players_self.
  - rewrite alter_id; [by rewrite set_players_self|]. intros x Hx. congruence.
Qed.

Lemma take_input_comm a b p :
  ci_sequence a <> 0 -> ci_sequence b <> 0 -> ci_sequence a <> ci_sequence b ->
  take_input a (take_input b p) = take_input b (take_input a p).
Proof.
  intros Ha Hb Hab. destruct p as [e c i l]. unfold take_input, newer. cbn [sp_input].
  rewrite (proj2 (Z.eqb_neq _ 0) Ha), (proj2 (Z.eqb_neq _ 0) Hb). cbn [orb].
  destruct (Z.leb_spec (ci_sequence i) (ci_sequence b)) as [L1|L1];
    destruct (Z.leb_spec (ci_sequence i) (ci_sequence a)) as [L2|L2];
    cbn [sp_input sp_entityId sp_character sp_lastInputSequence].
  - destruct (Z.leb_spec (ci_sequence a) (ci_sequence b));
      destruct (Z.leb_spec (ci_sequence b) (ci_sequence a)); try lia; reflexivity.
  - rewrite (proj2 (Z.leb_le _ _) L1), (proj2 (Z.leb_gt (ci_sequence b) (ci_sequence a)));
      [done|lia].
  - rewrite (proj2 (Z.leb_le _ _) L2), (proj2 (Z.leb_gt (ci_sequence a) (ci_sequence b)));
      [done|lia].
  - by rewrite (proj2 (Z.leb_gt _ _) L1), (proj2 (Z.leb_gt _ _) L2).
Qed.

(** Two inputs with different sequence numbers commute. *)
Lemma setInput_comm playerId a b s :
  ci_sequence a <> 0 -> ci_sequence b <> 0 -> ci_sequence a <> ci_sequence b ->
  setInput playerId a (setInput playerId b s) = setInput playerId b (setInput playerId a s).
Proof.
  intros Ha Hb Hab. rewrite !setInput_alter. unfold set_players. cbn [sim_players].
  f_equal. apply map_eq. intros k. rewrite !lookup_alter.
  destruct (decide (playerId = k)) as [<-|]; [|done].
  rewrite ?decide_True by done. destruct (sim_players s !! playerId) as [p|]; [|done].
  cbn. by rewrite take_input_comm.
Qed.

Definition setInputs (playerId : Z) (inputs : list CharacterInput) (s : Simulation) : Simulation :=
  foldl (fun s i => setInput playerId i s) s inputs.

(** Reordering by the network does not matter. For inputs with different
    non-zero sequence numbers, any order of arrival leaves the same state. *)
Theorem setInputs_permutation (playerId : Z) (l1 l2 : list CharacterInput) (s : Simulation)
    (Hperm : l1 ≡ₚ l2)
    (Hnz : Forall (fun i => ci_sequence i <> 0) l1)
    (Hdup : NoDup (ci_sequence <$> l1)) :
  setInputs playerId l1 s = setInputs playerId l2 s.
Proof.
  revert s Hnz Hdup. induction Hperm as [|x l1 l2 Hp IH|x y l|l1 l2 l3 Hp1 IH1 Hp2 IH2];
    intros s Hnz Hdup.
  - done.
  - apply Forall_cons in Hnz as [_ Hnz]. rewrite fmap_cons, NoDup_cons in Hdup.
    cbn [setInputs foldl]. apply IH; tauto.
  - rewrite !Forall_cons in Hnz. rewrite !fmap_cons, !NoDup_cons in Hdup.
    unfold setInputs. cbn [foldl]. f_equal. apply setInput_comm; [tauto|tauto|].
    intros E. apply (proj1 Hdup). rewrite E. left.
  - rewrite IH1 by done. apply IH2; [by rewrite <- Hp1|]. by rewrite <- Hp1.
Qed.

(** ** The players *)

(** Entity ids of players are unique, start above the scenery and have been
    given out already. *)
Definition sim_ok (s : Simulation) : Prop :=
  kFirstPlayerEntityId <= sim_nextPlayerEntityId s /\
  (forall id p, sim_players s !! id = Some p ->
     kFirstPlayerEntityId <= sp_entityId p < sim_nextPlayerEntityId s) /\
  (forall id1 id2 p1 p2, sim_players s !! id1 = Some p1 -> sim_players s !! id2 = Some p2 ->
     sp_entityId p1 = sp_entityId p2 -> id1 = id2).

Lemma addPlayer_ok playerId s :
  sim_ok s -> sim_nextPlayerEntityId s + 1 < 2 ^ 32 -> sim_ok (addPlayer playerId s).2.
Proof.
  unfold sim_ok, addPlayer. intros (H1 & H2 & H3) Hn.
  destruct (sim_players s !! playerId) as [p|] eqn:E; [done|].
  cbn [snd sim_nextPlayerEntityId sim_players]. unfold kFirstPlayerEntityId in *.
  rewrite wrap_id by (unfold fits; lia). split_and!.
  - lia.
  - intros id p [[<- <-]|[_ Hp]]%lookup_insert_Some; [simpl; lia|]. specialize (H2 id p Hp). lia.
  - intros id1 id2 p1 p2 [[<- <-]|[_ Hp1]]%lookup_insert_Some
      [[<- <-]|[_ Hp2]]%lookup_insert_Some Heq; simpl in Heq; try done.
    + specialize (H2 id2 p2 Hp2). lia.
    + specialize (H2 id1 p1 Hp1). lia.
    + by apply (H3 id1 id2 p1 p2).
Qed.

(** Operations that keep every remaining player's entity. *)
Definition same_entities (s s' : Simulation) : Prop :=
  sim_nextPlayerEntityId s' = sim_nextPlayerEntityId s /\
  forall id p', sim_players s' !! id = Some p' ->
    exists p, sim_players s !! id = Some p /\ sp_entityId p = sp_entityId p'.

Lemma same_entities_ok s s' : same_entities s s' -> sim_ok s -> sim_ok s'.
Proof.
  intros [Hn Hp] (H1 & H2 & H3). unfold sim_ok. rewrite Hn. split_and!; [done| |].
  - intros id p' E. destruct (Hp id p' E) as (p & Ep & <-). by apply (H2 id p).
  - intros id1 id2 p1 p2 E1 E2 Heq. destruct (Hp id1 p1 E1) as (q1 & Eq1 & Hq1).
    destruct (Hp id2 p2 E2) as (q2 & Eq2 & Hq2). apply (H3 id1 id2 q1 q2); congruence.
Qed.

Lemma removePlayer_same id s : same_entities s (removePlayer id s).
Proof. split; [done|]. cbn [removePlayer set_players sim_players].
  intros id' p' [_ E]%lookup_delete_Some. eauto. Qed.

Lemma setInput_same id input s : same_entities s (setInput id input s).
Proof.
  unfold setInput. destruct (sim_players s !! id) as [p|] eqn:E; [|by split; eauto].
  destruct (_ && _); [by split; eauto|]. split; [done|]. cbn [sim_players set_players].
  intros id' p' [[<- <-]|[_ E']]%lookup_insert_Some; eauto.
Qed.

Lemma step_players real dt s :
  sim_players (step real dt s) = step_player dt <$> sim_players s.
Proof. done. Qed.

Lemma step_same real dt s : same_entities s (step real dt s).
Proof.
  split; [done|]. intros id p'. rewrite step_players, lookup_fmap.
  destruct (sim_players s !! id) as [p|]; [|done]. intros [= <-]. eauto.
Qed.

(** Operations that keep the players present and their entities. *)
Definition same_bodies (s s' : Simulation) : Prop :=
  sim_nextPlayerEntityId s' = sim_nextPlayerEntityId s /\
  forall id, sp_entityId <$> sim_players s' !! id = sp_entityId <$> sim_players s !! id.

Lemma same_bodies_refl s : same_bodies s s.
Proof. done. Qed.

Lemma same_bodies_trans s1 s2 s3 : same_bodies s1 s2 -> same_bodies s2 s3 -> same_bodies s1 s3.
Proof. intros [H1 H2] [H3 H4]. split; [congruence|]. intros id. by rewrite H4. Qed.

Lemma same_bodies_is_Some s s' id :
  same_bodies s s' -> is_Some (sim_players s' !! id) <-> is_Some (sim_players s !! id).
Proof. intros [_ Hs]. rewrite <- !(fmap_is_Some sp_entityId). by rewrite Hs. Qed.

Lemma same_bodies_entities s s' : same_bodies s s' -> same_entities s s'.
Proof.
  intros [Hn Hs]. split; [done|]. intros id p' E. specialize (Hs id). rewrite E in Hs.
  destruct (sim_players s !! id) as [p|]; [|done]. injection Hs as Hs. eauto.
Qed.

Lemma setInput_bodies id input s : same_bodies s (setInput id input s).
Proof.
  rewrite setInput_alter. split; [done|]. intros id'. cbn [sim_players set_players].
  rewrite lookup_alter. destruct (decide (id = id')) as [->|]; [|done].
  destruct (sim_players s !! id') as [p|]; [|done]. cbn. unfold take_input.
  by destruct (newer (sp_input p) input).
Qed.

Lemma step_bodies real dt s : same_bodies s (step real dt s).
Proof.
  split; [done|]. intros id. rewrite step_players, lookup_fmap.
  by destruct (sim_players s !! id).
Qed.

(** What can happen to the players. *)
Inductive SimOp :=
| OpAdd (playerId : Z)
| OpRemove (playerId : Z)
| OpInput (playerId : Z) (input : CharacterInput)
| OpStep (real : double) (deltaSeconds : float).

Definition run_op (s : Simulation) (o : SimOp) : Simulation :=
  match o with
  | OpAdd id => (addPlayer id s).2
  | OpRemove id => removePlayer id s
  | OpInput id input => setInput id input s
  | OpStep real dt => step real dt s
  end.

Lemma run_op_next s o :
  sim_nextPlayerEntityId s + 1 < 2 ^ 32 -> 0 <= sim_nextPlayerEntityId s ->
  sim_nextPlayerEntityId s <= sim_nextPlayerEntityId (run_op s o)
    <= sim_nextPlayerEntityId s + 1.
Proof.
  intros Hn H0. destruct o as [id|id|id input|real dt]; cbn [run_op].
  - unfold addPlayer. destruct (sim_players s !! id); [cbn; lia|].
    cbn [snd sim_nextPlayerEntityId]. rewrite wrap_id by (unfold fits; lia). lia.
  - cbn. lia.
  - destruct (setInput_same id input s) as [-> _]. lia.
  - cbn. lia.
Qed.

(** Players never share a body. Along any sequence of joins, leaves, inputs
    and ticks (fewer than 2^32 - 1000 of them), the entity ids of the players
    present are pairwise different, never the scenery's, and never one that was
    used before. *)
Theorem entity_ids_unique (ops : list SimOp) (s : Simulation)
    (Hok : sim_ok s)
    (Hn : sim_nextPlayerEntityId s + Z.of_nat (length ops) < 2 ^ 32) :
  let s' := foldl run_op s ops in
  sim_ok s' /\
  (forall id p, sim_players s' !! id = Some p ->
     (exists p0, sim_players s !! id = Some p0 /\ sp_entityId p0 = sp_entityId p) \/
     sim_nextPlayerEntityId s <= sp_entityId p).
Proof.
  revert s Hok Hn. induction ops as [|o ops IH]; intros s Hok Hn; [by split; eauto|].
  cbn [length] in Hn. cbn [foldl].
  assert (H0 : 0 <= sim_nextPlayerEntityId s).
  { destruct Hok as [Hok _]. unfold kFirstPlayerEntityId in Hok. lia. }
  pose proof (run_op_next s o ltac:(lia) H0) as Hnext.
  assert (Hok' : sim_ok (run_op s o)).
  { destruct o as [id|id|id input|real dt]; cbn [run_op].
    - apply addPlayer_ok; [done|lia].
    - by eapply same_entities_ok, Hok; apply removePlayer_same.
    - by eapply same_entities_ok, Hok; apply setInput_same.
    - by eapply same_entities_ok, Hok; apply step_same. }
  destruct (IH (run_op s o) Hok' ltac:(lia)) as [H1 H2]. split; [done|].
  intros id p E. destruct (H2 id p E) as [(p0 & E0 & Hp)|Hge]; [|right; lia].
  assert (Hcase : (exists q, sim_players s !! id = Some q /\ sp_entityId q = sp_entityId p0) \/
                  sim_nextPlayerEntityId s <= sp_entityId p0).
  { destruct o as [pid|pid|pid input|real dt]; cbn [run_op] in E0.
    - unfold addPlayer in E0. destruct (sim_players s !! pid); [eauto|].
      cbn [snd sim_players] in E0. apply lookup_insert_Some in E0 as [[_ <-]|[_ E0]]; [right; simpl; lia|eauto].
    - left. by apply (removePlayer_same pid s).
    - left. by apply (setInput_same pid input s).
    - left. by apply (step_same real dt s). }
  rewrite <- Hp. exact Hcase.
Qed.

(** The rate passed to [init] is lost: [resetClock] sets it back to real time. *)
Lemma init_timeSpeed real secondsToday speed s :
  sim_timeSpeed (init real secondsToday speed s) = f32_one.
Proof. done. Qed.

(** ** The snapshot *)

Lemma snapshot_players_spec s e :
  e ∈ omap (fun id => player_entity <$> sim_players s !! id) (map_keys (sim_players s)) <->
  exists id p, sim_players s !! id = Some p /\ e = player_entity p.
Proof.
  rewrite list_elem_of_omap. split.
  - intros (id & _ & E). destruct (sim_players s !! id) as [p|] eqn:Ep; [|done].
    injection E as <-. eauto.
  - intros (id & p & E & ->). exists id. rewrite E. split; [|done].
    apply elem_of_map_keys. eauto.
Qed.

Lemma omap_ids_NoDup s ids :
  sim_ok s -> NoDup ids ->
  NoDup (es_id <$> omap (fun id => player_entity <$> sim_players s !! id) ids).
Proof.
  intros (_ & _ & Huniq) Hd. induction Hd as [|id ids Hid Hd IH]; [constructor|].
  cbn [omap list_omap]. destruct (sim_players s !! id) as [p|] eqn:E; [|done].
  cbn [fmap option_fmap option_map list_fmap list_omap]. constructor; [|exact IH].
  intros Hin. apply list_elem_of_fmap in Hin as (e & He & Hin).
  apply list_elem_of_omap in Hin as (id' & Hid' & E').
  destruct (sim_players s !! id') as [p'|] eqn:Ep'; [|done]. injection E' as <-.
  rewrite (Huniq id id' p p' E Ep' He) in Hid. done.
Qed.

Lemma omap_length_keys s ids :
  (forall id, id ∈ ids -> is_Some (sim_players s !! id)) ->
  length (omap (fun id => player_entity <$> sim_players s !! id) ids) = length ids.
Proof.
  induction ids as [|id ids IH]; intros Hin; [done|].
  destruct (Hin id) as [p E]; [left|]. cbn [omap list_omap]. rewrite E. cbn. f_equal.
  apply IH. intros id' Hid'. apply Hin. by right.
Qed.

(** A snapshot shows the cube and every player exactly once: one entity for
    each, no two with the same id, and a player's entity carries its position,
    its velocity and the sequence number of the last input applied to it. *)
Theorem buildSnapshot_spec (s : Simulation) (out : Snapshot) (Hok : sim_ok s) :
  let sn := buildSnapshot s out in
  sn_tick sn = sim_tick s /\ sn_timeOfDay sn = sim_timeOfDay s /\
  length (sn_entities sn) = S (playerCount s) /\
  NoDup (es_id <$> sn_entities sn) /\
  (forall e, e ∈ sn_entities sn <->
     e = cube_entity s \/ exists id p, sim_players s !! id = Some p /\ e = player_entity p) /\
  (forall id p, sim_players s !! id = Some p ->
     exists e, e ∈ sn_entities sn /\ es_id e = sp_entityId p /\
       es_position e = net_vec (ch_position (sp_character p)) /\
       es_velocity e = net_vec (ch_velocity (sp_character p)) /\
       es_lastInputSequence e = sp_lastInputSequence p).
Proof.
  cbv zeta. cbn [buildSnapshot sn_tick sn_timeOfDay sn_entities].
  split_and!; [done|done| | | |].
  - cbn [length]. f_equal. rewrite omap_length_keys.
    + unfold playerCount. apply length_map_keys.
    + intros id Hid. by apply elem_of_map_keys.
  - rewrite fmap_cons. constructor; [|by apply omap_ids_NoDup, NoDup_map_keys].
    intros Hin. apply list_elem_of_fmap in Hin as (e & He & Hin).
    apply snapshot_players_spec in Hin as (id & p & E & ->).
    destruct Hok as (_ & Hrange & _). specialize (Hrange id p E).
    cbn in He. unfold kCubeEntityId, kFirstPlayerEntityId in *. lia.
  - intros e. by rewrite elem_of_cons, snapshot_players_spec.
  - intros id p E. exists (player_entity p). split_and!; try done.
    right. apply snapshot_players_spec. eauto.
Qed.

(** A tick moves every player once and nothing else: the players present,
    their entities and the ids to come are the same; each character makes one
    step of the shared rule on the input it holds and rests on the ground or is
    above it; the input is acknowledged by its sequence number, and a jump in it
    is used up. *)
Theorem step_spec (real : double) (dt : float) (s : Simulation) :
  dom (sim_players (step real dt s)) = dom (sim_players s) /\
  sim_nextPlayerEntityId (step real dt s) = sim_nextPlayerEntityId s /\
  sim_tick (step real dt s) = u32 (sim_tick s + 1) /\
  forall id p, sim_players s !! id = Some p ->
    exists p', sim_players (step real dt s) !! id = Some p' /\
      sp_entityId p' = sp_entityId p /\
      sp_character p' = stepCharacter (sp_character p) (sp_input p) dt /\
      on_ground_wf (sp_character p') /\
      sp_lastInputSequence p' = ci_sequence (sp_input p) /\
      ci_jump (sp_input p') = false /\
      ci_sequence (sp_input p') = ci_sequence (sp_input p).
Proof.
  split_and!; [by rewrite step_players, dom_fmap_L|done|done|].
  intros id p E. exists (step_player dt p). rewrite step_players, lookup_fmap, E.
  split_and!; try done. cbn [step_player sp_character]. unfold on_ground_wf, stepCharacter.
  match goal with |- context [resolve_ground ?c] =>
    destruct (ch_grounded (resolve_ground c)) eqn:Eg end.
  - by apply resolve_ground_grounded.
  - by apply resolve_ground_airborne.
Qed.

End Simulation.

(** ** The theorems at concrete inputs *)

Definition input_of (sequence : Z) : CharacterInput :=
  {| ci_sequence := sequence; ci_moveForward := f32_one; ci_moveRight := f32_zero;
     ci_yaw := f32_zero; ci_jump := false; ci_sprint := false |}.

Definition two_players : Simulation :=
  foldl (run_op (H := axis_libm)) new_simulation [OpAdd 7; OpAdd 9].

Lemma two_players_ok : sim_ok two_players.
Proof.
  unfold two_players. cbn [foldl run_op].
  apply addPlayer_ok; [apply addPlayer_ok; [|vm_compute; done]|vm_compute; done].
  split_and!; [done| |]; intros ? ?; cbn; rewrite lookup_empty; done.
Qed.

Lemma setInputs_permutation_witness :
  setInputs 7 [input_of 4; input_of 5; input_of 6] two_players
  = setInputs 7 [input_of 6; input_of 4; input_of 5] two_players.
Proof.
  apply setInputs_permutation.
  - change [input_of 6; input_of 4; input_of 5] with ([input_of 6] ++ [input_of 4; input_of 5]).
    change [input_of 4; input_of 5; input_of 6] with ([input_of 4; input_of 5] ++ [input_of 6]).
    apply Permutation_app_comm.
  - by repeat constructor.
  - cbn. repeat constructor; set_solver.
Defined.

Lemma entity_ids_unique_witness :
  sim_ok (foldl (run_op (H := axis_libm)) two_players
    [OpRemove 7; OpAdd 7; OpInput 9 (input_of 4); OpAdd 11]).
Proof. refine (proj1 (entity_ids_unique _ two_players two_players_ok _)). vm_compute; done. Defined.

Lemma buildSnapshot_spec_witness :
  length (sn_entities (buildSnapshot (H := axis_libm) two_players snapshot_default)) = 3%nat.
Proof.
  refine (eq_trans (proj1 (proj2 (proj2 (buildSnapshot_spec (H := axis_libm) two_players
    snapshot_default two_players_ok)))) _).
  vm_compute; reflexivity.
Defined.
