(* ===== verification/Ticks.v ===== *)
(** * The arithmetic of the fixed timestep

    The accumulator of the main loop is a [double] from which ticks of a
    sixtieth of a second are taken. The lemmas bound what rounding can add to
    it, in units of 2^-58 (the last place of the tick's length). *)

From Stdlib Require Import ZArith Lia Floats.SpecFloat.
From stdpp Require Import base list option.
From S2P Require Import Prelude Float32 Protocol.

Open Scope Z_scope.

Definition tickSeconds : double := (f64_of_Z 1 / f64_of_Z kServerTickHz)%f64.
Definition max_backlog : double := lit64 25 100.

(** The tick and the cap as integers of these units. *)
Definition tick_units : Z := 4803839602528529.
Definition cap_units : Z := 2 ^ 56.

Lemma tickSeconds_value :
  tickSeconds = S754_finite false (Z.to_pos tick_units) (-58).
Proof. vm_compute. reflexivity. Qed.

Lemma max_backlog_value : max_backlog = S754_finite false (2 ^ 52)%positive (-54).
Proof. vm_compute. reflexivity. Qed.

Lemma f64_bounded_iff m e :
  bounded 53 1024 m e = true <->
  (2 ^ 52 <= Zpos m < 2 ^ 53 /\ -1074 <= e <= 971) \/ (Zpos m < 2 ^ 52 /\ e = -1074).
Proof.
  unfold bounded, canonical_mantissa, fexp, emin.
  rewrite digits2_pos_log2, andb_true_iff, Z.eqb_eq, Z.leb_le.
  set (l := Z.log2 (Zpos m)).
  assert (Hl : 0 <= l) by apply Z.log2_nonneg.
  pose proof (Z.log2_spec (Zpos m) ltac:(lia)) as [Hlo Hhi]. fold l in Hlo, Hhi.
  assert (H52 : 52 <= l <-> 2 ^ 52 <= Zpos m).
  { split; intros H.
    - etrans; [|apply Hlo]. apply Z.pow_le_mono_r; lia.
    - apply Z.log2_le_pow2; lia. }
  assert (H53 : l < 53 <-> Zpos m < 2 ^ 53).
  { symmetry. apply Z.log2_lt_pow2; lia. }
  lia.
Qed.

(** [upto n x]: [x] is zero, or positive and at most [n] units, with an
    exponent that makes its value a multiple of 2^-110; or it is negative or
    not a number, and no tick is taken from it. *)
Definition upto (n : Z) (x : double) : Prop :=
  match x with
  | S754_finite false m e =>
      bounded 53 1024 m e = true /\ (e < -110 \/ Zpos m * 2 ^ (e + 110) <= n * 2 ^ 52)
  | S754_infinity false => False
  | _ => True
  end.

(** A tick is due exactly when there are that many units. *)
Lemma tick_due_finite m e :
  bounded 53 1024 m e = true ->
  (tickSeconds <=? S754_finite false m e)%f64 = true <->
  -58 <= e /\ tick_units * 2 ^ 52 <= Zpos m * 2 ^ (e + 110).
Proof.
  intros Hb. apply f64_bounded_iff in Hb. rewrite tickSeconds_value.
  unfold SFleb. cbn [SFcompare]. 
  destruct (Z.compare_spec (-58) e) as [He|He|He].
  - subst e. change (-58 + 110) with 52.
    change (Pos.compare_cont Eq (Z.to_pos tick_units) m) with (Z.to_pos tick_units ?= m)%positive.
    destruct (Pos.compare_spec (Z.to_pos tick_units) m) as [Hc|Hc|Hc].
    + split; [intros _|done]. subst m. unfold tick_units. lia.
    + split; [intros _|done]. unfold tick_units in *. lia.
    + split; [done|]. unfold tick_units in *. lia.
  - split; [intros _|done]. split; [lia|].
    assert (2 ^ 53 <= 2 ^ (e + 110)) by (apply Z.pow_le_mono_r; lia).
    unfold tick_units. nia.
  - split; [done|]. lia.
Qed.

(** The difference of two numbers of units, rounded. *)
Lemma shr_1_m r : 0 <= shr_m r -> shr_m (shr_1 r) = shr_m r / 2.
Proof.
  destruct r as [[|p|p] r s]; cbn [shr_m]; intros Hr; [reflexivity| |lia].
  destruct p as [p|p|]; cbn [shr_1 shr_m].
  - rewrite Pos2Z.inj_xI, Z.mul_comm, Z.div_add_l by lia. change (1 / 2) with 0. lia.
  - rewrite Pos2Z.inj_xO, Z.mul_comm, Z.div_mul by lia. done.
  - reflexivity.
Qed.

(** Shifting right by up to three places. *)
Lemma shr_small_m m e n :
  0 <= m -> 1 <= n <= 3 ->
  shr_m (shr (shr_record_of_loc m loc_Exact) e n).1 = m / 2 ^ n /\
  (shr (shr_record_of_loc m loc_Exact) e n).2 = e + n.
Proof.
  intros Hm Hn.
  assert (H0 : forall r, 0 <= shr_m r -> 0 <= shr_m (shr_1 r)).
  { intros r Hr. rewrite shr_1_m by done. apply Z.div_pos; lia. }
  assert (n = 1 \/ n = 2 \/ n = 3) as [->|[->| ->]] by lia;
    cbn [shr fst snd SpecFloat.iter_pos]; (split; [|done]).
  - by rewrite shr_1_m by done.
  - rewrite !shr_1_m by auto. cbn [shr_m shr_record_of_loc]. by rewrite Z.div_div.
  - rewrite !shr_1_m by auto. cbn [shr_m shr_record_of_loc]. by rewrite !Z.div_div.
Qed.

Lemma round_nearest_even_bound m l : m <= round_nearest_even m l <= m + 1.
Proof. destruct l as [|[]]; cbn; try lia. destruct (Z.even m); lia. Qed.

(** The second step of the rounding, of a mantissa that may have become one bit
    too long. *)
Lemma round_carry rp n :
  2 ^ 52 <= Zpos rp <= 2 ^ 53 -> 1 <= n <= 3 ->
  exists m e,
    (let '(mrs, e'') := shr_fexp 53 1024 (Zpos rp) (-58 + n) loc_Exact in
     match shr_m mrs with
     | Z0 => S754_zero false
     | Zpos m => if e'' <=? 1024 - 53 then S754_finite false m e'' else S754_infinity false
     | _ => S754_nan
     end) = S754_finite false m e /\
    bounded 53 1024 m e = true /\ -110 <= e /\ Zpos m * 2 ^ (e + 110) = Zpos rp * 2 ^ n * 2 ^ 52.
Proof.
  intros Hrp Hn.
  assert (Hpow : 2 ^ (-58 + n + 110) = 2 ^ n * 2 ^ 52).
  { rewrite <- Z.pow_add_r by lia. f_equal. lia. }
  unfold shr_fexp. cbn [Zdigits2].
  destruct (decide (Zpos rp < 2 ^ 53)) as [Hr53|Hr53].
  - assert (Hb : bounded 53 1024 rp (-58 + n) = true) by (apply f64_bounded_iff; lia).
    assert (Hdr : Zpos (digits2_pos rp) = 53).
    { rewrite digits2_pos_log2, (Z.log2_unique (Zpos rp) 52); lia. }
    exists rp, (-58 + n). rewrite Hdr.
    replace (fexp 53 1024 (53 + (-58 + n)) - (-58 + n)) with 0 by (unfold fexp, emin; lia).
    cbn [shr shr_m shr_record_of_loc].
    rewrite (proj2 (Z.leb_le (-58 + n) (1024 - 53))) by lia.
    split_and!; [done|done|lia|]. rewrite Hpow. lia.
  - assert (Heq : rp = (2 ^ 53)%positive) by lia. subst rp.
    exists (2 ^ 52)%positive, (-57 + n).
    change (Zpos (digits2_pos (2 ^ 53))) with 54.
    replace (fexp 53 1024 (54 + (-58 + n)) - (-58 + n)) with 1 by (unfold fexp, emin; lia).
    cbn [shr SpecFloat.iter_pos].
    change (shr_m (shr_1 (shr_record_of_loc (Zpos (2 ^ 53)) loc_Exact))) with (Zpos (2 ^ 52)).
    cbv iota. rewrite (proj2 (Z.leb_le (-58 + n + 1) (1024 - 53))) by lia.
    replace (-58 + n + 1) with (-57 + n) by lia.
    split_and!; [done|apply f64_bounded_iff; lia|lia|].
    replace (-57 + n + 110) with (1 + (-58 + n + 110)) by lia.
    rewrite Z.pow_add_r, Hpow by lia. change (2 ^ 1) with 2. lia.
Qed.

(** A number of units of at most 56 bits, as a double: rounding adds at most
    eight units. *)
Lemma units_round_up D :
  Zpos D < 2 ^ 56 ->
  exists m e, binary_normalize 53 1024 (Zpos D) (-58) false = S754_finite false m e /\
    bounded 53 1024 m e = true /\ -110 <= e /\ Zpos m * 2 ^ (e + 110) <= (Zpos D + 8) * 2 ^ 52.
Proof.
  intros HD. pose proof (digits2_pos_log2 D) as Hd.
  pose proof (Z.log2_spec (Zpos D) ltac:(lia)) as [Hlo Hhi].
  assert (Hl0 : 0 <= Z.log2 (Zpos D)) by apply Z.log2_nonneg.
  assert (Hl : Z.log2 (Zpos D) < 56) by (apply Z.log2_lt_pow2; lia).
  destruct (decide (Zpos (digits2_pos D) <= 53)) as [Hs|Hs].
  - destruct (normalize_exact 53 1024 D (-58) Hs) as (m & e & H1 & H2 & H3 & H4 & H5);
      [unfold emin; lia|].
    exists m, e. assert (-110 <= e) by (unfold fexp, emin in H5; lia).
    split_and!; [done|done|done|]. rewrite H4, <- Z.mul_assoc, <- Z.pow_add_r by lia.
    replace (-58 - e + (e + 110)) with 52 by lia. lia.
  - unfold binary_normalize, binary_round.
    remember (Zpos (digits2_pos D) - 53) as n eqn:Hnd. assert (Hn : 1 <= n <= 3) by lia.
    assert (Hf : fexp 53 1024 (Zpos (digits2_pos D) + -58) = -58 + n) by (unfold fexp, emin; lia).
    rewrite Hf. unfold shl_align. replace (-58 + n - -58) with n by lia.
    destruct n as [|pn|pn]; [lia| |lia]. set (n := Zpos pn) in *. clearbody n.
    unfold binary_round_aux, shr_fexp. cbn [Zdigits2]. rewrite Hf.
    replace (-58 + n - -58) with n by lia.
    destruct (shr_small_m (Zpos D) (-58) n ltac:(lia) Hn) as [Hq He].
    destruct (shr (shr_record_of_loc (Zpos D) loc_Exact) (-58) n) as [mrs e'].
    cbn [fst snd] in Hq, He. subst e'. rewrite Hq.
    set (q := Zpos D / 2 ^ n) in *.
    pose proof (round_nearest_even_bound q (loc_of_shr_record mrs)) as Hr.
    set (r := round_nearest_even q (loc_of_shr_record mrs)) in *. clearbody r. clear Hq mrs.
    assert (Hp : 0 < 2 ^ n) by (apply Z.pow_pos_nonneg; lia).
    assert (Hqlo : 2 ^ 52 <= q).
    { apply Z.div_le_lower_bound; [lia|]. rewrite <- Z.pow_add_r by lia.
      etrans; [|exact Hlo]. apply Z.pow_le_mono_r; lia. }
    assert (Hqhi : q < 2 ^ 53).
    { apply Z.div_lt_upper_bound; [lia|]. rewrite <- Z.pow_add_r by lia.
      eapply Z.lt_le_trans; [exact Hhi|]. apply Z.pow_le_mono_r; lia. }
    assert (Hq2 : q * 2 ^ n <= Zpos D) by (rewrite Z.mul_comm; apply Z.mul_div_le; lia).
    assert (Hn8 : 2 ^ n <= 8) by (change 8 with (2 ^ 3); apply Z.pow_le_mono_r; lia).
    assert (Hval : r * 2 ^ n <= Zpos D + 8) by nia.
    destruct r as [|rp|rp]; [lia| |lia].
    destruct (round_carry rp n) as (m & e & H1 & H2 & H3 & H4); [lia|lia|].
    exists m, e. split_and!; [exact H1|done|done|]. nia.
Qed.

(** One tick less: what is left of [n] units, with at most eight more. *)
Lemma upto_sub n x :
  n <= cap_units -> upto n x -> (tickSeconds <=? x)%f64 = true ->
  upto (n - tick_units + 8) (x - tickSeconds)%f64.
Proof.
  intros Hcap Hx Hdue. destruct x as [s|s| |s m e];
    [by rewrite tickSeconds_value in Hdue| |done|].
  { destruct s; [|done]. by rewrite tickSeconds_value in Hdue. }
  destruct s; [rewrite tickSeconds_value in Hdue; discriminate Hdue|]. destruct Hx as [Hb Hx].
  apply (tick_due_finite m e Hb) in Hdue as [He Hge].
  destruct Hx as [|Hle]; [lia|].
  rewrite tickSeconds_value. cbn [SFsub]. rewrite Z.min_r by lia. cbn [cond_Zopp].
  rewrite !shl_align_value by lia. rewrite Z.sub_diag, Z.mul_1_r.
  assert (Hm : Zpos m * 2 ^ (e + 110) = Zpos m * 2 ^ (e - -58) * 2 ^ 52).
  { rewrite <- Z.mul_assoc, <- Z.pow_add_r by lia. do 2 f_equal. lia. }
  rewrite Hm in Hge, Hle. clear Hm. set (u := Zpos m * 2 ^ (e - -58)) in *. clearbody u.
  change (Zpos (Z.to_pos tick_units)) with tick_units.
  unfold cap_units in Hcap. unfold tick_units in *.
  destruct (u - 4803839602528529) as [|D|D] eqn:ED; [done| |lia].
  destruct (units_round_up D) as (m' & e' & -> & H1 & H2 & H3); [lia|].
  split; [done|]. right. lia.
Qed.

(** Too few units for a tick. *)
Lemma upto_not_due n x : n < tick_units -> upto n x -> (tickSeconds <=? x)%f64 = false.
Proof.
  intros Hn Hx. destruct x as [s|[]| |[] m e]; try done;
    try (by rewrite tickSeconds_value). destruct Hx as [Hb Hx]. apply not_true_iff_false. intros Hdue.
  apply (tick_due_finite m e Hb) in Hdue as [He Hge]. unfold tick_units in *. lia.
Qed.

(** The cap leaves at most a quarter of a second. *)
Lemma upto_capped x :
  valid_binary 53 1024 x = true ->
  upto cap_units (if (max_backlog <? x)%f64 then max_backlog else x).
Proof.
  intros Hv. rewrite max_backlog_value.
  assert (Hmax : upto cap_units (S754_finite false (2 ^ 52) (-54))).
  { split; [vm_compute; done|]. right. vm_compute. discriminate. }
  destruct (_ <? x)%f64 eqn:Ex; [done|].
  destruct x as [s|[]| |[] m e]; try done.
  cbn [valid_binary] in Hv. split; [done|]. pose proof Hv as Hm. apply f64_bounded_iff in Hm.
  unfold SFltb in Ex. cbn [SFcompare] in Ex.
  change (Pos.compare_cont Eq (2 ^ 52) m) with (2 ^ 52 ?= m)%positive in Ex.
  unfold cap_units. destruct (decide (e < -110)) as [|He]; [by left|right].
  destruct (Z.compare_spec (-54) e) as [Hc|Hc|Hc]; [|done|].
  - subst e. destruct (Pos.compare_spec (2 ^ 52) m) as [Hp|Hp|Hp]; [subst m; done|done|].
    assert (Zpos m < 2 ^ 52) by lia. change (2 ^ (-54 + 110)) with (2 ^ 56). lia.
  - assert (2 ^ (e + 110) <= 2 ^ 55) by (apply Z.pow_le_mono_r; lia).
    assert (0 < 2 ^ (e + 110)) by (apply Z.pow_pos_nonneg; lia). nia.
Qed.

(** ** Catching up

    The loop of the server and of the client: while a tick's time is in the
    accumulator, one tick is taken from it. *)

Section CatchUp.
Context {A : Type} (accumulator : A -> double) (one : A -> A) (loop : nat -> A -> A).
Hypothesis Hone : forall a, accumulator (one a) = (accumulator a - tickSeconds)%f64.
Hypothesis Hloop : forall fuel a,
  loop (S fuel) a = if (tickSeconds <=? accumulator a)%f64 then loop fuel (one a) else a.

Lemma catch_up_bound fuel : forall n a,
  n <= cap_units -> n < tick_units + Z.of_nat fuel * (tick_units - 8) ->
  upto n (accumulator a) ->
  exists k, (k <= fuel)%nat /\ loop (S fuel) a = Nat.iter k one a /\
    (tickSeconds <=? accumulator (loop (S fuel) a))%f64 = false.
Proof.
  induction fuel as [|fuel IH]; intros n a Hcap Hn Hu; rewrite Hloop.
  - rewrite (upto_not_due n) by (lia || done). exists 0%nat. cbn [Nat.iter].
    rewrite (upto_not_due n) by (lia || done). done.
  - destruct (tickSeconds <=? accumulator a)%f64 eqn:Hdue.
    + destruct (IH (n - tick_units + 8) (one a)) as (k & Hk & Heq & Hend).
      * unfold cap_units, tick_units in *. lia.
      * lia.
      * rewrite Hone. by apply upto_sub.
      * exists (S k). split; [lia|]. split; [|exact Hend].
        rewrite Heq. by rewrite Nat.iter_succ_r.
    + exists 0%nat. split_and!; [lia|done|done].
Qed.

(** Capped at a quarter of a second, the accumulator holds at most fifteen. *)
Lemma catch_up_capped x a :
  valid_binary 53 1024 x = true ->
  accumulator a = (if (max_backlog <? x)%f64 then max_backlog else x) ->
  exists k, (k <= 15)%nat /\ loop 16 a = Nat.iter k one a /\
    (tickSeconds <=? accumulator (loop 16 a))%f64 = false.
Proof.
  intros Hx Ha. apply (catch_up_bound 15 cap_units).
  - done.
  - vm_compute. reflexivity.
  - rewrite Ha. by apply upto_capped.
Qed.

End CatchUp.
