(* ===== verification/Console.v ===== *)
(** * The console's input queue and its words
    ([server/worldserver/src/console.cpp], [main.cpp])

    A background thread appends lines, the world's thread takes them off. The
    mutex makes each of the two one step: a run is an interleaving of them. *)

From Stdlib Require Import ZArith Lia Strings.Ascii Strings.String.
From stdpp Require Import base list option strings.
From S2P Require Import Prelude Config.

(** [mLines]. *)
Definition ConsoleInput := list string.

(** The body of the reading thread's loop. *)
Definition read_line (line : string) (q : ConsoleInput) : ConsoleInput := q ++ [line].

Definition next (q : ConsoleInput) : option string * ConsoleInput :=
  match q with
  | [] => (None, [])
  | line :: q' => (Some line, q')
  end.

Inductive ConsoleStep :=
| ReadLine (line : string)   (** the reading thread *)
| Next.                      (** the world's thread *)

(** The queue and the lines the world's thread has got. *)
Definition console_step (s : ConsoleInput * list string) (o : ConsoleStep)
    : ConsoleInput * list string :=
  match o with
  | ReadLine line => (read_line line s.1, s.2)
  | Next =>
      match next s.1 with
      | (Some line, q) => (q, s.2 ++ [line])
      | (None, q) => (q, s.2)
      end
  end.

Definition typed (os : list ConsoleStep) : list string :=
  omap (fun o => match o with ReadLine line => Some line | Next => None end) os.

Lemma console_run_spec os : forall s,
  (foldl console_step s os).2 ++ (foldl console_step s os).1 = s.2 ++ s.1 ++ typed os.
Proof.
  induction os as [|o os IH]; intros [q got]; cbn [foldl].
  - cbn. by rewrite app_nil_r.
  - rewrite IH. destruct o as [line|]; cbn [console_step fst snd].
    + unfold read_line. by rewrite <- app_assoc.
    + destruct q as [|l q]; cbn; [done|]. by rewrite <- app_assoc.
Qed.

(** No typed line is lost, repeated or reordered. However the thread that
    reads the terminal and the one that runs the world interleave, the lines the
    world has taken, followed by those still queued, are the lines typed. *)
Theorem console_fifo (os : list ConsoleStep) :
  let '(queued, got) := foldl console_step ([], []) os in
  got ++ queued = typed os.
Proof.
  pose proof (console_run_spec os ([], [])) as Hr.
  by destruct (foldl console_step ([], []) os) as [q got].
Qed.

(** ** Words *)

(** [while (stream >> word) words.push_back(word)]; [word] is what has been
    read of the current word. *)
Fixpoint split_words (word s : string) : list string :=
  match s with
  | EmptyString => if decide (word = EmptyString) then [] else [word]
  | String c s' =>
      if isspace c then
        if decide (word = EmptyString) then split_words EmptyString s'
        else word :: split_words EmptyString s'
      else split_words (word +:+ String c EmptyString) s'
  end.

Definition words (line : string) : list string := split_words EmptyString line.

Definition is_word (w : string) : Prop :=
  w <> EmptyString /\ forall c, c ∈ list_ascii_of_string w -> isspace c = false.

Lemma list_ascii_app a b :
  list_ascii_of_string (a +:+ b) = list_ascii_of_string a ++ list_ascii_of_string b.
Proof.
  induction a as [|c a IH]; [done|].
  change (c :: list_ascii_of_string (a +:+ b) = c :: list_ascii_of_string a ++
    list_ascii_of_string b). by rewrite IH.
Qed.

Lemma split_words_are_words s : forall word,
  (forall c, c ∈ list_ascii_of_string word -> isspace c = false) ->
  Forall is_word (split_words word s).
Proof.
  induction s as [|c s IH]; intros word Hw; cbn [split_words].
  - destruct (decide _); [constructor|]. by repeat constructor.
  - destruct (isspace c) eqn:Ec.
    + assert (Hnil : forall c, c ∈ list_ascii_of_string EmptyString -> isspace c = false).
      { intros c' Hc. by apply not_elem_of_nil in Hc. }
      destruct (decide _); [by apply IH|]. constructor; [done|by apply IH].
    + apply IH. intros c'. rewrite list_ascii_app, elem_of_app. intros [Hc|Hc]; [by apply Hw|].
      cbn in Hc. apply list_elem_of_singleton in Hc. by subst.
Qed.

Definition no_space (s : string) : list ascii :=
  filter (fun c => isspace c = false) (list_ascii_of_string s).

Lemma split_words_chars s : forall word,
  (forall c, c ∈ list_ascii_of_string word -> isspace c = false) ->
  mjoin (list_ascii_of_string <$> split_words word s)
  = list_ascii_of_string word ++ no_space s.
Proof.
  unfold no_space. induction s as [|c s IH]; intros word Hw; cbn [split_words].
  - destruct (decide _) as [->|]; [done|]. cbn. by rewrite app_nil_r.
  - cbn [list_ascii_of_string]. rewrite filter_cons.
    assert (Hnil : forall c, c ∈ list_ascii_of_string EmptyString -> isspace c = false).
    { intros c' Hc. by apply not_elem_of_nil in Hc. }
    destruct (isspace c) eqn:Ec.
    + rewrite (decide_False (P := true = false)) by done.
      destruct (decide (word = EmptyString)) as [->|]; [by apply IH|].
      cbn [fmap list_fmap mjoin list_join]. by rewrite IH.
    + rewrite (decide_True (P := false = false)) by done. rewrite IH.
      * rewrite list_ascii_app, <- app_assoc. done.
      * intros c'. rewrite list_ascii_app, elem_of_app. intros [Hc|Hc]; [by apply Hw|].
        cbn in Hc. apply list_elem_of_singleton in Hc. by subst.
Qed.

(** The words of a line: not empty, free of white space, and together all the
    other characters of the line in order. *)
Lemma words_spec line :
  Forall is_word (words line) /\
  mjoin (list_ascii_of_string <$> words line) = no_space line.
Proof.
  assert (Hnil : forall c, c ∈ list_ascii_of_string EmptyString -> isspace c = false).
  { intros c' Hc. by apply not_elem_of_nil in Hc. }
  split; [by apply split_words_are_words|by apply split_words_chars].
Qed.
