(* ===== verification/World.v ===== *)
(** * The world server's handlers ([server/worldserver/src/main.cpp])

    The state of the server: the players by connection and by id, the
    simulated link, and the two network components; and the handlers of TCP
    messages with the callbacks of their database lookups. The console
    (WorldConsole.v) and the main loop (WorldLoop.v) build on it. *)

From Stdlib Require Import ZArith Lia Strings.Byte Strings.Ascii Strings.String.
From Stdlib Require Import Floats.SpecFloat.
From stdpp Require Import base list option gmap strings.
From S2P Require Import Prelude Float32 Platform Config ByteStream Protocol Snapshot Framing.
From S2P Require Import Address Terrain Character Simulation TcpServer DbClient Outputs.
Import ByteWriter.

Open Scope Z_scope.

Abbreviation PlayerInput := CharacterInput (only parsing).

(** ** Data *)

Record WorldPlayer := mkPlayer {
  wp_playerId : Z;
  wp_accountId : Z;
  wp_username : string;
  wp_token : string;
  wp_connection : ConnectionId;
  wp_udpBound : bool;
  wp_udpAddress : Address;
  wp_outgoingSequence : Z;
  wp_lastUdpPacket : Z;
}.

Record DelayedPacket := mkDelayedPacket {
  dp_dueAt : double;
  dp_address : Address;
  dp_data : list byte;
}.

Record DelayedInput := mkDelayedInput {
  di_dueAt : double;
  di_playerId : Z;
  di_input : PlayerInput;
}.

(** The players: [playersByConnection], [connectionByPlayer], [nextPlayerId]. *)
Record Roster := mkRoster {
  ro_players : gmap ConnectionId WorldPlayer;
  ro_connections : gmap Z ConnectionId;
  ro_next : Z;
}.

(** The simulated link and the datagrams given to the UDP socket. *)
Record Link := mkLink {
  ln_latencyMs : Z;
  ln_inputs : list DelayedInput;
  ln_outgoing : list DelayedPacket;
  ln_sent : list (Address * list byte);
}.

(** What the console prints, a constructor for each text. *)
Inductive Printed :=
| PBanner | PPrompt | PHelp | PFailed | PNoSuchAccount | PLevelRange | PPasswordRejected
| PTimeFormat | PUsageTime | PUsageLatency | PUsageAccount
| PStatus (minutes : Z) (speed : float) (players tick latencyMs : Z)
| PLatency (latencyMs : Z)
| PAccountExists (name : string)
| PAccountCreated (name : string) (level : Z)
| PAccountDeleted (name : string)
| PAccountLevel (name : string) (level : Z)
| PUnknownCommand (command : string).

(** The closures passed to the database client. *)
Inductive WorldK : DbCall -> Type :=
| KJoin (id : ConnectionId) (token : string) : WorldK CallLookupSession
| KRedeemed : WorldK CallDeleteSession
| KSetLatency (id : ConnectionId) (milliseconds : Z) : WorldK CallLookupSession
| KWorldCommand (id : ConnectionId) (command : WorldMessage) (timeCommand : option TimeCommand)
    (value : float) : WorldK CallLookupSession
| KConsoleCreate (name : string) (level : Z) : WorldK CallCreateAccountWithLevel
| KConsoleDelete (name : string) : WorldK CallDeleteAccount
| KConsoleLevel (name : string) (level : Z) : WorldK CallSetPermissionLevel.

Record World (E : Type) := mkWorld {
  w_server : TcpServer;
  w_db : DbClient WorldK;
  w_env : E;
  w_simulation : Simulation;
  w_roster : Roster;
  w_link : Link;
  w_printed : list Printed;
  w_accumulator : double;
  w_previous : Z;
}.
Arguments mkWorld {E}.
Arguments w_server {E}.
Arguments w_db {E}.
Arguments w_env {E}.
Arguments w_simulation {E}.
Arguments w_roster {E}.
Arguments w_link {E}.
Arguments w_printed {E}.
Arguments w_accumulator {E}.
Arguments w_previous {E}.

Section Setters.
Context {E : Type}.

Definition set_env (e : E) (w : World E) : World E :=
  mkWorld (w_server w) (w_db w) e (w_simulation w) (w_roster w) (w_link w) (w_printed w)
    (w_accumulator w) (w_previous w).
Definition set_simulation (s : Simulation) (w : World E) : World E :=
  mkWorld (w_server w) (w_db w) (w_env w) s (w_roster w) (w_link w) (w_printed w)
    (w_accumulator w) (w_previous w).
Definition set_roster (r : Roster) (w : World E) : World E :=
  mkWorld (w_server w) (w_db w) (w_env w) (w_simulation w) r (w_link w) (w_printed w)
    (w_accumulator w) (w_previous w).
Definition set_link (l : Link) (w : World E) : World E :=
  mkWorld (w_server w) (w_db w) (w_env w) (w_simulation w) (w_roster w) l (w_printed w)
    (w_accumulator w) (w_previous w).
Definition set_timing (accumulator : double) (previous : Z) (w : World E) : World E :=
  mkWorld (w_server w) (w_db w) (w_env w) (w_simulation w) (w_roster w) (w_link w) (w_printed w)
    accumulator previous.

Definition print (p : Printed) (w : World E) : World E :=
  mkWorld (w_server w) (w_db w) (w_env w) (w_simulation w) (w_roster w) (w_link w)
    (w_printed w ++ [p]) (w_accumulator w) (w_previous w).

Definition set_latency (ms : Z) (w : World E) : World E :=
  let l := w_link w in set_link (mkLink ms (ln_inputs l) (ln_outgoing l) (ln_sent l)) w.

Global Instance world_has_server : HasServer (World E) :=
  {| server := w_server;
     set_server s w := mkWorld s (w_db w) (w_env w) (w_simulation w) (w_roster w) (w_link w)
                         (w_printed w) (w_accumulator w) (w_previous w);
     server_set s w := eq_refl |}.

Global Instance world_has_db : HasDbClient (World E) WorldK :=
  {| db := w_db;
     set_db d w := mkWorld (w_server w) d (w_env w) (w_simulation w) (w_roster w) (w_link w)
                     (w_printed w) (w_accumulator w) (w_previous w);
     db_set d w := eq_refl |}.

Global Instance world_server_with_db : ServerWithDb (World E) WorldK.
Proof. by split. Qed.

(** A reading of one of the clocks. *)
Definition read_clock {A} (read : E -> A * E) (w : World E) : A * World E :=
  let '(a, e) := read (w_env w) in (a, set_env e w).

End Setters.

(** [constantTimeEquals]: the differences of the characters, or-ed. *)
Fixpoint difference (a b : string) (acc : Z) : Z :=
  match a, b with
  | String x a', String y b' =>
      difference a' b' (Z.lor acc (Z.lxor (Z.of_N (N_of_ascii x)) (Z.of_N (N_of_ascii y))))
  | _, _ => acc
  end.

Definition constantTimeEquals (a b : string) : bool :=
  if negb (String.length a =? String.length b)%nat then false
  else difference a b 0 =? 0.

Definition join_payload (result : JoinResult) (playerId udpPort : Z) (username : string)
    (entityId : Z) : list byte :=
  w_u32 entityId (w_string username (w_u16 udpPort (w_u64 playerId
    (w_u8 (join_result_code result) [])))).

Section World.
Context {E : Type} `{HSod : Sodium E} `{HClk : Clocks E} `{HLibm : Libm}.
Variable udpPort : Z.

Abbreviation St := (World E).

Definition sendJoinResponse (id : ConnectionId) (result : JoinResult) (playerId port : Z)
    (username : string) (entityId : Z) : St -> St :=
  on_server (server_send id (world_message_code JoinResponse)
    (join_payload result playerId port username entityId)).

(** ** Players come and go *)

Definition removePlayer (id : ConnectionId) (w : St) : St :=
  let r := w_roster w in
  match ro_players r !! id with
  | None => w
  | Some p =>
      set_roster (mkRoster (delete id (ro_players r)) (delete (wp_playerId p) (ro_connections r))
                    (ro_next r))
        (set_simulation (Simulation.removePlayer (wp_playerId p) (w_simulation w)) w)
  end.

Definition onDisconnect (id : ConnectionId) : St -> St := removePlayer id.

(** ** World commands of game masters *)

Definition reply_latency (id : ConnectionId) (result : Z) (w : St) : St :=
  on_server (server_send id (world_message_code AdminSetLatencyResponse)
    (w_u32 (ln_latencyMs (w_link w)) (w_u8 result []))) w.

Definition command_response (command : WorldMessage) : WorldMessage :=
  if bool_decide (command = AdminSetTimeRequest) then AdminSetTimeResponse
  else AdminStatusResponse.

Definition reply_world (id : ConnectionId) (responseType : WorldMessage) (result : Z) (w : St)
    : St :=
  let s := w_simulation w in
  let payload := w_f32 (sim_timeSpeed s) (w_f32 (sim_timeOfDay s) (w_u8 result [])) in
  let payload :=
    if bool_decide (responseType = AdminStatusResponse) then
      w_u32 (ln_latencyMs (w_link w)) (w_u32 (sim_tick s)
        (w_u16 (u16 (Z.of_nat (playerCount s))) payload))
    else payload in
  on_server (server_send id (world_message_code responseType) payload) w.

Definition onSetLatency (id : ConnectionId) (milliseconds : Z) (ok : bool)
    (session : SessionLookup) (w : St) : St :=
  if negb ok || negb (sl_found session) then reply_latency id 1 w
  else if sl_permissionLevel session <? permission_code GameMaster then reply_latency id 2 w
  else reply_latency id 0 (set_latency (Z.min milliseconds 2000) w).

Definition reset_clock (w : St) : St :=
  let '(today, w) := read_clock secondsToday w in
  let '(real, w) := read_clock realSeconds w in
  set_simulation (resetClock real today (w_simulation w)) w.

Definition set_time_speed (speed : float) (w : St) : St :=
  let '(real, w) := read_clock realSeconds w in
  set_simulation (setTimeSpeed real speed (w_simulation w)) w.

Definition set_time_of_day (timeOfDay : float) (w : St) : St :=
  let '(real, w) := read_clock realSeconds w in
  set_simulation (setTimeOfDay real timeOfDay (w_simulation w)) w.

Definition clamp_speed (value : float) : float := clamp value f32_zero (f32_of_Z 20000).

(** [None] is a byte outside the enumeration, which the [switch] treats as
    [Set]. *)
Definition apply_time_command (timeCommand : option TimeCommand) (value : float) (w : St) : St :=
  match timeCommand with
  | Some TimeReset => reset_clock w
  | Some TimeSpeed => set_time_speed (clamp_speed value) w
  | Some TimeSet | None => set_time_of_day value w
  end.

Definition onWorldCommand (id : ConnectionId) (command : WorldMessage)
    (timeCommand : option TimeCommand) (value : float) (ok : bool) (session : SessionLookup)
    (w : St) : St :=
  let responseType := command_response command in
  if negb ok || negb (sl_found session) then reply_world id responseType 1 w
  else if sl_permissionLevel session <? permission_code GameMaster then
    reply_world id responseType 2 w
  else
    let w :=
      if bool_decide (command = AdminSetTimeRequest) then apply_time_command timeCommand value w
      else w in
    reply_world id responseType 0 w.

(** ** The callbacks *)

Definition prompted (p : Printed) (w : St) : St := print PPrompt (print p w).

Definition onConsoleCreated (name : string) (level : Z) (ok : bool) (result : option DbResult)
    (w : St) : St :=
  if negb ok || bool_decide (result = Some DbError) then prompted PFailed w
  else if bool_decide (result = Some DbConflict) then prompted (PAccountExists name) w
  else prompted (PAccountCreated name level) w.

(** The callbacks of [account delete] and [account level]. *)
Definition onConsoleDone (done_text : Printed) (ok : bool) (result : option DbResult) (w : St)
    : St :=
  if negb ok then prompted PFailed w
  else if bool_decide (result = Some DbNotFound) then prompted PNoSuchAccount w
  else prompted done_text w.

Definition final_callback : DbCallbacks St WorldK := fun c k =>
  match k in WorldK c return bool -> Reply c -> St -> St with
  | KRedeemed => fun _ _ w => w
  | KSetLatency id milliseconds => fun ok session => onSetLatency id milliseconds ok session
  | KWorldCommand id command timeCommand value => fun ok session =>
      onWorldCommand id command timeCommand value ok session
  | KConsoleCreate name level => fun ok r => onConsoleCreated name level ok r.1
  | KConsoleDelete name => fun ok result => onConsoleDone (PAccountDeleted name) ok result
  | KConsoleLevel name level => fun ok result => onConsoleDone (PAccountLevel name level) ok result
  | _ => fun _ _ w => w
  end.

(** A player enters: [emplace] keeps a player the connection already has. *)
Definition enter (id : ConnectionId) (token : string) (session : SessionLookup) (w : St)
    : Z * Z * St :=
  let r := w_roster w in
  let playerId := ro_next r in
  let '(now, w) := read_clock steady_now w in
  let player := mkPlayer playerId (sl_accountId session) (sl_username session) token id false
                  default_address 0 now in
  let w := set_roster
    (mkRoster
       (match ro_players r !! id with
        | Some _ => ro_players r
        | None => <[id := player]> (ro_players r)
        end)
       (<[playerId := id]> (ro_connections r)) (u64 (playerId + 1))) w in
  let '(entityId, s) := addPlayer playerId (w_simulation w) in
  (playerId, entityId, set_simulation s w).

Definition onJoinLookup (id : ConnectionId) (token : string) (ok : bool)
    (session : SessionLookup) (w : St) : St :=
  if negb ok then sendJoinResponse id JoinServerError 0 0 "" 0 w
  else if negb (sl_found session) then sendJoinResponse id InvalidSession 0 0 "" 0 w
  else
    let '(playerId, entityId, w) := enter id token session w in
    let w := sendJoinResponse id JoinSuccess playerId udpPort (sl_username session) entityId w in
    deleteSession (CB := final_callback) token KRedeemed w.

Global Instance callback : DbCallbacks St WorldK := fun c k =>
  match k in WorldK c return bool -> Reply c -> St -> St with
  | KJoin id token => fun ok session => onJoinLookup id token ok session
  | k => final_callback _ k
  end.

(** ** The message handler *)

Definition handleJoin (id : ConnectionId) (r : ByteReader) (w : St) : St :=
  let '(version, r) := r_u32 r in
  let '(token, r) := r_string r in
  if failed r then sendJoinResponse id JoinServerError 0 0 "" 0 w
  else if negb (version =? kProtocolVersion) then
    sendJoinResponse id JoinVersionMismatch 0 0 "" 0 w
  else if bool_decide (is_Some (ro_players (w_roster w) !! id)) then w
  else lookupSession token (KJoin id token) w.

Definition handleSetLatency (id : ConnectionId) (r : ByteReader) (w : St) : St :=
  let '(token, r) := r_string r in
  let '(milliseconds, r) := r_u32 r in
  if failed r then reply_latency id 1 w
  else lookupSession token (KSetLatency id milliseconds) w.

Definition handleWorldCommand (command : WorldMessage) (id : ConnectionId) (r : ByteReader)
    (w : St) : St :=
  let '(token, r) := r_string r in
  let '(timeCommand, r) :=
    if bool_decide (command = AdminSetTimeRequest) then
      let '(c, r) := r_u8 r in (time_command_of c, r)
    else (Some TimeSet, r) in
  let '(value, r) :=
    if bool_decide (command = AdminSetTimeRequest) then r_f32 r else (f32_zero, r) in
  if failed r then reply_world id (command_response command) 1 w
  else lookupSession token (KWorldCommand id command timeCommand value) w.

Definition handleLogout (id : ConnectionId) (w : St) : St :=
  removePlayer id (on_server (server_send id (world_message_code LogoutResponse) []) w).

Definition onMessage (id : ConnectionId) (type : Z) (data : list byte) (w : St) : St :=
  let r := open_reader data in
  match world_message_of type with
  | Some JoinRequest => handleJoin id r w
  | Some AdminSetLatencyRequest => handleSetLatency id r w
  | Some AdminSetTimeRequest => handleWorldCommand AdminSetTimeRequest id r w
  | Some AdminStatusRequest => handleWorldCommand AdminStatusRequest id r w
  | Some LogoutRequest => handleLogout id w
  | _ => w
  end.

End World.
