(* ===== verification/WorldConsole.v ===== *)
(** * The operator's console ([runConsoleCommand] in
    [server/worldserver/src/main.cpp])

    Commands typed at the terminal of the world server, run on the world's own
    thread. [get ws i] is [words[i]], used where the guards make the index
    valid. *)

From Stdlib Require Import ZArith Lia Strings.Byte Strings.Ascii Strings.String.
From Stdlib Require Import Floats.SpecFloat.
From stdpp Require Import base list option gmap strings.
From S2P Require Import Prelude Float32 Platform Config Text ByteStream Protocol Snapshot Framing.
From S2P Require Import Address Terrain Character Simulation TcpServer DbClient Outputs Console.
From S2P Require Import World.

Open Scope Z_scope.

Definition get (ws : list string) (i : nat) : string := nth i ws EmptyString.

Section WorldConsole.
Context {E : Type} `{HSod : Sodium E} `{HClk : Clocks E} `{HLibm : Libm} `{HAtof : Atof}.
Variable udpPort : Z.

Abbreviation St := (World E).

#[local] Instance world_callback : DbCallbacks St WorldK := World.callback udpPort.

(** [static_cast<int>(timeOfDay * 24.0f * 60.0f + 0.5f) % (24 * 60)]. *)
Definition clock_minutes (timeOfDay : float) : Z :=
  Z.rem (int32_of_f32 (timeOfDay * f32_of_Z 24 * f32_of_Z 60 + lit32 1 2)%f32) 1440.

Definition printStatus (w : St) : St :=
  let s := w_simulation w in
  print (PStatus (clock_minutes (sim_timeOfDay s)) (sim_timeSpeed s) (Z.of_nat (playerCount s))
           (sim_tick s) (ln_latencyMs (w_link w))) w.

Definition consoleLatency (ws : list string) (w : St) : St :=
  if (3 <=? length ws)%nat && bool_decide (get ws 1 = "set"%string) then
    let ms := Z.min (u32 (atoi (c_str (get ws 2)))) 2000 in
    print (PLatency ms) (set_latency ms w)
  else print PUsageLatency w.

Definition console_time_of_day (hours mins : Z) : float :=
  (f32_of_Z (hours * 60 + mins) / (f32_of_Z 24 * f32_of_Z 60))%f32.

Definition consoleTimeSet (text : string) (w : St) : St :=
  match split_at ":"%char text with
  | None => print PTimeFormat w
  | Some (before, after) =>
      let hours := atoi (c_str before) in
      let mins := atoi (c_str after) in
      if (hours <? 0) || (23 <? hours) || (mins <? 0) || (59 <? mins) then print PTimeFormat w
      else printStatus (set_time_of_day (console_time_of_day hours mins) w)
  end.

Definition consoleTime (ws : list string) (w : St) : St :=
  if (length ws =? 1)%nat then printStatus w
  else if bool_decide (get ws 1 = "reset"%string) then printStatus (reset_clock w)
  else if bool_decide (get ws 1 = "set"%string) && (3 <=? length ws)%nat then
    consoleTimeSet (get ws 2) w
  else if bool_decide (get ws 1 = "speed"%string) && (3 <=? length ws)%nat then
    printStatus (set_time_speed (clamp_speed (f32_of_f64 (atof (c_str (get ws 2))))) w)
  else print PUsageTime w.

Definition hashPassword (password : string) (w : St) : option string * St :=
  let '(hashed, e) := crypto_pwhash_str password (w_env w) in (hashed, set_env e w).

Definition consoleAccountCreate (ws : list string) (w : St) : St :=
  let level := if (5 <=? length ws)%nat then u8 (atoi (c_str (get ws 4))) else 0 in
  if (String.length (get ws 3) <? 6)%nat then prompted PPasswordRejected w
  else
    let '(hashed, w) := hashPassword (get ws 3) w in
    match hashed with
    | None => prompted PPasswordRejected w
    | Some hashed =>
        createAccountWithLevel (get ws 2) hashed level (KConsoleCreate (get ws 2) level) w
    end.

Definition consoleAccountLevel (ws : list string) (w : St) : St :=
  let level := u8 (atoi (c_str (get ws 3))) in
  if permission_code Admin <? level then prompted PLevelRange w
  else setPermissionLevel (get ws 2) level (KConsoleLevel (get ws 2) level) w.

Definition consoleAccount (ws : list string) (w : St) : St :=
  if (4 <=? length ws)%nat && bool_decide (get ws 1 = "create"%string) then
    consoleAccountCreate ws w
  else if (3 <=? length ws)%nat && bool_decide (get ws 1 = "delete"%string) then
    deleteAccount (get ws 2) (KConsoleDelete (get ws 2)) w
  else if (4 <=? length ws)%nat && bool_decide (get ws 1 = "level"%string) then
    consoleAccountLevel ws w
  else prompted PUsageAccount w.

Definition runConsoleCommand (line : string) (w : St) : St :=
  match words line with
  | [] => print PPrompt w
  | (command :: _) as ws =>
      if bool_decide (command = "help"%string) || bool_decide (command = "?"%string) then
        prompted PHelp w
      else if bool_decide (command = "status"%string) then print PPrompt (printStatus w)
      else if bool_decide (command = "latency"%string) then print PPrompt (consoleLatency ws w)
      else if bool_decide (command = "time"%string) then print PPrompt (consoleTime ws w)
      else if bool_decide (command = "account"%string) then consoleAccount ws w
      else prompted (PUnknownCommand command) w
  end.

(** ** The loop over the queue *)

Definition run_lines (lines : list string) (w : St) : St :=
  foldl (fun w line => runConsoleCommand line w) w lines.

(** ** Setting the clock and reading it *)

Definition clock_text (hours mins : Z) : string :=
  to_string hours +:+ String ":" (to_string mins).

(** What is said of each minute of the day, by trying all of them. *)
Lemma every_minute (P : Z -> Z -> bool) hours mins :
  forallb (fun n => P (n / 60) (n mod 60)) (seqZ 0 1440) = true ->
  0 <= hours < 24 -> 0 <= mins < 60 -> P hours mins = true.
Proof.
  intros Hall Hh Hm. rewrite forallb_forall in Hall. specialize (Hall (hours * 60 + mins)).
  rewrite Z.div_add_l, (Z.div_small mins 60), Z.add_0_r in Hall by lia.
  replace ((hours * 60 + mins) mod 60) with mins in Hall
    by (rewrite Z.add_comm, Z_mod_plus_full, Z.mod_small; lia).
  apply Hall, list_elem_of_In, elem_of_seqZ. lia.
Qed.

(** Every minute of the day survives the division into a float and back. *)
Lemma clock_minutes_roundtrip hours mins :
  0 <= hours < 24 -> 0 <= mins < 60 ->
  clock_minutes (wrap_day (console_time_of_day hours mins)) = hours * 60 + mins.
Proof.
  intros Hh Hm. apply Z.eqb_eq.
  apply (every_minute (fun h m => clock_minutes (wrap_day (console_time_of_day h m)) =? h * 60 + m));
    [|done..].
  vm_compute. reflexivity.
Qed.

Lemma no_colon :
  forallb (fun n => bool_decide (":"%char ∉ list_ascii_of_string (to_string n))) (seqZ 0 60) = true.
Proof. vm_compute. reflexivity. Qed.

Lemma clock_text_splits hours mins :
  0 <= hours < 60 -> split_at ":" (clock_text hours mins) = Some (to_string hours, to_string mins).
Proof.
  intros Hh. apply split_at_app. pose proof no_colon as Hall. rewrite forallb_forall in Hall.
  eapply bool_decide_eq_true_1, Hall, list_elem_of_In, elem_of_seqZ. lia.
Qed.

(** The clock set at the console is the clock it shows. For every hour and
    minute of the day, [time set HH:MM] prints a status with that same hour and
    minute: neither the division into a fraction of the day, nor the wrapping, nor
    the rounding back to minutes moves it. *)
Theorem console_clock_roundtrip (hours mins : Z) (w : St)
    (Hh : 0 <= hours < 24) (Hm : 0 <= mins < 60) :
  let w' := consoleTime ["time"; "set"; clock_text hours mins]%string w in
  let s := w_simulation w in
  w_printed w' = w_printed w ++
    [PStatus (hours * 60 + mins) (sim_timeSpeed s) (Z.of_nat (playerCount s)) (sim_tick s)
       (ln_latencyMs (w_link w))].
Proof.
  cbv zeta. unfold consoleTime. cbn [length Nat.eqb get nth].
  rewrite bool_decide_eq_false_2, bool_decide_eq_true_2 by done. cbn [Nat.leb andb].
  unfold consoleTimeSet. rewrite clock_text_splits by lia.
  rewrite !c_str_to_string, !atoi_to_string by lia.
  rewrite (proj2 (Z.ltb_ge hours 0)), (proj2 (Z.ltb_ge 23 hours)), (proj2 (Z.ltb_ge mins 0)),
    (proj2 (Z.ltb_ge 59 mins)) by lia. cbn [orb].
  unfold set_time_of_day, read_clock. destruct (realSeconds (w_env w)) as [real e].
  cbn [printStatus print w_printed set_simulation set_env w_simulation w_link].
  change (sim_timeOfDay (setTimeOfDay real (console_time_of_day hours mins) (w_simulation w)))
    with (wrap_day (console_time_of_day hours mins)).
  by rewrite clock_minutes_roundtrip.
Qed.

End WorldConsole.
