(* ===== verification/WorldLoop.v ===== *)
(** * The world server's main loop ([server/worldserver/src/main.cpp])

    The UDP side (hellos and inputs in, snapshots out), the fixed-timestep
    ticks, the simulated link and the timeouts, composed into one turn of the
    loop, and the server as a transition system whose runs the turns are. *)

From Stdlib Require Import ZArith Lia Strings.Byte Strings.Ascii Strings.String.
From Stdlib Require Import Floats.SpecFloat.
From stdpp Require Import base list option gmap strings.
From S2P Require Import Prelude Float32 Platform Config ByteStream Protocol Snapshot Framing.
From S2P Require Import Address Terrain Character Simulation Ticks TcpServer DbClient Outputs.
From S2P Require Import Console World WorldConsole.

Open Scope Z_scope.

Definition datagram_size : nat := 2048.

(** [monotonicSeconds() + simulatedLatencyMs / 1000.0]. *)
Definition due_at (now : Z) (latencyMs : Z) : double :=
  (seconds_of_nanos now + f64_of_Z latencyMs / f64_of_Z 1000)%f64.

(** The size of a datagram's body is what is left of it. *)
Definition read_hello : Reader (Z * string) :=
  (playerId <-- r_u64 ;; token <-- r_string ;; rret (playerId, token))%reader.

Definition read_input : Reader (Z * PlayerInput) :=
  (claimedId <-- r_u64 ;;
   sequence <-- r_u32 ;;
   forward <-- r_f32 ;;
   right <-- r_f32 ;;
   yaw <-- r_f32 ;;
   buttons <-- r_u8 ;;
   rret (claimedId,
     {| ci_sequence := sequence;
        ci_moveForward := clamp forward (- f32_one)%f32 f32_one;
        ci_moveRight := clamp right (- f32_one)%f32 f32_one;
        ci_yaw := yaw;
        ci_jump := negb (Z.land buttons kInputJump =? 0);
        ci_sprint := negb (Z.land buttons kInputSprint =? 0) |}))%reader.

Definition bind_udp (from : Address) (now : Z) (p : WorldPlayer) : WorldPlayer :=
  mkPlayer (wp_playerId p) (wp_accountId p) (wp_username p) (wp_token p) (wp_connection p) true
    from (wp_outgoingSequence p) now.

Definition touch_udp (now : Z) (p : WorldPlayer) : WorldPlayer :=
  mkPlayer (wp_playerId p) (wp_accountId p) (wp_username p) (wp_token p) (wp_connection p)
    (wp_udpBound p) (wp_udpAddress p) (wp_outgoingSequence p) now.

Definition count_packet (p : WorldPlayer) : WorldPlayer :=
  mkPlayer (wp_playerId p) (wp_accountId p) (wp_username p) (wp_token p) (wp_connection p)
    (wp_udpBound p) (wp_udpAddress p) (u32 (wp_outgoingSequence p + 1)) (wp_lastUdpPacket p).

(** The first player, in the order of the connections, bound to [from]. *)
Definition findPlayerByUdp (from : Address) (players : gmap ConnectionId WorldPlayer)
    : option (ConnectionId * WorldPlayer) :=
  head (omap (fun id =>
          match players !! id with
          | Some p => if wp_udpBound p && address_eqb (wp_udpAddress p) from then Some (id, p) else None
          | None => None
          end) (map_keys players)).

Section WorldLoop.
Context {E : Type} `{HSod : Sodium E} `{HClk : Clocks E} `{HLibm : Libm} `{HAtof : Atof}.
Variable udpPort : Z.
Variable udpTimeoutSeconds : Z.

Abbreviation St := (World E).

#[local] Instance loop_callback : DbCallbacks St WorldK := World.callback udpPort.

Definition update_player (f : WorldPlayer -> WorldPlayer) (id : ConnectionId) (w : St) : St :=
  let r := w_roster w in
  set_roster (mkRoster (alter f id (ro_players r)) (ro_connections r) (ro_next r)) w.

(** ** Inbound datagrams *)

Definition handleHello (from : Address) (data : list byte) (w : St) : St :=
  let '((playerId, token), body) := read_hello (open_reader data) in
  if failed body then w
  else
    match ro_connections (w_roster w) !! playerId with
    | None => w
    | Some connection =>
        match ro_players (w_roster w) !! connection with
        | None => w
        | Some p =>
            if negb (constantTimeEquals (wp_token p) token) then w
            else
              let '(now, w) := read_clock steady_now w in
              update_player (bind_udp from now) connection w
        end
    end.

Definition push_input (i : DelayedInput) (w : St) : St :=
  let l := w_link w in
  set_link (mkLink (ln_latencyMs l) (ln_inputs l ++ [i]) (ln_outgoing l) (ln_sent l)) w.

Definition handleInput (p : WorldPlayer) (data : list byte) (w : St) : St :=
  let '((claimedId, input), body) := read_input (open_reader data) in
  if failed body || negb (claimedId =? wp_playerId p) then w
  else if 0 <? ln_latencyMs (w_link w) then
    let '(now, w) := read_clock steady_now w in
    push_input (mkDelayedInput (due_at now (ln_latencyMs (w_link w))) (wp_playerId p) input) w
  else set_simulation (setInput (wp_playerId p) input (w_simulation w)) w.

Definition handleDatagram (from : Address) (data : list byte) (w : St) : St :=
  match readUdpHeader data with
  | None => w
  | Some (header, bodyOffset) =>
      let body := drop bodyOffset data in
      if bool_decide (world_message_of (uh_type header) = Some ClientHello) then
        handleHello from body w
      else
        match findPlayerByUdp from (ro_players (w_roster w)) with
        | None => w
        | Some (id, p) =>
            let '(now, w) := read_clock steady_now w in
            let w := update_player (touch_udp now) id w in
            if bool_decide (world_message_of (uh_type header) = Some ClientInput) then
              handleInput p body w
            else w
        end
  end.

(** What [receiveFrom] delivers, in turn; an empty datagram ends the loop as
    an empty queue does. *)
Fixpoint drain_udp (datagrams : list (Address * list byte)) (w : St) : St :=
  match datagrams with
  | [] => w
  | (from, data) :: rest =>
      match data with
      | [] => w
      | _ => drain_udp rest (handleDatagram from (take datagram_size data) w)
      end
  end.

(** ** Ticks *)

Definition push_packet (packet : DelayedPacket) (w : St) : St :=
  let l := w_link w in
  set_link (mkLink (ln_latencyMs l) (ln_inputs l) (ln_outgoing l ++ [packet]) (ln_sent l)) w.

Definition udp_send (to : Address) (data : list byte) (w : St) : St :=
  let l := w_link w in
  set_link (mkLink (ln_latencyMs l) (ln_inputs l) (ln_outgoing l) (ln_sent l ++ [(to, data)])) w.

Definition snapshot_packet (sequence : Z) (body : list byte) : list byte :=
  writeUdpHeader [] (world_message_code SnapshotMessage) sequence ++ body.

Definition send_snapshot (body : list byte) (w : St) (id : ConnectionId) : St :=
  match ro_players (w_roster w) !! id with
  | None => w
  | Some p =>
      if negb (wp_udpBound p) then w
      else
        let packet := snapshot_packet (wp_outgoingSequence p) body in
        let w := update_player count_packet id w in
        if 0 <? ln_latencyMs (w_link w) then
          let '(now, w) := read_clock steady_now w in
          push_packet (mkDelayedPacket (due_at now (ln_latencyMs (w_link w))) (wp_udpAddress p)
                         packet) w
        else udp_send (wp_udpAddress p) packet w
  end.

Definition tick (w : St) : St :=
  let '(real, w) := read_clock realSeconds w in
  let w := set_simulation (step real (f32_of_f64 tickSeconds) (w_simulation w)) w in
  let snapshot := buildSnapshot (w_simulation w) snapshot_default in
  let '(now, w) := read_clock steady_now w in
  let snapshot := mkSnapshot (sn_tick snapshot) (millis_of_nanos now) (sn_timeOfDay snapshot)
                    (sn_entities snapshot) in
  foldl (send_snapshot (encodeSnapshot snapshot [])) w (map_keys (ro_players (w_roster w))).

(** The accumulator after the time since the last turn, capped. *)
Definition accumulate (now : Z) (w : St) : St :=
  let accumulator := (w_accumulator w + seconds_of_nanos (now - w_previous w))%f64 in
  set_timing (if (max_backlog <? accumulator)%f64 then max_backlog else accumulator) now w.

Definition one_tick (w : St) : St :=
  tick (set_timing (w_accumulator w - tickSeconds)%f64 (w_previous w) w).

(** [while (accumulator >= tickSeconds)]. *)
Fixpoint tick_loop (fuel : nat) (w : St) : St :=
  match fuel with
  | O => w
  | S fuel' =>
      if (tickSeconds <=? w_accumulator w)%f64 then tick_loop fuel' (one_tick w) else w
  end.

(** The cap leaves room for fifteen ticks. *)
Definition tick_fuel : nat := 16.

(** ** The simulated link *)

Fixpoint release_inputs (now : double) (q : list DelayedInput) (s : Simulation)
    : list DelayedInput * Simulation :=
  match q with
  | [] => ([], s)
  | i :: q' =>
      if (di_dueAt i <=? now)%f64 then
        release_inputs now q' (setInput (di_playerId i) (di_input i) s)
      else (q, s)
  end.

Fixpoint release_packets (now : double) (q : list DelayedPacket) (sent : list (Address * list byte))
    : list DelayedPacket * list (Address * list byte) :=
  match q with
  | [] => ([], sent)
  | p :: q' =>
      if (dp_dueAt p <=? now)%f64 then
        release_packets now q' (sent ++ [(dp_address p, dp_data p)])
      else (q, sent)
  end.

Definition release (w : St) : St :=
  let '(now, w) := read_clock steady_now w in
  let l := w_link w in
  let '(inputs, s) := release_inputs (seconds_of_nanos now) (ln_inputs l) (w_simulation w) in
  let '(outgoing, sent) := release_packets (seconds_of_nanos now) (ln_outgoing l) (ln_sent l) in
  set_simulation s (set_link (mkLink (ln_latencyMs l) inputs outgoing sent) w).

(** ** Timeouts *)

Definition timed_out (deadline : Z) (players : gmap ConnectionId WorldPlayer) : list ConnectionId :=
  filter (fun id =>
    match players !! id with
    | Some p => wp_udpBound p && (wp_lastUdpPacket p <? deadline)
    | None => false
    end = true) (map_keys players).

Definition drop_player (w : St) (id : ConnectionId) : St :=
  on_server (closeConnection id) (removePlayer id w).

Definition timeouts (w : St) : St :=
  let '(now, w) := read_clock steady_now w in
  let deadline := now - udpTimeoutSeconds * nanos_per_second in
  foldl drop_player w (timed_out deadline (ro_players (w_roster w))).

(** ** One turn *)

Fixpoint reconnect (attempts : list (option Socket)) (w : St) : St :=
  match attempts with
  | [] => w
  | a :: attempts' =>
      let '(ok, w) := connect a w in
      if ok : bool then w else reconnect attempts' w
  end.

(** What the outside gives one turn. *)
Record Turn := mkTurn {
  tn_events : Events;
  tn_attempts : list (option Socket);
  tn_lines : list string;
  tn_datagrams : list (Address * list byte);
}.

Definition main_step (t : Turn) (w : St) : St :=
  let w := poll (fun _ _ w => w) (World.onMessage udpPort) World.onDisconnect (tn_events t) w in
  let '(ok, w) := db_poll w in
  let w := if ok : bool then w else reconnect (tn_attempts t) w in
  let w := run_lines udpPort (tn_lines t) w in
  let w := drain_udp (tn_datagrams t) w in
  let '(now, w) := read_clock steady_now w in
  let w := tick_loop tick_fuel (accumulate now w) in
  timeouts (release w).

End WorldLoop.
