(* ===== verification/WorldSpec.v ===== *)
(** * What the world server promises

    The core of the server's state (simulation, roster and link) and the
    transitions it may make, each with the authority it needs: the label that
    justifies it. WorldHistory.v proves that every step of the server makes one
    of these transitions; the invariants here are proved of the transitions. *)

From Stdlib Require Import ZArith Lia Strings.Byte Strings.Ascii Strings.String.
From Stdlib Require Import Floats.SpecFloat.
From stdpp Require Import base list option gmap strings.
From S2P Require Import Prelude Float32 Platform ByteStream Protocol Snapshot Address Terrain.
From S2P Require Import Character Simulation Ticks TcpServer DbClient World WorldConsole WorldLoop.

Open Scope Z_scope.

(** What a run takes in. *)
Inductive Label :=
| LMessage (id : ConnectionId) (type : Z) (data : list byte)
| LReply (c : DbCall) (k : WorldK c) (ok : bool) (reply : Reply c)
| LDatagram (from : Address) (data : list byte)
| LConsole (line : string).

Record Core := mkCore { c_simulation : Simulation; c_roster : Roster; c_link : Link }.

(** A live session of at least game master. *)
Definition game_master (session : SessionLookup) : Prop :=
  sl_found session = true /\ permission_code GameMaster <= sl_permissionLevel session.

(** Credentials of a UDP hello. *)
Definition hello_of (data : list byte) : option (Z * string) :=
  match readUdpHeader data with
  | Some (header, off) =>
      if bool_decide (world_message_of (uh_type header) = Some ClientHello) then
        let '(fields, r) := read_hello (open_reader (drop off data)) in
        if failed r then None else Some fields
      else None
  | None => None
  end.

(** An input datagram: the player it claims to be from, and the input. *)
Definition input_in (data : list byte) : option (Z * PlayerInput) :=
  match readUdpHeader data with
  | Some (header, off) =>
      if bool_decide (world_message_of (uh_type header) = Some ClientInput) then
        let '(fields, r) := read_input (open_reader (drop off data)) in
        if failed r then None else Some fields
      else None
  | None => None
  end.

Section WorldSpec.
Context `{HLibm : Libm}.

(** ** Transitions *)

Inductive ClockOp := ClockSet (t : float) | ClockSpeed (s : float) | ClockReset.

Definition apply_clock (real : double) (today : Z) (o : ClockOp) (s : Simulation) : Simulation :=
  match o with
  | ClockSet t => setTimeOfDay real t s
  | ClockSpeed v => setTimeSpeed real (clamp_speed v) s
  | ClockReset => resetClock real today s
  end.

Definition clock_op (timeCommand : option TimeCommand) (value : float) : ClockOp :=
  match timeCommand with
  | Some TimeReset => ClockReset
  | Some TimeSpeed => ClockSpeed value
  | Some TimeSet | None => ClockSet value
  end.

Definition latency_to (ms : Z) (l : Link) : Link :=
  mkLink ms (ln_inputs l) (ln_outgoing l) (ln_sent l).

Definition joined (id : ConnectionId) (token : string) (session : SessionLookup) (now : Z)
    (r : Roster) : Roster :=
  let player := mkPlayer (ro_next r) (sl_accountId session) (sl_username session) token id false
                  default_address 0 now in
  mkRoster
    (match ro_players r !! id with
     | Some _ => ro_players r
     | None => <[id := player]> (ro_players r)
     end)
    (<[ro_next r := id]> (ro_connections r)) (u64 (ro_next r + 1)).

Definition join (id : ConnectionId) (token : string) (session : SessionLookup) (now : Z) (c : Core)
    : Core :=
  mkCore (addPlayer (ro_next (c_roster c)) (c_simulation c)).2
    (joined id token session now (c_roster c)) (c_link c).

Definition leave (id : ConnectionId) (c : Core) : Core :=
  match ro_players (c_roster c) !! id with
  | None => c
  | Some p =>
      mkCore (Simulation.removePlayer (wp_playerId p) (c_simulation c))
        (mkRoster (delete id (ro_players (c_roster c)))
           (delete (wp_playerId p) (ro_connections (c_roster c))) (ro_next (c_roster c)))
        (c_link c)
  end.

Definition update (f : WorldPlayer -> WorldPlayer) (id : ConnectionId) (r : Roster) : Roster :=
  mkRoster (alter f id (ro_players r)) (ro_connections r) (ro_next r).

(** An accepted input is applied, or held back on a slow link. *)
Definition take_in (now : Z) (playerId : Z) (input : PlayerInput) (c : Core) : Core :=
  let l := c_link c in
  if 0 <? ln_latencyMs l then
    mkCore (c_simulation c) (c_roster c)
      (mkLink (ln_latencyMs l)
         (ln_inputs l ++ [mkDelayedInput (due_at now (ln_latencyMs l)) playerId input])
         (ln_outgoing l) (ln_sent l))
  else mkCore (setInput playerId input (c_simulation c)) (c_roster c) l.

(** A snapshot to one player. *)
Definition stream (now : Z) (body : list byte) (id : ConnectionId) (c : Core) : Core :=
  match ro_players (c_roster c) !! id with
  | None => c
  | Some p =>
      if negb (wp_udpBound p) then c
      else
        let packet := snapshot_packet (wp_outgoingSequence p) body in
        let l := c_link c in
        mkCore (c_simulation c) (update count_packet id (c_roster c))
          (if 0 <? ln_latencyMs l then
             mkLink (ln_latencyMs l) (ln_inputs l)
               (ln_outgoing l
                ++ [mkDelayedPacket (due_at now (ln_latencyMs l)) (wp_udpAddress p) packet])
               (ln_sent l)
           else
             mkLink (ln_latencyMs l) (ln_inputs l) (ln_outgoing l)
               (ln_sent l ++ [(wp_udpAddress p, packet)]))
  end.

Inductive streams (body : list byte) : list ConnectionId -> Core -> Core -> Prop :=
| streams_nil c : streams body [] c c
| streams_cons now id ids c c' :
    streams body ids (stream now body id c) c' -> streams body (id :: ids) c c'.

Definition release_core (now : double) (c : Core) : Core :=
  let l := c_link c in
  let '(inputs, s) := release_inputs now (ln_inputs l) (c_simulation c) in
  let '(outgoing, sent) := release_packets now (ln_outgoing l) (ln_sent l) in
  mkCore s (c_roster c) (mkLink (ln_latencyMs l) inputs outgoing sent).

Inductive core_step : option Label -> Core -> Core -> Prop :=
| core_idle l c : core_step l c c
| core_join id token session now c :
    sl_found session = true ->
    core_step (Some (LReply CallLookupSession (KJoin id token) true session)) c
      (join id token session now c)
| core_leave l id c :
    l = None \/ (exists type data, l = Some (LMessage id type data)) ->
    core_step l c (leave id c)
| core_latency id ms session c :
    game_master session ->
    core_step (Some (LReply CallLookupSession (KSetLatency id ms) true session)) c
      (mkCore (c_simulation c) (c_roster c) (latency_to (Z.min ms 2000) (c_link c)))
| core_console_latency line ms c :
    core_step (Some (LConsole line)) c
      (mkCore (c_simulation c) (c_roster c) (latency_to (Z.min (u32 ms) 2000) (c_link c)))
| core_clock id timeCommand value session real today c :
    game_master session ->
    core_step (Some (LReply CallLookupSession
        (KWorldCommand id AdminSetTimeRequest timeCommand value) true session)) c
      (mkCore (apply_clock real today (clock_op timeCommand value) (c_simulation c)) (c_roster c)
         (c_link c))
| core_console_clock line o real today c :
    core_step (Some (LConsole line)) c
      (mkCore (apply_clock real today o (c_simulation c)) (c_roster c) (c_link c))
| core_hello from data playerId token id p now c :
    hello_of data = Some (playerId, token) ->
    ro_connections (c_roster c) !! playerId = Some id ->
    ro_players (c_roster c) !! id = Some p -> wp_token p = token ->
    core_step (Some (LDatagram from data)) c
      (mkCore (c_simulation c) (update (bind_udp from now) id (c_roster c)) (c_link c))
| core_touch from data id p now c :
    ro_players (c_roster c) !! id = Some p -> wp_udpBound p = true -> wp_udpAddress p = from ->
    core_step (Some (LDatagram from data)) c
      (mkCore (c_simulation c) (update (touch_udp now) id (c_roster c)) (c_link c))
| core_input from data input id p now now' c :
    input_in data = Some (wp_playerId p, input) ->
    ro_players (c_roster c) !! id = Some p -> wp_udpBound p = true -> wp_udpAddress p = from ->
    core_step (Some (LDatagram from data)) c
      (take_in now' (wp_playerId p) input
         (mkCore (c_simulation c) (update (touch_udp now) id (c_roster c)) (c_link c)))
| core_tick real body c c' :
    let s := step real (f32_of_f64 tickSeconds) (c_simulation c) in
    (exists now, body = encodeSnapshot
       (mkSnapshot (sim_tick s) now (sim_timeOfDay s)
          (sn_entities (buildSnapshot s snapshot_default))) []) ->
    streams body (map_keys (ro_players (c_roster c))) (mkCore s (c_roster c) (c_link c)) c' ->
    core_step None c c'
| core_release now c : core_step None c (release_core now c).

(** ** Players and bodies *)

(** Every player is registered under its id on its own connection, ids have
    been given out, exactly the registered ids have a body, and no two bodies
    are the same entity. *)
Definition roster_ok (c : Core) : Prop :=
  let r := c_roster c in
  (forall id p, ro_players r !! id = Some p ->
     wp_connection p = id /\ ro_connections r !! wp_playerId p = Some id) /\
  (forall playerId id, ro_connections r !! playerId = Some id -> 0 <= playerId < ro_next r) /\
  (forall playerId, is_Some (sim_players (c_simulation c) !! playerId) <->
                    is_Some (ro_connections r !! playerId)) /\
  sim_ok (c_simulation c).

Lemma roster_ok_simulation s s' r l l' :
  same_bodies s s' -> roster_ok (mkCore s r l) -> roster_ok (mkCore s' r l').
Proof.
  intros Hs (H1 & H2 & H3 & H4). split_and!; [done|done| |].
  - intros playerId. cbn [c_simulation c_roster] in *.
    by rewrite (same_bodies_is_Some _ _ _ Hs).
  - by eapply same_entities_ok, H4; apply same_bodies_entities.
Qed.

(** Updates of a player that keep its identity. *)
Definition keeps_identity (f : WorldPlayer -> WorldPlayer) : Prop :=
  forall p, wp_playerId (f p) = wp_playerId p /\ wp_connection (f p) = wp_connection p /\
    wp_token (f p) = wp_token p /\ wp_accountId (f p) = wp_accountId p /\
    wp_username (f p) = wp_username p.

Lemma roster_ok_update f id s r l :
  keeps_identity f -> roster_ok (mkCore s r l) -> roster_ok (mkCore s (update f id r) l).
Proof.
  intros Hf (H1 & H2 & H3 & H4). split_and!; try done.
  intros id' p. cbn [c_roster update ro_players ro_connections] in *. rewrite lookup_alter.
  destruct (decide (id = id')) as [<-|]; [|apply H1].
  destruct (ro_players r !! id) as [p0|] eqn:E; [|done]. intros [= <-].
  destruct (Hf p0) as (-> & -> & _). by apply H1.
Qed.

Lemma apply_clock_bodies real today o s : same_bodies s (apply_clock real today o s).
Proof. by destruct o. Qed.

Lemma release_inputs_bodies now q : forall s, same_bodies s (release_inputs now q s).2.
Proof.
  induction q as [|i q IH]; intros s; cbn [release_inputs]; [done|].
  destruct (di_dueAt i <=? now)%f64; [|done].
  eapply same_bodies_trans; [apply setInput_bodies|apply IH].
Qed.

Lemma release_core_simulation now c :
  c_simulation (release_core now c) = (release_inputs now (ln_inputs (c_link c)) (c_simulation c)).2
  /\ c_roster (release_core now c) = c_roster c.
Proof.
  unfold release_core. destruct (release_inputs _ _ _) as [inputs s].
  by destruct (release_packets _ _ _).
Qed.

Lemma count_packet_identity : keeps_identity count_packet.
Proof. done. Qed.
Lemma touch_udp_identity now : keeps_identity (touch_udp now).
Proof. done. Qed.
Lemma bind_udp_identity from now : keeps_identity (bind_udp from now).
Proof. done. Qed.

Lemma stream_roster_ok now body id c : roster_ok c -> roster_ok (stream now body id c).
Proof.
  unfold stream. intros Hc. destruct (ro_players (c_roster c) !! id) as [p|]; [|done].
  destruct (wp_udpBound p); [|done]. cbn [negb].
  apply (roster_ok_simulation (c_simulation c) _ _ (c_link c)); [done|].
  apply roster_ok_update; [done|]. by destruct c.
Qed.

Lemma streams_roster_ok body ids c c' : streams body ids c c' -> roster_ok c -> roster_ok c'.
Proof. induction 1; eauto using stream_roster_ok. Qed.

Lemma leave_roster_ok id c : roster_ok c -> roster_ok (leave id c).
Proof.
  unfold leave. intros (H1 & H2 & H3 & H4).
  destruct (ro_players (c_roster c) !! id) as [p|] eqn:E; [|done].
  destruct (H1 id p E) as [_ Hp]. split_and!; cbn [c_roster ro_players ro_connections ro_next
    c_simulation].
  - intros id' p' [Hne E']%lookup_delete_Some. destruct (H1 id' p' E') as [Hc Hp'].
    split; [done|]. apply lookup_delete_Some. split; [|done]. intros Heq. congruence.
  - intros playerId id' [_ E']%lookup_delete_Some. by eapply H2.
  - intros playerId. cbn [Simulation.removePlayer set_players sim_players].
    destruct (decide (wp_playerId p = playerId)) as [->|Hne].
    + rewrite !lookup_delete. rewrite !decide_True by done. split; by intros [].
    + rewrite !lookup_delete_ne by done. apply H3.
  - by eapply same_entities_ok, H4; apply removePlayer_same.
Qed.

Lemma join_roster_ok id token session now c :
  0 <= ro_next (c_roster c) -> ro_next (c_roster c) + 1 < 2 ^ 64 ->
  sim_nextPlayerEntityId (c_simulation c) + 1 < 2 ^ 32 ->
  roster_ok c -> roster_ok (join id token session now c).
Proof.
  intros Hn0 Hn Hs (H1 & H2 & H3 & H4).
  assert (Hfree : ro_connections (c_roster c) !! ro_next (c_roster c) = None).
  { destruct (ro_connections (c_roster c) !! ro_next (c_roster c)) eqn:E; [|done].
    specialize (H2 _ _ E). lia. }
  split_and!; cbn [join joined c_roster c_simulation ro_players ro_connections ro_next].
  - assert (Hold : forall id' p, ro_players (c_roster c) !! id' = Some p ->
      wp_connection p = id' /\ <[ro_next (c_roster c):=id]> (ro_connections (c_roster c))
        !! wp_playerId p = Some id').
    { intros id' p E. destruct (H1 id' p E) as [Hc Hp]. split; [done|].
      rewrite lookup_insert_ne; [done|]. intros Heq. congruence. }
    intros id' p. destruct (ro_players (c_roster c) !! id) eqn:E; [apply Hold|].
    intros [[<- <-]|[_ E']]%lookup_insert_Some; [|by apply Hold].
    cbn. by rewrite lookup_insert, decide_True.
  - rewrite wrap_id by (unfold fits; lia).
    intros playerId id' [[<- _]|[_ E]]%lookup_insert_Some; [lia|]. specialize (H2 _ _ E). lia.
  - intros playerId. unfold addPlayer.
    destruct (sim_players (c_simulation c) !! ro_next (c_roster c)) eqn:E.
    { assert (is_Some (ro_connections (c_roster c) !! ro_next (c_roster c))) as Hx by (apply H3; eauto).
      rewrite Hfree in Hx. by destruct Hx. }
    cbn [snd sim_players]. destruct (decide (ro_next (c_roster c) = playerId)) as [->|Hne].
    + rewrite !lookup_insert, !decide_True by done. split; eauto.
    + rewrite !lookup_insert_ne by done. apply H3.
  - by apply addPlayer_ok.
Qed.

(** ** Runs *)

Definition core_fresh (c : Core) : Prop :=
  ro_players (c_roster c) = ∅ /\ ro_connections (c_roster c) = ∅ /\ ro_next (c_roster c) = 1 /\
  sim_players (c_simulation c) = ∅ /\
  sim_nextPlayerEntityId (c_simulation c) = kFirstPlayerEntityId /\
  ln_latencyMs (c_link c) = 0 /\ ln_inputs (c_link c) = [] /\ ln_outgoing (c_link c) = [] /\
  ln_sent (c_link c) = [].

Inductive core_history : list Label -> Core -> Prop :=
| core_history_start c : core_fresh c -> core_history [] c
| core_history_step h c l c' :
    core_history h c -> core_step l c c' -> core_history (h ++ option_list l) c'.

(** The joins among what a run took in. *)
Definition is_join (l : Label) : bool :=
  match l with
  | LReply _ k _ _ => match k with KJoin _ _ => true | _ => false end
  | _ => false
  end.

Definition joins (h : list Label) : Z := Z.of_nat (length (List.filter is_join h)).

Lemma joins_app h h' : joins (h ++ h') = joins h + joins h'.
Proof. unfold joins. rewrite List.filter_app, length_app. lia. Qed.

Lemma joins_nonneg h : 0 <= joins h.
Proof. unfold joins. lia. Qed.

(** The ids given out so far. *)
Definition counters (n : Z) (c : Core) : Prop :=
  1 <= ro_next (c_roster c) <= 1 + n /\
  sim_nextPlayerEntityId (c_simulation c) <= kFirstPlayerEntityId + n.

Lemma counters_same n c c' :
  ro_next (c_roster c') = ro_next (c_roster c) ->
  sim_nextPlayerEntityId (c_simulation c') = sim_nextPlayerEntityId (c_simulation c) ->
  counters n c -> counters n c'.
Proof. unfold counters. by intros -> ->. Qed.

Lemma streams_counters body ids c c' n : streams body ids c c' -> counters n c -> counters n c'.
Proof.
  induction 1 as [|now id ids c c' _ IH]; [done|]. intros Hc. apply IH.
  revert Hc. apply counters_same; unfold stream;
    destruct (ro_players (c_roster c) !! id) as [p|]; try done; by destruct (wp_udpBound p).
Qed.

Lemma join_counters id token session now c n :
  n + kFirstPlayerEntityId + 1 < 2 ^ 32 -> counters n c -> sim_ok (c_simulation c) ->
  counters (n + 1) (join id token session now c).
Proof.
  unfold counters, kFirstPlayerEntityId. intros Hn [H1 H2] [H3 _].
  unfold kFirstPlayerEntityId in H3. cbn [join joined c_roster c_simulation ro_next].
  rewrite wrap_id by (unfold fits; lia). split; [lia|]. unfold addPlayer.
  destruct (sim_players (c_simulation c) !! _); cbn [snd sim_nextPlayerEntityId]; [lia|].
  rewrite wrap_id by (unfold fits; lia). lia.
Qed.

Lemma touched_ok now id c :
  roster_ok c ->
  roster_ok (mkCore (c_simulation c) (update (touch_udp now) id (c_roster c)) (c_link c)).
Proof. intros Hok. apply roster_ok_update; [done|]. by destruct c. Qed.

Lemma take_in_roster_ok now playerId input c : roster_ok c -> roster_ok (take_in now playerId input c).
Proof.
  intros Hok. unfold take_in. destruct (setInput_bodies playerId input (c_simulation c)) as [Hx Hy].
  destruct c as [s r l]. case_match; by eapply roster_ok_simulation, Hok.
Qed.

Lemma take_in_counters n now playerId input c :
  counters n c ->
  counters n (take_in now playerId input c).
Proof.
  unfold take_in. destruct (setInput_bodies playerId input (c_simulation c)) as [Hx Hy].
  by case_match; apply counters_same.
Qed.

Lemma core_step_ok l c c' n :
  core_step l c c' -> n + joins (option_list l) + kFirstPlayerEntityId < 2 ^ 32 ->
  roster_ok c /\ counters n c -> roster_ok c' /\ counters (n + joins (option_list l)) c'.
Proof.
  intros Hs Hn [Hok Hc]. pose proof (joins_nonneg (option_list l)) as Hj.
  assert (Hmono : counters (n + joins (option_list l)) c).
  { destruct Hc. split; lia. }
  destruct Hs as [l c|id token session now c Hf|l id c Hl|id ms session c Hg|line ms c
    |id tc value session real today c Hg|line o real today c
    |from data playerId token id p now c Hh Hcn Hp Ht|from data id p now c Hp Hb Ha
    |from data input id p now now' c Hi Hp Hb Ha|real body c c' s Hbody Hst|now c];
    [done| | | | | | | | | | |].
  - change (joins (option_list _)) with 1 in *. destruct Hc as [Hc1 Hc2].
    unfold kFirstPlayerEntityId in Hn, Hc2. split.
    + by apply join_roster_ok; [lia..|].
    + apply join_counters; [unfold kFirstPlayerEntityId; lia|done|apply Hok].
  - split; [by apply leave_roster_ok|]. revert Hmono. apply counters_same; unfold leave;
      by destruct (ro_players (c_roster c) !! id).
  - split; [|exact Hmono].
    by apply (roster_ok_simulation (c_simulation c) _ _ (c_link c)); [|destruct c].
  - split; [|exact Hmono].
    by apply (roster_ok_simulation (c_simulation c) _ _ (c_link c)); [|destruct c].
  - destruct (apply_clock_bodies real today (clock_op tc value) (c_simulation c)) as [Hx Hy].
    split; [by apply (roster_ok_simulation (c_simulation c) _ _ (c_link c)); [|destruct c]|].
    revert Hmono. by apply counters_same.
  - destruct (apply_clock_bodies real today o (c_simulation c)) as [Hx Hy].
    split; [by apply (roster_ok_simulation (c_simulation c) _ _ (c_link c)); [|destruct c]|].
    revert Hmono. by apply counters_same.
  - split; [|exact Hmono]. apply roster_ok_update; [done|]. by destruct c.
  - split; [|exact Hmono]. apply roster_ok_update; [done|]. by destruct c.
  - split; [by apply take_in_roster_ok, touched_ok|]. by apply take_in_counters.
  - split.
    + eapply streams_roster_ok; [exact Hst|].
      apply (roster_ok_simulation (c_simulation c) _ _ (c_link c)); [|by destruct c].
      apply step_bodies.
    + eapply streams_counters; [exact Hst|]. revert Hmono. by apply counters_same.
  - destruct (release_core_simulation now c) as [Hs Hr].
    destruct (release_inputs_bodies now (ln_inputs (c_link c)) (c_simulation c)) as [Hx Hy].
    split.
    + destruct (release_core now c) as [s r l'] eqn:Ec. cbn [c_simulation c_roster] in Hs, Hr.
      subst s r. by apply (roster_ok_simulation (c_simulation c) _ _ (c_link c)); [|destruct c].
    + revert Hmono. apply counters_same; congruence.
Qed.

Lemma core_history_ok h c :
  core_history h c -> joins h + kFirstPlayerEntityId < 2 ^ 32 ->
  roster_ok c /\ counters (joins h) c.
Proof.
  induction 1 as [c (H1 & H2 & H3 & H4 & H5 & _)|h c l c' Hh IH Hs]; intros Hn.
  - split; [|split; unfold joins; cbn; lia].
    split_and!; rewrite ?H1, ?H2, ?H4.
    + intros id p. by rewrite lookup_empty.
    + intros id p. by rewrite lookup_empty.
    + intros id. by rewrite !lookup_empty.
    + split; [by rewrite H5|]. rewrite H4. split; intros ? ?; by rewrite lookup_empty.
  - rewrite joins_app in Hn |- *. eapply core_step_ok; [done|lia|]. apply IH.
    pose proof (joins_nonneg (option_list l)). lia.
Qed.

(** ** Where the world is streamed to *)

(** The database confirmed a live session for [token], sent by [id]. *)
Definition admitted (h : list Label) (id : ConnectionId) (token : string) : Prop :=
  exists session, LReply CallLookupSession (KJoin id token) true session ∈ h /\
    sl_found session = true.

(** Player [p] of connection [id] is the account of such a session. *)
Definition entered (h : list Label) (id : ConnectionId) (p : WorldPlayer) : Prop :=
  exists session, LReply CallLookupSession (KJoin id (wp_token p)) true session ∈ h /\
    sl_found session = true /\ sl_accountId session = wp_accountId p /\
    sl_username session = wp_username p.

Lemma entered_admitted h id p : entered h id p -> admitted h id (wp_token p).
Proof. intros (session & H1 & H2 & _). by exists session. Qed.

Lemma entered_app h h' id p : entered h id p -> entered (h ++ h') id p.
Proof. intros (session & H1 & H2). exists session. rewrite elem_of_app. auto. Qed.

(** Address [a] sent the token of a session the database confirmed. *)
Definition proven (h : list Label) (a : Address) : Prop :=
  exists data playerId token id,
    LDatagram a data ∈ h /\ hello_of data = Some (playerId, token) /\ admitted h id token.

Lemma admitted_app h h' id token : admitted h id token -> admitted (h ++ h') id token.
Proof. intros (session & H1 & H2). exists session. rewrite elem_of_app. auto. Qed.

Lemma proven_app h h' a : proven h a -> proven (h ++ h') a.
Proof.
  intros (data & playerId & token & id & H1 & H2 & H3). exists data, playerId, token, id.
  rewrite elem_of_app. auto using admitted_app.
Qed.

Definition stream_ok (h : list Label) (c : Core) : Prop :=
  (forall id p, ro_players (c_roster c) !! id = Some p ->
     entered h id p /\ (wp_udpBound p = true -> proven h (wp_udpAddress p))) /\
  Forall (fun p => proven h (dp_address p)) (ln_outgoing (c_link c)) /\
  Forall (fun s => proven h s.1) (ln_sent (c_link c)).

Lemma stream_ok_app h h' c : stream_ok h c -> stream_ok (h ++ h') c.
Proof.
  intros (H1 & H2 & H3). split_and!.
  - intros id p E. destruct (H1 id p E) as [Ha Hp]. split; [by apply entered_app|].
    intros Hb. by apply proven_app, Hp.
  - eapply Forall_impl; [exact H2|]. intros. by apply proven_app.
  - eapply Forall_impl; [exact H3|]. intros. by apply proven_app.
Qed.

(** An update that moves no address. *)
Lemma stream_ok_update h f id s s' r l :
  keeps_identity f ->
  (forall p, wp_udpBound (f p) = wp_udpBound p /\ wp_udpAddress (f p) = wp_udpAddress p) ->
  stream_ok h (mkCore s r l) -> stream_ok h (mkCore s' (update f id r) l).
Proof.
  intros Hf Ha (H1 & H2 & H3). split_and!; [|done|done].
  intros id' p. cbn [c_roster update ro_players]. rewrite lookup_alter.
  destruct (decide (id = id')) as [<-|]; [|apply H1].
  destruct (ro_players r !! id) as [p0|] eqn:E; [|done]. intros [= <-].
  destruct (Hf p0) as (_ & _ & E1 & E2 & E3), (Ha p0) as [-> ->].
  unfold entered. rewrite E1, E2, E3. by apply H1.
Qed.

Lemma stream_stream_ok h now body id c : stream_ok h c -> stream_ok h (stream now body id c).
Proof.
  intros Hc. unfold stream. destruct (ro_players (c_roster c) !! id) as [p|] eqn:E; [|done].
  destruct (wp_udpBound p) eqn:Eb; [|done]. cbn [negb].
  destruct (proj1 Hc id p E) as [_ Hp]. specialize (Hp Eb).
  assert (Hu : stream_ok h (mkCore (c_simulation c) (update count_packet id (c_roster c)) (c_link c))).
  { apply (stream_ok_update h count_packet id (c_simulation c)); [done|done|]. by destruct c. }
  destruct Hu as (H1 & H2 & H3). destruct (0 <? ln_latencyMs (c_link c));
    (split_and!; [exact H1| |]); cbn [c_link ln_outgoing ln_sent] in *; try done;
    (apply Forall_app; split; [done|by apply Forall_singleton]).
Qed.

Lemma release_packets_spec now q : forall sent,
  exists released, q = released ++ (release_packets now q sent).1 /\
    (release_packets now q sent).2 = sent ++ ((fun p => (dp_address p, dp_data p)) <$> released) /\
    Forall (fun p => SFleb (dp_dueAt p) now = true) released /\
    (forall p, head (release_packets now q sent).1 = Some p -> SFleb (dp_dueAt p) now = false).
Proof.
  induction q as [|p q IH]; intros sent; cbn [release_packets].
  - exists []. cbn. rewrite app_nil_r. by split_and!.
  - destruct (dp_dueAt p <=? now)%f64 eqn:Ed.
    + destruct (IH (sent ++ [(dp_address p, dp_data p)])) as (released & H1 & H2 & H3 & H4).
      exists (p :: released). split_and!; [cbn; by rewrite <- H1| |by constructor|done].
      rewrite H2, <- app_assoc. done.
    + exists []. cbn. rewrite app_nil_r. split_and!; [done|done|done|]. intros p0 [= <-]. exact Ed.
Qed.

Lemma release_inputs_spec now q : forall s,
  exists released, q = released ++ (release_inputs now q s).1 /\
    (release_inputs now q s).2
      = foldl (fun s i => setInput (di_playerId i) (di_input i) s) s released /\
    Forall (fun i => SFleb (di_dueAt i) now = true) released /\
    (forall i, head (release_inputs now q s).1 = Some i -> SFleb (di_dueAt i) now = false).
Proof.
  induction q as [|i q IH]; intros s; cbn [release_inputs].
  - by exists [].
  - destruct (di_dueAt i <=? now)%f64 eqn:Ed.
    + destruct (IH (setInput (di_playerId i) (di_input i) s)) as (released & H1 & H2 & H3 & H4).
      exists (i :: released). split_and!; [cbn; by rewrite <- H1|done|by constructor|done].
    + exists []. split_and!; [done|done|done|]. cbn. intros i0 [= <-]. exact Ed.
Qed.

Lemma release_stream_ok h now c : stream_ok h c -> stream_ok h (release_core now c).
Proof.
  intros (H1 & H2 & H3). unfold release_core.
  destruct (release_inputs _ _ _) as [inputs s].
  destruct (release_packets_spec now (ln_outgoing (c_link c)) (ln_sent (c_link c)))
    as (released & Hq & Hs & _).
  destruct (release_packets _ _ _) as [outgoing sent]. cbn [fst snd] in Hq, Hs.
  rewrite Hq in H2. apply Forall_app in H2 as [Hr Ho].
  split_and!; [exact H1|exact Ho|]. cbn [c_link ln_sent]. rewrite Hs.
  apply Forall_app. split; [done|]. by apply Forall_fmap.
Qed.

Lemma core_step_stream_ok h l c c' :
  core_step l c c' -> stream_ok h c -> stream_ok (h ++ option_list l) c'.
Proof.
  intros Hs Hc. pose proof (stream_ok_app h (option_list l) c Hc) as Hl.
  destruct Hs as [l c|id token session now c Hf|l id c Hl'|id ms session c Hg|line ms c
    |id tc value session real today c Hg|line o real today c
    |from data playerId token id p now c Hh Hcn Hp Ht|from data id p now c Hp Hb Ha
    |from data input id p now now' c Hi Hp Hb Ha|real body c c' s Hbody Hst|now c];
    try exact Hl.
  - destruct Hl as (H1 & H2 & H3). split_and!; [|exact H2|exact H3].
    intros id' p'. cbn [join joined c_roster ro_players].
    destruct (ro_players (c_roster c) !! id) eqn:E; [apply H1|].
    intros [[<- <-]|[_ E']]%lookup_insert_Some; [|by apply H1].
    split; [|done]. exists session. split; [|done]. apply elem_of_app. right. left.
  - unfold leave. destruct (ro_players (c_roster c) !! id) as [p|] eqn:E; [|exact Hl].
    destruct Hl as (H1 & H2 & H3). split_and!; [|exact H2|exact H3].
    cbn [c_roster ro_players]. intros id' p' [_ E']%lookup_delete_Some. by apply H1.
  - destruct Hl as (H1 & H2 & H3). split_and!; [|exact H2|exact H3].
    intros id' p'. cbn [c_roster update ro_players]. rewrite lookup_alter.
    destruct (decide (id = id')) as [<-|]; [|apply H1].
    rewrite Hp. intros [= <-]. destruct (H1 id p Hp) as [Had _]. split; [exact Had|].
    intros _. exists data, playerId, token, id. split_and!; [|done|].
    + apply elem_of_app. right. left.
    + subst token. by apply entered_admitted.
  - apply (stream_ok_update _ (touch_udp now) id (c_simulation c)); [done|done|]. by destruct c.
  - assert (Hu : stream_ok (h ++ option_list (Some (LDatagram from data)))
      (mkCore (c_simulation c) (update (touch_udp now) id (c_roster c)) (c_link c))).
    { apply (stream_ok_update _ (touch_udp now) id (c_simulation c)); [done|done|]. by destruct c. }
    unfold take_in. cbn [c_link]. by destruct (0 <? ln_latencyMs (c_link c)).
  - rewrite app_nil_r in *. clear Hbody. assert (H0 : stream_ok h (mkCore s (c_roster c) (c_link c)))
      by exact Hc.
    revert H0. clear Hc Hl. induction Hst; eauto using stream_stream_ok.
  - rewrite app_nil_r in *. by apply release_stream_ok.
Qed.

Lemma core_history_stream h c : core_history h c -> stream_ok h c.
Proof.
  induction 1 as [c (H1 & _ & _ & _ & _ & _ & _ & H2 & H3)|h c l c' Hh IH Hs].
  - split_and!; [|by rewrite H2|by rewrite H3]. intros id p. by rewrite H1, lookup_empty.
  - by eapply core_step_stream_ok.
Qed.

(** ** Who controls the world *)

(** What only a game master or the console may change. *)
Definition controls (c : Core) : Z * (double * float * float) :=
  (ln_latencyMs (c_link c),
   (sim_anchorRealSeconds (c_simulation c), sim_anchorTimeOfDay (c_simulation c),
    sim_timeSpeed (c_simulation c))).

Definition clock_of (s : Simulation) : double * float * float :=
  (sim_anchorRealSeconds s, sim_anchorTimeOfDay s, sim_timeSpeed s).

Lemma setInput_clock id input s : clock_of (setInput id input s) = clock_of s.
Proof. by rewrite setInput_alter. Qed.

Lemma addPlayer_clock id s : clock_of (addPlayer id s).2 = clock_of s.
Proof. unfold addPlayer. by destruct (sim_players s !! id). Qed.

Lemma step_clock real dt s : clock_of (step real dt s) = clock_of s.
Proof. done. Qed.

Lemma release_inputs_clock now q : forall s, clock_of (release_inputs now q s).2 = clock_of s.
Proof.
  induction q as [|i q IH]; intros s; cbn [release_inputs]; [done|].
  destruct (di_dueAt i <=? now)%f64; [|done]. rewrite IH. apply setInput_clock.
Qed.

Lemma controls_eq c c' :
  ln_latencyMs (c_link c') = ln_latencyMs (c_link c) ->
  clock_of (c_simulation c') = clock_of (c_simulation c) -> controls c' = controls c.
Proof. unfold controls, clock_of. intros -> H2. by rewrite H2. Qed.

Lemma stream_controls now body id c : controls (stream now body id c) = controls c.
Proof.
  unfold stream. destruct (ro_players (c_roster c) !! id) as [p|]; [|done].
  destruct (wp_udpBound p); [|done]. cbn [negb]. apply controls_eq; [|done].
  cbn [c_link]. by destruct (0 <? ln_latencyMs (c_link c)).
Qed.

Lemma streams_controls body ids c c' : streams body ids c c' -> controls c' = controls c.
Proof. induction 1 as [|now id ids c c' _ IH]; [done|]. by rewrite IH, stream_controls. Qed.

(** The labels that carry the authority to change them. *)
Inductive authority : Label -> Prop :=
| authority_console line : authority (LConsole line)
| authority_latency id ms session :
    game_master session -> authority (LReply CallLookupSession (KSetLatency id ms) true session)
| authority_clock id timeCommand value session :
    game_master session ->
    authority (LReply CallLookupSession
      (KWorldCommand id AdminSetTimeRequest timeCommand value) true session).

Lemma authority_session (k : WorldK CallLookupSession) ok session :
  authority (LReply CallLookupSession k ok session) -> game_master session.
Proof.
  assert (Ha : forall a, authority a ->
    match a with
    | LReply c _ _ reply =>
        match c return Reply c -> Prop with
        | CallLookupSession => game_master
        | _ => fun _ => True
        end reply
    | _ => True
    end) by (by intros a []).
  apply Ha.
Qed.

(** Continuations of a client's command to the world. *)
Definition of_command {c} (k : WorldK c) : Prop :=
  match k with KSetLatency _ _ | KWorldCommand _ _ _ _ => True | _ => False end.

Lemma authority_command (k : WorldK CallLookupSession) ok session :
  authority (LReply CallLookupSession k ok session) -> of_command k.
Proof.
  assert (Ha : forall a, authority a ->
    match a with LReply _ k _ _ => of_command k | _ => True end) by (by intros a []).
  apply Ha.
Qed.

Lemma core_step_controls l c c' :
  core_step l c c' ->
  (controls c' = controls c \/ exists a, l = Some a /\ authority a) /\
  (ln_latencyMs (c_link c) <= 2000 -> ln_latencyMs (c_link c') <= 2000).
Proof.
  intros Hs. destruct Hs as [l c|id token session now c Hf|l id c Hl'|id ms session c Hg|line ms c
    |id tc value session real today c Hg|line o real today c
    |from data playerId token id p now c Hh Hcn Hp Ht|from data id p now c Hp Hb Ha
    |from data input id p now now' c Hi Hp Hb Ha|real body c c' s Hbody Hst|now c].
  - by split; [left|].
  - split; [left|done]. apply controls_eq; [done|]. apply addPlayer_clock.
  - unfold leave. destruct (ro_players (c_roster c) !! id); by split; [left|].
  - split; [right; eauto using authority|]. cbn. lia.
  - split; [right; eauto using authority|]. cbn. lia.
  - split; [right; eauto using authority|done].
  - split; [right; eauto using authority|done].
  - by split; [left|].
  - by split; [left|].
  - unfold take_in. cbn [c_link]. destruct (0 <? ln_latencyMs (c_link c)); split; try done; left;
      apply controls_eq; try done. apply setInput_clock.
  - pose proof (streams_controls _ _ _ _ Hst) as Hc.
    assert (Hc' : controls c' = controls c) by exact Hc.
    split; [by left|]. unfold controls in Hc'. injection Hc' as -> _ _ _. done.
  - unfold release_core. pose proof (release_inputs_clock now (ln_inputs (c_link c)) (c_simulation c))
      as Hk.
    destruct (release_inputs _ _ _) as [inputs s], (release_packets _ _ _) as [outgoing sent].
    split; [left|done]. by apply controls_eq.
Qed.

Lemma core_history_latency h c : core_history h c -> ln_latencyMs (c_link c) <= 2000.
Proof.
  induction 1 as [c (_ & _ & _ & _ & _ & Hl & _)|h c l c' _ IH Hs]; [rewrite Hl; lia|].
  by eapply core_step_controls.
Qed.

End WorldSpec.
