(* ===== verification/WorldHistory.v ===== *)
(** * The world server as a transition system

    The handlers and the stages of the main loop (World.v, WorldConsole.v,
    WorldLoop.v) as labelled steps; the history of a run records the messages,
    the database's replies, the datagrams and the console lines it took in. A
    turn of the main loop is a run of these steps. The lemmas say what each
    step does to the core of the state: simulation, roster and link. *)

From Stdlib Require Import ZArith Lia Strings.Byte Strings.Ascii Strings.String.
From Stdlib Require Import Floats.SpecFloat.
From stdpp Require Import base list option gmap strings.
From S2P Require Import Prelude Float32 Platform Config Text ByteStream Protocol Snapshot Framing.
From S2P Require Import Address Terrain Character Simulation Ticks TcpServer DbClient Outputs.
From S2P Require Import Console World WorldConsole WorldLoop WorldSpec.
Import ByteWriter.

Open Scope Z_scope.

Section WorldHistory.
Context {E : Type} `{HSod : Sodium E} `{HClk : Clocks E} `{HLibm : Libm} `{HAtof : Atof}.
Variable udpPort : Z.

Abbreviation St := (World E).

#[local] Instance history_callback : DbCallbacks St WorldK := World.callback udpPort.

Definition core (w : St) : Core := mkCore (w_simulation w) (w_roster w) (w_link w).

(** ** Steps *)

Inductive handler_step (w : St) : option Label -> St -> Prop :=
| step_message id type data :
    handler_step w (Some (LMessage id type data)) (onMessage udpPort id type data w)
| step_reply n c k type data ok reply :
    mPending (db w) !! n = Some (mkPending c k) ->
    handler_reply c true type data = (ok, reply) ->
    handler_step w (Some (LReply c k ok reply)) (run c k ok reply (on_db (remove_pending n) w))
| step_failed c k : handler_step w None (run c k false (no_reply c) w)
| step_disconnect id : handler_step w None (onDisconnect id w)
| step_console line : handler_step w (Some (LConsole line)) (runConsoleCommand udpPort line w)
| step_datagram from data :
    handler_step w (Some (LDatagram from data)) (handleDatagram from data w)
| step_tick : handler_step w None (tick w)
| step_release : handler_step w None (release w)
| step_drop id : handler_step w None (drop_player w id).

(** Between the handlers the network components, the environment and the
    accumulator move on their own; pending requests may be dropped. *)
Inductive internal_step (w : St) : St -> Prop :=
| internal_server s : internal_step w (set_server s w)
| internal_db d :
    (forall n p, mPending d !! n = Some p -> mPending (db w) !! n = Some p) ->
    internal_step w (set_db d w)
| internal_env e : internal_step w (set_env e w)
| internal_timing accumulator previous : internal_step w (set_timing accumulator previous w).

Inductive world_step (w : St) : option Label -> St -> Prop :=
| world_handler l w' : handler_step w l w' -> world_step w l w'
| world_internal w' : internal_step w w' -> world_step w None w'.

(** The start: no request is pending, nobody has joined, nothing was sent. *)
Definition fresh (w : St) : Prop := mPending (db w) = ∅ /\ core_fresh (core w).

Inductive history : list Label -> St -> Prop :=
| history_start w : fresh w -> history [] w
| history_step h w l w' :
    history h w -> world_step w l w' -> history (h ++ option_list l) w'.

(** ** A turn of the loop

    What every handler and every internal step preserves, a turn preserves:
    first the part up to the poll of the database's replies, then the part after
    it. *)

Section Turn.
Variable P : St -> Prop.
Hypothesis P_server : forall s w, P w -> P (set_server s w).
Hypothesis P_env : forall e w, P w -> P (set_env e w).
Hypothesis P_timing : forall accumulator previous w, P w -> P (set_timing accumulator previous w).
Hypothesis P_connected : forall s w, P w -> P (connect (Some s) w).2.
Hypothesis P_handler : forall w l w',
  P w -> handler_step w l w' ->
  match l with Some (LReply _ _ _ _) => False | _ => True end -> P w'.

Lemma turn_poll ev w :
  P w -> P (poll (fun _ _ w => w) (onMessage udpPort) onDisconnect ev w).
Proof.
  intros Hw. apply poll_preserves; try done.
  - intros id type data w1 H1. eapply P_handler; [exact H1|constructor|done].
  - intros id w1 H1. eapply P_handler; [exact H1|constructor|done].
Qed.

Lemma turn_read {A} (read : E -> A * E) w : P w -> P (read_clock read w).2.
Proof. intros Hw. unfold read_clock. destruct (read (w_env w)) as [a e]. by apply P_env. Qed.

Lemma turn_reconnect attempts : forall w, P w -> P (reconnect attempts w).
Proof.
  induction attempts as [|[s|] attempts IH]; intros w Hw; [done| |by apply IH].
  exact (P_connected s w Hw).
Qed.

Lemma foldl_closed {A} (f : St -> A -> St) l : forall w,
  (forall w a, P w -> P (f w a)) -> P w -> P (foldl f w l).
Proof. induction l as [|a l IH]; intros w Hf Hw; [done|]. cbn. auto. Qed.

Lemma turn_drain datagrams : forall w, P w -> P (drain_udp datagrams w).
Proof.
  induction datagrams as [|[from data] rest IH]; intros w Hw; [done|].
  cbn [drain_udp]. destruct data as [|b data]; [done|]. apply IH.
  eapply P_handler; [exact Hw|constructor|done].
Qed.

Lemma turn_ticks fuel : forall w, P w -> P (tick_loop fuel w).
Proof.
  induction fuel as [|fuel IH]; intros w Hw; [done|]. cbn [tick_loop].
  destruct (tickSeconds <=? w_accumulator w)%f64; [|done]. apply IH.
  eapply P_handler; [by apply P_timing, Hw|apply step_tick|done].
Qed.

(** A whole turn, given what the poll of the replies does. *)
Lemma turn_closed udpTimeoutSeconds (t : Turn) w :
  P (db_poll (poll (fun _ _ w => w) (onMessage udpPort) onDisconnect (tn_events t) w)).2 ->
  P (main_step udpPort udpTimeoutSeconds t w).
Proof.
  intros H1. unfold main_step. destruct (db_poll _) as [ok w1]. cbn [snd] in H1.
  assert (H2 : P (if ok then w1 else reconnect (tn_attempts t) w1)).
  { destruct ok; [done|]. by apply turn_reconnect. }
  clear H1. set (w2 := if ok then w1 else _) in *. clearbody w2.
  assert (H3 : P (run_lines udpPort (tn_lines t) w2)).
  { apply foldl_closed; [|done]. intros w3 line H3.
    eapply P_handler; [exact H3|constructor|done]. }
  pose proof (turn_read steady_now _ (turn_drain (tn_datagrams t) _ H3)) as H4.
  destruct (read_clock steady_now _) as [now w4]. cbn [snd] in H4.
  assert (H5 : P (release (tick_loop tick_fuel (accumulate now w4)))).
  { eapply P_handler; [|apply step_release|done]. apply turn_ticks. by apply P_timing. }
  unfold timeouts. pose proof (turn_read steady_now _ H5) as H6.
  destruct (read_clock steady_now (release _)) as [now' w6]. cbn [snd] in H6.
  apply foldl_closed; [|done]. intros w7 id H7. eapply P_handler; [exact H7|constructor|done].
Qed.

End Turn.

(** ** A turn is a run of these steps *)

Definition extends (h : list Label) (w : St) : Prop := exists h', history (h ++ h') w.

Lemma extends_step h w l w' : extends h w -> world_step w l w' -> extends h w'.
Proof.
  intros [h' Hh] Hs. exists (h' ++ option_list l). rewrite app_assoc. by eapply history_step.
Qed.

Lemma world_extends_handler h w l w' : extends h w -> handler_step w l w' -> extends h w'.
Proof. intros Hw Hs. eapply extends_step; [exact Hw|]. by constructor. Qed.

Lemma world_extends_internal h w w' : extends h w -> internal_step w w' -> extends h w'.
Proof. intros Hw Hs. eapply extends_step; [exact Hw|]. by constructor. Qed.

Lemma world_extends_on_db h w f :
  extends h w ->
  (forall n p, mPending (f (db w)) !! n = Some p -> mPending (db w) !! n = Some p) ->
  extends h (on_db f w).
Proof. intros Hw Hf. eapply world_extends_internal; [exact Hw|]. by apply internal_db. Qed.

Lemma world_db_poll_extends h w : extends h w -> extends h (db_poll w).2.
Proof.
  intros Hh. apply db_poll_preserves; try done.
  - intros stream w1 H1. by apply world_extends_on_db.
  - intros w1 H1. by apply world_extends_on_db.
  - intros w1 H1. by apply world_extends_on_db.
  - intros c k w1 H1. eapply world_extends_handler; [exact H1|]. apply step_failed.
  - intros n c k type data w1 Ep H1. destruct (handler_reply c true type data) as [ok reply] eqn:Er.
    eapply world_extends_handler; [exact H1|]. by eapply step_reply.
Qed.

(** A turn of the main loop, whatever the clients, the database server and the
    terminal send. *)
Lemma main_step_extends udpTimeoutSeconds (t : Turn) h w :
  extends h w -> extends h (main_step udpPort udpTimeoutSeconds t w).
Proof.
  intros H0.
  assert (Hs : forall s w, extends h w -> extends h (set_server s w))
    by (intros s w1 H1; eapply world_extends_internal; [exact H1|constructor]).
  assert (Hh : forall w l w', extends h w -> handler_step w l w' ->
    match l with Some (LReply _ _ _ _) => False | _ => True end -> extends h w')
    by (intros w1 l w2 H1 Hl _; by eapply world_extends_handler).
  apply turn_closed; try done.
  - intros e w1 H1. eapply world_extends_internal; [exact H1|constructor].
  - intros a p w1 H1. eapply world_extends_internal; [exact H1|constructor].
  - intros s w1 H1. by apply world_extends_on_db.
  - by apply world_db_poll_extends, turn_poll.
Qed.

(** ** Every step is a transition of the specification *)

Lemma core_on_server f w : core (on_server f w) = core w.
Proof. done. Qed.

Lemma core_print p w : core (print p w) = core w.
Proof. done. Qed.

Lemma core_set_env e w : core (set_env e w) = core w.
Proof. done. Qed.

(** A request changes nothing of the core, even when its callback runs at once
    with a failure. *)
Lemma core_request {CB : DbCallbacks St WorldK} r k w :
  core (CB (call_of r) k false (no_reply (call_of r)) w) = core w ->
  core (request (CB := CB) r k w) = core w.
Proof. intros Hf. unfold request. destruct (mConnected (db w)); [done|exact Hf]. Qed.

Lemma core_final_failed c k reply w : core (final_callback c k false reply w) = core w.
Proof. by destruct k. Qed.

Lemma core_failed c k reply w : core (run c k false reply w) = core w.
Proof. by destruct k. Qed.

Lemma core_ask r (k : WorldK (call_of r)) w : core (request r k w) = core w.
Proof. apply core_request, core_failed. Qed.

Lemma core_removePlayer id w : core (removePlayer id w) = leave id (core w).
Proof.
  unfold removePlayer, leave. cbn [core c_roster c_simulation c_link].
  by destruct (ro_players (w_roster w) !! id).
Qed.

Lemma core_time_command tc value w :
  exists real today, core (apply_time_command tc value w) =
    mkCore (apply_clock real today (clock_op tc value) (w_simulation w)) (w_roster w) (w_link w).
Proof.
  assert (Hset : exists real today, core (set_time_of_day value w) =
    mkCore (apply_clock real today (ClockSet value) (w_simulation w)) (w_roster w) (w_link w)).
  { unfold set_time_of_day, read_clock. destruct (realSeconds (w_env w)) as [real e].
    by exists real, 0. }
  destruct tc as [[]|]; cbn [apply_time_command clock_op]; [exact Hset| | |exact Hset].
  - unfold set_time_speed, read_clock. destruct (realSeconds (w_env w)) as [real e].
    by exists real, 0.
  - unfold reset_clock, read_clock. destruct (secondsToday (w_env w)) as [today e] eqn:Et.
    cbn [w_env set_env]. destruct (realSeconds e) as [real e'] eqn:Er. by exists real, today.
Qed.

Lemma core_onMessage id type data w :
  core (onMessage udpPort id type data w) = core w \/
  core (onMessage udpPort id type data w) = leave id (core w).
Proof.
  unfold onMessage. destruct (world_message_of type) as [m|]; [|by left].
  destruct m; try by left.
  - left. unfold handleJoin. destruct (r_u32 _) as [v r]. destruct (r_string r) as [token r'].
    repeat case_match; try done. apply core_ask.
  - right. unfold handleLogout. by rewrite core_removePlayer.
  - left. unfold handleWorldCommand. destruct (r_string _) as [token r].
    cbn [bool_decide]. repeat case_match; try done; apply core_ask.
  - left. unfold handleWorldCommand. destruct (r_string _) as [token r].
    repeat case_match; try done; apply core_ask.
  - left. unfold handleSetLatency. destruct (r_string _) as [token r].
    destruct (r_u32 r) as [ms r']. repeat case_match; try done. apply core_ask.
Qed.

Lemma core_enter id token session w :
  exists now, core (enter id token session w).2 = join id token session now (core w).
Proof.
  unfold enter, read_clock, join. destruct (steady_now (w_env w)) as [now e].
  exists now. cbn [w_simulation set_roster set_env w_roster core c_roster c_simulation c_link].
  by destruct (addPlayer (ro_next (w_roster w)) (w_simulation w)) as [entityId s].
Qed.

Lemma reply_refines c k ok reply w :
  core_step (Some (LReply c k ok reply)) (core w) (core (run c k ok reply w)).
Proof.
  destruct ok; [|rewrite core_failed; apply core_idle].
  destruct k; cbn [run history_callback World.callback final_callback]; try apply core_idle.
  - unfold onJoinLookup. cbn [negb]. destruct (sl_found reply) eqn:Ef; [|apply core_idle].
    cbn [negb]. destruct (core_enter id token reply w) as [now Hn].
    destruct (enter id token reply w) as [[playerId entityId] w']. cbn [snd] in Hn.
    unfold deleteSession. rewrite core_request by apply core_final_failed.
    unfold sendJoinResponse. rewrite core_on_server, Hn. by apply core_join.
  - unfold onSetLatency. cbn [negb orb]. destruct (sl_found reply) eqn:Ef; [|apply core_idle].
    cbn [negb]. destruct (sl_permissionLevel reply <? permission_code GameMaster) eqn:Ep;
      [apply core_idle|]. bool_to_prop. by apply (core_latency id milliseconds reply (core w)).
  - unfold onWorldCommand. cbn [negb orb]. destruct (sl_found reply) eqn:Ef; [|apply core_idle].
    cbn [negb]. destruct (sl_permissionLevel reply <? permission_code GameMaster) eqn:Ep;
      [apply core_idle|]. bool_to_prop. unfold reply_world. rewrite core_on_server.
    case_bool_decide as Hc; [|apply core_idle]. subst command.
    destruct (core_time_command timeCommand value w) as (real & today & ->).
    by apply (core_clock id timeCommand value reply real today (core w)).
  - unfold onConsoleCreated. repeat case_match; apply core_idle.
  - unfold onConsoleDone. repeat case_match; apply core_idle.
  - unfold onConsoleDone. repeat case_match; apply core_idle.
Qed.

Lemma core_printStatus w : core (printStatus w) = core w.
Proof. done. Qed.

Lemma console_latency_refines line ws w :
  core_step (Some (LConsole line)) (core w) (core (consoleLatency ws w)).
Proof.
  unfold consoleLatency. destruct (_ && _)%bool; [|apply core_idle].
  apply (core_console_latency line _ (core w)).
Qed.

Lemma console_clock_refines line o w w' :
  (exists real today, core w' = mkCore (apply_clock real today o (w_simulation w)) (w_roster w)
                                  (w_link w)) ->
  core_step (Some (LConsole line)) (core w) (core w').
Proof. intros (real & today & ->). apply (core_console_clock line o real today (core w)). Qed.

Lemma console_time_refines line ws w :
  core_step (Some (LConsole line)) (core w) (core (consoleTime ws w)).
Proof.
  unfold consoleTime. destruct (length ws =? 1)%nat; [apply core_idle|].
  case_bool_decide.
  { eapply console_clock_refines, (core_time_command (Some TimeReset) f32_zero). }
  destruct (_ && _)%bool.
  { unfold consoleTimeSet. destruct (split_at _ _) as [[before after]|]; [|apply core_idle].
    destruct (_ || _)%bool; [apply core_idle|].
    eapply console_clock_refines, (core_time_command (Some TimeSet)). }
  destruct (_ && _)%bool; [|apply core_idle].
  eapply console_clock_refines, (core_time_command (Some TimeSpeed)).
Qed.

Lemma core_consoleAccount ws w : core (consoleAccount udpPort ws w) = core w.
Proof.
  unfold consoleAccount. destruct (_ && _)%bool.
  { unfold consoleAccountCreate. destruct (_ <? _)%nat; [done|]. unfold hashPassword.
    destruct (crypto_pwhash_str _ _) as [[hash|] e]; [|done].
    unfold createAccountWithLevel. by rewrite core_ask. }
  destruct (_ && _)%bool; [unfold deleteAccount; apply core_ask|].
  destruct (_ && _)%bool; [|done]. unfold consoleAccountLevel.
  destruct (_ <? _); [done|]. unfold setPermissionLevel. apply core_ask.
Qed.

Lemma console_refines line w :
  core_step (Some (LConsole line)) (core w) (core (runConsoleCommand udpPort line w)).
Proof.
  unfold runConsoleCommand. destruct (words line) as [|command ws]; [apply core_idle|].
  destruct (_ || _)%bool; [apply core_idle|]. repeat case_bool_decide.
  - apply core_idle.
  - rewrite core_print. apply console_latency_refines.
  - rewrite core_print. apply console_time_refines.
  - rewrite core_consoleAccount. apply core_idle.
  - apply core_idle.
Qed.

Lemma findPlayerByUdp_Some from players id p :
  findPlayerByUdp from players = Some (id, p) ->
  players !! id = Some p /\ wp_udpBound p = true /\ wp_udpAddress p = from.
Proof.
  unfold findPlayerByUdp. intros Hh. apply head_Some_elem_of in Hh.
  apply list_elem_of_omap in Hh as (id' & _ & Ho).
  destruct (players !! id') as [p'|] eqn:Ep; [|done].
  destruct (wp_udpBound p') eqn:Eb; [|done]. cbn [andb] in Ho.
  destruct (address_eqb (wp_udpAddress p') from) eqn:Ea; [|done].
  injection Ho as <- <-. apply address_eqb_eq in Ea. done.
Qed.

(** [constantTimeEquals] is equality. *)
Lemma difference_zero a : forall b acc,
  String.length a = String.length b -> 0 <= acc ->
  difference a b acc = 0 <-> acc = 0 /\ a = b.
Proof.
  induction a as [|x a IH]; intros [|y b] acc Hl Hacc; try done; cbn [difference].
  - split; [done|by intros []].
  - injection Hl as Hl.
    assert (Hx : 0 <= Z.lxor (Z.of_N (N_of_ascii x)) (Z.of_N (N_of_ascii y)))
      by (apply Z.lxor_nonneg; lia).
    rewrite (IH b _ Hl) by (apply Z.lor_nonneg; lia).
    rewrite Z.lor_eq_0_iff, Z.lxor_eq_0_iff.
    split.
    + intros ((-> & Hxy) & ->). split; [done|]. f_equal.
      apply N2Z.inj in Hxy. rewrite <- (ascii_N_embedding x), <- (ascii_N_embedding y). congruence.
    + intros (-> & [= -> ->]). done.
Qed.

Lemma constantTimeEquals_iff a b : constantTimeEquals a b = true <-> a = b.
Proof.
  unfold constantTimeEquals. destruct (Nat.eqb_spec (String.length a) (String.length b)) as [Hl|Hl];
    cbn [negb].
  - rewrite Z.eqb_eq, difference_zero by (done || lia). tauto.
  - split; [done|]. by intros ->.
Qed.

Lemma hello_refines from data header off w :
  readUdpHeader data = Some (header, off) ->
  world_message_of (uh_type header) = Some ClientHello ->
  core_step (Some (LDatagram from data)) (core w) (core (handleHello from (drop off data) w)).
Proof.
  intros Eh Et. unfold handleHello.
  destruct (read_hello (open_reader (drop off data))) as [[playerId token] r] eqn:Er.
  destruct (failed r) eqn:Ef; [apply core_idle|].
  destruct (ro_connections (w_roster w) !! playerId) as [id|] eqn:Ec; [|apply core_idle].
  destruct (ro_players (w_roster w) !! id) as [p|] eqn:Ep; [|apply core_idle].
  destruct (constantTimeEquals (wp_token p) token) eqn:Et'; cbn [negb]; [|apply core_idle].
  apply constantTimeEquals_iff in Et'. unfold read_clock.
  destruct (steady_now (w_env w)) as [now e].
  eapply (core_hello from data playerId token id p now (core w)); try done.
  unfold hello_of. rewrite Eh, bool_decide_true by done. by rewrite Er, Ef.
Qed.

Lemma datagram_refines from data w :
  core_step (Some (LDatagram from data)) (core w) (core (handleDatagram from data w)).
Proof.
  unfold handleDatagram. destruct (readUdpHeader data) as [[header off]|] eqn:Eh;
    [|apply core_idle].
  case_bool_decide as Et; [by apply (hello_refines from data header)|].
  destruct (findPlayerByUdp from (ro_players (w_roster w))) as [[id p]|] eqn:Ef;
    [|apply core_idle].
  apply findPlayerByUdp_Some in Ef as (Ep & Eb & Ea).
  unfold read_clock at 1. destruct (steady_now (w_env w)) as [now e].
  assert (Htouch : core_step (Some (LDatagram from data)) (core w)
    (core (update_player (touch_udp now) id (set_env e w)))).
  { by apply (core_touch from data id p now (core w)). }
  case_bool_decide as Ei; [|exact Htouch].
  unfold handleInput. destruct (read_input (open_reader (drop off data))) as [[claimed input] r]
    eqn:Er.
  destruct (failed r) eqn:Efl; [exact Htouch|]. cbn [orb].
  destruct (Z.eqb_spec claimed (wp_playerId p)) as [->|]; [|exact Htouch]. cbn [negb].
  assert (Hin : input_in data = Some (wp_playerId p, input)).
  { unfold input_in. rewrite Eh, bool_decide_true by done. by rewrite Er, Efl. }
  unfold read_clock.
  cbn [w_link update_player set_roster set_env w_env].
  destruct (steady_now e) as [now' e'] eqn:Es.
  assert (Hstep := core_input from data input id p now now' (core w) Hin Ep Eb Ea).
  unfold take_in in Hstep. cbn [c_link core c_simulation c_roster] in Hstep.
  destruct (0 <? ln_latencyMs (w_link w)) eqn:El; cbn [negb];
    cbn [w_link update_player set_roster set_env w_env]; exact Hstep.
Qed.

Lemma core_send_snapshot body w id :
  exists now, core (send_snapshot body w id) = stream now body id (core w).
Proof.
  unfold send_snapshot, stream. cbn [core c_roster c_simulation c_link].
  destruct (ro_players (w_roster w) !! id) as [p|]; [|by exists 0].
  destruct (wp_udpBound p); cbn [negb]; [|by exists 0].
  cbn [w_link update_player set_roster].
  destruct (0 <? ln_latencyMs (w_link w)); [|by exists 0].
  unfold read_clock. destruct (steady_now _) as [now e]. by exists now.
Qed.

Lemma core_send_snapshots body ids : forall w,
  streams body ids (core w) (core (foldl (send_snapshot body) w ids)).
Proof.
  induction ids as [|id ids IH]; intros w; cbn [foldl]; [constructor|].
  destruct (core_send_snapshot body w id) as [now Hn].
  apply (streams_cons body now). rewrite <- Hn. apply IH.
Qed.

Lemma tick_refines w : core_step None (core w) (core (tick w)).
Proof.
  unfold tick, read_clock. destruct (realSeconds (w_env w)) as [real e].
  cbn [w_env set_simulation set_env w_simulation w_roster].
  destruct (steady_now e) as [now e'].
  set (w1 := set_env e' (set_simulation _ (set_env e w))).
  eapply (core_tick real); [|exact (core_send_snapshots _ _ w1)]. by exists (millis_of_nanos now).
Qed.

Lemma release_refines w : core_step None (core w) (core (release w)).
Proof.
  unfold release, read_clock. destruct (steady_now (w_env w)) as [now e].
  cbn [w_link set_env w_simulation].
  pose proof (core_release (seconds_of_nanos now) (core w)) as Hs. unfold release_core in Hs.
  cbn [core c_link c_simulation c_roster] in Hs.
  destruct (release_inputs _ _ _) as [inputs s]. by destruct (release_packets _ _ _).
Qed.

(** Every step of the server makes a transition of the specification. *)
Lemma handler_step_refines w l w' : handler_step w l w' -> core_step l (core w) (core w').
Proof.
  destruct 1.
  - destruct (core_onMessage id type data w) as [->| ->]; [apply core_idle|].
    apply core_leave. eauto.
  - change (core w) with (core (on_db (remove_pending n) w)). apply reply_refines.
  - rewrite core_failed. apply core_idle.
  - unfold onDisconnect. rewrite core_removePlayer. apply core_leave. by left.
  - apply console_refines.
  - apply datagram_refines.
  - apply tick_refines.
  - apply release_refines.
  - unfold drop_player. rewrite core_on_server, core_removePlayer. apply core_leave. by left.
Qed.

Lemma world_step_refines w l w' : world_step w l w' -> core_step l (core w) (core w').
Proof.
  destruct 1 as [l w' Hs|w' Hs]; [by apply handler_step_refines|].
  destruct Hs; apply core_idle.
Qed.

Lemma history_core h w : history h w -> core_history h (core w).
Proof.
  induction 1 as [w [_ Hf]|h w l w' Hh IH Hs]; [by constructor|].
  eapply core_history_step; [exact IH|]. by apply world_step_refines.
Qed.

(** ** What the steps send and request *)

(** The token in the payload of a join request of this protocol version. *)
Definition join_token (data : list byte) : option string :=
  let '(version, r) := r_u32 (open_reader data) in
  let '(token, r) := r_string r in
  if failed r || negb (version =? kProtocolVersion) then None else Some token.

(** The layouts of the administrative requests: a token and a latency; a token,
    and when the clock is to be set what to set and the value. *)
Definition latency_fields (data : list byte) : option (string * Z) :=
  let '((token, milliseconds), r) :=
    (token <-- r_string ;; ms <-- r_u32 ;; rret (token, ms))%reader (open_reader data) in
  if failed r then None else Some (token, milliseconds).

Definition command_fields (command : WorldMessage) (data : list byte)
    : option (string * option TimeCommand * float) :=
  let '(fields, r) :=
    (match command with
     | AdminSetTimeRequest =>
         token <-- r_string ;; code <-- r_u8 ;; value <-- r_f32 ;;
         rret (token, time_command_of code, value)
     | _ => token <-- r_string ;; rret (token, Some TimeSet, f32_zero)
     end)%reader (open_reader data) in
  if failed r then None else Some fields.

(** What a line typed at the console asks of the database: an account with a
    hash of the password typed and the level typed, or none for a player's; the
    removal of the account named; or its level, which exists. *)
Inductive typed (line : string) : Request -> Prop :=
| typed_create name password rest hash :
    words line = "account" :: "create" :: name :: password :: rest ->
    (6 <= String.length password)%nat -> hashed (E := E) password hash ->
    typed line (ReqCreateAccountWithLevel name hash
      match rest with [] => 0 | level :: _ => u8 (atoi (c_str level)) end)
| typed_delete name rest :
    words line = "account" :: "delete" :: name :: rest -> typed line (ReqDeleteAccount name)
| typed_level name level rest :
    words line = "account" :: "level" :: name :: level :: rest ->
    u8 (atoi (c_str level)) <= permission_code Admin ->
    typed line (ReqSetPermissionLevel name (u8 (atoi (c_str level)))).

(** What is known of a pending request: the message that asked for it. *)
Definition justified (h : list Label) (p : Pending WorldK) : Prop :=
  match p_callback p with
  | KJoin id token =>
      exists data, LMessage id (world_message_code JoinRequest) data ∈ h /\
        join_token data = Some token
  | KSetLatency id ms =>
      exists data token, LMessage id (world_message_code AdminSetLatencyRequest) data ∈ h /\
        latency_fields data = Some (token, ms)
  | KWorldCommand id command timeCommand value =>
      exists data token, LMessage id (world_message_code command) data ∈ h /\
        command_fields command data = Some (token, timeCommand, value)
  | KConsoleCreate _ _ | KConsoleDelete _ | KConsoleLevel _ _ => exists line, LConsole line ∈ h
  | KRedeemed => True
  end.

(** The request a continuation waits for, made of a message or of a line of
    which [from] holds. *)
Definition asks (from : Label -> Prop) (r : Request) (p : Pending WorldK) : Prop :=
  match p_callback p with
  | KJoin _ token => r = ReqLookupSession token
  | KSetLatency id ms =>
      exists data token, from (LMessage id (world_message_code AdminSetLatencyRequest) data) /\
        latency_fields data = Some (token, ms) /\ r = ReqLookupSession token
  | KWorldCommand id command timeCommand value =>
      exists data token, from (LMessage id (world_message_code command) data) /\
        command_fields command data = Some (token, timeCommand, value) /\ r = ReqLookupSession token
  | KConsoleCreate _ _ | KConsoleDelete _ | KConsoleLevel _ _ =>
      exists line, from (LConsole line) /\ typed line r
  | KRedeemed => True
  end.

Lemma world_asks_mono (from from' : Label -> Prop) r p :
  (forall a, from a -> from' a) -> asks from r p -> asks from' r p.
Proof.
  intros Hf. unfold asks. destruct (p_callback p); try done.
  1-2: intros (data & token & H1 & H2); exists data, token; auto.
  all: intros (line & H1 & H2); exists line; auto.
Qed.

Definition join_explained (h : list Label) (l : option Label) (id : ConnectionId)
    (payload : list byte) : Prop :=
  exists token session playerId entityId data,
    l = Some (LReply CallLookupSession (KJoin id token) true session) /\
    sl_found session = true /\
    LMessage id (world_message_code JoinRequest) data ∈ h /\ join_token data = Some token /\
    payload = join_payload JoinSuccess playerId udpPort (sl_username session) entityId.

Definition explained (h : list Label) (l : option Label) (o : Output WorldK) : Prop :=
  match o with
  | OSend id type payload =>
      type = world_message_code JoinResponse -> head payload = Some x00 ->
      join_explained h l id payload
  | OClose _ => True
  | ORequest r k =>
      justified (h ++ option_list l) (mkPending (call_of r) k) /\
      asks (fun a => l = Some a) r (mkPending (call_of r) k)
  end.

Lemma world_justified_app h h' p : justified h p -> justified (h ++ h') p.
Proof.
  unfold justified. destruct (p_callback p); try done.
  { intros (data & H1 & H2). exists data. rewrite elem_of_app. auto. }
  1-2: intros (data & token & H1 & H2); exists data, token; rewrite elem_of_app; auto.
  all: intros (x & H1); exists x; rewrite elem_of_app; auto.
Qed.

Lemma join_payload_head result playerId port username entityId :
  head (join_payload result playerId port username entityId) =
  Some (byte_of_Z (join_result_code result)).
Proof. unfold join_payload. autorewrite with writer. by rewrite app_nil_l, <- !app_assoc. Qed.

Lemma emits_join_failure h l n id result (w : St) :
  result <> JoinSuccess -> emits (explained h l) n w (sendJoinResponse id result 0 0 "" 0 w).
Proof.
  intros Hne. apply emits_send. intros _ Hh. rewrite join_payload_head in Hh.
  injection Hh as Hh. by destruct result.
Qed.

Lemma emits_other h l n id m payload (w : St) :
  m <> JoinResponse ->
  emits (explained h l) n w (on_server (server_send id (world_message_code m) payload) w).
Proof. intros Hne. apply emits_send. intros Ht. by destruct m. Qed.

Lemma emits_reply_latency h l n id result (w : St) :
  emits (explained h l) n w (reply_latency id result w).
Proof. by apply (emits_other h l n id AdminSetLatencyResponse). Qed.

Lemma emits_reply_world h l n id command result (w : St) :
  emits (explained h l) n w (reply_world id (command_response command) result w).
Proof.
  unfold reply_world. apply emits_other. unfold command_response. by case_bool_decide.
Qed.

Lemma apply_time_command_parts tc value (w : St) :
  server (apply_time_command tc value w) = server w /\ db (apply_time_command tc value w) = db w.
Proof.
  destruct tc as [[]|]; cbn [apply_time_command];
    unfold set_time_of_day, set_time_speed, reset_clock, read_clock.
  - by destruct (realSeconds _).
  - by destruct (realSeconds _).
  - destruct (secondsToday _) as [today e]. by destruct (realSeconds _).
  - by destruct (realSeconds _).
Qed.

Lemma world_emits_final h l n c k ok reply (w : St) :
  emits (explained h l) n w (final_callback c k ok reply w).
Proof.
  destruct k; cbn [final_callback]; try apply emits_refl.
  - unfold onSetLatency. destruct (_ || _)%bool; [apply emits_reply_latency|].
    destruct (_ <? _); [apply emits_reply_latency|].
    eapply emits_from; [..|apply emits_reply_latency]; done.
  - unfold onWorldCommand. destruct (_ || _)%bool; [apply emits_reply_world|].
    destruct (_ <? _); [apply emits_reply_world|].
    destruct (apply_time_command_parts timeCommand value w) as [H1 H2].
    eapply emits_from; [..|apply emits_reply_world]; by case_bool_decide.
  - unfold onConsoleCreated. repeat case_match; by apply emits_nothing.
  - unfold onConsoleDone. repeat case_match; by apply emits_nothing.
  - unfold onConsoleDone. repeat case_match; by apply emits_nothing.
Qed.

Lemma world_emits_callback h l c k ok reply w :
  ok = false \/ (justified h (mkPending c k) /\ l = Some (LReply c k ok reply)) ->
  emits (explained h l) 1 w (run c k ok reply w).
Proof.
  intros Hl. destruct k; cbn [run history_callback World.callback]; try apply world_emits_final.
  unfold onJoinLookup. destruct ok; cbn [negb]; [|by apply emits_join_failure].
  destruct Hl as [|[(data & Hd & Ht) ->]]; [done|].
  destruct (sl_found reply) eqn:Ef; cbn [negb]; [|by apply emits_join_failure].
  destruct (enter id token reply w) as [[playerId entityId] w1] eqn:Ee.
  assert (Hparts : server w1 = server w /\ db w1 = db w).
  { unfold enter, read_clock in Ee. destruct (steady_now _) as [now e].
    destruct (addPlayer _ _) as [ent s]. by injection Ee as _ _ <-. }
  eapply emits_from; [apply Hparts|apply Hparts|].
  eapply (emits_trans _ 0 1); [|apply emits_request; [lia|by split|apply world_emits_final]].
  apply emits_send. intros _ _. by exists token, reply, playerId, entityId, data.
Qed.

Lemma emits_ask h l r (k : WorldK (call_of r)) w :
  justified (h ++ option_list l) (mkPending (call_of r) k) ->
  asks (fun a => l = Some a) r (mkPending (call_of r) k) ->
  emits (explained h l) 1 w (request r k w).
Proof. intros Hj Ha. apply emits_request; [lia|by split|]. apply world_emits_callback. by left. Qed.

Lemma removePlayer_parts id (w : St) :
  server (removePlayer id w) = server w /\ db (removePlayer id w) = db w.
Proof. unfold removePlayer. by destruct (ro_players (w_roster w) !! id). Qed.

(** A command about the clock: the handler reads the fields of its layout. *)
Lemma emits_world_command h id command data w :
  command = AdminSetTimeRequest \/ command = AdminStatusRequest ->
  let l := Some (LMessage id (world_message_code command) data) in
  LMessage id (world_message_code command) data ∈ h ++ option_list l ->
  emits (explained h l) 1 w (handleWorldCommand udpPort command id (open_reader data) w).
Proof.
  intros Hc l Hin. unfold handleWorldCommand. destruct (r_string _) as [token r1] eqn:E1.
  assert (Hask : forall timeCommand value,
    command_fields command data = Some (token, timeCommand, value) ->
    emits (explained h l) 1 w
      (lookupSession token (KWorldCommand id command timeCommand value) w)).
  { intros timeCommand value Hf. apply emits_ask; exists data, token; by split_and?. }
  destruct Hc as [-> | ->]; unfold command_fields, rbind, rret in Hask.
  - rewrite (bool_decide_eq_true_2 (AdminSetTimeRequest = AdminSetTimeRequest)) by done.
    rewrite E1 in Hask. destruct (r_u8 r1) as [c r2]. destruct (r_f32 r2) as [value r3].
    destruct (failed _); [apply emits_reply_world|by apply Hask].
  - rewrite (bool_decide_eq_false_2 (AdminStatusRequest = AdminSetTimeRequest)) by done.
    rewrite E1 in Hask. destruct (failed _); [apply emits_reply_world|by apply Hask].
Qed.

Lemma world_emits_message h id type data w :
  emits (explained h (Some (LMessage id type data))) 1 w (onMessage udpPort id type data w).
Proof.
  unfold onMessage. destruct (world_message_of type) as [m|] eqn:Em; [|apply emits_refl].
  apply find_code_Some in Em as <-. set (l := Some _).
  assert (Hin : LMessage id (world_message_code m) data ∈ h ++ option_list l)
    by (apply elem_of_app; right; left).
  destruct m; try apply emits_refl.
  - unfold handleJoin. destruct (r_u32 (open_reader data)) as [version r1] eqn:E1.
    destruct (r_string r1) as [token r2] eqn:E2.
    destruct (failed r2) eqn:Ef; [by apply emits_join_failure|].
    destruct (version =? kProtocolVersion) eqn:Ev; cbn [negb]; [|by apply emits_join_failure].
    case_bool_decide; [apply emits_refl|]. apply emits_ask; [|done]. exists data. split; [exact Hin|].
    unfold join_token. by rewrite E1, E2, Ef, Ev.
  - unfold handleLogout. eapply emits_then; [apply (emits_other h l 1 id LogoutResponse [] w); done| |];
      apply removePlayer_parts.
  - apply emits_world_command; [by left|exact Hin].
  - apply emits_world_command; [by right|exact Hin].
  - unfold handleSetLatency. destruct (r_string _) as [token r1] eqn:E1.
    destruct (r_u32 r1) as [ms r2] eqn:E2. destruct (failed r2) eqn:Ef; [apply emits_reply_latency|].
    assert (Hf : latency_fields data = Some (token, ms))
      by (unfold latency_fields, rbind, rret; by rewrite E1, E2, Ef).
    apply emits_ask; exists data, token; by split_and?.
Qed.

(** A line about accounts asks for what it says. *)
Lemma emits_account h line ws w :
  words line = "account"%string :: ws ->
  emits (explained h (Some (LConsole line))) 1 w (consoleAccount udpPort ("account"%string :: ws) w).
Proof.
  intros Hl.
  assert (Hask : forall r (k : WorldK (call_of r)) w1,
    match k with KConsoleCreate _ _ | KConsoleDelete _ | KConsoleLevel _ _ => True | _ => False end ->
    typed line r -> emits (explained h (Some (LConsole line))) 1 w1 (request r k w1)).
  { intros r k w1 Hk Ht. apply emits_ask; unfold justified, asks; cbn [p_callback];
      (destruct k; try done); exists line;
      first [by split|apply elem_of_app; right; left]. }
  assert (Hlen : forall n k, (n <=? length ("account"%string :: ws))%nat && k = true ->
    (n <= S (length ws))%nat /\ k = true).
  { intros n k [Hn%Nat.leb_le Hk]%andb_true_iff. done. }
  unfold consoleAccount. destruct (_ && _)%bool eqn:Ec; [|clear Ec; destruct (_ && _)%bool eqn:Ec;
    [|clear Ec; destruct (_ && _)%bool eqn:Ec; [|by apply emits_nothing]]];
    apply Hlen in Ec as [Hn Hword%bool_decide_eq_true]; clear Hlen.
  - destruct ws as [|command [|name [|password rest]]]; cbn [length] in Hn; try lia.
    cbn [get nth] in Hword. subst command. unfold consoleAccountCreate.
    cbn [get nth]. destruct (_ <? _)%nat eqn:Ep; [by apply emits_nothing|]. apply Nat.ltb_ge in Ep.
    unfold hashPassword. destruct (crypto_pwhash_str _ _) as [[hash|] e] eqn:Eh;
      [|by apply emits_nothing].
    eapply emits_from; [..|apply Hask]; [done..|].
    assert (Ht : typed line (ReqCreateAccountWithLevel name hash
      match rest with [] => 0 | level :: _ => u8 (atoi (c_str level)) end))
      by (eapply typed_create; [exact Hl|done|exists (w_env w); by rewrite Eh]).
    by destruct rest.
  - destruct ws as [|command [|name rest]]; cbn [length] in Hn; try lia.
    cbn [get nth] in Hword |- *. subst command. apply Hask; [done|]. by eapply typed_delete.
  - destruct ws as [|command [|name [|level rest]]]; cbn [length] in Hn; try lia.
    cbn [get nth] in Hword. subst command. unfold consoleAccountLevel. cbn [get nth].
    destruct (_ <? _) eqn:El; [by apply emits_nothing|]. bool_to_prop.
    apply Hask; [done|]. by eapply typed_level.
Qed.

Lemma emits_console h line w :
  emits (explained h (Some (LConsole line))) 1 w (runConsoleCommand udpPort line w).
Proof.
  unfold runConsoleCommand. destruct (words line) as [|command ws] eqn:Ews; [by apply emits_nothing|].
  destruct (_ || _)%bool; [by apply emits_nothing|]. repeat case_bool_decide;
    try by apply emits_nothing.
  - unfold consoleLatency. destruct (_ && _)%bool; by apply emits_nothing.
  - unfold consoleTime. destruct (_ =? _)%nat; [by apply emits_nothing|].
    assert (Ht : forall tc value, emits (explained h (Some (LConsole line))) 1 w
      (print PPrompt (printStatus (apply_time_command tc value w)))).
    { intros tc value. destruct (apply_time_command_parts tc value w).
      by apply emits_nothing. }
    case_bool_decide; [apply (Ht (Some TimeReset) f32_zero)|].
    destruct (_ && _)%bool.
    { unfold consoleTimeSet. destruct (split_at _ _) as [[? ?]|]; [|by apply emits_nothing].
      destruct (_ || _)%bool; [by apply emits_nothing|]. apply (Ht (Some TimeSet)). }
    destruct (_ && _)%bool; [|by apply emits_nothing].
    unfold set_time_speed, read_clock. destruct (realSeconds _). by apply emits_nothing.
  - subst command. by apply emits_account.
Qed.

Lemma datagram_parts from data w :
  server (handleDatagram from data w) = server w /\ db (handleDatagram from data w) = db w.
Proof.
  unfold handleDatagram. destruct (readUdpHeader data) as [[header off]|]; [|done].
  case_bool_decide.
  - unfold handleHello, read_clock. destruct (read_hello _) as [[? ?] ?].
    destruct (steady_now (w_env w)). by repeat case_match.
  - destruct (findPlayerByUdp _ _) as [[id p]|]; [|done]. unfold read_clock.
    destruct (steady_now (w_env w)) as [now e]. case_bool_decide; [|done].
    unfold handleInput. destruct (read_input _) as [[? ?] ?].
    destruct (_ || _)%bool; [done|]. unfold read_clock.
    destruct (0 <? _); [|done]. by destruct (steady_now _).
Qed.

Lemma send_snapshot_parts body id (w : St) :
  server (send_snapshot body w id) = server w /\ db (send_snapshot body w id) = db w.
Proof.
  unfold send_snapshot. destruct (ro_players (w_roster w) !! id) as [p|]; [|done].
  destruct (wp_udpBound p); [|done]. cbn [negb]. destruct (0 <? _); [|done].
  unfold read_clock. by destruct (steady_now _).
Qed.

Lemma send_snapshots_parts body ids : forall w : St,
  server (foldl (send_snapshot body) w ids) = server w /\
  db (foldl (send_snapshot body) w ids) = db w.
Proof.
  induction ids as [|id ids IH]; intros w; [done|]. cbn [foldl].
  destruct (IH (send_snapshot body w id)) as [-> ->]. apply send_snapshot_parts.
Qed.

Lemma tick_parts (w : St) : server (tick w) = server w /\ db (tick w) = db w.
Proof.
  unfold tick, read_clock. destruct (realSeconds (w_env w)) as [real e].
  cbn [w_env set_simulation set_env]. destruct (steady_now e) as [now e'].
  set (w1 := set_env e' _). exact (send_snapshots_parts _ _ w1).
Qed.

Lemma release_parts (w : St) : server (release w) = server w /\ db (release w) = db w.
Proof.
  unfold release, read_clock. destruct (steady_now (w_env w)) as [now e].
  destruct (release_inputs _ _ _). by destruct (release_packets _ _ _).
Qed.

Definition pending_justified (h : list Label) (w : St) : Prop :=
  forall n p, mPending (db w) !! n = Some p -> justified h p.

Lemma world_handler_step_explained h w l w' :
  pending_justified h w -> handler_step w l w' ->
  exists log, handler_outputs w w' log /\ Forall (explained h l) log /\ (requests log <= 1)%nat.
Proof.
  intros Hj Hs. destruct Hs as [id type data|n c k type data ok reply E0 Er|c k|id|line|from data
    | | |id].
  - apply emits_handled, world_emits_message.
  - apply (emits_handled_reply _ _ n), world_emits_callback. right. split; [by eapply Hj|done].
  - apply emits_handled, (world_emits_callback h None). by left.
  - apply emits_handled, emits_nothing; apply removePlayer_parts.
  - apply emits_handled, emits_console.
  - apply emits_handled, emits_nothing; apply datagram_parts.
  - apply emits_handled, emits_nothing; apply tick_parts.
  - apply emits_handled, emits_nothing; apply release_parts.
  - apply emits_handled. unfold drop_player.
    eapply emits_from; [..|by apply emits_close]; apply removePlayer_parts.
Qed.

(** Every pending request is justified by the history. *)
Lemma world_history_justified h w : history h w -> pending_justified h w.
Proof.
  induction 1 as [w [Ep _]|h w l w' Hh IH Hs].
  - intros n p. by rewrite Ep, lookup_empty.
  - intros n p E0. destruct Hs as [l w' Hs|w' Hs].
    + destruct (world_handler_step_explained h w l w' IH Hs) as (log & (d & Hd & _ & _ & _ & Ho) & Hex & _).
      destruct (outputs_pending _ _ _ _ _ _ _ Ho E0) as [Ep|(r & k & Hin & ->)].
      * apply world_justified_app. by eapply IH, Hd.
      * rewrite Forall_forall in Hex. exact (proj1 (Hex _ Hin)).
    + rewrite app_nil_r. destruct Hs as [s|d Hd|e|a b]; [by eapply IH|by eapply IH, Hd
        |by eapply IH|by eapply IH].
Qed.

(** The pending request a label answers. *)
Definition answered (a : Label) : option (Pending WorldK) :=
  match a with LReply c k _ _ => Some (mkPending c k) | _ => None end.

(** The message that led to a reply is in the history. *)
Definition requested (h : list Label) (a : Label) : Prop :=
  forall p, answered a = Some p -> justified h p.

Lemma handler_step_requested h w a w' :
  history h w -> handler_step w (Some a) w' -> requested h a.
Proof.
  intros Hh Hs p Hp. remember (Some a) as l eqn:El.
  destruct Hs; try discriminate; injection El as <-; try discriminate.
  injection Hp as <-. by eapply world_history_justified.
Qed.

End WorldHistory.
