(* ===== verification/WorldProperties.v ===== *)
(** * Properties of the world server *)

From Stdlib Require Import ZArith Lia Strings.Byte Strings.Ascii Strings.String.
From Stdlib Require Import Floats.SpecFloat.
From stdpp Require Import base list option gmap strings.
From S2P Require Import Prelude Float32 Platform Config ByteStream Protocol Snapshot Framing.
From S2P Require Import Address Terrain Character Simulation Ticks TcpServer DbClient Outputs.
From S2P Require Import Console World WorldConsole WorldLoop WorldSpec WorldHistory.
Import ByteWriter.

Open Scope Z_scope.

Section WorldProperties.
Context {E : Type} `{HSod : Sodium E} `{HClk : Clocks E} `{HLibm : Libm} `{HAtof : Atof}.
Variable udpPort : Z.

Abbreviation St := (World E).
#[local] Instance properties_callback : DbCallbacks St WorldK := World.callback udpPort.

(** C5: The main loop implements the specification. From any state of a run, one
    turn of the loop, whatever the clients, the database server, the network and
    the terminal do in it, continues the run, and seen as simulation, roster and
    link it only makes transitions the specification allows. *)
Theorem main_step_refines udpTimeoutSeconds (t : Turn) h (w : St)
    (Hh : history udpPort h w) :
  exists h', history udpPort (h ++ h') (main_step udpPort udpTimeoutSeconds t w) /\
    core_history (h ++ h') (core (main_step udpPort udpTimeoutSeconds t w)).
Proof.
  destruct (main_step_extends udpPort udpTimeoutSeconds t h w) as [h' Hh'].
  { exists []. by rewrite app_nil_r. }
  exists h'. split; [done|]. by eapply history_core.
Qed.

(** C16: The world is streamed only to addresses that proved a session. In every
    run, each datagram given to the UDP socket, each one held back on the
    simulated link, and each address a player is bound to belongs to an address
    from which a hello came with the token of a session that the database had
    confirmed for a join. *)
Theorem streamed_only_to_proven h (w : St) (Hh : history udpPort h w) :
  (forall a data, (a, data) ∈ ln_sent (w_link w) -> proven h a) /\
  (forall p, p ∈ ln_outgoing (w_link w) -> proven h (dp_address p)) /\
  (forall id p, ro_players (w_roster w) !! id = Some p ->
     admitted h id (wp_token p) /\ (wp_udpBound p = true -> proven h (wp_udpAddress p))).
Proof.
  destruct (core_history_stream h (core w) (history_core udpPort h w Hh)) as (H1 & H2 & H3).
  rewrite Forall_forall in H2. rewrite Forall_forall in H3. split_and!; [|exact H2|].
  - intros a data Hin. exact (H3 _ Hin).
  - intros id p E0. destruct (H1 id p E0). auto using entered_admitted.
Qed.

(** C8: Every player has one body and one connection. In every run with fewer
    than 2^32 - 1000 joins, the players present are registered under their own
    ids on their own connections, the ids are different, a body exists in the
    simulation for exactly the registered ids, and no two bodies are the same
    entity. *)
Theorem players_have_bodies h (w : St)
    (Hh : history udpPort h w) (Hj : joins h + kFirstPlayerEntityId < 2 ^ 32) :
  (forall id p, ro_players (w_roster w) !! id = Some p ->
     wp_connection p = id /\
     exists body, sim_players (w_simulation w) !! wp_playerId p = Some body) /\
  (forall id1 id2 p1 p2, ro_players (w_roster w) !! id1 = Some p1 ->
     ro_players (w_roster w) !! id2 = Some p2 -> wp_playerId p1 = wp_playerId p2 -> id1 = id2) /\
  (forall playerId, is_Some (sim_players (w_simulation w) !! playerId) <->
                    is_Some (ro_connections (w_roster w) !! playerId)) /\
  (forall i1 i2 b1 b2, sim_players (w_simulation w) !! i1 = Some b1 ->
     sim_players (w_simulation w) !! i2 = Some b2 -> sp_entityId b1 = sp_entityId b2 -> i1 = i2).
Proof.
  destruct (core_history_ok h (core w) (history_core udpPort h w Hh) Hj)
    as [(H1 & H2 & H3 & H4) _].
  cbn [core c_roster c_simulation] in *. split_and!; [| |exact H3|apply H4].
  - intros id p Ep. destruct (H1 id p Ep) as [Hc Hp]. split; [done|].
    destruct (proj2 (H3 (wp_playerId p))) as [body Hb]; [by eexists|]. by exists body.
  - intros id1 id2 p1 p2 E1 E2 Heq. destruct (H1 id1 p1 E1) as [_ Hp1].
    destruct (H1 id2 p2 E2) as [_ Hp2]. congruence.
Qed.

(** No player enters without a session. In every run, whatever a handler puts
    out: if it sends a successful join response, then the database has just
    resolved a token to a live session, that same connection sent a join request
    with that token earlier, and the response names the session's account. *)
Theorem join_authenticated h (w : St) l w'
    (Hh : history udpPort h w) (Hs : handler_step udpPort w l w') :
  exists log, handler_outputs w w' log /\
    forall id payload,
      OSend id (world_message_code JoinResponse) payload ∈ log ->
      head payload = Some x00 -> join_explained udpPort h l id payload.
Proof.
  destruct (world_handler_step_explained udpPort h w l w' (world_history_justified udpPort h w Hh) Hs)
    as (log & Ho & Hex & _).
  exists log. split; [done|]. intros id payload Hin Hhead.
  rewrite Forall_forall in Hex. by apply (Hex _ Hin).
Qed.

(** A join does what it says. When the lookup of a token finds a session and
    the connection has no player yet, the player is entered under a fresh id with
    that token, not yet bound to any address; it gets a body of its own; the
    response carries its id and the entity of that body; and the token is
    redeemed: its deletion is requested, so it cannot be used again. *)
Theorem join_admits (id : ConnectionId) (token : string) (session : SessionLookup) (w : St)
    (Hfound : sl_found session = true)
    (Hnew : ro_players (w_roster w) !! id = None)
    (Hbody : sim_players (w_simulation w) !! ro_next (w_roster w) = None)
    (Hdb : mConnected (db w) = true) :
  let w' := onJoinLookup udpPort id token true session w in
  let playerId := ro_next (w_roster w) in
  let entityId := sim_nextPlayerEntityId (w_simulation w) in
  (exists now, ro_players (w_roster w') !! id =
     Some (mkPlayer playerId (sl_accountId session) (sl_username session) token id false
             default_address 0 now)) /\
  ro_connections (w_roster w') !! playerId = Some id /\
  (exists body, sim_players (w_simulation w') !! playerId = Some body /\
     sp_entityId body = entityId) /\
  server w' = server_send id (world_message_code JoinResponse)
    (join_payload JoinSuccess playerId udpPort (sl_username session) entityId) (server w) /\
  db w' = issue (ReqDeleteSession token) KRedeemed (db w).
Proof.
  cbv zeta. unfold onJoinLookup. rewrite Hfound. cbn [negb].
  unfold enter, read_clock. destruct (steady_now (w_env w)) as [now e].
  cbn [w_roster set_env set_roster w_simulation]. rewrite Hnew.
  unfold addPlayer. rewrite Hbody. unfold deleteSession, request.
  cbn [sendJoinResponse on_server db world_has_db w_db set_server world_has_server set_simulation
    set_roster set_env].
  cbn [db world_has_db] in Hdb. rewrite Hdb. cbn [negb].
  split_and!; [exists now|..]; cbn; rewrite ?lookup_insert, ?decide_True by done; try done.
  eexists. by split.
Qed.

(** ** Inputs *)

Definition in_stick_range (v : float) : Prop :=
  is_nan v = true \/ ((- f32_one <=? v)%f32 = true /\ (v <=? f32_one)%f32 = true).

Lemma clamp_stick v : in_stick_range (clamp v (- f32_one)%f32 f32_one).
Proof.
  destruct (is_nan v) eqn:En.
  - left. by rewrite clamp_nan.
  - right. by apply clamp_range.
Qed.

Lemma input_in_range data playerId input :
  input_in data = Some (playerId, input) ->
  in_stick_range (ci_moveForward input) /\ in_stick_range (ci_moveRight input).
Proof.
  unfold input_in. destruct (readUdpHeader data) as [[header off]|]; [|done].
  case_bool_decide; [|done]. unfold read_input, rbind, rret.
  destruct (r_u64 _) as [claimed r1]. destruct (r_u32 r1) as [sequence r2].
  destruct (r_f32 r2) as [forward r3]. destruct (r_f32 r3) as [right r4].
  destruct (r_f32 r4) as [yaw r5]. destruct (r_u8 r5) as [buttons r6].
  destruct (failed r6); [done|]. intros [= _ <-]. split; apply clamp_stick.
Qed.

(** C10: Only a player's own address moves it. A datagram changes the inputs of the
    simulation, or those held back on the link, only if it is an input from the
    address a player is bound to and names that player; then exactly that
    player's input is set or queued, with its movement clamped to the stick's
    range (or not a number). Every other datagram leaves both as they are. *)
Theorem input_authority (from : Address) (data : list byte) (w : St) :
  let w' := handleDatagram from data w in
  (w_simulation w' = w_simulation w /\ ln_inputs (w_link w') = ln_inputs (w_link w)) \/
  exists id p input,
    ro_players (w_roster w) !! id = Some p /\ wp_udpBound p = true /\ wp_udpAddress p = from /\
    input_in data = Some (wp_playerId p, input) /\
    in_stick_range (ci_moveForward input) /\ in_stick_range (ci_moveRight input) /\
    ((ln_latencyMs (w_link w) <= 0 /\ ln_inputs (w_link w') = ln_inputs (w_link w) /\
      w_simulation w' = setInput (wp_playerId p) input (w_simulation w)) \/
     (0 < ln_latencyMs (w_link w) /\ w_simulation w' = w_simulation w /\
      exists now, ln_inputs (w_link w') = ln_inputs (w_link w) ++
        [mkDelayedInput (due_at now (ln_latencyMs (w_link w))) (wp_playerId p) input])).
Proof.
  cbv zeta. pose proof (datagram_refines from data w) as Hs.
  remember (Some (LDatagram from data)) as l eqn:El.
  remember (core w) as c eqn:Ec. remember (core (handleDatagram from data w)) as c' eqn:Ec'.
  assert (Hsim : forall c0, core (handleDatagram from data w) = c0 ->
    w_simulation (handleDatagram from data w) = c_simulation c0 /\
    w_link (handleDatagram from data w) = c_link c0) by (by intros c0 <-).
  destruct Hs as [l c|id token session now c Hf|l id c Hl|id ms session c Hg|line ms c
    |id tc value session real today c Hg|line o real today c
    |from' data' playerId token id p now c Hh Hcn Hp Ht|from' data' id p now c Hp Hb Ha
    |from' data' input id p now now' c Hi Hp Hb Ha|real body c c' s Hbody Hst|now c];
    try discriminate El; subst c; apply eq_sym, Hsim in Ec' as [-> ->].
  - by left.
  - exfalso. destruct Hl as [->|(type & d & ->)]; discriminate El.
  - by left.
  - by left.
  - injection El as -> ->. right. exists id, p, input.
    destruct (input_in_range data _ input Hi) as [H1 H2].
    split_and!; try done. unfold take_in. cbn [c_link c_simulation c_roster core].
    destruct (0 <? ln_latencyMs (w_link w)) eqn:Elt; bool_to_prop; [right|left].
    + split; [done|]. split; [done|]. by exists now'.
    + split; [lia|done].
Qed.

(** ** The simulated link *)

(** The simulated link delays, and does nothing else. When the link is
    serviced, the inputs and the packets that leave it are the oldest ones, as
    long as they are due, in the order they went in; the inputs are applied and
    the packets are sent in that order; all the others stay. *)
Theorem release_in_order (w : St) :
  let w' := release w in
  exists now inputs packets,
    ln_inputs (w_link w) = inputs ++ ln_inputs (w_link w') /\
    ln_outgoing (w_link w) = packets ++ ln_outgoing (w_link w') /\
    w_simulation w' =
      foldl (fun s i => setInput (di_playerId i) (di_input i) s) (w_simulation w) inputs /\
    ln_sent (w_link w') =
      ln_sent (w_link w) ++ ((fun p => (dp_address p, dp_data p)) <$> packets) /\
    Forall (fun i => SFleb (di_dueAt i) now = true) inputs /\
    Forall (fun p => SFleb (dp_dueAt p) now = true) packets /\
    (forall i, head (ln_inputs (w_link w')) = Some i -> SFleb (di_dueAt i) now = false) /\
    (forall p, head (ln_outgoing (w_link w')) = Some p -> SFleb (dp_dueAt p) now = false).
Proof.
  cbv zeta. unfold release, read_clock. destruct (steady_now (w_env w)) as [ns e].
  cbn [w_link set_env w_simulation]. set (now := seconds_of_nanos ns). exists now.
  destruct (release_inputs_spec now (ln_inputs (w_link w)) (w_simulation w))
    as (inputs & H1 & H2 & H3 & H4).
  destruct (release_packets_spec now (ln_outgoing (w_link w)) (ln_sent (w_link w)))
    as (packets & H5 & H6 & H7 & H8).
  exists inputs, packets.
  destruct (release_inputs _ _ _) as [qi s], (release_packets _ _ _) as [qp sent].
  by split_and!.
Qed.

(** ** Ticks *)

Lemma send_snapshots_timing body ids : forall w : St,
  w_accumulator (foldl (send_snapshot body) w ids) = w_accumulator w /\
  w_simulation (foldl (send_snapshot body) w ids) = w_simulation w.
Proof.
  induction ids as [|id ids IH]; intros w; [done|]. cbn [foldl].
  destruct (IH (send_snapshot body w id)) as [-> ->].
  unfold send_snapshot. destruct (ro_players (w_roster w) !! id) as [p|]; [|done].
  destruct (wp_udpBound p); [|done]. cbn [negb]. destruct (0 <? _); [|done].
  unfold read_clock. by destruct (steady_now _).
Qed.

Lemma one_tick_spec (w : St) :
  w_accumulator (one_tick w) = (w_accumulator w - tickSeconds)%f64 /\
  sim_tick (w_simulation (one_tick w)) = u32 (sim_tick (w_simulation w) + 1).
Proof.
  unfold one_tick, tick, read_clock. cbn [w_env set_timing].
  destruct (realSeconds (w_env w)) as [real e].
  cbn [w_env set_simulation set_env w_simulation set_timing].
  destruct (steady_now e) as [now e'].
  match goal with |- context [foldl (send_snapshot ?body) ?w1 ?ids] =>
    destruct (send_snapshots_timing body ids w1) as [-> ->] end.
  done.
Qed.

(** C34: A stalled server does not try to catch up forever. However long ago the
    last turn was, one turn runs at most fifteen ticks, each of which advances
    the tick counter by one, and then less than a tick's time is left in the
    accumulator. (The sum the cap is applied to is a binary64 number, as every
    [double] is.) *)
Theorem ticks_bounded (now : Z) (w : St)
    (Hdouble : valid_binary 53 1024
      (w_accumulator w + seconds_of_nanos (now - w_previous w))%f64 = true) :
  let w' := tick_loop tick_fuel (accumulate now w) in
  (tickSeconds <=? w_accumulator w')%f64 = false /\
  exists k, (k <= 15)%nat /\ w' = Nat.iter k one_tick (accumulate now w) /\
    u32 (sim_tick (w_simulation w')) = u32 (sim_tick (w_simulation w) + Z.of_nat k).
Proof.
  cbv zeta.
  destruct (catch_up_capped w_accumulator one_tick tick_loop (fun w => proj1 (one_tick_spec w))
    (fun fuel w => eq_refl) _ (accumulate now w) Hdouble eq_refl) as (k & Hk & Heq & Hend).
  split; [exact Hend|]. exists k. split; [lia|]. split; [exact Heq|].
  unfold tick_fuel. rewrite Heq.
  assert (Hiter : forall k (w : St),
      u32 (sim_tick (w_simulation (Nat.iter k one_tick w)))
      = u32 (sim_tick (w_simulation w) + Z.of_nat k)).
    { clear. intros k. induction k as [|k IH]; intros w; [cbn; by rewrite Z.add_0_r|].
      rewrite Nat.iter_succ. destruct (one_tick_spec (Nat.iter k one_tick w)) as [_ ->].
      unfold wrap in *. rewrite Zmod_mod, Zplus_mod, IH, <- Zplus_mod. f_equal. lia. }
  rewrite Hiter. done.
Qed.

(** ** Timeouts *)

Lemma drop_players ids : forall (w : St) id,
  ro_players (w_roster (foldl drop_player w ids)) !! id =
  if decide (id ∈ ids) then None else ro_players (w_roster w) !! id.
Proof.
  induction ids as [|i ids IH]; intros w id; cbn [foldl].
  - rewrite decide_False; [done|]. apply not_elem_of_nil.
  - rewrite IH. destruct (decide (id ∈ ids)) as [Hin|Hin].
    + rewrite decide_True; [done|by right].
    + assert (Hd : ro_players (w_roster (drop_player w i)) !! id =
        if decide (i = id) then None else ro_players (w_roster w) !! id).
      { unfold drop_player, removePlayer, on_server. cbn [w_roster set_server world_has_server].
        destruct (ro_players (w_roster w) !! i) as [p|] eqn:Ep; cbn [w_roster set_roster ro_players].
        - rewrite lookup_delete. by destruct (decide (i = id)).
        - destruct (decide (i = id)) as [->|]; done. }
      rewrite Hd. destruct (decide (i = id)) as [->|Hne].
      * rewrite decide_True; [done|left].
      * rewrite decide_False; [done|]. intros [->|]%elem_of_cons; done.
Qed.

Lemma drop_closing ids : forall w : St,
  mClosing (server (foldl drop_player w ids)) = mClosing (server w) ++ ids.
Proof.
  induction ids as [|i ids IH]; intros w; cbn [foldl]; [by rewrite app_nil_r|].
  rewrite IH. unfold drop_player. rewrite server_on_server. cbn [closeConnection mClosing].
  destruct (removePlayer_parts i w) as [-> _]. by rewrite <- app_assoc.
Qed.

(** Silent players are dropped, and no others. After the timeouts of a turn
    the players left are exactly those who have not bound an address yet or whose
    last datagram is recent enough; the connections of the others, and only
    those, have been marked to be closed. *)
Theorem timeouts_drop_silent udpTimeoutSeconds (w : St) :
  let w' := timeouts udpTimeoutSeconds w in
  exists now,
    let silent p := wp_udpBound p = true /\
      wp_lastUdpPacket p < now - udpTimeoutSeconds * nanos_per_second in
    (forall id p, ro_players (w_roster w') !! id = Some p <->
       ro_players (w_roster w) !! id = Some p /\ ~ silent p) /\
    exists ids, mClosing (server w') = mClosing (server w) ++ ids /\
      forall id, id ∈ ids <-> exists p, ro_players (w_roster w) !! id = Some p /\ silent p.
Proof.
  cbv zeta. unfold timeouts, read_clock. destruct (steady_now (w_env w)) as [now e]. exists now.
  cbn [w_roster set_env].
  set (deadline := now - udpTimeoutSeconds * nanos_per_second).
  assert (Hin : forall id, id ∈ timed_out deadline (ro_players (w_roster w)) <->
    exists p, ro_players (w_roster w) !! id = Some p /\
      (wp_udpBound p = true /\ wp_lastUdpPacket p < deadline)).
  { intros id. unfold timed_out. rewrite list_elem_of_filter, elem_of_map_keys.
    destruct (ro_players (w_roster w) !! id) as [p|].
    - rewrite andb_true_iff, Z.ltb_lt. split; [intros [? _]; eauto|].
      intros (p' & [= <-] & ?). eauto.
    - split; [by intros []|by intros (? & ? & _)]. }
  split.
  - intros id p. rewrite drop_players. cbn [w_roster set_env].
    destruct (decide (id ∈ timed_out deadline (ro_players (w_roster w)))) as [Hi|Hi].
    + split; [done|]. intros [Ep Hn]. apply Hin in Hi as (p' & Ep' & Hs). congruence.
    + split; [|tauto]. intros Ep. split; [done|]. intros Hs. apply Hi, Hin. eauto.
  - exists (timed_out deadline (ro_players (w_roster w))). split; [|exact Hin].
    apply (drop_closing _ (set_env e w)).
Qed.

End WorldProperties.

(** ** A concrete run *)

(** A platform on which time stands still and hashing hides nothing. *)
Definition toy_sodium : Sodium Z :=
  {| randombytes_buf n e := (repeat (byte_of_Z e) n, e + 1);
     crypto_pwhash_str password e := (Some ("h:" +:+ password)%string, e);
     crypto_pwhash_str_verify hash password := bool_decide (hash = "h:" +:+ password)%string |}.

Definition toy_clocks : Clocks Z :=
  {| steady_now e := (e, e); realSeconds e := (f64_zero, e); secondsToday e := (0, e) |}.

Definition toy_atof : Atof := {| atof _ := f64_zero |}.

#[local] Existing Instances toy_sodium toy_clocks toy_atof axis_libm.

Definition toy_stream : MessageStream := new_stream (mkSocket [] [] []).

Definition toy_start : World Z :=
  mkWorld
    (mkServer {[ 1 := mkConnection toy_stream (mkAddress 1 1) ]} [] 2)
    (mkDbClient (Some toy_stream) ∅ 1 true) 42 new_simulation (mkRoster ∅ ∅ 1)
    (mkLink 0 [] [] []) [] f64_zero 0.

Lemma toy_start_fresh : fresh toy_start.
Proof. done. Qed.

Definition join_request (token : string) : list byte :=
  w_string token (w_u32 kProtocolVersion []).

Definition toy_session : SessionLookup :=
  {| sl_found := true; sl_accountId := 5; sl_username := "alex"; sl_permissionLevel := 0 |}.

Definition session_reply (requestId : Z) : list byte :=
  w_u8 0 (w_string "alex" (w_u64 5 (w_u8 1 (w_u32 requestId [])))).

Definition toy_hello : list byte :=
  writeUdpHeader [] (world_message_code ClientHello) 0 ++ w_string "t" (w_u64 1 []).

Definition toy_1 : World Z := onMessage 7003 1 200 (join_request "t") toy_start.
Definition toy_2 : World Z :=
  World.callback 7003 _ (KJoin 1 "t") true toy_session (on_db (remove_pending 1) toy_1).
Definition toy_3 : World Z := handleDatagram (mkAddress 9 9) toy_hello toy_2.
Definition toy_4 : World Z := tick toy_3.

Definition toy_history : list Label :=
  [LMessage 1 200 (join_request "t"); LReply _ (KJoin 1 "t") true toy_session;
   LDatagram (mkAddress 9 9) toy_hello].

Lemma toy_history_2 : history 7003 (take 2 toy_history) toy_2.
Proof.
  change (take 2 toy_history) with
    (([] ++ option_list (Some (LMessage 1 200 (join_request "t"))))
     ++ option_list (Some (LReply _ (KJoin 1 "t") true toy_session))).
  eapply (history_step 7003 _ toy_1);
    [eapply (history_step 7003 _ toy_start); [apply history_start, toy_start_fresh|]|].
  - apply world_handler, step_message.
  - apply world_handler.
    by eapply (step_reply 7003 toy_1 1 _ (KJoin 1 "t") 107 (session_reply 1)).
Qed.

Lemma toy_history_4 : history 7003 toy_history toy_4.
Proof.
  change toy_history with ((take 2 toy_history
    ++ option_list (Some (LDatagram (mkAddress 9 9) toy_hello))) ++ option_list None).
  eapply (history_step 7003 _ toy_3);
    [eapply (history_step 7003 _ toy_2); [apply toy_history_2|]|].
  - apply world_handler, step_datagram.
  - apply world_handler, step_tick.
Qed.

(** The snapshot of that tick goes to the address the player said hello from. *)
Example toy_streams : fst <$> ln_sent (w_link toy_4) = [mkAddress 9 9].
Proof. vm_compute. reflexivity. Qed.

Lemma main_step_refines_witness :
  exists h', history 7003 (toy_history ++ h')
    (main_step 7003 30 (mkTurn (mkEvents [] [1]) [None] ["status"%string] []) toy_4) /\
  core_history (toy_history ++ h')
    (core (main_step 7003 30 (mkTurn (mkEvents [] [1]) [None] ["status"%string] []) toy_4)).
Proof. apply main_step_refines, toy_history_4. Defined.

Lemma streamed_only_to_proven_witness :
  Forall (fun d => proven toy_history (fst d)) (ln_sent (w_link toy_4)) /\
  fst <$> ln_sent (w_link toy_4) = [mkAddress 9 9].
Proof.
  split; [|exact toy_streams].
  apply Forall_forall. intros [a data].
  apply (proj1 (streamed_only_to_proven 7003 toy_history toy_4 toy_history_4)).
Defined.

Example toy_latency_capped :
  ln_latencyMs (w_link (runConsoleCommand 7003 "latency set 9000" toy_4)) = 2000.
Proof. vm_compute. reflexivity. Qed.

Example toy_console_lines :
  w_printed (run_lines 7003 ["time"; "time set 06:30"; "time set 24:00"; "account level alex 3";
    "frobnicate"]%string toy_4) =
  [PStatus 0 f32_one 1 1 0; PPrompt; PStatus 390 f32_one 1 1 0; PPrompt; PTimeFormat; PPrompt;
   PLevelRange; PPrompt; PUnknownCommand "frobnicate"; PPrompt].
Proof. vm_compute. reflexivity. Qed.

Lemma console_clock_roundtrip_witness :
  w_printed (consoleTime ["time"; "set"; clock_text 23 59]%string toy_4) =
  [PStatus 1439 f32_one 1 1 0].
Proof. refine (console_clock_roundtrip 23 59 toy_4 _ _); lia. Defined.

Lemma players_have_bodies_witness :
  map_Forall (fun id p => wp_connection p = id /\
    is_Some (sim_players (w_simulation toy_4) !! wp_playerId p)) (ro_players (w_roster toy_4)) /\
  size (ro_players (w_roster toy_4)) = 1%nat.
Proof.
  split; [|vm_compute; reflexivity].
  exact (proj1 (players_have_bodies 7003 toy_history toy_4 toy_history_4 eq_refl)).
Defined.

Lemma join_authenticated_witness :
  exists log, handler_outputs toy_1 toy_2 log /\
    forall id payload,
      OSend id (world_message_code JoinResponse) payload ∈ log ->
      head payload = Some x00 ->
      join_explained 7003 [LMessage 1 200 (join_request "t")]
        (Some (LReply _ (KJoin 1 "t") true toy_session)) id payload.
Proof.
  apply (join_authenticated 7003 [LMessage 1 200 (join_request "t")] toy_1).
  - change [LMessage 1 200 (join_request "t")] with
      ([] ++ option_list (Some (LMessage 1 200 (join_request "t")))).
    eapply (history_step 7003 _ toy_start); [apply history_start, toy_start_fresh|].
    apply world_handler, step_message.
  - by eapply (step_reply 7003 toy_1 1 _ (KJoin 1 "t") 107 (session_reply 1)).
Defined.

Lemma join_admits_witness :
  ro_connections (w_roster (onJoinLookup 7003 1 "t" true toy_session toy_1)) !! 1 = Some 1.
Proof.
  refine (proj1 (proj2 (join_admits 7003 1 "t" toy_session toy_1 _ _ _ _))); reflexivity.
Defined.

Lemma ticks_bounded_witness :
  (tickSeconds <=? w_accumulator (tick_loop tick_fuel (accumulate (10 ^ 12) toy_2)))%f64 = false.
Proof.
  refine (proj1 (ticks_bounded (10 ^ 12) toy_2 _)). vm_compute. reflexivity.
Defined.

(** ** A body without a player

    Two join requests sent at once pass the check for a duplicate together. The
    second finds the connection taken, but its id is registered and its body
    enters the simulation; when the connection goes, both stay. *)

Definition ghost_1 : World Z :=
  onMessage 7003 1 200 (join_request "b") (onMessage 7003 1 200 (join_request "a") toy_start).
Definition ghost_2 : World Z :=
  World.callback 7003 _ (KJoin 1 "b") true toy_session
    (World.callback 7003 _ (KJoin 1 "a") true toy_session ghost_1).
Definition ghost_3 : World Z := World.onDisconnect 1 ghost_2.

Lemma ghost_player :
  ro_players (w_roster ghost_3) = ∅ /\
  ro_connections (w_roster ghost_3) !! 2 = Some 1 /\
  playerCount (w_simulation ghost_3) = 1%nat.
Proof. split_and!; vm_compute; reflexivity. Qed.
