(* ===== verification/System.v ===== *)
(** * The three servers together

    The auth server, the world server and the database server as one system:
    the handlers of AuthServer.v, WorldHistory.v and DbServer.v exchange messages
    over two channels on which connections break and are made anew. The trace
    of a run records what every server took in. The theorems follow an identity
    across the servers: from a player in the world, an administrative command or
    a change of an account back to the login that proved the password. *)

From Stdlib Require Import ZArith Lia Strings.Byte Strings.String.
From stdpp Require Import base list option gmap strings.
From S2P Require Import Prelude Float32 Platform Config Text ByteStream Protocol Framing TcpServer.
From S2P Require Import DbClient.
From S2P Require Import Database DbServer Outputs Correlation AuthServer.
From S2P Require Import Character Simulation World WorldConsole WorldLoop WorldSpec WorldHistory.

Import ByteWriter.

Open Scope Z_scope.

Section System.
Context {EA EW PG : Type} `{SodA : Sodium EA} `{SodW : Sodium EW} `{HClk : Clocks EW}.
Context `{HLibm : Libm} `{HAtof : Atof} `{Laws : PostgresLaws PG}.
Variable cfg : AuthConfig.
Variable udpPort : Z.

#[local] Instance system_auth_callback : DbCallbacks (AuthServer EA) AuthK :=
  AuthServer.callback cfg.
#[local] Instance system_world_callback : DbCallbacks (World EW) WorldK :=
  World.callback udpPort.

Record System := mkSystem {
  sy_auth : AuthServer EA;
  sy_authLink : Channel;
  sy_world : World EW;
  sy_worldLink : Channel;
  sy_data : Database PG;
}.

Inductive Event :=
| EAuth (l : option AuthServer.Label)
| EWorld (l : option WorldSpec.Label)
| EData (e : Served)
| EQuiet.

(** ** Steps of the parts

    A handler puts its requests on the channel; the replies it is given come
    off it. Between the handlers the client's connection may be replaced, with
    the ids of the requests going on. *)

Definition settles {K} (d d' : DbClient K) : Prop :=
  mNextRequestId d' = mNextRequestId d /\ connection_ok d'.

Definition auth_reply (m : Message) (st : AuthServer EA) : option AuthServer.Label :=
  match reply_to m (db st) with
  | None => None
  | Some (_, mkPending c k) =>
      let '(ok, reply) := handler_reply c true (msg_type m) (msg_payload m) in
      Some (AuthServer.LReply c k ok reply)
  end.

Inductive auth_moves (st : AuthServer EA) (ch : Channel)
  : option AuthServer.Label -> AuthServer EA -> Channel -> Prop :=
| auth_acts l st' ms :
    match l with Some (AuthServer.LReply _ _ _ _) => False | _ => True end ->
    AuthServer.handler_step cfg st l st' -> sends (db st) (db st') ms ->
    auth_moves st ch l st' (post ms ch)
| auth_takes m down ms :
    ch_down ch = m :: down -> sends (db st) (db (deliver m st)) ms ->
    auth_moves st ch (auth_reply m st) (deliver m st)
      (post ms (mkChannel (ch_up ch) (ch_lost ch) down))
| auth_between st' :
    AuthServer.internal_step st st' -> settles (db st) (db st') ->
    auth_moves st ch None st' ch
| auth_breaks : auth_moves st ch None st (break ch).

Definition world_reply (m : Message) (w : World EW) : option WorldSpec.Label :=
  match reply_to m (db w) with
  | None => None
  | Some (_, mkPending c k) =>
      let '(ok, reply) := handler_reply c true (msg_type m) (msg_payload m) in
      Some (WorldSpec.LReply c k ok reply)
  end.

Inductive world_moves (w : World EW) (ch : Channel)
  : option WorldSpec.Label -> World EW -> Channel -> Prop :=
| world_acts l w' ms :
    match l with Some (WorldSpec.LReply _ _ _ _) => False | _ => True end ->
    WorldHistory.handler_step udpPort w l w' -> sends (db w) (db w') ms ->
    world_moves w ch l w' (post ms ch)
| world_takes m down ms :
    ch_down ch = m :: down -> sends (db w) (db (deliver m w)) ms ->
    world_moves w ch (world_reply m w) (deliver m w)
      (post ms (mkChannel (ch_up ch) (ch_lost ch) down))
| world_between w' :
    WorldHistory.internal_step w w' -> settles (db w) (db w') ->
    world_moves w ch None w' ch
| world_breaks : world_moves w ch None w (break ch).

(** The database server executes the next request and answers, or one that a
    broken connection left behind, whose reply goes nowhere. *)
Inductive data_moves (data : Database PG) (ch : Channel) : Database PG -> Channel -> Prop :=
| data_answers m up reply data' :
    ch_up ch = m :: up ->
    handleMessage (msg_type m) (msg_payload m) data = (reply, data') ->
    data_moves data ch data' (mkChannel up (ch_lost ch) (ch_down ch ++ option_list reply))
| data_executes before m after reply data' :
    ch_lost ch = before ++ m :: after ->
    handleMessage (msg_type m) (msg_payload m) data = (reply, data') ->
    data_moves data ch data' (mkChannel (ch_up ch) (before ++ after) (ch_down ch)).

Definition served_event (data data' : Database PG) : Served :=
  mkServed (Database.clock_of data) (Database.clock_of data') (tables_of data).

Inductive system_step (s : System) : Event -> System -> Prop :=
| system_auth l st ch :
    auth_moves (sy_auth s) (sy_authLink s) l st ch ->
    system_step s (EAuth l) (mkSystem st ch (sy_world s) (sy_worldLink s) (sy_data s))
| system_world l w ch :
    world_moves (sy_world s) (sy_worldLink s) l w ch ->
    system_step s (EWorld l) (mkSystem (sy_auth s) (sy_authLink s) w ch (sy_data s))
| system_data_auth data ch :
    data_moves (sy_data s) (sy_authLink s) data ch ->
    system_step s (EData (served_event (sy_data s) data))
      (mkSystem (sy_auth s) ch (sy_world s) (sy_worldLink s) data)
| system_data_world data ch :
    data_moves (sy_data s) (sy_worldLink s) data ch ->
    system_step s (EData (served_event (sy_data s) data))
      (mkSystem (sy_auth s) (sy_authLink s) (sy_world s) ch data)
| system_purge :
    system_step s EQuiet (mkSystem (sy_auth s) (sy_authLink s) (sy_world s) (sy_worldLink s)
      (purgeExpiredSessions (sy_data s)).2)
| system_idle data :
    tables_of data = tables_of (sy_data s) ->
    system_step s EQuiet (mkSystem (sy_auth s) (sy_authLink s) (sy_world s) (sy_worldLink s) data).

(** The start: fresh servers, accounts of any kind, no session. *)
Definition system_start (s : System) : Prop :=
  mPending (db (sy_auth s)) = ∅ /\ mNextRequestId (db (sy_auth s)) = 1 /\
  connection_ok (db (sy_auth s)) /\ sy_authLink s = empty_channel /\
  fresh (sy_world s) /\ mNextRequestId (db (sy_world s)) = 1 /\
  connection_ok (db (sy_world s)) /\ sy_worldLink s = empty_channel /\
  store_ok lower (tables_of (sy_data s)) /\ t_sessions (tables_of (sy_data s)) = [].

Inductive system_run : list Event -> System -> Prop :=
| run_start s : system_start s -> system_run [] s
| run_step tr s e s' : system_run tr s -> system_step s e s' -> system_run (tr ++ [e]) s'.

(** ** What a trace proves *)

(** A client of the auth server sent credentials, and the database held, for
    that name, the account with a hash the password verifies against. *)
Definition proved (tr : list Event) (account : Z) : Prop :=
  exists id data username password e row,
    EAuth (Some (AuthServer.LMessage id (auth_message_code LoginRequest) data)) ∈ tr /\
    login_fields data = Some (username, password) /\
    EData e ∈ tr /\ row ∈ t_accounts (se_tables e) /\ ar_id row = account /\
    same_name lower (c_str username) row = true /\
    verifyPassword (Ent := EA) (ar_password_hash row) password = true.

(** The database held an unexpired session with this token for an account of
    this name and level, and a login proved the account. *)
Definition entitled (tr : list Event) (token : string) (account : Z) (username : string)
    (level : Z) : Prop :=
  exists e row session,
    EData e ∈ tr /\ row ∈ t_accounts (se_tables e) /\
    ar_id row = account /\ ar_username row = username /\ ar_permission_level row = level /\
    session ∈ t_sessions (se_tables e) /\ sr_token session = token /\
    sr_account_id session = account /\ se_before e < sr_expires_at session /\
    proved tr account.

Definition session_entitled (tr : list Event) (token : string) (session : SessionLookup) : Prop :=
  entitled tr token (sl_accountId session) (sl_username session) (sl_permissionLevel session).

(** ** Projections of a trace *)

Definition auth_label (e : Event) : option AuthServer.Label :=
  match e with EAuth l => l | _ => None end.
Definition world_label (e : Event) : option WorldSpec.Label :=
  match e with EWorld l => l | _ => None end.
Definition data_event (e : Event) : option Served :=
  match e with EData e => Some e | _ => None end.

Definition auth_labels (tr : list Event) : list AuthServer.Label := omap auth_label tr.
Definition world_labels (tr : list Event) : list WorldSpec.Label := omap world_label tr.
Definition data_events (tr : list Event) : list Served := omap data_event tr.

Lemma omap_snoc {A B} (f : A -> option B) l x : omap f (l ++ [x]) = omap f l ++ option_list (f x).
Proof. rewrite omap_app. simpl. by destruct (f x). Qed.

Lemma elem_of_auth_labels l tr : l ∈ auth_labels tr <-> EAuth (Some l) ∈ tr.
Proof.
  unfold auth_labels. rewrite list_elem_of_omap. split.
  - intros (e & He & El). destruct e; cbn in El; by simplify_eq.
  - intros He. by eexists.
Qed.

Lemma elem_of_world_labels l tr : l ∈ world_labels tr <-> EWorld (Some l) ∈ tr.
Proof.
  unfold world_labels. rewrite list_elem_of_omap. split.
  - intros (e & He & El). destruct e; cbn in El; by simplify_eq.
  - intros He. by eexists.
Qed.

Lemma elem_of_data_events e tr : e ∈ data_events tr <-> EData e ∈ tr.
Proof.
  unfold data_events. rewrite list_elem_of_omap. split.
  - intros (e' & He & El). destruct e'; cbn in El; by simplify_eq.
  - intros He. by eexists.
Qed.

(** ** One server and its channel *)

(** What is known of a request of the auth server. *)
Definition authorised (h : list AuthServer.Label) (r : Request) : Prop :=
  (privileged r -> exists l, l ∈ h /\ admin_explained (Ent := EA) h (Some l) r) /\
  (forall name, creates r = Some name -> validUsername name = true).

Definition auth_asked (h : list AuthServer.Label) (q : Asked AuthK) : Prop :=
  AuthServer.justified (Ent := EA) h (aq_pending q) /\
  AuthServer.asks (Ent := EA) cfg (fun a => a ∈ h) (aq_request q) (aq_pending q) /\
  authorised h (aq_request q).

Definition world_asked (h : list WorldSpec.Label) (q : Asked WorldK) : Prop :=
  WorldHistory.justified h (aq_pending q) /\
  WorldHistory.asks (E := EW) (fun a => a ∈ h) (aq_request q) (aq_pending q).

Lemma auth_asked_app h h' q : auth_asked h q -> auth_asked (h ++ h') q.
Proof.
  intros (H1 & H2 & H3 & H4). split; [by apply justified_app|].
  split; [eapply asks_mono, H2; intros a Ha; apply elem_of_app; by left|]. split; [|done].
  intros Hp. destruct (H3 Hp) as (l & Hl & He). exists l. rewrite elem_of_app. split; [by left|].
  destruct He as (id & c & rt & tg & pw & lv & session & data & token & He1 & He2 & He3).
  exists id, c, rt, tg, pw, lv, session, data, token. rewrite elem_of_app. auto.
Qed.

Lemma world_asked_app h h' q : world_asked h q -> world_asked (h ++ h') q.
Proof.
  intros [H1 H2]. split; [by apply world_justified_app|].
  eapply world_asks_mono, H2. intros a Ha. apply elem_of_app. by left.
Qed.

Lemma heard_now {A} (h : list A) l a : l = Some a -> a ∈ h ++ option_list l.
Proof. intros ->. apply elem_of_app. right. left. Qed.

Lemma auth_explained_asked h l n r (k : AuthK (call_of r)) :
  AuthServer.explained (Ent := EA) cfg h l (ORequest r k) ->
  auth_asked (h ++ option_list l) (mkAsked n r (mkPending (call_of r) k)).
Proof.
  intros (H1 & H2 & H3 & H4). split; [done|].
  split; [eapply asks_mono, H4; intros a; apply heard_now|]. split; [|done].
  intros Hp. pose proof (H1 Hp) as He.
  destruct He as (id & c & rt & tg & pw & lv & session & data & token & -> & He2 & He3).
  eexists. split; [apply elem_of_app; right; left|].
  exists id, c, rt, tg, pw, lv, session, data, token. split; [done|].
  split; [apply elem_of_app; by left|done].
Qed.

Lemma world_explained_asked h l n r (k : WorldK (call_of r)) :
  WorldHistory.explained udpPort h l (ORequest r k) ->
  world_asked (h ++ option_list l) (mkAsked n r (mkPending (call_of r) k)).
Proof.
  intros [H1 H2]. split; [done|]. eapply world_asks_mono, H2. intros a. apply heard_now.
Qed.

(** What a server's side of the system keeps. *)
Definition auth_side ev qs h (st : AuthServer EA) ch : Prop :=
  linked ev qs (db st) ch /\ AuthServer.history cfg h st /\
  (forall q, q ∈ qs -> auth_asked h q) /\
  (forall c k reply, AuthServer.LReply c k true reply ∈ h -> replied ev qs c k reply).

Definition world_side ev qs h (w : World EW) ch : Prop :=
  linked ev qs (db w) ch /\ WorldHistory.history udpPort h w /\
  (forall q, q ∈ qs -> world_asked h q) /\
  (forall c k reply, WorldSpec.LReply c k true reply ∈ h -> replied ev qs c k reply).

Lemma auth_handled ev qs h st ch l st' ms :
  auth_side ev qs h st ch -> Z.of_nat (length qs) + 2 < 2 ^ 32 ->
  AuthServer.handler_step cfg st l st' -> sends (db st) (db st') ms ->
  match l with
  | Some (AuthServer.LReply c k true reply) => replied ev qs c k reply
  | _ => True
  end ->
  exists new, (length new <= 1)%nat /\
    auth_side ev (qs ++ new) (h ++ option_list l) st' (post ms ch).
Proof.
  intros (Hl & Hh & Hq & Hr) Hb Hs Hms Hrep.
  destruct (linked_explained (AuthServer.explained (Ent := EA) cfg h l) (auth_asked (h ++ option_list l))
    ev qs ch st st' ms) as (new & Hlen & Hq' & Hl'); try done.
  - exact (auth_explained_asked h l).
  - intros q Hin. by apply auth_asked_app, Hq.
  - eapply handler_step_explained; [by eapply history_justified|done].
  - exists new. split; [done|]. split_and!; [done|by eapply history_handler|done|].
    intros c k reply [Hin|Hin]%elem_of_app;
      rewrite <- (app_nil_r ev); apply replied_mono; [by apply Hr|].
    destruct l; [|by apply not_elem_of_nil in Hin].
    apply list_elem_of_singleton in Hin as <-. exact Hrep.
Qed.

Lemma world_handled ev qs h w ch l w' ms :
  world_side ev qs h w ch -> Z.of_nat (length qs) + 2 < 2 ^ 32 ->
  WorldHistory.handler_step udpPort w l w' -> sends (db w) (db w') ms ->
  match l with
  | Some (WorldSpec.LReply c k true reply) => replied ev qs c k reply
  | _ => True
  end ->
  exists new, (length new <= 1)%nat /\
    world_side ev (qs ++ new) (h ++ option_list l) w' (post ms ch).
Proof.
  intros (Hl & Hh & Hq & Hr) Hb Hs Hms Hrep.
  destruct (linked_explained (WorldHistory.explained udpPort h l)
    (world_asked (h ++ option_list l)) ev qs ch w w' ms) as (new & Hlen & Hq' & Hl'); try done.
  - exact (world_explained_asked h l).
  - intros q Hin. by apply world_asked_app, Hq.
  - eapply world_handler_step_explained; [by eapply world_history_justified|done].
  - exists new. split; [done|].
    split_and!; [done|eapply history_step; [done|by apply world_handler]|done|].
    intros c k reply [Hin|Hin]%elem_of_app;
      rewrite <- (app_nil_r ev); apply replied_mono; [by apply Hr|].
    destruct l; [|by apply not_elem_of_nil in Hin].
    apply list_elem_of_singleton in Hin as <-. exact Hrep.
Qed.

(** Nothing went out when nothing happened to the client. *)
Lemma sends_nothing {K} (d : DbClient K) ms : sends d d ms -> ms = [].
Proof.
  intros Hs. apply (sends_unique d d); [done|]. split; [|done].
  change (frames []) with (@nil byte). by rewrite app_nil_r.
Qed.

Lemma post_nil ch : post [] ch = ch.
Proof. destruct ch. unfold post. cbn. by rewrite app_nil_r. Qed.

Lemma auth_moves_side ev qs h st ch l st' ch' :
  auth_side ev qs h st ch -> Z.of_nat (length qs) + 2 < 2 ^ 32 ->
  auth_moves st ch l st' ch' ->
  exists new, (length new <= 1)%nat /\ auth_side ev (qs ++ new) (h ++ option_list l) st' ch'.
Proof.
  intros Hside Hb Hm. destruct Hm as [l st' ms Hnr Hs Hms|m down ms Ed Hms|st' Hi [Hn Hc]|].
  - eapply auth_handled; try done. by destruct l as [[]|].
  - destruct ch as [up lost down']. cbn in Ed. subst down'. cbn [ch_up ch_lost].
    assert (Hside' : auth_side ev qs h st (mkChannel up lost down)).
    { destruct Hside as (Hl & Hrest). split; [by eapply linked_taken|done]. }
    rewrite deliver_reply_to in *. unfold auth_reply.
    destruct (reply_to m (db st)) as [[n [c k]]|] eqn:Er.
    + destruct (handler_reply c true (msg_type m) (msg_payload m)) as [ok reply] eqn:Eh.
      eapply auth_handled; [exact Hside'|done| |done|].
      * eapply AuthServer.step_reply; [by apply reply_to_Some in Er as [_ ?]|exact Eh].
      * destruct ok; [|done]. eapply linked_replies_to; [apply Hside|exact Er|exact Eh].
    + apply sends_nothing in Hms as ->. exists []. rewrite post_nil, !app_nil_r.
      split; [cbn; lia|done].
  - exists []. rewrite !app_nil_r. split; [cbn; lia|]. destruct Hside as (Hl & Hh & Hrest).
    split_and!; [|by eapply history_internal|apply Hrest|apply Hrest].
    eapply linked_internal; try done. by destruct Hi.
  - exists []. rewrite !app_nil_r. split; [cbn; lia|]. destruct Hside as (Hl & Hrest).
    split; [by apply linked_break|done].
Qed.

Lemma world_moves_side ev qs h w ch l w' ch' :
  world_side ev qs h w ch -> Z.of_nat (length qs) + 2 < 2 ^ 32 ->
  world_moves w ch l w' ch' ->
  exists new, (length new <= 1)%nat /\ world_side ev (qs ++ new) (h ++ option_list l) w' ch'.
Proof.
  intros Hside Hb Hm. destruct Hm as [l w' ms Hnr Hs Hms|m down ms Ed Hms|w' Hi [Hn Hc]|].
  - eapply world_handled; try done. by destruct l as [[]|].
  - destruct ch as [up lost down']. cbn in Ed. subst down'. cbn [ch_up ch_lost].
    assert (Hside' : world_side ev qs h w (mkChannel up lost down)).
    { destruct Hside as (Hl & Hrest). split; [by eapply linked_taken|done]. }
    rewrite deliver_reply_to in *. unfold world_reply.
    destruct (reply_to m (db w)) as [[n [c k]]|] eqn:Er.
    + destruct (handler_reply c true (msg_type m) (msg_payload m)) as [ok reply] eqn:Eh.
      eapply world_handled; [exact Hside'|done| |done|].
      * eapply WorldHistory.step_reply; [by apply reply_to_Some in Er as [_ ?]|exact Eh].
      * destruct ok; [|done]. eapply linked_replies_to; [apply Hside|exact Er|exact Eh].
    + apply sends_nothing in Hms as ->. exists []. rewrite post_nil, !app_nil_r.
      split; [cbn; lia|done].
  - exists []. rewrite !app_nil_r. split; [cbn; lia|]. destruct Hside as (Hl & Hh & Hrest).
    split_and!; [|rewrite <- (app_nil_r h); eapply (history_step _ _ _ None);
      [done|by apply world_internal]|apply Hrest|apply Hrest].
    eapply linked_internal; try done. by destruct Hi.
  - exists []. rewrite !app_nil_r. split; [cbn; lia|]. destruct Hside as (Hl & Hrest).
    split; [by apply linked_break|done].
Qed.

(** ** The database's side *)

Lemma data_moves_side {K} ev (qs : list (Asked K)) d data ch data' ch' :
  linked ev qs d ch -> mNextRequestId d < 2 ^ 32 -> store_ok lower (tables_of data) ->
  data_moves data ch data' ch' ->
  linked (ev ++ [served_event data data']) qs d ch' /\ store_ok lower (tables_of data') /\
  exists q, q ∈ qs /\
    effect (served_event data data') (cut (aq_request q)) (tables_of data').
Proof.
  intros Hl Hn Hok Hm. pose proof (linked_mono _ [served_event data data'] _ _ _ Hl) as Hl'.
  destruct Hm as [m up reply data' Eu Eh|before m after reply data' El Eh].
  - destruct (linked_executed ev qs d ch m data data' reply Hl Hn Hok) as
      (q & m' & Hq & -> & Hr & He); [rewrite Eu; left|done|].
    split; [|split; [|by exists q]].
    + apply (linked_replied _ _ _ _ _ _ q); [|done|exact Hr]. destruct ch as [u lo dn].
      cbn in Eu. subst u. apply (linked_channel _ _ _ _ _ Hl'); cbn; [|done].
      intros m0 Hm0. by right.
    + pose proof (keeps_handleMessage (msg_type m) (msg_payload m) data Hok) as Hk.
      by rewrite Eh in Hk.
  - destruct (linked_executed ev qs d ch m data data' reply Hl Hn Hok) as
      (q & m' & Hq & -> & Hr & He).
    { apply elem_of_app. right. rewrite El. apply elem_of_app. right. left. }
    { done. }
    split; [|split; [|by exists q]].
    + apply (linked_channel _ _ _ _ _ Hl'); cbn; [|done]. intros m0. rewrite El, !elem_of_app,
        elem_of_cons. tauto.
    + pose proof (keeps_handleMessage (msg_type m) (msg_payload m) data Hok) as Hk.
      by rewrite Eh in Hk.
Qed.

Lemma purge_tables data :
  t_accounts (tables_of (purgeExpiredSessions data).2) = t_accounts (tables_of data) /\
  forall session, session ∈ t_sessions (tables_of (purgeExpiredSessions data).2) ->
    session ∈ t_sessions (tables_of data).
Proof.
  pose proof (purge_effect data) as He. unfold quiet_or in He.
  destruct (purgeExpiredSessions data) as [res data']. cbn [snd].
  assert (Hor : tables_of data' = tables_of data \/
    exists now, tables_of data' = do_purge now (tables_of data)).
  { destruct He as [(now & _ & _ & ->)|(_ & [->|(now & res' & _ & _ & ->)])]; eauto. }
  destruct Hor as [->|[now ->]]; [done|]. split; [done|].
  cbn. intros session [_ Hin]%elem_of_filter_. done.
Qed.

(** Every session was opened by a request of the auth server. *)
Definition sessions_owned (qs : list (Asked AuthK)) (t : Tables) : Prop :=
  forall session, session ∈ t_sessions t -> exists q, q ∈ qs /\ opens (aq_request q) session.

Lemma sessions_owned_app qs new t : sessions_owned qs t -> sessions_owned (qs ++ new) t.
Proof.
  intros Hs session Hin. destruct (Hs session Hin) as (q & Hq & Ho). exists q.
  rewrite elem_of_app. auto.
Qed.

(** The world server has no callback for the creation of a session. *)
Lemma world_opens_nothing ev qs (d : DbClient WorldK) ch q session :
  linked ev qs d ch -> q ∈ qs -> ~ opens (aq_request q) session.
Proof.
  intros Hl Hq Ho. pose proof (linked_calls _ _ _ _ Hl q Hq) as Hc.
  destruct (aq_request q); try done. cbn [call_of] in Hc.
  destruct (aq_pending q) as [c k]. cbn [p_call] in Hc. destruct k; discriminate.
Qed.

(** ** The invariant of a run *)

Definition system_inv (tr : list Event) (s : System) : Prop :=
  exists qa qw,
    auth_side (data_events tr) qa (auth_labels tr) (sy_auth s) (sy_authLink s) /\
    world_side (data_events tr) qw (world_labels tr) (sy_world s) (sy_worldLink s) /\
    (length qa + length qw <= length tr)%nat /\
    store_ok lower (tables_of (sy_data s)) /\ sessions_owned qa (tables_of (sy_data s)) /\
    (forall e, e ∈ data_events tr -> sessions_owned qa (se_tables e)).

Lemma auth_side_mono ev ev' qs h st ch :
  auth_side ev qs h st ch -> auth_side (ev ++ ev') qs h st ch.
Proof.
  intros (H1 & H2 & H3 & H4). split_and!; [by apply linked_mono|done|done|].
  intros c k reply Hin. rewrite <- (app_nil_r qs). by apply replied_mono, H4.
Qed.

Lemma world_side_mono ev ev' qs h w ch :
  world_side ev qs h w ch -> world_side (ev ++ ev') qs h w ch.
Proof.
  intros (H1 & H2 & H3 & H4). split_and!; [by apply linked_mono|done|done|].
  intros c k reply Hin. rewrite <- (app_nil_r qs). by apply replied_mono, H4.
Qed.

Lemma system_start_inv s : system_start s -> system_inv [] s.
Proof.
  intros (H1 & H2 & H3 & H4 & H5 & H6 & H7 & H8 & H9 & H10). exists [], [].
  rewrite H4, H8. split_and!.
  - split_and!; [by apply linked_start|by apply AuthServer.history_start|..];
      first [by intros ? ?%not_elem_of_nil|by intros ? ? ? ?%not_elem_of_nil].
  - split_and!; [apply linked_start; [apply H5|done..]|by apply WorldHistory.history_start|..];
      first [by intros ? ?%not_elem_of_nil|by intros ? ? ? ?%not_elem_of_nil].
  - cbn. lia.
  - done.
  - intros session. rewrite H10. by intros ?%not_elem_of_nil.
  - by intros e ?%not_elem_of_nil.
Qed.

Lemma system_step_inv tr s e s' :
  system_inv tr s -> system_step s e s' -> Z.of_nat (length tr) + 2 < 2 ^ 32 ->
  system_inv (tr ++ [e]) s'.
Proof.
  intros (qa & qw & Ha & Hw & Hlen & Hok & Hso & Hev) Hs Hb.
  unfold system_inv, auth_labels, world_labels, data_events. rewrite !omap_snoc, length_app.
  fold (auth_labels tr) (world_labels tr) (data_events tr).
  assert (Hna : mNextRequestId (db (sy_auth s)) < 2 ^ 32)
    by (rewrite (linked_next _ _ _ _ (proj1 Ha)); lia).
  assert (Hnw : mNextRequestId (db (sy_world s)) < 2 ^ 32)
    by (rewrite (linked_next _ _ _ _ (proj1 Hw)); lia).
  destruct Hs as [l st ch Hm|l w ch Hm|data ch Hm|data ch Hm| |data Ht];
    cbn [auth_label world_label data_event option_list length sy_auth sy_authLink sy_world
      sy_worldLink sy_data]; rewrite ?app_nil_r.
  - destruct (auth_moves_side _ _ _ _ _ _ _ _ Ha ltac:(lia) Hm) as (new & Hn & Ha').
    exists (qa ++ new), qw. rewrite length_app.
    split_and!; [done|done|lia|done|by apply sessions_owned_app|].
    intros e He. by apply sessions_owned_app, Hev.
  - destruct (world_moves_side _ _ _ _ _ _ _ _ Hw ltac:(lia) Hm) as (new & Hn & Hw').
    exists qa, (qw ++ new). rewrite length_app. split_and!; auto. lia.
  - destruct (data_moves_side _ _ _ _ _ _ _ (proj1 Ha) Hna Hok Hm) as (Hl & Hok' & q & Hq & He).
    exists qa, qw. split_and!; [|by apply world_side_mono|lia|done| |].
    + split; [done|]. by apply (auth_side_mono _ [served_event (sy_data s) data]) in Ha as [_ Ha].
    + intros session Hin. destruct (effect_sessions _ _ _ _ He Hin) as [?|?]; [by apply Hso|].
      by exists q.
    + intros e [He'| ->%list_elem_of_singleton]%elem_of_app; [by apply Hev|exact Hso].
  - destruct (data_moves_side _ _ _ _ _ _ _ (proj1 Hw) Hnw Hok Hm) as (Hl & Hok' & q & Hq & He).
    exists qa, qw. split_and!; [by apply auth_side_mono| |lia|done| |].
    + split; [done|]. by apply (world_side_mono _ [served_event (sy_data s) data]) in Hw as [_ Hw].
    + intros session Hin. destruct (effect_sessions _ _ _ _ He Hin) as [?|?]; [by apply Hso|].
      by destruct (world_opens_nothing _ _ _ _ q session (proj1 Hw) Hq).
    + intros e [He'| ->%list_elem_of_singleton]%elem_of_app; [by apply Hev|exact Hso].
  - exists qa, qw. split_and!; try done; [lia|by apply keeps_purge|].
    intros session Hin. apply Hso. by apply purge_tables.
  - exists qa, qw. rewrite Ht. split_and!; try done. lia.
Qed.

Lemma system_run_inv tr s :
  system_run tr s -> Z.of_nat (length tr) + 1 < 2 ^ 32 -> system_inv tr s.
Proof.
  induction 1 as [s Hs|tr s e s' _ IH Hs]; intros Hb; [by apply system_start_inv|].
  rewrite length_app in Hb. cbn [length] in Hb.
  eapply system_step_inv; [apply IH; lia|done|lia].
Qed.

(** ** From a session back to the login *)

Lemma login_fields_short data username password :
  login_fields data = Some (username, password) -> (String.length username <= kMaxStringLength)%nat.
Proof.
  unfold login_fields. destruct (r_u32 _) as [version r].
  pose proof (r_string_length r) as Hs. destruct (r_string r) as [u r1]. destruct (r_string r1) as [p r2].
  cbn [fst] in Hs. destruct (_ || _)%bool; [done|]. by intros [= <- <-].
Qed.

Lemma join_token_short data token :
  join_token data = Some token -> (String.length token <= kMaxStringLength)%nat.
Proof.
  unfold join_token. destruct (r_u32 _) as [version r].
  pose proof (r_string_length r) as Hs. destruct (r_string r) as [t r1]. cbn [fst] in Hs.
  destruct (_ || _)%bool; [done|]. by intros [= <-].
Qed.

Lemma admin_token_short command data token target password level :
  admin_fields command data = Some (token, target, password, level) ->
  (String.length token <= kMaxStringLength)%nat.
Proof.
  unfold admin_fields, read_admin. intros Hf.
  pose proof (r_string_length (open_reader data)) as Hs.
  enough (token = (r_string (open_reader data)).1) by congruence. revert Hf. clear Hs.
  destruct command; unfold rbind, rret; repeat case_match; intros; by simplify_eq/=.
Qed.

(** The account of an authenticated client, as the database held it. *)
Lemma authenticated_proved tr qa st ch id username account level :
  auth_side (data_events tr) qa (auth_labels tr) st ch ->
  authenticated (Ent := EA) (auth_labels tr) id username account level ->
  proved tr account /\ fits 64 account.
Proof.
  intros (Hl & _ & Hq & Hr) (data & password & reply & H1 & H2 & H3 & H4 & H5 & H6 & _).
  destruct (replied_account _ _ _ _ _ _ Hl (Hr _ _ _ H3) H4)
    as (q & u & e & row & Hin & Hp & Hreq & He & Hok & Hrow & Hname & ->).
  destruct (Hq q Hin) as (_ & Hask & _). rewrite Hp in Hask. cbn in Hask.
  rewrite Hreq in Hask. injection Hask as ->. cbn in H5, H6.
  rewrite cut_text_id in Hname by (by eapply login_fields_short). subst account. split.
  - exists id, data, username, password, e, row.
    by rewrite <- elem_of_auth_labels, <- elem_of_data_events.
  - by apply (row_fits _ _ Hok Hrow).
Qed.

(** Every session there is was opened for an account that a login proved. *)
Lemma session_proved tr qa st ch t session :
  auth_side (data_events tr) qa (auth_labels tr) st ch -> sessions_owned qa t ->
  session ∈ t_sessions t -> proved tr (sr_account_id session).
Proof.
  intros Ha Hso Hin. destruct (Hso session Hin) as (q & Hq & Ho).
  pose proof Ha as (Hl & _ & Hasked & _). destruct (Hasked q Hq) as (Hj & Hask & _).
  pose proof (linked_calls _ _ _ _ Hl q Hq) as Hc.
  destruct (aq_request q) as [| | | | | |a tok ttl| |]; try done. cbn in Ho, Hc.
  destruct Ho as [-> _]. destruct (aq_pending q) as [c k]. cbn [p_call] in Hc.
  destruct k as [|id token username account level| | | | | | |]; try discriminate.
  cbn in Hask, Hj. injection Hask as -> -> ->.
  destruct (authenticated_proved tr qa st ch _ _ _ _ Ha Hj) as [Hp Hf].
  by rewrite wrap_id.
Qed.

(** A session the database found belongs to such an account. *)
Lemma replied_entitled {K} tr (qs : list (Asked K)) d ch qa st ch' (k : K CallLookupSession) session :
  auth_side (data_events tr) qa (auth_labels tr) st ch' ->
  (forall e, e ∈ data_events tr -> sessions_owned qa (se_tables e)) ->
  linked (data_events tr) qs d ch -> replied (data_events tr) qs CallLookupSession k session ->
  sl_found session = true ->
  exists q token, q ∈ qs /\ aq_pending q = mkPending CallLookupSession k /\
    aq_request q = ReqLookupSession token /\
    session_entitled tr (c_str (cut_text token)) session.
Proof.
  intros Ha Hso Hl Hr Hf.
  destruct (replied_session _ _ _ _ _ _ Hl Hr Hf)
    as (q & token & e & row & srow & Hq & Hp & Hreq & He & Hrow & -> & Hs & Ht & Hid & Hexp).
  exists q, token. split_and!; try done. exists e, row, srow.
  rewrite <- elem_of_data_events. split_and!; try done.
  change (proved tr (ar_id row)). rewrite <- Hid. by eapply session_proved; [|by apply Hso|].
Qed.

(** An administrative command whose session was found: the token is the one in
    the message of the client that sent the command. *)
Lemma admin_session_entitled tr s id command responseType target password level session :
  system_inv tr s ->
  EAuth (Some (AuthServer.LReply CallLookupSession
    (KAdminLookup id command responseType target password level) true session)) ∈ tr ->
  sl_found session = true ->
  exists data token, EAuth (Some (AuthServer.LMessage id (auth_message_code command) data)) ∈ tr /\
    admin_fields command data = Some (token, target, password, level) /\
    session_entitled tr (c_str token) session.
Proof.
  intros (qa & qw & Ha & _ & _ & _ & _ & Hev) Hin Hf. apply elem_of_auth_labels in Hin.
  pose proof Ha as (Hl & _ & Hasked & Hr).
  destruct (replied_entitled tr qa _ _ _ _ _ _ session Ha Hev Hl (Hr _ _ _ Hin) Hf)
    as (q & token & Hq & Hp & Hreq & He).
  destruct (Hasked q Hq) as (_ & Hask & _). rewrite Hp in Hask.
  destruct Hask as (data & token' & Hd%elem_of_auth_labels & Hfields & Et).
  rewrite Hreq in Et. injection Et as <-. exists data, token. split; [done|]. split; [done|].
  by rewrite cut_text_id in He by (by eapply admin_token_short).
Qed.

Lemma world_session_entitled tr s id token session :
  system_inv tr s ->
  EWorld (Some (WorldSpec.LReply CallLookupSession (KJoin id token) true session)) ∈ tr ->
  sl_found session = true -> session_entitled tr (c_str token) session.
Proof.
  intros (qa & qw & Ha & Hw & _ & _ & _ & Hev) Hin Hf. apply elem_of_world_labels in Hin.
  pose proof Hw as (Hl & _ & Hq & Hr).
  destruct (replied_entitled tr qw _ _ _ _ _ _ session Ha Hev Hl (Hr _ _ _ Hin) Hf)
    as (q & token' & Hin' & Hp & Hreq & He).
  destruct (Hq q Hin') as [Hj Hask]. rewrite Hp in Hj, Hask. destruct Hj as (data & _ & Hj).
  cbn in Hask. rewrite Hreq in Hask. injection Hask as ->.
  by rewrite cut_text_id in He by (by eapply join_token_short).
Qed.

(** The token of a command, as the message of its client has it. *)
Definition message_token (data : list byte) : string := (r_string (open_reader data)).1.

Lemma command_token_first command data token timeCommand value :
  command_fields command data = Some (token, timeCommand, value) -> token = message_token data.
Proof.
  unfold command_fields, message_token, rbind, rret.
  destruct command; repeat case_match; intros; by simplify_eq/=.
Qed.

Lemma latency_token_first data token ms :
  latency_fields data = Some (token, ms) -> token = message_token data.
Proof.
  unfold latency_fields, message_token, rbind, rret. repeat case_match; intros; by simplify_eq/=.
Qed.

Lemma command_asks (from : WorldSpec.Label -> Prop) c (k : WorldK c) token :
  of_command k ->
  WorldHistory.asks (E := EW) from (ReqLookupSession token) (mkPending c k) ->
  exists id type data, from (WorldSpec.LMessage id type data) /\ token = message_token data.
Proof.
  intros Hk Hask. destruct k; try done; destruct Hask as (data & token' & Hd & Hf & [= <-]).
  - apply latency_token_first in Hf. eauto.
  - apply command_token_first in Hf. eauto.
Qed.

(** A command to the world whose session was found. *)
Lemma command_session_entitled tr s k session :
  system_inv tr s -> EWorld (Some (WorldSpec.LReply CallLookupSession k true session)) ∈ tr ->
  sl_found session = true -> of_command k ->
  exists id type data, EWorld (Some (WorldSpec.LMessage id type data)) ∈ tr /\
    session_entitled tr (c_str (message_token data)) session.
Proof.
  intros (qa & qw & Ha & Hw & _ & _ & _ & Hev) Hin Hf Hk. apply elem_of_world_labels in Hin.
  pose proof Hw as (Hl & _ & Hq & Hr).
  destruct (replied_entitled tr qw _ _ _ _ _ _ session Ha Hev Hl (Hr _ _ _ Hin) Hf)
    as (q & token & Hin' & Hp & Hreq & He).
  destruct (Hq q Hin') as [_ Hask]. rewrite Hp, Hreq in Hask.
  destruct (command_asks _ _ k token Hk Hask) as (id & type & data & Hd%elem_of_world_labels & ->).
  exists id, type, data. split; [exact Hd|]. by rewrite cut_text_id in He by apply r_string_length.
Qed.

(** ** Properties *)

(** C1: Whoever is in the world has logged in. In every run of the three servers,
    whatever the clients send, however Postgres answers, connections break and
    requests are lost or executed late: each player in the world stands for an
    account for which the database held an unexpired session with exactly that
    player's token, and a name and a password were sent to the auth server for
    which the database held that account with a hash the password verifies
    against. *)
Theorem players_have_logged_in tr s
    (Hrun : system_run tr s) (Hb : Z.of_nat (length tr) + 1 < 2 ^ 32) :
  forall id p, ro_players (w_roster (sy_world s)) !! id = Some p ->
    exists level, entitled tr (c_str (wp_token p)) (wp_accountId p) (wp_username p) level.
Proof.
  intros id p Ep. pose proof (system_run_inv tr s Hrun Hb) as Hinv.
  pose proof Hinv as (qa & qw & _ & (_ & Hh & _) & _).
  destruct (core_history_stream _ _ (history_core udpPort _ _ Hh)) as [Hplayers _].
  destruct (Hplayers id p Ep) as [(session & Hin & Hf & <- & <-) _].
  apply elem_of_world_labels in Hin.
  exists (sl_permissionLevel session). by eapply world_session_entitled.
Qed.

(** What justifies a change of the accounts: a registration of the name and with
    a hash of the password in a message; the startup; a command of an
    administrator, for what the fields of its message say, the session being the
    one of the message's token; a line of the console, for what the line says. *)
Inductive account_authority (tr : list Event) : Request -> Prop :=
| by_registration id data name password hash :
    EAuth (Some (AuthServer.LMessage id (auth_message_code RegisterRequest) data)) ∈ tr ->
    login_fields data = Some (name, password) -> validUsername name = true ->
    (kMinPasswordLength <= String.length password)%nat -> hashed (E := EA) password hash ->
    account_authority tr (ReqCreateAccount name hash)
| by_startup : account_authority tr (ReqDeleteAccount "bootstrap")
| by_admin id command target password level data token session r :
    EAuth (Some (AuthServer.LMessage id (auth_message_code command) data)) ∈ tr ->
    admin_fields command data = Some (token, target, password, level) ->
    session_entitled tr (c_str token) session ->
    permission_code Admin <= sl_permissionLevel session ->
    commanded (Ent := EA) command target password level r -> account_authority tr r
| by_console line r :
    EWorld (Some (WorldSpec.LConsole line)) ∈ tr -> typed (E := EW) line r ->
    account_authority tr r.

Lemma auth_account_authority tr s (qa : list (Asked AuthK)) ev d ch q :
  system_inv tr s -> linked ev qa d ch ->
  (forall q, q ∈ qa -> auth_asked (auth_labels tr) q) -> q ∈ qa ->
  match aq_request q with
  | ReqCreateAccount _ _ | ReqCreateAccountWithLevel _ _ _ | ReqDeleteAccount _
  | ReqSetPermissionLevel _ _ => True
  | _ => False
  end -> account_authority tr (aq_request q).
Proof.
  intros Hinv Hl Hqa Hq Hr. destruct (Hqa q Hq) as (_ & Hask & Hpriv & _).
  assert (Hadmin : privileged (aq_request q) -> account_authority tr (aq_request q)).
  { intros Hp. destruct (Hpriv Hp) as (l & Hin & id & command & rt & target & pw & level & session
      & data & token & [= ->] & _ & _ & Hf & Hlevel & Hc).
    apply elem_of_auth_labels in Hin.
    destruct (admin_session_entitled tr s _ _ _ _ _ _ session Hinv Hin Hf)
      as (data' & token' & Hd & Hfields & He).
    by eapply by_admin. }
  pose proof (linked_calls _ _ _ _ Hl q Hq) as Hc.
  destruct (aq_request q) as [|name h|name| | | | | |]; try done; try by apply Hadmin.
  - destruct (aq_pending q) as [c k]. cbn [p_call] in Hc. destruct k; try discriminate.
    destruct Hask as (data & password & hash & Hd%elem_of_auth_labels & H1 & H2 & H3 & H4 & [= -> ->]).
    by eapply by_registration.
  - destruct (decide (name = "bootstrap"%string)) as [->|]; [apply by_startup|by apply Hadmin].
Qed.

Lemma world_account_authority tr ev (qw : list (Asked WorldK)) d ch q :
  linked ev qw d ch -> (forall q, q ∈ qw -> world_asked (world_labels tr) q) -> q ∈ qw ->
  match aq_request q with
  | ReqCreateAccount _ _ | ReqCreateAccountWithLevel _ _ _ | ReqDeleteAccount _
  | ReqSetPermissionLevel _ _ => True
  | _ => False
  end -> account_authority tr (aq_request q).
Proof.
  intros Hl Hqw Hq Hr. destruct (Hqw q Hq) as [_ Hask].
  pose proof (linked_calls _ _ _ _ Hl q Hq) as Hc.
  destruct (aq_pending q) as [c k] eqn:Ep. cbn [p_call] in Hc.
  assert (Hline : exists line, WorldSpec.LConsole line ∈ world_labels tr /\
    typed (E := EW) line (aq_request q)).
  { destruct (aq_request q); try done; destruct k; try discriminate; exact Hask. }
  destruct Hline as (line & Hin%elem_of_world_labels & Ht). by eapply by_console.
Qed.

(** C3: Accounts change only with authority. In every run of the three servers,
    a step that changes the accounts stored by the database is the execution of
    one request, and the request is one of four: a registration, of the name in a
    client's registration and with a hash of the password there; the removal of
    the account the startup cleans up; what an administrative command says, of the
    account and with the level and password in the client's message, where the
    token in that message is that of a session of an administrator, with that
    level stored at the time, who had logged in with the account's password; or
    what a line typed at the world server's console says, of the account, with the
    level and password in that line. *)
Theorem accounts_change_with_authority tr s e s'
    (Hrun : system_run tr s) (Hb : Z.of_nat (length tr) + 1 < 2 ^ 32)
    (Hstep : system_step s e s')
    (Hchange : t_accounts (tables_of (sy_data s')) <> t_accounts (tables_of (sy_data s))) :
  let served := served_event (sy_data s) (sy_data s') in
  e = EData served /\
  exists r, effect served (cut r) (tables_of (sy_data s')) /\ account_authority tr r.
Proof.
  pose proof (system_run_inv tr s Hrun Hb) as Hinv.
  pose proof Hinv as (qa & qw & (Hla & _ & Hqa & _) & (Hlw & _ & Hqw & _) & Hlen & Hok & _).
  destruct Hstep as [l st ch Hm|l w ch Hm|data ch Hm|data ch Hm| |data Ht]; try done.
  - split; [done|].
    destruct (data_moves_side _ _ _ _ _ _ _ Hla ltac:(rewrite (linked_next _ _ _ _ Hla); lia) Hok Hm)
      as (_ & _ & q & Hq & He).
    exists (aq_request q). split; [done|].
    eapply auth_account_authority; [done|done|done|done|by eapply effect_accounts].
  - split; [done|].
    destruct (data_moves_side _ _ _ _ _ _ _ Hlw ltac:(rewrite (linked_next _ _ _ _ Hlw); lia) Hok Hm)
      as (_ & _ & q & Hq & He).
    exists (aq_request q). split; [done|].
    eapply world_account_authority; [done|done|done|by eapply effect_accounts].
  - destruct Hchange. apply purge_tables.
  - destruct Hchange. cbn [sy_data]. by rewrite Ht.
Qed.

Lemma world_moves_core w ch l w' ch' :
  world_moves w ch l w' ch' -> core_step l (core w) (core w').
Proof.
  destruct 1 as [l w' ms _ Hs _|m down ms Ed _|w' Hi _|].
  - by eapply handler_step_refines.
  - rewrite deliver_reply_to. unfold world_reply.
    destruct (reply_to m (db w)) as [[n [c k]]|] eqn:Er; [|apply core_idle].
    destruct (handler_reply c true (msg_type m) (msg_payload m)) as [ok reply] eqn:Eh.
    eapply handler_step_refines, WorldHistory.step_reply; [|exact Eh].
    by apply reply_to_Some in Er as [_ ?].
  - destruct Hi; apply core_idle.
  - apply core_idle.
Qed.

Lemma world_moves_requested h w ch a w' ch' :
  WorldHistory.history udpPort h w -> world_moves w ch (Some a) w' ch' -> requested h a.
Proof.
  intros Hh Hm. remember (Some a) as l eqn:El.
  destruct Hm as [l w' ms _ Hs _|m down ms Ed _|w' Hi _|]; try discriminate.
  - subst l. by eapply handler_step_requested.
  - unfold world_reply in El. destruct (reply_to m (db w)) as [[n [c k]]|] eqn:Er; [|discriminate].
    destruct (handler_reply c true (msg_type m) (msg_payload m)) as [ok reply] eqn:Eh.
    injection El as <-. eapply handler_step_requested; [done|].
    eapply WorldHistory.step_reply; [by apply reply_to_Some in Er as [_ ?]|exact Eh].
Qed.

(** C19: The world obeys its operators. In every run of the three servers, a step
    that changes the world's simulated latency, or the anchor or the speed of its
    clock, is a line of the console, or the database's answer to a command that a
    client sent the world server before, and the answer is the session of the token
    in that client's message, which belongs to a game master or an administrator, at
    that level in the tables at the time, who had logged in with the account's
    password. The latency never exceeds two
    seconds. *)
Theorem world_obeys_operators tr s e s'
    (Hrun : system_run tr s) (Hb : Z.of_nat (length tr) + 2 < 2 ^ 32)
    (Hstep : system_step s e s')
    (Hchange : controls (core (sy_world s')) <> controls (core (sy_world s))) :
  ln_latencyMs (w_link (sy_world s')) <= 2000 /\
  exists a, e = EWorld (Some a) /\ authority a /\ requested (world_labels tr) a /\
    forall k session, a = WorldSpec.LReply CallLookupSession k true session ->
      exists id type data, EWorld (Some (WorldSpec.LMessage id type data)) ∈ tr ++ [e] /\
        session_entitled (tr ++ [e]) (c_str (message_token data)) session.
Proof.
  assert (Hinv : system_inv (tr ++ [e]) s').
  { apply system_run_inv; [by eapply run_step|]. rewrite length_app. cbn [length]. lia. }
  assert (Hin : e ∈ tr ++ [e]) by (apply elem_of_app; right; left).
  destruct (system_run_inv tr s Hrun ltac:(lia)) as (_ & _ & _ & (_ & Hh & _) & _).
  pose proof Hinv as (_ & _ & _ & (_ & Hh' & _) & _). split.
  { apply (core_history_latency _ _ (history_core udpPort _ _ Hh')). }
  destruct Hstep as [| l w ch Hm| | | |]; try done.
  destruct (core_step_controls _ _ _ (world_moves_core _ _ _ _ _ Hm)) as [[?|(a & -> & Ha)] _]; [done|].
  exists a. split; [done|]. split; [done|]. split; [by eapply world_moves_requested|].
  intros k session ->. pose proof (authority_session _ _ _ Ha) as [Hf _].
  eapply command_session_entitled; [exact Hinv|exact Hin|exact Hf|by eapply authority_command].
Qed.

End System.

(** ** A concrete run

    A player logs in and joins: four turns of the auth server's side, three of
    the database server, two of the world server's. *)

Definition toy_sodium : Sodium Z :=
  {| randombytes_buf n e := (repeat (byte_of_Z e) n, e + 1);
     crypto_pwhash_str password e := (Some ("h:" +:+ password)%string, e);
     crypto_pwhash_str_verify hash password := bool_decide (hash = "h:" +:+ password)%string |}.

Definition toy_clocks : Clocks Z :=
  {| steady_now e := (e, e); realSeconds e := (f64_zero, e); secondsToday e := (0, e) |}.

Definition toy_atof : Atof := {| atof _ := f64_zero |}.

#[local] Existing Instances toy_sodium toy_clocks toy_atof axis_libm.

Definition toy_cfg : AuthConfig :=
  {| cfg_worldHost := "127.0.0.1"; cfg_worldPort := 7002; cfg_sessionTtl := 120 |}.

#[local] Instance toy_auth_callback : DbCallbacks (AuthServer Z) AuthK := AuthServer.callback toy_cfg.
#[local] Instance toy_world_callback : DbCallbacks (World Z) WorldK := World.callback 7003.

Abbreviation ToySystem := (System (EA := Z) (EW := Z) (PG := InMemory.Server)).

Definition toy_row : AccountRow :=
  {| ar_id := 5; ar_username := "alex"; ar_password_hash := "h:secret1";
     ar_permission_level := 0 |}.

Definition toy_client {K} (rx : list RecvResult) : DbClient K :=
  mkDbClient (Some (new_stream (mkSocket rx [] []))) ∅ 1 true.

Definition toy_connection : Connection :=
  mkConnection (new_stream (mkSocket [] [] [])) (Address.mkAddress 1 1).

Definition toy_listener : TcpServer := mkServer {[ 1 := toy_connection; 2 := toy_connection ]} [] 3.

(** [rx]: what the auth server's next reads from the database server answer. *)
Definition toy_system (rx : list RecvResult) : ToySystem :=
  mkSystem (mkAuth toy_listener (toy_client rx) 42) empty_channel
    (mkWorld toy_listener (toy_client []) 42 new_simulation (mkRoster ∅ ∅ 1) (mkLink 0 [] [] []) []
       f64_zero 0) empty_channel
    (InMemory.mem_database (mkTables [toy_row] [] 6)).

(** The messages a client has sent since. *)
Definition sent {K} (d d' : DbClient K) : list Message :=
  (drain (drop (length (db_wire d)) (db_wire d'))).1.

Definition auth_hears (id : ConnectionId) (type : Z) (data : list byte) (s : ToySystem) : ToySystem :=
  let st := AuthServer.onMessage toy_cfg id type data (sy_auth s) in
  mkSystem st (post (sent (db (sy_auth s)) (db st)) (sy_authLink s)) (sy_world s) (sy_worldLink s)
    (sy_data s).

Definition world_hears (id : ConnectionId) (type : Z) (data : list byte) (s : ToySystem) : ToySystem :=
  let w := World.onMessage 7003 id type data (sy_world s) in
  mkSystem (sy_auth s) (sy_authLink s) w (post (sent (db (sy_world s)) (db w)) (sy_worldLink s))
    (sy_data s).

(** The next reply, or the next request. *)
Definition take_reply (ch : Channel) : option (Message * Channel) :=
  match ch_down ch with
  | [] => None
  | m :: down => Some (m, mkChannel (ch_up ch) (ch_lost ch) down)
  end.

Definition auth_answered (s : ToySystem) : ToySystem :=
  match take_reply (sy_authLink s) with
  | None => s
  | Some (m, ch) =>
      let st := deliver m (sy_auth s) in
      mkSystem st (post (sent (db (sy_auth s)) (db st)) ch) (sy_world s) (sy_worldLink s) (sy_data s)
  end.

Definition world_answered (s : ToySystem) : ToySystem :=
  match take_reply (sy_worldLink s) with
  | None => s
  | Some (m, ch) =>
      let w := deliver m (sy_world s) in
      mkSystem (sy_auth s) (sy_authLink s) w (post (sent (db (sy_world s)) (db w)) ch) (sy_data s)
  end.

Definition answer (data : Database InMemory.Server) (ch : Channel)
    : Database InMemory.Server * Channel :=
  match ch_up ch with
  | [] => (data, ch)
  | m :: up =>
      let '(reply, data') := handleMessage (msg_type m) (msg_payload m) data in
      (data', mkChannel up (ch_lost ch) (ch_down ch ++ option_list reply))
  end.

Definition data_answers_auth (s : ToySystem) : ToySystem :=
  let '(data, ch) := answer (sy_data s) (sy_authLink s) in
  mkSystem (sy_auth s) ch (sy_world s) (sy_worldLink s) data.

Definition data_answers_world (s : ToySystem) : ToySystem :=
  let '(data, ch) := answer (sy_data s) (sy_worldLink s) in
  mkSystem (sy_auth s) (sy_authLink s) (sy_world s) ch data.

Definition toy_token : string := hex_of_bytes (repeat (byte_of_Z 42) 32).

Definition toy_login : list byte :=
  w_string "secret1" (w_string "alex" (w_u32 kProtocolVersion [])).
Definition toy_join : list byte := w_string toy_token (w_u32 kProtocolVersion []).

Definition toy_s1 := auth_hears 1 1 toy_login (toy_system []).
Definition toy_s2 := data_answers_auth toy_s1.
Definition toy_s3 := auth_answered toy_s2.
Definition toy_s4 := data_answers_auth toy_s3.
Definition toy_s5 := auth_answered toy_s4.
Definition toy_s6 := world_hears 1 200 toy_join toy_s5.
Definition toy_s7 := data_answers_world toy_s6.
Definition toy_s8 := world_answered toy_s7.

Example toy_player :
  (fun p => (wp_accountId p, wp_username p, wp_token p)) <$>
    ro_players (w_roster (sy_world toy_s8)) !! 1 = Some (5, "alex"%string, toy_token).
Proof. vm_compute. reflexivity. Qed.

Definition toy_typed : ToySystem :=
  let w := WorldConsole.runConsoleCommand 7003 "latency set 100" (sy_world toy_s8) in
  mkSystem (sy_auth toy_s8) (sy_authLink toy_s8) w
    (post (sent (db (sy_world toy_s8)) (db w)) (sy_worldLink toy_s8)) (sy_data toy_s8).

Definition toy_register : list byte :=
  w_string "secret2" (w_string "kim" (w_u32 kProtocolVersion [])).
Definition toy_r1 := auth_hears 1 3 toy_register (toy_system []).
Definition toy_r2 := data_answers_auth toy_r1.

Definition sent_ok {K} (d d' : DbClient K) : bool :=
  bool_decide (db_wire d' = db_wire d ++ frames (sent d d')).

Lemma sent_ok_sends {K} (d d' : DbClient K) : sent_ok d d' = true -> sends d d' (sent d d').
Proof.
  intros Hs%bool_decide_eq_true. split; [exact Hs|]. unfold sent.
  destruct (drain _) as [ms rest] eqn:Ed. by apply drain_spec in Ed as (_ & Hwf & _).
Qed.

(** Reached in so many steps. *)
Definition reached (n : nat) (s : ToySystem) : Prop :=
  exists tr, system_run toy_cfg 7003 tr s /\ length tr = n.

Lemma reached_step n s e s' :
  reached n s -> system_step toy_cfg 7003 s e s' -> reached (S n) s'.
Proof.
  intros (tr & Hr & <-) Hs. exists (tr ++ [e]). split; [by eapply run_step|].
  rewrite length_app. cbn. lia.
Qed.

Lemma auth_hears_step id type data s :
  sent_ok (db (sy_auth s)) (db (AuthServer.onMessage toy_cfg id type data (sy_auth s))) = true ->
  system_step toy_cfg 7003 s (EAuth (Some (AuthServer.LMessage id type data)))
    (auth_hears id type data s).
Proof.
  intros Hs%sent_ok_sends. apply system_auth. apply auth_acts; [done| |done]. constructor.
Qed.

Lemma world_hears_step id type data s :
  sent_ok (db (sy_world s)) (db (World.onMessage 7003 id type data (sy_world s))) = true ->
  system_step toy_cfg 7003 s (EWorld (Some (WorldSpec.LMessage id type data)))
    (world_hears id type data s).
Proof.
  intros Hs%sent_ok_sends. apply system_world. apply world_acts; [done| |done]. constructor.
Qed.

Lemma auth_answered_step m ch s :
  take_reply (sy_authLink s) = Some (m, ch) ->
  sent_ok (db (sy_auth s)) (db (deliver m (sy_auth s))) = true ->
  system_step toy_cfg 7003 s (EAuth (auth_reply m (sy_auth s))) (auth_answered s).
Proof.
  intros E Hs%sent_ok_sends. unfold auth_answered. rewrite E. apply system_auth.
  unfold take_reply in E. destruct (ch_down (sy_authLink s)) eqn:Ed; [done|].
  injection E as -> <-. by eapply auth_takes.
Qed.

Lemma world_answered_step m ch s :
  take_reply (sy_worldLink s) = Some (m, ch) ->
  sent_ok (db (sy_world s)) (db (deliver m (sy_world s))) = true ->
  system_step toy_cfg 7003 s (EWorld (world_reply m (sy_world s))) (world_answered s).
Proof.
  intros E Hs%sent_ok_sends. unfold world_answered. rewrite E. apply system_world.
  unfold take_reply in E. destruct (ch_down (sy_worldLink s)) eqn:Ed; [done|].
  injection E as -> <-. by eapply world_takes.
Qed.

Lemma answer_moves data ch :
  ch_up ch <> [] -> data_moves data ch (answer data ch).1 (answer data ch).2.
Proof.
  intros Hne. unfold answer. destruct (ch_up ch) as [|m up] eqn:Eu; [done|].
  destruct (handleMessage _ _ data) as [reply data'] eqn:Eh. by eapply data_answers.
Qed.

Lemma data_answers_auth_step s :
  ch_up (sy_authLink s) <> [] ->
  system_step toy_cfg 7003 s (EData (served_event (sy_data s) (sy_data (data_answers_auth s))))
    (data_answers_auth s).
Proof.
  intros Hne. pose proof (answer_moves (sy_data s) _ Hne) as Hm. unfold data_answers_auth.
  destruct (answer _ _) as [data ch]. by apply system_data_auth.
Qed.

Lemma data_answers_world_step s :
  ch_up (sy_worldLink s) <> [] ->
  system_step toy_cfg 7003 s (EData (served_event (sy_data s) (sy_data (data_answers_world s))))
    (data_answers_world s).
Proof.
  intros Hne. pose proof (answer_moves (sy_data s) _ Hne) as Hm. unfold data_answers_world.
  destruct (answer _ _) as [data ch]. by apply system_data_world.
Qed.

Lemma toy_system_start rx : system_start (toy_system rx).
Proof.
  assert (Hc : forall K rx, connection_ok (@toy_client K rx)).
  { intros K rx' _. eexists. split; [done|]. unfold Framing.stream_ok. cbn. lia. }
  split_and!; try done; try apply Hc. split; [|cbn; lia].
  constructor; cbn; repeat constructor; cbn; try set_solver; try lia; by vm_compute.
Qed.

Lemma toy_session_opened : reached 5 toy_s5.
Proof.
  eapply reached_step; [|eapply auth_answered_step; [vm_compute; reflexivity..]].
  eapply reached_step; [|apply data_answers_auth_step; vm_compute; discriminate].
  eapply reached_step; [|eapply auth_answered_step; [vm_compute; reflexivity..]].
  eapply reached_step; [|apply data_answers_auth_step; vm_compute; discriminate].
  eapply reached_step; [|apply auth_hears_step; vm_compute; reflexivity].
  exists []. split; [|done]. apply run_start, toy_system_start.
Qed.

Lemma toy_login_reached : reached 8 toy_s8.
Proof.
  eapply reached_step; [|eapply world_answered_step; [vm_compute; reflexivity..]].
  eapply reached_step; [|apply data_answers_world_step; vm_compute; discriminate].
  eapply reached_step; [|apply world_hears_step; vm_compute; reflexivity].
  exact toy_session_opened.
Qed.

(** A token is redeemed by deleting its session after the join, which is too late
    for a second connection that joined with it in the meantime: both lookups
    are answered before the deletion is. *)

Definition toy_t1 := world_hears 2 200 toy_join (world_hears 1 200 toy_join toy_s5).
Definition toy_t2 := data_answers_world (data_answers_world toy_t1).
Definition toy_t3 := world_answered (world_answered toy_t2).

Lemma token_replayed :
  reached 11 toy_t3 /\
  (fun p => (wp_playerId p, wp_token p)) <$> ro_players (w_roster (sy_world toy_t3)) !! 1 =
    Some (1, toy_token) /\
  (fun p => (wp_playerId p, wp_token p)) <$> ro_players (w_roster (sy_world toy_t3)) !! 2 =
    Some (2, toy_token).
Proof.
  split; [|split; vm_compute; reflexivity].
  eapply reached_step; [|eapply world_answered_step; [vm_compute; reflexivity..]].
  eapply reached_step; [|eapply world_answered_step; [vm_compute; reflexivity..]].
  eapply reached_step; [|apply data_answers_world_step; vm_compute; discriminate].
  eapply reached_step; [|apply data_answers_world_step; vm_compute; discriminate].
  eapply reached_step; [|apply world_hears_step; vm_compute; reflexivity].
  eapply reached_step; [|apply world_hears_step; vm_compute; reflexivity].
  exact toy_session_opened.
Qed.

Lemma players_have_logged_in_witness :
  exists tr p, ro_players (w_roster (sy_world toy_s8)) !! 1 = Some p /\
    wp_accountId p = 5 /\
    exists level, entitled (EA := Z) (PG := InMemory.Server) tr toy_token 5 "alex" level.
Proof.
  destruct toy_login_reached as (tr & Hr & Hl). pose proof toy_player as Hp.
  destruct (ro_players (w_roster (sy_world toy_s8)) !! 1) as [p|] eqn:Ep; [|discriminate Hp].
  injection Hp as H1 H2 H3. exists tr, p. split; [reflexivity|]. split; [exact H1|].
  destruct (players_have_logged_in toy_cfg 7003 tr toy_s8 Hr ltac:(rewrite Hl; lia) 1 p Ep)
    as [level He].
  rewrite H1, H2, H3 in He. exists level. exact He.
Defined.

Lemma accounts_change_with_authority_witness :
  exists tr r, effect (served_event (sy_data toy_r1) (sy_data toy_r2)) (cut r)
      (tables_of (sy_data toy_r2)) /\ account_authority (EA := Z) (PG := InMemory.Server) tr r.
Proof.
  assert (Hr : system_run toy_cfg 7003 ([] ++ [EAuth (Some (AuthServer.LMessage 1 3 toy_register))])
    toy_r1).
  { eapply run_step; [apply run_start, toy_system_start|]. apply auth_hears_step.
    vm_compute. reflexivity. }
  eexists. destruct (accounts_change_with_authority toy_cfg 7003 _ toy_r1 _ toy_r2 Hr
    ltac:(cbn; lia) (data_answers_auth_step toy_r1 ltac:(vm_compute; discriminate))
    ltac:(vm_compute; discriminate)) as [_ (r & He & Ha)].
  exists r. exact (conj He Ha).
Defined.

Lemma world_obeys_operators_witness :
  controls (core (sy_world toy_typed)) <> controls (core (sy_world toy_s8)) /\
  ln_latencyMs (w_link (sy_world toy_typed)) <= 2000 /\
  authority (WorldSpec.LConsole "latency set 100").
Proof.
  assert (Hne : controls (core (sy_world toy_typed)) <> controls (core (sy_world toy_s8))).
  { vm_compute. discriminate. }
  split; [exact Hne|]. destruct toy_login_reached as (tr & Hr & Hl).
  destruct (world_obeys_operators toy_cfg 7003 tr toy_s8
    (EWorld (Some (WorldSpec.LConsole "latency set 100"))) toy_typed Hr ltac:(rewrite Hl; lia))
    as [Hlat (a & [= <-] & Ha & _)]; [|exact Hne|exact (conj Hlat Ha)].
  apply system_world, world_acts; [done|apply step_console|].
  apply sent_ok_sends. vm_compute. reflexivity.
Defined.
