(* ===== verification/SystemLoop.v ===== *)
(** * The main loops as parts of the system

    A turn of the main loop of the auth server ([server/authserver/src/main.cpp])
    and of the world server ([server/worldserver/src/main.cpp]) is a sequence of
    the moves of System.v: when the bytes the kernel hands the server's database
    client in that turn are those of replies in flight on its channel, cut in any
    way, whatever else happens in the turn. So the theorems of System.v hold of
    the programs' loops. *)

From Stdlib Require Import ZArith Lia Strings.Byte Strings.String.
From stdpp Require Import base list option gmap strings.
From S2P Require Import Prelude Float32 Platform Config Text ByteStream Protocol Framing TcpServer.
From S2P Require Import DbClient Database DbServer Outputs Correlation AuthServer.
From S2P Require Import Character Simulation World WorldConsole WorldLoop WorldSpec WorldHistory.
From S2P Require Import System.

Open Scope Z_scope.

(** ** What a handler leaves of the client *)

(** What the client has read and will read. *)
Definition db_input {K} (d : DbClient K) : option (list RecvResult * list byte) :=
  (fun s => (sk_rx (ms_socket s), ms_readBuffer s)) <$> mStream d.

(** The messages the next pump completes. *)
Definition arriving {K} (d : DbClient K) : list Message :=
  match mStream d with Some s => (drain (ms_readBuffer (pump s).2)).1 | None => [] end.

Lemma arriving_input {K} (d d' : DbClient K) : db_input d' = db_input d -> arriving d' = arriving d.
Proof.
  unfold db_input, arriving. destruct (mStream d) as [s|], (mStream d') as [s'|]; cbn; try done.
  intros [= E1 E2]. unfold pump. rewrite E1, E2. by destruct (pump_loop _ _) as [[ok buffer] rx].
Qed.

Section Handled.
Context {St : Type} {K : DbCall -> Type} `{HS : HasServer St} `{HD : HasDbClient St K}.

Lemma outputs_input s (d : DbClient K) log s' d' : outputs s d log s' d' -> db_input d' = db_input d.
Proof.
  induction 1 as [s d|id ty pl s d log s' d' _ IH|id s d log s' d' _ IH|r k s d log s' d' Hc _ IH];
    [done|done|done|].
  rewrite IH. unfold db_input, issue. cbn [mStream]. destruct (mStream d) as [st|]; [|done].
  cbn. by destruct (send_keeps_input st (request_type r) (request_payload (mNextRequestId d) r))
    as [-> ->].
Qed.

Lemma handled_client (st st' : St) log :
  handler_outputs st st' log -> connection_ok (db st) ->
  (exists ms, sends (db st) (db st') ms) /\ connection_ok (db st') /\
  db_input (db st') = db_input (db st).
Proof.
  intros (d & _ & Es & Ec & _ & Ho) Hok.
  assert (Hd : connection_ok d) by (unfold connection_ok; by rewrite Es, Ec).
  destruct (outputs_sends _ _ _ _ _ Ho Hd) as (Hs & Hok' & _). split_and!; [|done|].
  - eexists. unfold sends, db_wire in *. rewrite Es in Hs. exact Hs.
  - rewrite (outputs_input _ _ _ _ _ Ho). unfold db_input. by rewrite Es.
Qed.

End Handled.

(** ** A poll of the database client *)

Section Poll.
Context {St : Type} {K : DbCall -> Type} `{HD : HasDbClient St K} `{CB : DbCallbacks St K}.

(** A predicate of a channel and a state that every action of the poll keeps,
    when the replies it takes are those of the channel. *)
Variable P : Channel -> St -> Prop.
Hypothesis P_stream : forall ch st s s',
  P ch st -> mStream (db st) = Some s ->
  (Framing.stream_ok s -> Framing.stream_ok s') -> P ch (on_db (set_db_stream s') st).
Hypothesis P_take : forall ch m down st,
  ch_down ch = m :: down -> P ch st ->
  db_input (db (deliver m st)) = db_input (db st) /\
  exists ch', ch_down ch' = down /\ P ch' (deliver m st).
Hypothesis P_lost : forall ch st,
  P ch st -> exists ch', P ch' (on_db clear_pending (on_db set_disconnected st)).
Hypothesis P_failed : forall ch c k st,
  P ch st -> exists ch', P ch' (run c k false (no_reply c) st).

Lemma reply_loop_channel fuel : forall ch st,
  P ch st -> (drain (buffered (db st))).1 `prefix_of` ch_down ch ->
  exists ch', P ch' (reply_loop fuel st).
Proof.
  induction fuel as [|fuel IH]; intros ch st Hst Hpre; [by exists ch|]. cbn [reply_loop].
  unfold buffered in Hpre. destruct (mStream (db st)) as [s|] eqn:Es; [|by exists ch].
  unfold next. rewrite drain_step in Hpre.
  destruct (next_message (ms_readBuffer s)) as [[m rest]|]; [|by exists ch].
  set (s1 := mkStream _ rest _ _).
  pose proof (P_stream ch st s s1 Hst Es ltac:(done)) as H1.
  destruct (drain rest) as [ms r] eqn:Ed. cbn [fst] in Hpre. destruct Hpre as [down Edown].
  destruct (P_take ch m (ms ++ down) _ Edown H1) as (Hin & ch' & Ed' & H2).
  apply (IH ch'); [exact H2|]. rewrite Ed'.
  assert (Hb : buffered (db (deliver m (on_db (set_db_stream s1) st))) = rest).
  { unfold db_input in Hin. unfold buffered. rewrite db_on_db in Hin. cbn in Hin.
    destruct (mStream (db (deliver m (on_db (set_db_stream s1) st)))) as [s2|]; [|done].
    cbn in Hin. by injection Hin. }
  rewrite Hb, Ed. cbn [fst]. by apply prefix_app_r.
Qed.

Lemma db_poll_channel ch st :
  P ch st -> arriving (db st) `prefix_of` ch_down ch -> exists ch', P ch' (db_poll st).2.
Proof.
  intros Hst Hpre. unfold db_poll. destruct (mConnected (db st)); [|by exists ch]. cbn [negb].
  unfold arriving in Hpre. destruct (mStream (db st)) as [s|] eqn:Es; [|by exists ch].
  assert (Hp : Framing.stream_ok s -> Framing.stream_ok (pump s).2).
  { unfold pump. by destruct (pump_loop _ _) as [[ok buffer] rx]. }
  destruct (pump s) as [ok s1] eqn:Ep. cbn [snd] in Hpre, Hp.
  pose proof (P_stream ch st s s1 Hst Es Hp) as H1. destruct ok; cbn [negb snd].
  - apply (reply_loop_channel _ ch); [done|]. unfold buffered. by rewrite db_on_db.
  - destruct (P_lost ch _ H1) as [ch2 H2]. unfold failAllPending.
    change (on_db (fun d => mkDbClient (mStream d) (mPending d) (mNextRequestId d) false))
      with (on_db set_disconnected).
    change (on_db (fun d => mkDbClient (mStream d) ∅ (mNextRequestId d) (mConnected d)))
      with (on_db clear_pending).
    generalize (pending_list (mPending (db (on_db set_disconnected
      (on_db (set_db_stream s1) st))))). intros ps.
    generalize dependent (on_db clear_pending (on_db set_disconnected (on_db (set_db_stream s1) st))).
    revert ch2. induction ps as [|[c k] ps IH]; intros ch2 st2 H2; [by exists ch2|]. cbn [foldl].
    destruct (P_failed ch2 c k st2 H2) as [ch3 H3]. by apply (IH ch3).
Qed.

End Poll.

Section Loops.
Context {EA EW PG : Type} `{SodA : Sodium EA} `{SodW : Sodium EW} `{HClk : Clocks EW}.
Context `{HLibm : Libm} `{HAtof : Atof} `{Laws : PostgresLaws PG}.
Variable cfg : AuthConfig.
Variable udpPort : Z.

#[local] Instance loop_auth_callback : DbCallbacks (AuthServer EA) AuthK := AuthServer.callback cfg.
#[local] Instance loop_world_callback : DbCallbacks (World EW) WorldK := World.callback udpPort.

Abbreviation Sys := (System (EA := EA) (EW := EW) (PG := PG)).
Abbreviation runs := (system_run cfg udpPort).

Variable tr : list Event.
Variable s0 : Sys.

(** ** The auth server *)

Definition with_auth (st : AuthServer EA) (ch : Channel) : Sys :=
  mkSystem st ch (sy_world s0) (sy_worldLink s0) (sy_data s0).

(** The system reaches [st] and [ch] by moves of the auth server. *)
Definition auth_at (ch : Channel) (st : AuthServer EA) : Prop :=
  (exists ls, runs (tr ++ (EAuth <$> ls)) (with_auth st ch)) /\
  (exists h, AuthServer.history cfg h st) /\ connection_ok (db st).

Lemma auth_at_move ch st l st' ch' :
  auth_at ch st -> auth_moves cfg st ch l st' ch' ->
  (exists h, AuthServer.history cfg h st') -> connection_ok (db st') -> auth_at ch' st'.
Proof.
  intros ((ls & Hr) & _) Hm Hh Hc. split; [|done]. exists (ls ++ [l]).
  rewrite fmap_app, app_assoc. eapply run_step; [exact Hr|].
  exact (system_auth cfg udpPort (with_auth st ch) l st' ch' Hm).
Qed.

Lemma auth_at_internal ch st st' :
  auth_at ch st -> AuthServer.internal_step st st' -> settles (db st) (db st') -> auth_at ch st'.
Proof.
  intros Ha Hi Hs. eapply auth_at_move; [exact Ha|by apply auth_between| |apply Hs].
  destruct Ha as (_ & [h Hh] & _). exists h. by eapply history_internal.
Qed.

Lemma auth_handler_client (st : AuthServer EA) l st' :
  (exists h, AuthServer.history cfg h st) -> connection_ok (db st) ->
  AuthServer.handler_step cfg st l st' ->
  (exists ms, sends (db st) (db st') ms) /\ connection_ok (db st') /\
  db_input (db st') = db_input (db st).
Proof.
  intros [h Hh] Hc Hs.
  destruct (AuthServer.handler_step_explained cfg h st l st' (history_justified cfg h st Hh) Hs)
    as (log & Ho & _). by eapply handled_client.
Qed.

Lemma auth_at_handler ch st l st' :
  auth_at ch st -> AuthServer.handler_step cfg st l st' ->
  match l with Some (AuthServer.LReply _ _ _ _) => False | _ => True end ->
  db_input (db st') = db_input (db st) /\
  exists ch', ch_down ch' = ch_down ch /\ auth_at ch' st'.
Proof.
  intros Ha Hs Hl. pose proof Ha as (_ & [h Hh] & Hc).
  destruct (auth_handler_client st l st' ltac:(eauto) Hc Hs) as ([ms Hms] & Hc' & Hin).
  split; [exact Hin|]. exists (post ms ch). split; [done|].
  eapply auth_at_move; [exact Ha|by eapply auth_acts|eexists; by eapply history_handler|done].
Qed.

Lemma auth_at_take ch m down st :
  ch_down ch = m :: down -> auth_at ch st ->
  db_input (db (deliver m st)) = db_input (db st) /\
  exists ch', ch_down ch' = down /\ auth_at ch' (deliver m st).
Proof.
  intros Ed Ha. pose proof Ha as (_ & [h Hh] & Hc).
  assert (Hd : (exists ms, sends (db st) (db (deliver m st)) ms) /\ connection_ok (db (deliver m st)) /\
    db_input (db (deliver m st)) = db_input (db st) /\
    exists h', AuthServer.history cfg h' (deliver m st)).
  { rewrite deliver_reply_to. destruct (reply_to m (db st)) as [[n [c k]]|] eqn:Er.
    - destruct (handler_reply c true (msg_type m) (msg_payload m)) as [ok reply] eqn:Eh.
      assert (Hs : AuthServer.handler_step cfg st (Some (AuthServer.LReply c k ok reply))
        (run c k ok reply (on_db (remove_pending n) st))).
      { eapply AuthServer.step_reply; [|exact Eh]. by apply reply_to_Some in Er as [_ ?]. }
      destruct (auth_handler_client _ _ _ ltac:(eauto) Hc Hs) as (H1 & H2 & H3).
      split_and!; try done. eexists. by eapply history_handler.
    - split_and!; try done; [|by eauto]. exists []. split; [|done].
      change (frames []) with (@nil byte). by rewrite app_nil_r. }
  destruct Hd as ([ms Hms] & Hc' & Hin & Hh'). split; [exact Hin|]. eexists.
  split; [|eapply auth_at_move; [exact Ha|by eapply auth_takes|done|done]]. done.
Qed.

(** A new connection, or none. *)
Lemma connection_ok_new (s : Socket) p n :
  connection_ok (K := AuthK) (mkDbClient (Some (new_stream s)) p n true).
Proof. intros _. eexists. split; [done|]. unfold Framing.stream_ok. cbn. lia. Qed.

Lemma auth_at_poll ch st :
  auth_at ch st -> arriving (db st) `prefix_of` ch_down ch ->
  exists ch', auth_at ch' (db_poll st).2.
Proof.
  apply db_poll_channel.
  - intros ch1 st1 s s' H1 Es Hs. apply (auth_at_internal _ st1); [done|by apply AuthServer.internal_db|].
    split; [done|]. intros Hc. destruct H1 as (_ & _ & Hok). destruct (Hok Hc) as (s2 & E2 & Hs2).
    eexists. split; [done|]. apply Hs. congruence.
  - apply auth_at_take.
  - intros ch1 st1 H1. exists (break ch1).
    apply (auth_at_internal _ (on_db set_disconnected st1)); [|apply AuthServer.internal_db|done].
    + apply (auth_at_internal _ st1); [|by apply AuthServer.internal_db|done].
      pose proof H1 as (_ & Hh & Hc). by eapply auth_at_move; [exact H1|apply auth_breaks|..].
    + intros n p. cbn [clear_pending mPending]. by rewrite lookup_empty.
  - intros ch1 c k st1 H1. destruct (auth_at_handler ch1 st1 None _ H1 (AuthServer.step_failed cfg st1 c k) I)
      as (_ & ch2 & _ & H2). by exists ch2.
Qed.

Lemma auth_at_reconnect attempts : forall ch st, auth_at ch st -> auth_at ch (AuthServer.reconnect attempts st).
Proof.
  induction attempts as [|[s|] attempts IH]; intros ch st Ha; [done| |by apply IH].
  cbn [AuthServer.reconnect connect]. apply (auth_at_internal _ st); [done|by apply AuthServer.internal_db|].
  split; [done|]. apply connection_ok_new.
Qed.

Lemma auth_at_turn ev attempts ch st :
  auth_at ch st -> arriving (db st) `prefix_of` ch_down ch ->
  exists ch', auth_at ch' (AuthServer.main_step cfg ev attempts st).
Proof.
  intros Ha Hpre.
  set (P := fun st1 => db_input (db st1) = db_input (db st) /\
    exists ch1, ch_down ch1 = ch_down ch /\ auth_at ch1 st1).
  assert (Hp : P (poll (fun _ _ st => st) (AuthServer.onMessage cfg) (fun _ st => st) ev st)).
  { apply poll_preserves; try done.
    - intros s st1 (H1 & ch1 & H2 & H3). split; [done|]. exists ch1. split; [done|].
      apply (auth_at_internal _ st1); [done|apply AuthServer.internal_server|].
      split; [done|]. apply H3.
    - intros id type data st1 (H1 & ch1 & H2 & H3).
      destruct (auth_at_handler ch1 st1 _ _ H3 (AuthServer.step_message cfg st1 id type data) I)
        as (Hin & ch2 & Hd & H4).
      split; [congruence|]. exists ch2. split; [congruence|done].
    - split; [done|]. by exists ch. }
  destruct Hp as (Hin & ch1 & Hd & H1). unfold AuthServer.main_step.
  destruct (auth_at_poll ch1 _ H1) as [ch2 H2]; [by rewrite (arriving_input _ _ Hin), Hd|].
  destruct (db_poll _) as [ok st2]. exists ch2. destruct ok; [done|]. by apply auth_at_reconnect.
Qed.

(** ** The world server *)

Definition with_world (w : World EW) (ch : Channel) : Sys :=
  mkSystem (sy_auth s0) (sy_authLink s0) w ch (sy_data s0).

Definition world_at (ch : Channel) (w : World EW) : Prop :=
  (exists ls, runs (tr ++ (EWorld <$> ls)) (with_world w ch)) /\
  (exists h, WorldHistory.history udpPort h w) /\ connection_ok (db w).

Lemma world_at_move ch w l w' ch' :
  world_at ch w -> world_moves udpPort w ch l w' ch' ->
  (exists h, WorldHistory.history udpPort h w') -> connection_ok (db w') -> world_at ch' w'.
Proof.
  intros ((ls & Hr) & _) Hm Hh Hc. split; [|done]. exists (ls ++ [l]).
  rewrite fmap_app, app_assoc. eapply run_step; [exact Hr|].
  exact (system_world cfg udpPort (with_world w ch) l w' ch' Hm).
Qed.

Lemma world_at_internal ch w w' :
  world_at ch w -> WorldHistory.internal_step w w' -> settles (db w) (db w') -> world_at ch w'.
Proof.
  intros Ha Hi Hs. eapply world_at_move; [exact Ha|by apply world_between| |apply Hs].
  destruct Ha as (_ & [h Hh] & _). exists (h ++ option_list None).
  eapply history_step; [exact Hh|by apply world_internal].
Qed.

Lemma world_handler_client (w : World EW) l w' :
  (exists h, WorldHistory.history udpPort h w) -> connection_ok (db w) ->
  WorldHistory.handler_step udpPort w l w' ->
  (exists ms, sends (db w) (db w') ms) /\ connection_ok (db w') /\
  db_input (db w') = db_input (db w) /\ exists h, WorldHistory.history udpPort h w'.
Proof.
  intros [h Hh] Hc Hs.
  destruct (world_handler_step_explained udpPort h w l w' (world_history_justified udpPort h w Hh) Hs)
    as (log & Ho & _).
  destruct (handled_client _ _ _ Ho Hc) as (H1 & H2 & H3). split_and!; try done.
  eexists. eapply history_step; [exact Hh|by apply world_handler].
Qed.

Lemma world_at_handler ch w l w' :
  world_at ch w -> WorldHistory.handler_step udpPort w l w' ->
  match l with Some (WorldSpec.LReply _ _ _ _) => False | _ => True end ->
  db_input (db w') = db_input (db w) /\
  exists ch', ch_down ch' = ch_down ch /\ world_at ch' w'.
Proof.
  intros Ha Hs Hl. pose proof Ha as (_ & Hh & Hc).
  destruct (world_handler_client w l w' Hh Hc Hs) as ([ms Hms] & Hc' & Hin & Hh').
  split; [exact Hin|]. exists (post ms ch). split; [done|].
  eapply world_at_move; [exact Ha|by eapply world_acts|done|done].
Qed.

Lemma world_at_take ch m down w :
  ch_down ch = m :: down -> world_at ch w ->
  db_input (db (deliver m w)) = db_input (db w) /\
  exists ch', ch_down ch' = down /\ world_at ch' (deliver m w).
Proof.
  intros Ed Ha. pose proof Ha as (_ & Hh & Hc).
  assert (Hd : (exists ms, sends (db w) (db (deliver m w)) ms) /\ connection_ok (db (deliver m w)) /\
    db_input (db (deliver m w)) = db_input (db w) /\
    exists h', WorldHistory.history udpPort h' (deliver m w)).
  { rewrite deliver_reply_to. destruct (reply_to m (db w)) as [[n [c k]]|] eqn:Er.
    - destruct (handler_reply c true (msg_type m) (msg_payload m)) as [ok reply] eqn:Eh.
      eapply world_handler_client; [done|done|].
      eapply WorldHistory.step_reply; [|exact Eh]. by apply reply_to_Some in Er as [_ ?].
    - split_and!; try done. exists []. split; [|done].
      change (frames []) with (@nil byte). by rewrite app_nil_r. }
  destruct Hd as ([ms Hms] & Hc' & Hin & Hh'). split; [exact Hin|]. eexists.
  split; [|eapply world_at_move; [exact Ha|by eapply world_takes|done|done]]. done.
Qed.

Lemma world_at_poll ch w :
  world_at ch w -> arriving (db w) `prefix_of` ch_down ch ->
  exists ch', world_at ch' (db_poll w).2.
Proof.
  apply db_poll_channel.
  - intros ch1 w1 s s' H1 Es Hs. apply (world_at_internal _ w1); [done|by apply internal_db|].
    split; [done|]. intros Hc. destruct H1 as (_ & _ & Hok). destruct (Hok Hc) as (s2 & E2 & Hs2).
    eexists. split; [done|]. apply Hs. congruence.
  - apply world_at_take.
  - intros ch1 w1 H1. exists (break ch1).
    apply (world_at_internal _ (on_db set_disconnected w1)); [|apply internal_db|done].
    + apply (world_at_internal _ w1); [|by apply internal_db|done].
      pose proof H1 as (_ & Hh & Hc). by eapply world_at_move; [exact H1|apply world_breaks|..].
    + intros n p. cbn [clear_pending mPending]. by rewrite lookup_empty.
  - intros ch1 c k w1 H1. destruct (world_at_handler ch1 w1 None _ H1 (step_failed udpPort w1 c k) I)
      as (_ & ch2 & _ & H2). by exists ch2.
Qed.

(** The parts of a turn on either side of the poll of the replies. *)
Lemma world_at_turn timeout (t : Turn) ch w :
  world_at ch w -> arriving (db w) `prefix_of` ch_down ch ->
  exists ch', world_at ch' (WorldLoop.main_step udpPort timeout t w).
Proof.
  intros Ha Hpre.
  assert (Hsame : forall ch1 w1 w2, world_at ch1 w1 -> WorldHistory.internal_step w1 w2 ->
    db w2 = db w1 -> world_at ch1 w2).
  { intros ch1 w1 w2 H1 Hi Ed. eapply world_at_internal; [done|done|]. rewrite Ed.
    split; [done|]. apply H1. }
  set (P0 := fun w1 => db_input (db w1) = db_input (db w) /\
    exists ch1, ch_down ch1 = ch_down ch /\ world_at ch1 w1).
  assert (Hp : P0 (poll (fun _ _ w => w) (World.onMessage udpPort) World.onDisconnect
    (tn_events t) w)).
  { apply (turn_poll udpPort P0).
    - intros s w1 (H1 & ch1 & H2 & H3). split; [done|]. exists ch1. split; [done|].
      eapply Hsame; [done|constructor|done].
    - intros w1 l w2 (H1 & ch1 & H2 & H3) Hs Hl.
      destruct (world_at_handler ch1 w1 l w2 H3 Hs Hl) as (Hin & ch2 & Hd & H4).
      split; [congruence|]. exists ch2. split; [congruence|done].
    - split; [done|]. by exists ch. }
  destruct Hp as (Hin & ch1 & Hd & H1).
  apply (turn_closed udpPort (fun w1 => exists ch1, world_at ch1 w1)).
  - intros e w1 [ch2 H2]. exists ch2. eapply Hsame; [done|constructor|done].
  - intros a p w1 [ch2 H2]. exists ch2. eapply Hsame; [done|constructor|done].
  - intros s w1 [ch2 H2]. exists ch2. cbn [connect snd].
    apply (world_at_internal _ w1); [done|by apply internal_db|]. split; [done|].
    intros _. eexists. split; [done|]. unfold Framing.stream_ok. cbn. lia.
  - intros w1 l w2 [ch2 H2] Hs Hl.
    destruct (world_at_handler ch2 w1 l w2 H2 Hs Hl) as (_ & ch3 & _ & H3). by exists ch3.
  - apply (world_at_poll ch1); [done|]. by rewrite (arriving_input _ _ Hin), Hd.
Qed.

End Loops.

(** C4: The loops are parts of the system. From any state a run of the three
    servers reaches, a whole turn of the main loop of the auth server, and one of
    the world server, continues the run, for any clients, datagrams, console
    lines, clocks and behaviour of the connection to the database server, as long
    as the messages that arrive on that connection are the replies in flight, in
    order, cut in any way. *)
Theorem turns_continue_runs {EA EW PG : Type} `{SodA : Sodium EA} `{SodW : Sodium EW}
    `{HClk : Clocks EW} `{HLibm : Libm} `{HAtof : Atof} `{Laws : PostgresLaws PG}
    (cfg : AuthConfig) (udpPort : Z) tr (s : System (EA := EA) (EW := EW) (PG := PG))
    (Hrun : system_run cfg udpPort tr s) (Hb : Z.of_nat (length tr) + 1 < 2 ^ 32) :
  (forall ev attempts,
     arriving (db (sy_auth s)) `prefix_of` ch_down (sy_authLink s) ->
     exists ls ch, system_run cfg udpPort (tr ++ (EAuth <$> ls))
       (mkSystem (AuthServer.main_step cfg ev attempts (sy_auth s)) ch
          (sy_world s) (sy_worldLink s) (sy_data s))) /\
  (forall timeout t,
     arriving (db (sy_world s)) `prefix_of` ch_down (sy_worldLink s) ->
     exists ls ch, system_run cfg udpPort (tr ++ (EWorld <$> ls))
       (mkSystem (sy_auth s) (sy_authLink s)
          (WorldLoop.main_step udpPort timeout t (sy_world s)) ch (sy_data s))).
Proof.
  destruct (system_run_inv cfg udpPort tr s Hrun Hb)
    as (qa & qw & (Hla & Hha & _) & (Hlw & Hhw & _) & _).
  split.
  - intros ev attempts Hpre.
    destruct (auth_at_turn cfg udpPort tr s ev attempts (sy_authLink s) (sy_auth s)) as
      (ch & (ls & Hr) & _); [|done|by exists ls, ch].
    split; [exists []; cbn; rewrite app_nil_r; by destruct s|].
    split; [by eexists|]. by apply (linked_connection _ _ _ _ Hla).
  - intros timeout t Hpre.
    destruct (world_at_turn cfg udpPort tr s timeout t (sy_worldLink s) (sy_world s)) as
      (ch & (ls & Hr) & _); [|done|by exists ls, ch].
    split; [exists []; cbn; rewrite app_nil_r; by destruct s|].
    split; [by eexists|]. by apply (linked_connection _ _ _ _ Hlw).
Qed.

(** ** A concrete turn

    The reply to a login's lookup arrives in two pieces and is taken in a turn
    of the auth server. *)

#[local] Existing Instances System.toy_sodium System.toy_clocks System.toy_atof axis_libm.

Definition toy_arrival : list byte :=
  mjoin (frame <$> ch_down (sy_authLink toy_s2)).

Definition toy_t0 : ToySystem :=
  toy_system [RecvBytes (take 3 toy_arrival); RecvBytes (drop 3 toy_arrival); RecvError true].
Definition toy_t2 : ToySystem := data_answers_auth (auth_hears 1 1 toy_login toy_t0).

Lemma toy_t2_reached : reached 2 toy_t2.
Proof.
  eapply reached_step; [|apply data_answers_auth_step; vm_compute; discriminate].
  eapply reached_step; [|apply auth_hears_step; vm_compute; reflexivity].
  exists []. split; [|done]. apply run_start, toy_system_start.
Qed.

Lemma turns_continue_runs_witness :
  arriving (db (sy_auth toy_t2)) <> [] /\
  exists tr ls ch, system_run toy_cfg 7003 (tr ++ (EAuth <$> ls))
    (mkSystem (AuthServer.main_step toy_cfg (mkEvents [] [1]) [None] (sy_auth toy_t2)) ch
       (sy_world toy_t2) (sy_worldLink toy_t2) (sy_data toy_t2)).
Proof.
  assert (E : arriving (db (sy_auth toy_t2)) = ch_down (sy_authLink toy_t2))
    by (vm_compute; reflexivity).
  split; [vm_compute; discriminate|]. destruct toy_t2_reached as (tr & Hr & Hl). exists tr.
  destruct (turns_continue_runs toy_cfg 7003 tr toy_t2 Hr ltac:(rewrite Hl; lia)) as [Ha _].
  apply Ha. rewrite E. exists []. by rewrite app_nil_r.
Defined.
