(* ===== verification/Answering.v ===== *)
(** * A database that answers

    What the database server does with the three requests of a login and a join
    while Postgres is up: exactly what was asked, and with the reply the service
    waits for. DbServer.v says what may happen otherwise. *)

From Stdlib Require Import ZArith Lia Strings.Byte Strings.String.
From stdpp Require Import base list option gmap strings.
From S2P Require Import Prelude Config ByteStream Protocol Framing TcpServer DbClient Database.
From S2P Require Import DbServer.
Import ByteWriter.

Open Scope Z_scope.
Open Scope sm_scope.

(** Postgres is up: its connection is good, a statement that has a result
    succeeds, each takes at most [lag] microseconds, and it stays up. *)
Record postgres_up {PG : Type} `{PostgresLaws PG} (up : PG -> Prop) (lag : Z) : Prop := {
  up_status : forall pg, up pg -> PQstatus pg = true;
  up_succeeds : forall sql values pg, up pg -> sql ∈ statements ->
    (forall now, clock pg <= now -> is_Some (statement lower now sql values (tables pg))) ->
    PQresultStatus (PQexecParams sql values pg).1 <> PGRES_FATAL_ERROR;
  up_stays : forall sql values pg, up pg -> up (PQexecParams sql values pg).2;
  up_quick : forall sql values pg, up pg -> clock (PQexecParams sql values pg).2 <= clock pg + lag;
}.

Section Answering.
Context {PG : Type} `{PostgresLaws PG}.
Variable up : PG -> Prop.
Variable lag : Z.
Hypothesis Hup : postgres_up up lag.

(** The database is connected to it. *)
Definition serving (d : Database PG) : Prop := db_mConnection d = true /\ up (db_pg d).

Definition soon (d d' : Database PG) : Prop :=
  serving d' /\ clock_of d <= clock_of d' <= clock_of d + lag.

(** A statement with a result is executed, and its rows are read. *)
Lemma query_up {A} sql values (failure : A) read d :
  serving d -> sql ∈ statements ->
  (forall now, clock_of d <= now -> is_Some (statement lower now sql values (tables_of d))) ->
  let q := query (if returns_rows sql then PGRES_TUPLES_OK else PGRES_COMMAND_OK) sql values
             failure read d in
  soon d q.2 /\ exists r, q.1 = read r.
Proof.
  intros [Hc Hu] Hsql Hdef. cbv zeta. unfold query, sm_bind, ensureConnected, sm_gets, status.
  unfold sm_bind, sm_gets. rewrite Hc, (up_status _ _ Hup _ Hu). cbn [andb sm_ret negb].
  unfold checked, sm_bind, exec.
  pose proof (exec_success sql values (db_pg d) Hsql) as Hs.
  pose proof (exec_clock sql values (db_pg d)) as Hck.
  pose proof (up_succeeds _ _ Hup sql values _ Hu Hsql Hdef) as Hok.
  pose proof (up_stays _ _ Hup sql values _ Hu) as Hst.
  pose proof (up_quick _ _ Hup sql values _ Hu) as Hq.
  unfold soon, serving, clock_of in *.
  destruct (PQexecParams sql values (db_pg d)) as [r pg]. cbn [fst snd] in *.
  destruct (Hs Hok) as (now & _ & _ & ->). rewrite decide_True by done.
  cbn [sm_ret fst snd db_mConnection db_pg]. split; [done|]. by eexists.
Qed.

Lemma findAccount_up u row rows d :
  serving d -> store_ok lower (tables_of d) ->
  find_rows lower (c_str u) (tables_of d) = row :: rows ->
  let q := findAccount u d in
  q.1 = (true, true, account_of_row row) /\ tables_of q.2 = tables_of d /\ soon d q.2.
Proof.
  intros Hd Hok Hf. pose proof (findAccount_effect u d Hok) as He. unfold quiet_or in He.
  destruct (query_up sql_findAccount [c_str u] (false, false, no_account) read_found_account d)
    as [Hs [r Hr]]; [done|solve_statement|by intros; eexists|].
  change (query _ _ _ _ _ d) with (findAccount u d) in Hs, Hr. cbv zeta.
  destruct (findAccount u d) as [a d']. cbn [fst snd] in *.
  destruct He as [(now & _ & Ht & ->)|[-> _]]; [by rewrite Hf|].
  unfold read_found_account in Hr. by destruct (PQntuples r =? 0).
Qed.

Lemma touchLastLogin_up account d :
  serving d ->
  let q := touchLastLogin account d in
  q.1 = true /\ tables_of q.2 = tables_of d /\ soon d q.2.
Proof.
  intros Hd. pose proof (touchLastLogin_effect account d) as He. unfold quiet_or in He.
  destruct (query_up sql_touchLastLogin [to_string account] false (fun _ => true) d)
    as [Hs [r Hr]]; [done|solve_statement|by intros; eexists|].
  change (query _ _ _ _ _ d) with (touchLastLogin account d) in Hs, Hr. cbv zeta.
  destruct (touchLastLogin account d) as [a d']. cbn [fst snd] in *.
  destruct He as [(now & _ & -> & Ht)|[-> _]]; [done|discriminate].
Qed.

Lemma createSession_up account token ttl d :
  serving d -> fits 64 account -> fits 32 ttl ->
  account ∈ ar_id <$> t_accounts (tables_of d) -> c_str token ∉ sr_token <$> t_sessions (tables_of d) ->
  let q := createSession account token ttl d in
  q.1 = true /\ soon d q.2 /\
  exists now, clock_of d <= now /\
    tables_of q.2 = do_createSession (c_str token) account (now + ttl * 10 ^ 6) (tables_of d).
Proof.
  intros Hd Ha Ht Hin Hnew. pose proof (createSession_effect account token ttl d Ha Ht) as He.
  unfold quiet_or in He.
  destruct (query_up sql_createSession [c_str token; to_string account; to_string ttl] false
    (fun _ => true) d) as [Hs [r Hr]]; [done|solve_statement| |].
  { intros now _.
    change (statement lower now sql_createSession [c_str token; to_string account; to_string ttl]
      (tables_of d)) with
      (if existsb (fun a => ar_id a =? strtoul (to_string account)) (t_accounts (tables_of d))
          && negb (existsb (fun s => bool_decide (sr_token s = c_str token))
                     (t_sessions (tables_of d)))
       then Some ([] : list (list string), do_createSession (c_str token)
              (strtoul (to_string account)) (now + strtoul (to_string ttl) * 10 ^ 6) (tables_of d))
       else None).
    rewrite strtoul_to_string by done. rewrite (proj2 (existsb_account _ _) Hin).
    destruct (existsb _ (t_sessions (tables_of d))) eqn:E; [|by eexists].
    apply existsb_exists in E as (s & Hs%list_elem_of_In & Heq%bool_decide_eq_true).
    destruct Hnew. rewrite <- Heq. by apply list_elem_of_fmap_2. }
  change (query _ _ _ _ _ d) with (createSession account token ttl d) in Hs, Hr. cbv zeta.
  destruct (createSession account token ttl d) as [a d']. cbn [fst snd] in *.
  destruct He as [(now & Hc & -> & _ & _ & Htab)|[-> _]]; [|discriminate].
  split; [done|]. split; [done|]. exists now. split; [lia|done].
Qed.

Lemma lookupSession_up token row d :
  serving d -> store_ok lower (tables_of d) ->
  (forall now, clock_of d <= now <= clock_of d + lag ->
     live now (c_str token) (tables_of d) = Some row) ->
  let q := lookupSession token d in
  q.1 = (true, true, session_of_row row) /\ tables_of q.2 = tables_of d /\ soon d q.2.
Proof.
  intros Hd Hok Hl. pose proof (lookupSession_effect token d Hok) as He. unfold quiet_or in He.
  destruct (query_up sql_lookupSession [c_str token] (false, false, no_session) read_found_session d)
    as [Hs [r Hr]]; [done|solve_statement|by intros; eexists|].
  change (query _ _ _ _ _ d) with (lookupSession token d) in Hs, Hr. cbv zeta.
  destruct (lookupSession token d) as [a d']. cbn [fst snd] in *.
  destruct He as [(now & Hn & Ht & ->)|[-> _]].
  - rewrite Hl; [done|]. destruct Hs as [_ Hs]. lia.
  - unfold read_found_session in Hr. by destruct (PQntuples r =? 0).
Qed.

(** ** The replies *)

(** The message handler answers request [r] of id [n] with [reply]. *)
Definition answers_with (n : Z) (r : Request) (reply : Reply (call_of r)) (d d' : Database PG)
    : Prop :=
  exists m, handleMessage (request_type r) (request_payload n r) d = (Some m, d') /\
    answers n m = true /\
    handler_reply (call_of r) true (msg_type m) (msg_payload m) = (true, reply).

(** From what a handler writes to the answer. *)
Lemma answers_with_payload n r resp handler reply (d d' : Database PG) payload :
  fits 32 n -> dispatchRequest (request_type r) = Some (resp, handler) ->
  db_message_code resp = response_type (call_of r) ->
  handler n (mkReader (request_payload n r) 4 false) d = (payload, d') ->
  reads ((_ <-- r_u32 ;; read_reply (call_of r))%reader) payload reply ->
  answers_with n r reply d d'.
Proof.
  intros Hn Hd Hresp Hh Hr. eexists. split_and!.
  - unfold handleMessage. rewrite request_open by done. cbn [failed mFailed]. by rewrite Hd, Hh.
  - destruct (handler_prefix _ _ _ n (mkReader (request_payload n r) 4 false) d Hd) as [rest Hrest].
    rewrite Hh in Hrest. by eapply reply_answers.
  - cbn [msg_type msg_payload]. rewrite Hresp. by apply handler_reply_decode.
Qed.

Lemma lookup_answered n u row rows (d : Database PG) :
  serving d -> store_ok lower (tables_of d) -> request_wf (ReqLookupAccount u) -> fits 32 n ->
  find_rows lower (c_str u) (tables_of d) = row :: rows ->
  exists d', answers_with n (ReqLookupAccount u) (account_reply [row]) d d' /\
    tables_of d' = tables_of d /\ soon d d'.
Proof.
  intros Hd Hok Hu Hn Hf. simpl in Hu.
  destruct (findAccount_up u row rows d Hd Hok Hf) as (Hq & Ht & Hs).
  exists (findAccount u d).2. split; [|done].
  assert (Hin : row ∈ t_accounts (tables_of d)) by (by eapply find_rows_in).
  destruct (row_fits _ _ Hok Hin) as (H1 & H2 & H3 & H4).
  eapply answers_with_payload; [done|reflexivity|reflexivity| |
    by apply (reads_account n true (ar_id row) (ar_password_hash row) (ar_permission_level row))].
  unfold handleAccountLookup, request_payload, write_request. autorewrite with writer.
  rewrite app_nil_l. read_field (e_u32 n) (@nil byte) (reads_string u).
  cbn [failed mFailed]. unfold sm_bind. destruct (findAccount u d) as [a d'].
  cbn [fst snd] in *. subst a. cbn [sm_ret andb account_of_row acc_permissionLevel
    acc_passwordHash acc_id]. by autorewrite with writer.
Qed.

Lemma session_answered n account token ttl (d : Database PG) :
  serving d -> request_wf (ReqCreateSession account token ttl) -> fits 32 n ->
  account ∈ ar_id <$> t_accounts (tables_of d) -> c_str token ∉ sr_token <$> t_sessions (tables_of d) ->
  exists d' now, answers_with n (ReqCreateSession account token ttl) (Some DbOk) d d' /\
    clock_of d <= now /\
    tables_of d' = do_createSession (c_str token) account (now + ttl * 10 ^ 6) (tables_of d) /\
    serving d' /\ clock_of d' <= clock_of d + 2 * lag.
Proof.
  intros Hd (Ha & Ht & Httl) Hn Hin Hnew.
  destruct (createSession_up account token ttl d Hd Ha Httl Hin Hnew)
    as (Hq & [Hs Hc] & now & Hnow & Htab).
  destruct (touchLastLogin_up account (createSession account token ttl d).2 Hs)
    as (Hq2 & Htab2 & Hs2 & Hc2).
  exists (touchLastLogin account (createSession account token ttl d).2).2, now.
  split; [|split; [done|]; split; [congruence|]; split; [done|lia]].
  eapply answers_with_payload; [done|reflexivity|reflexivity| |by apply (reads_result n DbOk)].
  unfold handleSessionCreate, request_payload, write_request. autorewrite with writer.
  rewrite app_nil_l.
  read_field (e_u32 n) (e_string token ++ e_u32 ttl) (reads_u64 account).
  read_field (e_u32 n ++ e_u64 account) (e_u32 ttl) (reads_string token).
  read_field ((e_u32 n ++ e_u64 account) ++ e_string token) (@nil byte) (reads_u32 ttl).
  cbn [failed mFailed]. unfold sm_bind. destruct (createSession account token ttl d) as [a d'].
  cbn [fst snd] in *. subst a. destruct (touchLastLogin account d') as [b d'']. cbn [fst snd] in *.
  subst b. cbn [sm_ret]. by autorewrite with writer.
Qed.

Lemma token_answered n token row (d : Database PG) :
  serving d -> store_ok lower (tables_of d) -> request_wf (ReqLookupSession token) -> fits 32 n ->
  (forall now, clock_of d <= now <= clock_of d + lag ->
     live now (c_str token) (tables_of d) = Some row) ->
  exists d', answers_with n (ReqLookupSession token) (session_reply (Some row)) d d' /\
    tables_of d' = tables_of d /\ soon d d'.
Proof.
  intros Hd Hok Hu Hn Hl. simpl in Hu.
  destruct (lookupSession_up token row d Hd Hok Hl) as (Hq & Ht & Hs).
  exists (lookupSession token d).2. split; [|done].
  assert (Hin : row ∈ t_accounts (tables_of d)).
  { destruct Hs as [_ Hs]. eapply live_in, (Hl (clock_of d)). lia. }
  destruct (row_fits _ _ Hok Hin) as (H1 & H2 & H3 & H4).
  eapply answers_with_payload; [done|reflexivity|reflexivity| |
    by apply (reads_session n true (ar_id row) (ar_username row) (ar_permission_level row))].
  unfold handleSessionLookup, request_payload, write_request. autorewrite with writer.
  rewrite app_nil_l. read_field (e_u32 n) (@nil byte) (reads_string token).
  cbn [failed mFailed]. unfold sm_bind. destruct (lookupSession token d) as [a d'].
  cbn [fst snd] in *. subst a. cbn [sm_ret andb session_of_row ses_permissionLevel
    ses_username ses_accountId]. by autorewrite with writer.
Qed.

End Answering.

(** The in-memory server of Database.v is up while it is not down. *)
Lemma mem_is_up : postgres_up (fun pg => InMemory.mem_up pg = true) 0.
Proof.
  assert (Hex : forall sql values pg, InMemory.mem_up pg = true ->
    InMemory.mem_up (PQexecParams sql values pg).2 = true /\
    clock (PQexecParams sql values pg).2 = clock pg /\
    (is_Some (statement lower (clock pg) sql values (tables pg)) ->
     PQresultStatus (PQexecParams sql values pg).1 <> PGRES_FATAL_ERROR)).
  { intros sql values pg Hu. cbn [PQexecParams InMemory.mem_postgres lower InMemory.mem_laws].
    unfold InMemory.mem_exec. rewrite Hu. cbn [clock tables InMemory.mem_laws].
    destruct (statement _ _ _ _ _) as [[rows t]|]; cbn [fst snd].
    - split; [done|]. split; [done|]. intros _. cbn. by destruct (returns_rows sql).
    - split; [done|]. split; [done|]. by intros []. }
  split.
  - done.
  - intros sql values pg Hu _ Hdef. apply Hex; [done|]. apply Hdef. lia.
  - intros sql values pg Hu. by apply Hex.
  - intros sql values pg Hu. destruct (Hex sql values pg Hu) as (_ & -> & _). lia.
Qed.
