(* ===== verification/Prediction.v ===== *)
(** * Client-side prediction with rollback ([client/src/prediction.cpp])

    The client steps its own character with the shared rule, keeps the inputs
    the server has not acknowledged, and replays them on every authoritative
    state. *)

From Stdlib Require Import ZArith Lia Floats.SpecFloat.
From stdpp Require Import base list option gmap sorting.
From S2P Require Import Prelude Float32 Protocol Snapshot Terrain Character Simulation Ticks.

Open Scope Z_scope.

Definition kPositionTolerance : float := lit32 2 100.
Definition kSmoothingHalfLife : float := lit32 8 100.
Definition kMaxSmoothedCorrection : float := f32_of_Z 2.
Definition kTickSeconds : float := (f32_one / f32_of_Z kServerTickHz)%f32.
Definition kMaxPending : nat := 256.

Definition distance (a b : Vec) : float :=
  let dx := (vec_x a - vec_x b)%f32 in
  let dy := (vec_y a - vec_y b)%f32 in
  let dz := (vec_z a - vec_z b)%f32 in
  f32_sqrt (dx * dx + dy * dy + dz * dz)%f32.

Record Prediction := mkPrediction {
  pr_character : Character;
  pr_active : bool;
  pr_pending : list CharacterInput;
  pr_nextSequence : Z;
  pr_smoothingOffset : Vec;
  pr_rollbacks : Z;
  pr_lastCorrection : float;
}.

Definition new_prediction : Prediction :=
  mkPrediction default_character false [] 1 vec_zero 0 f32_zero.

Definition shutdown (p : Prediction) : Prediction :=
  mkPrediction default_character false [] (pr_nextSequence p) (pr_smoothingOffset p)
    (pr_rollbacks p) (pr_lastCorrection p).

Definition at_position (position : Vec) : Character :=
  {| ch_position := position; ch_velocity := ch_velocity default_character;
     ch_grounded := ch_grounded default_character;
     ch_facingYaw := ch_facingYaw default_character |}.

Definition init (spawnPosition : Vec) (p : Prediction) : Prediction :=
  mkPrediction (at_position spawnPosition) true [] 1 vec_zero 0 f32_zero.

(** What bounding the history drops from its front. *)
Definition bound_pending (pending : list CharacterInput) : list CharacterInput :=
  drop (length pending - kMaxPending) pending.

(** [while (!mPending.empty() && mPending.front().sequence <= acked)]. *)
Fixpoint drop_acked (acked : Z) (pending : list CharacterInput) : list CharacterInput :=
  match pending with
  | [] => []
  | i :: pending' => if ci_sequence i <=? acked then drop_acked acked pending' else pending
  end.

Section Prediction.
Context `{Libm}.

Definition simulateTick (c : Character) (input : CharacterInput) : Character :=
  stepCharacter c input kTickSeconds.

Definition make_input (sequence : Z) (moveForward moveRight yaw : float) (jump sprint : bool)
    : CharacterInput :=
  {| ci_sequence := sequence; ci_moveForward := moveForward; ci_moveRight := moveRight;
     ci_yaw := yaw; ci_jump := jump; ci_sprint := sprint |}.

Definition step (moveForward moveRight yaw : float) (jump sprint : bool) (p : Prediction)
    : CharacterInput * Prediction :=
  let input := make_input (pr_nextSequence p) moveForward moveRight yaw jump sprint in
  let next := u32 (pr_nextSequence p + 1) in
  if negb (pr_active p) then
    (input, mkPrediction (pr_character p) (pr_active p) (pr_pending p) next
              (pr_smoothingOffset p) (pr_rollbacks p) (pr_lastCorrection p))
  else
    (input, mkPrediction (simulateTick (pr_character p) input) (pr_active p)
              (bound_pending (pr_pending p ++ [input])) next
              (pr_smoothingOffset p) (pr_rollbacks p) (pr_lastCorrection p)).

Definition vec_of_net (v : Vec3) : Vec := mkVec (vx v) (vy v) (vz v).

(** The rewind: position and velocity are the server's, the rest is kept. *)
Definition rewind (authoritative : EntityState) (c : Character) : Character :=
  {| ch_position := vec_of_net (es_position authoritative);
     ch_velocity := vec_of_net (es_velocity authoritative);
     ch_grounded := ch_grounded c; ch_facingYaw := ch_facingYaw c |}.

Definition reconcile (authoritative : EntityState) (p : Prediction) : Prediction :=
  if negb (pr_active p) then p
  else
    let pending := drop_acked (es_lastInputSequence authoritative) (pr_pending p) in
    let predictedBefore := ch_position (pr_character p) in
    let c := foldl simulateTick (rewind authoritative (pr_character p)) pending in
    let predictedAfter := ch_position c in
    let error := distance predictedBefore predictedAfter in
    let after offset rollbacks :=
      mkPrediction c (pr_active p) pending (pr_nextSequence p) offset rollbacks error in
    if (error <=? kPositionTolerance)%f32 then after (pr_smoothingOffset p) (pr_rollbacks p)
    else
      let rollbacks := u32 (pr_rollbacks p + 1) in
      if (kMaxSmoothedCorrection <? error)%f32 then after vec_zero rollbacks
      else
        let o := pr_smoothingOffset p in
        after (mkVec (vec_x o + (vec_x predictedBefore - vec_x predictedAfter))%f32
                     (vec_y o + (vec_y predictedBefore - vec_y predictedAfter))%f32
                     (vec_z o + (vec_z predictedBefore - vec_z predictedAfter))%f32) rollbacks.

Definition updateSmoothing (deltaSeconds : float) (p : Prediction) : Prediction :=
  let decay := f32_exp2 (- deltaSeconds / kSmoothingHalfLife)%f32 in
  let o := pr_smoothingOffset p in
  mkPrediction (pr_character p) (pr_active p) (pr_pending p) (pr_nextSequence p)
    (mkVec (vec_x o * decay)%f32 (vec_y o * decay)%f32 (vec_z o * decay)%f32)
    (pr_rollbacks p) (pr_lastCorrection p).

Definition renderPosition (p : Prediction) : Vec :=
  if negb (pr_active p) then vec_zero
  else
    let c := ch_position (pr_character p) in
    let o := pr_smoothingOffset p in
    mkVec (vec_x c + vec_x o)%f32 (vec_y c + vec_y o)%f32 (vec_z c + vec_z o)%f32.

Definition pendingInputCount (p : Prediction) : Z := u32 (Z.of_nat (length (pr_pending p))).

(** ** The history of inputs *)

(** The pending inputs are consecutive and end with the last one made. *)
Definition pending_ok (p : Prediction) : Prop :=
  (length (pr_pending p) <= kMaxPending)%nat /\
  1 <= pr_nextSequence p - Z.of_nat (length (pr_pending p)) /\
  forall n i, pr_pending p !! n = Some i ->
    ci_sequence i = pr_nextSequence p - Z.of_nat (length (pr_pending p)) + Z.of_nat n.

Lemma drop_acked_suffix acked pending :
  exists acknowledged, pending = acknowledged ++ drop_acked acked pending /\
    Forall (fun i => ci_sequence i <= acked) acknowledged /\
    (forall i, head (drop_acked acked pending) = Some i -> acked < ci_sequence i).
Proof.
  induction pending as [|i pending IH]; cbn [drop_acked].
  - exists []. by split_and!.
  - destruct (Z.leb_spec (ci_sequence i) acked) as [Hle|Hgt].
    + destruct IH as (a & H1 & H2 & H3). exists (i :: a).
      split_and!; [cbn; by rewrite <- H1|by constructor|done].
    + exists []. split_and!; [done|done|]. by intros i0 [= <-].
Qed.

Lemma pending_ok_suffix p l1 l2 c a o r e :
  pending_ok p -> pr_pending p = l1 ++ l2 ->
  pending_ok (mkPrediction c a l2 (pr_nextSequence p) o r e).
Proof.
  intros (H1 & H2 & H3) E. rewrite E in *. rewrite length_app in *.
  split_and!; cbn [pr_pending pr_nextSequence]; [lia|lia|].
  intros n i Hi. rewrite (H3 (length l1 + n)%nat i); [lia|].
  rewrite lookup_app_r by lia. by replace (length l1 + n - length l1)%nat with n by lia.
Qed.

Lemma step_pending_ok f r y j sp p :
  pr_nextSequence p + 1 < 2 ^ 32 -> pending_ok p -> pr_active p = true ->
  pending_ok (step f r y j sp p).2.
Proof.
  intros Hn (H1 & H2 & H3) Ha. unfold step. rewrite Ha. cbn [negb snd].
  set (input := make_input _ _ _ _ _ _).
  assert (Hfull : forall n i, (pr_pending p ++ [input]) !! n = Some i ->
    ci_sequence i = pr_nextSequence p - Z.of_nat (length (pr_pending p)) + Z.of_nat n).
  { intros n i Hi. apply lookup_app_Some in Hi as [Hi|[Hge Hi]]; [by apply H3|].
    apply list_lookup_singleton_Some in Hi as [Hz <-]. cbn [ci_sequence input make_input]. lia. }
  unfold pending_ok, bound_pending. cbn [pr_pending pr_nextSequence].
  rewrite length_drop, length_app. cbn [length]. rewrite wrap_id by (unfold fits; lia).
  unfold kMaxPending in *. split_and!; [lia|lia|].
  intros n i. rewrite lookup_drop. intros Hi. rewrite (Hfull _ _ Hi). lia.
Qed.

Lemma reconcile_pending auth p :
  pr_active p = true ->
  pr_pending (reconcile auth p) = drop_acked (es_lastInputSequence auth) (pr_pending p) /\
  pr_nextSequence (reconcile auth p) = pr_nextSequence p /\
  pr_active (reconcile auth p) = true /\
  pr_character (reconcile auth p) = foldl simulateTick (rewind auth (pr_character p))
    (drop_acked (es_lastInputSequence auth) (pr_pending p)).
Proof.
  intros Ha. unfold reconcile. rewrite Ha. cbn [negb].
  destruct (_ <=? _)%f32; [done|]. by destruct (_ <? _)%f32.
Qed.

Lemma reconcile_pending_ok auth p :
  pr_active p = true -> pending_ok p -> pending_ok (reconcile auth p).
Proof.
  intros Ha Hp. destruct (reconcile_pending auth p Ha) as (H1 & H2 & _).
  destruct (drop_acked_suffix (es_lastInputSequence auth) (pr_pending p)) as (l1 & Hl & _).
  destruct (reconcile auth p) as [c a pend next o r e]. cbn [pr_pending pr_nextSequence] in *.
  subst pend next. by eapply pending_ok_suffix.
Qed.

(** What the client does between joining and leaving. *)
Inductive PredictionOp :=
| OpStep (moveForward moveRight yaw : float) (jump sprint : bool)
| OpReconcile (authoritative : EntityState)
| OpSmooth (deltaSeconds : float).

Definition run_op (p : Prediction) (o : PredictionOp) : Prediction :=
  match o with
  | OpStep f r y j sp => (step f r y j sp p).2
  | OpReconcile auth => reconcile auth p
  | OpSmooth dt => updateSmoothing dt p
  end.

Lemma prediction_op_next p o :
  0 <= pr_nextSequence p -> pr_nextSequence p + 1 < 2 ^ 32 -> pr_active p = true ->
  pr_active (run_op p o) = true /\
  pr_nextSequence p <= pr_nextSequence (run_op p o) <= pr_nextSequence p + 1.
Proof.
  intros H0 Hn Ha. destruct o as [f r y j sp|auth|dt]; cbn [run_op].
  - unfold step. rewrite Ha. cbn. rewrite wrap_id by (unfold fits; lia). lia.
  - destruct (reconcile_pending auth p Ha) as (_ & -> & -> & _). split; [done|lia].
  - cbn. split; [done|lia].
Qed.

(** The client keeps exactly the inputs it may have to replay. After any
    sequence of ticks, authoritative states and frames since [init] (fewer than
    2^32 - 2 of them), the pending inputs are at most 256, with consecutive
    sequence numbers that end at the last input made; and an authoritative state
    removes exactly those it acknowledges. *)
Theorem pending_inputs (spawn : Vec) (p0 : Prediction) (ops : list PredictionOp)
    (Hn : Z.of_nat (length ops) + 2 < 2 ^ 32) :
  let p := foldl run_op (init spawn p0) ops in
  pending_ok p /\
  forall auth, pr_pending (reconcile auth p) =
    filter (fun i => es_lastInputSequence auth < ci_sequence i) (pr_pending p).
Proof.
  cbv zeta.
  assert (Hinv : forall p, pending_ok p -> pr_active p = true ->
    pr_nextSequence p + Z.of_nat (length ops) + 1 < 2 ^ 32 ->
    pending_ok (foldl run_op p ops) /\ pr_active (foldl run_op p ops) = true).
  { clear Hn. induction ops as [|o ops IH]; intros p Hp Ha Hn; [done|]. cbn [foldl].
    cbn [length] in Hn. assert (0 <= pr_nextSequence p) by (destruct Hp as (_ & Hx & _); lia).
    destruct (prediction_op_next p o) as [Ha' Hn']; [done|lia|done|].
    apply IH; [|done|lia]. destruct o as [f r y j sp|auth|dt]; cbn [run_op].
    - apply step_pending_ok; [lia|done|done].
    - by apply reconcile_pending_ok.
    - exact Hp. }
  destruct (Hinv (init spawn p0)) as [Hp Ha].
  { split_and!; cbn; [unfold kMaxPending; lia|lia|done]. }
  { done. }
  { cbn. lia. }
  split; [exact Hp|]. intros auth. destruct (reconcile_pending auth _ Ha) as (-> & _).
  destruct Hp as (_ & _ & Hseq). revert Hseq.
  generalize (pr_nextSequence (foldl run_op (init spawn p0) ops)
    - Z.of_nat (length (pr_pending (foldl run_op (init spawn p0) ops)))).
  induction (pr_pending (foldl run_op (init spawn p0) ops)) as [|i l IH]; intros b Hseq; [done|].
  cbn [drop_acked]. rewrite filter_cons.
  pose proof (Hseq 0%nat i eq_refl) as Hi.
  destruct (Z.leb_spec (ci_sequence i) (es_lastInputSequence auth)) as [Hle|Hgt].
  - rewrite decide_False by lia. apply (IH (b + 1)). intros n j Hj.
    rewrite (Hseq (S n) j Hj). lia.
  - rewrite decide_True by lia. f_equal. symmetry.
    assert (Hall : Forall (fun i => es_lastInputSequence auth < ci_sequence i) l).
    { apply Forall_lookup. intros n j Hj. rewrite (Hseq (S n) j Hj). lia. }
    clear -Hall. induction Hall as [|j l Hj Hall IH]; [done|].
    rewrite filter_cons, decide_True by done. by f_equal.
Qed.

(** ** Agreement with the server *)

(** The state of the motion; the facing does not influence it. *)
Definition motion (c : Character) : Vec * Vec * bool :=
  (ch_position c, ch_velocity c, ch_grounded c).

(** Characters that differ in their facing only. *)
Lemma motion_facing c1 c2 :
  motion c1 = motion c2 ->
  c2 = {| ch_position := ch_position c1; ch_velocity := ch_velocity c1;
          ch_grounded := ch_grounded c1; ch_facingYaw := ch_facingYaw c2 |}.
Proof. destruct c1, c2. unfold motion. cbn. by intros [= <- <- <-]. Qed.

Lemma horizontal_motion input c1 c2 :
  motion c1 = motion c2 -> motion (horizontal input c1) = motion (horizontal input c2).
Proof.
  intros ->%motion_facing. unfold horizontal. by destruct (target input), (ch_grounded c1).
Qed.

Lemma vertical_motion input dt c1 c2 :
  motion c1 = motion c2 -> motion (vertical input dt c1) = motion (vertical input dt c2).
Proof.
  intros ->%motion_facing. unfold vertical. cbn [ch_grounded ch_position ch_velocity].
  destruct (ci_jump input && ch_grounded c1)%bool; [done|].
  destruct (ch_grounded c1) eqn:Eg; cbn [negb]; [|done].
  unfold motion. cbn [ch_position ch_velocity ch_grounded]. by rewrite Eg.
Qed.

Lemma integrate_motion dt c1 c2 :
  motion c1 = motion c2 -> motion (integrate dt c1) = motion (integrate dt c2).
Proof. by intros ->%motion_facing. Qed.

Lemma resolve_ground_motion c1 c2 :
  motion c1 = motion c2 -> motion (resolve_ground c1) = motion (resolve_ground c2).
Proof.
  intros ->%motion_facing. unfold resolve_ground. cbn [ch_position ch_velocity].
  destruct (vec_y (ch_position c1) <=? restY (ch_position c1))%f32; [done|].
  by destruct (_ && _)%bool.
Qed.

Lemma step_motion c1 c2 input dt :
  motion c1 = motion c2 -> motion (stepCharacter c1 input dt) = motion (stepCharacter c2 input dt).
Proof.
  intros Hm. unfold stepCharacter. apply resolve_ground_motion, integrate_motion.
  by apply (vertical_motion input dt), horizontal_motion.
Qed.

Lemma replay_motion inputs : forall c1 c2,
  motion c1 = motion c2 ->
  motion (foldl simulateTick c1 inputs) = motion (foldl simulateTick c2 inputs).
Proof.
  induction inputs as [|i inputs IH]; intros c1 c2 Hm; [done|]. cbn [foldl].
  by apply IH, step_motion.
Qed.

(** The client predicts with the tick the server steps with. *)
Lemma tick_lengths_agree : f32_of_f64 tickSeconds = kTickSeconds.
Proof. vm_compute. reflexivity. Qed.

(** The server takes the inputs one per tick. *)
Definition serve (playerId : Z) (real : double) (s : Simulation) (input : CharacterInput)
    : Simulation :=
  Simulation.step real (f32_of_f64 tickSeconds) (setInput playerId input s).

Lemma serve_spec playerId real s input p :
  sim_players s !! playerId = Some p -> newer (sp_input p) input = true ->
  exists p', sim_players (serve playerId real s input) !! playerId = Some p' /\
    sp_character p' = simulateTick (sp_character p) input /\
    ci_sequence (sp_input p') = ci_sequence input.
Proof.
  intros E Hn. unfold serve. rewrite step_players, lookup_fmap, setInput_alter.
  cbn [sim_players set_players]. rewrite lookup_alter, decide_True, E by done.
  eexists. split; [done|]. unfold take_input. rewrite Hn. cbn [step_player sp_character sp_input
    without_jump ci_sequence]. split; [|done]. unfold simulateTick. by rewrite tick_lengths_agree.
Qed.

Lemma serve_all playerId real inputs : forall s p,
  sim_players s !! playerId = Some p ->
  (forall n i, inputs !! n = Some i -> ci_sequence (sp_input p) + Z.of_nat n + 1 = ci_sequence i) ->
  exists p', sim_players (foldl (serve playerId real) s inputs) !! playerId = Some p' /\
    sp_character p' = foldl simulateTick (sp_character p) inputs.
Proof.
  induction inputs as [|i inputs IH]; intros s p E Hseq; [by exists p|]. cbn [foldl].
  pose proof (Hseq 0%nat i eq_refl) as Hi.
  destruct (serve_spec playerId real s i p E) as (p1 & E1 & Hc & Hs).
  { unfold newer. rewrite (proj2 (Z.leb_le _ _)) by lia. apply orb_true_r. }
  rewrite <- Hc. apply (IH _ p1); [done|]. intros n j Hj. rewrite Hs.
  specialize (Hseq (S n) j Hj). lia.
Qed.

(** C15: After a reconciliation the client is where the server will be. Take the
    server's player at a snapshot, with the last input it consumed acknowledged,
    and let the server then take the client's pending inputs one per tick: the
    character the server ends up with has exactly the position, the velocity and
    the grounded state the client has after reconciling with that snapshot,
    provided the client's character was grounded exactly if the server's was. *)
Theorem reconcile_meets_server (playerId : Z) (real : double) (s : Simulation) (sp : SimPlayer)
    (p : Prediction)
    (Hs : sim_players s !! playerId = Some sp)
    (Hconsumed : ci_sequence (sp_input sp) = sp_lastInputSequence sp)
    (Hactive : pr_active p = true) (Hok : pending_ok p)
    (Hknown : pr_nextSequence p - Z.of_nat (length (pr_pending p)) <= sp_lastInputSequence sp + 1)
    (Hmade : sp_lastInputSequence sp < pr_nextSequence p)
    (Hgrounded : ch_grounded (pr_character p) = ch_grounded (sp_character sp)) :
  let p' := reconcile (player_entity sp) p in
  exists sp', sim_players (foldl (serve playerId real) s (pr_pending p')) !! playerId = Some sp' /\
    motion (sp_character sp') = motion (pr_character p').
Proof.
  cbv zeta. destruct (reconcile_pending (player_entity sp) p Hactive) as (Hp & _ & _ & Hc).
  rewrite Hc, Hp. change (es_lastInputSequence (player_entity sp)) with (sp_lastInputSequence sp).
  destruct (drop_acked_suffix (sp_lastInputSequence sp) (pr_pending p)) as (l1 & Hl & Hacked & Hhead).
  set (rest := drop_acked (sp_lastInputSequence sp) (pr_pending p)) in *.
  destruct Hok as (_ & _ & Hseq).
  assert (Hrest : forall n i, rest !! n = Some i ->
    ci_sequence i = pr_nextSequence p - Z.of_nat (length rest) + Z.of_nat n).
  { intros n i Hi. rewrite (Hseq (length l1 + n)%nat i).
    - rewrite Hl, length_app. lia.
    - rewrite Hl, lookup_app_r by lia. by replace (length l1 + n - length l1)%nat with n by lia. }
  assert (Hfirst : pr_nextSequence p - Z.of_nat (length rest) = sp_lastInputSequence sp + 1).
  { assert (Hlow : pr_nextSequence p - Z.of_nat (length rest) <= sp_lastInputSequence sp + 1).
    { destruct l1 as [|i0 l1] using rev_ind.
      - cbn in Hl. rewrite <- Hl. exact Hknown.
      - apply Forall_app in Hacked as [_ Hi0]. rewrite Forall_singleton in Hi0.
        assert (Hlk : pr_pending p !! length l1 = Some i0).
        { rewrite Hl, <- app_assoc, lookup_app_r, Nat.sub_diag by lia. done. }
        specialize (Hseq _ _ Hlk). rewrite Hl, !length_app in Hseq. cbn [length] in Hseq. lia. }
    destruct rest as [|i rest']; [cbn in *; lia|].
    specialize (Hhead i eq_refl). specialize (Hrest 0%nat i eq_refl). lia. }
  destruct (serve_all playerId real rest s sp Hs) as (sp' & E & Hc').
  { intros n i Hi. rewrite (Hrest n i Hi), Hconsumed. lia. }
  exists sp'. split; [exact E|]. rewrite Hc'. apply replay_motion.
  unfold motion, rewind, player_entity, vec_of_net, net_vec.
  cbn [es_position es_velocity ch_position ch_velocity ch_grounded vx vy vz].
  rewrite Hgrounded. by destruct (ch_position (sp_character sp)), (ch_velocity (sp_character sp)).
Qed.

(** Small disagreements are left alone, large ones are not eased. A
    reconciliation whose error is within the tolerance changes neither the
    drawing offset nor the count of rollbacks; any other one counts, and one
    beyond the largest smoothed correction clears the offset, so the character is
    drawn exactly where it is. *)
Theorem reconcile_correction (authoritative : EntityState) (p : Prediction)
    (Hactive : pr_active p = true) :
  let p' := reconcile authoritative p in
  let error := distance (ch_position (pr_character p)) (ch_position (pr_character p')) in
  pr_lastCorrection p' = error /\
  ((error <=? kPositionTolerance)%f32 = true ->
     pr_smoothingOffset p' = pr_smoothingOffset p /\ pr_rollbacks p' = pr_rollbacks p) /\
  ((error <=? kPositionTolerance)%f32 = false -> pr_rollbacks p' = u32 (pr_rollbacks p + 1)) /\
  ((kMaxSmoothedCorrection <? error)%f32 = true -> pr_smoothingOffset p' = vec_zero).
Proof.
  cbv zeta. destruct (reconcile_pending authoritative p Hactive) as (_ & _ & _ & ->).
  unfold reconcile. rewrite Hactive. cbn [negb].
  set (c := foldl simulateTick _ _). set (error := distance _ _).
  destruct (error <=? kPositionTolerance)%f32 eqn:Et.
  - split_and!; [done|done|done|]. intros Hmax. exfalso.
    clearbody error. clear c Hactive.
    change kMaxSmoothedCorrection with (S754_finite false 8388608 (-22)) in Hmax.
    unfold kPositionTolerance in Et.
    assert (Htol : lit32 2 100 = S754_finite false 10737418 (-29)) by (vm_compute; reflexivity).
    rewrite Htol in Et. clear Htol.
    destruct error as [[]|[]| |[] m e]; try discriminate.
    unfold SFltb, SFleb in *. cbn [SFcompare] in *.
    destruct (Z.compare_spec (-22) e), (Z.compare_spec e (-29)); try discriminate; lia.
  - destruct (kMaxSmoothedCorrection <? error)%f32; by split_and!.
Qed.

(** In the air a jump request changes nothing. *)
Lemma airborne_jump_ignored c i :
  ch_grounded c = false -> simulateTick c i = simulateTick c (without_jump i).
Proof.
  intros Hg. unfold simulateTick, stepCharacter, vertical.
  by rewrite !horizontal_grounded, Hg, !andb_false_r.
Qed.

(** The rewind keeps the predicted grounded state. A character that has just
    left the ground by a jump the server has not acknowledged is rewound to the
    ground as airborne, and the replay ignores the jump. *)
Lemma reconcile_loses_jump (authoritative : EntityState) (p : Prediction) i pending :
  pr_active p = true -> ch_grounded (pr_character p) = false ->
  drop_acked (es_lastInputSequence authoritative) (pr_pending p) = i :: pending ->
  pr_character (reconcile authoritative p) =
  foldl simulateTick (rewind authoritative (pr_character p)) (without_jump i :: pending).
Proof.
  intros Ha Hg Hp. destruct (reconcile_pending authoritative p Ha) as (_ & _ & _ & ->).
  rewrite Hp. cbn [foldl]. by rewrite airborne_jump_ignored.
Qed.

End Prediction.

(** ** Concrete inputs *)

#[local] Existing Instance axis_libm.

Lemma pending_inputs_witness :
  pending_ok (foldl run_op (init vec_zero new_prediction)
    [OpStep f32_one f32_zero f32_zero false false; OpReconcile (player_entity
       (mkSimPlayer 1000 default_character (input_of 1) 1)); OpSmooth f32_one]).
Proof. refine (proj1 (pending_inputs vec_zero new_prediction _ _)). vm_compute; done. Defined.

Definition toy_prediction : Prediction :=
  mkPrediction default_character true [input_of 1; input_of 2] 3 vec_zero 0 f32_zero.

Lemma toy_prediction_ok : pending_ok toy_prediction.
Proof.
  split_and!; cbn; [unfold kMaxPending; lia|lia|].
  intros [|[|n]] i Hi; cbn in Hi; [by injection Hi as <-|by injection Hi as <-|done].
Qed.

Definition toy_sim : Simulation := (addPlayer 7 new_simulation).2.
Definition toy_player : SimPlayer :=
  mkSimPlayer 1000 (spawn_character 0) default_input 0.

Lemma reconcile_meets_server_witness :
  exists sp', sim_players (foldl (serve 7 f64_zero) toy_sim
      (pr_pending (reconcile (player_entity toy_player) toy_prediction))) !! 7 = Some sp' /\
    motion (sp_character sp')
    = motion (pr_character (reconcile (player_entity toy_player) toy_prediction)).
Proof.
  refine (reconcile_meets_server 7 f64_zero toy_sim toy_player toy_prediction _ _ _ _ _ _ _);
    [reflexivity|reflexivity|reflexivity|exact toy_prediction_ok|cbn; lia|cbn; lia|reflexivity].
Defined.

Lemma reconcile_correction_witness :
  pr_lastCorrection (reconcile (player_entity toy_player) toy_prediction) =
  distance (ch_position (pr_character toy_prediction))
    (ch_position (pr_character (reconcile (player_entity toy_player) toy_prediction))).
Proof.
  exact (proj1 (reconcile_correction (player_entity toy_player) toy_prediction eq_refl)).
Defined.
