(* ===== verification/Sockets.v ===== *)
(** * Sockets ([common/net/src/socket.cpp])

    The POSIX calls, as operations on an environment that holds the kernel's
    answers to come, and the wrappers of [net::TcpSocket] and
    [net::UdpSocket] that the client uses, on POSIX. *)

From Stdlib Require Import ZArith Lia Strings.Byte Strings.String.
From stdpp Require Import base list option.
From S2P Require Import Prelude Framing Address.

Open Scope Z_scope.

(** What [recvfrom] answers: a datagram and its sender, or an error and
    whether its number is [EWOULDBLOCK] or [EAGAIN], or [ECONNREFUSED]. *)
Inductive RecvFromAnswer :=
| FromPeer (from : Address) (data : list byte)
| RecvFromErrno (would_block refused : bool).

(** What [connect] answers: success, or an error and whether it is
    [EINPROGRESS] or [EWOULDBLOCK]. *)
Inductive ConnectAnswer := ConnectOk | ConnectErrno (in_progress would_block : bool).

(** A UDP socket: the kernel's answers to come. *)
Record UdpSocket := mkUdpSocket { us_rx : list RecvFromAnswer }.

Class SocketApi (E : Type) := {
  (** [socket]: whether a descriptor was had, for a UDP socket with the
      kernel's answers to come *)
  sys_stream_socket : SM E bool;
  sys_datagram_socket : SM E (option UdpSocket);
  (** [connect], with the kernel's answers to come on the connection *)
  sys_connect : Address -> SM E (ConnectAnswer * Socket);
  (** [getsockopt(SO_ERROR)]: [None] when the call fails *)
  sys_so_error : SM E (option Z);
  (** [bind] and [fcntl] succeeded *)
  sys_bind : Z -> SM E bool;
  sys_nonblocking : SM E bool;
  (** [getaddrinfo]: the address of the first result, in host byte order *)
  sys_getaddrinfo : string -> SM E (option Z);
  (** [poll]: the count and the events of each descriptor *)
  sys_poll : list Z -> Z -> SM E (Z * list Z);
}.

(** [<poll.h>] *)
Definition POLLIN : Z := 0x001.
Definition POLLOUT : Z := 0x004.
Definition POLLERR : Z := 0x008.
Definition POLLHUP : Z := 0x010.

Section Sockets.
Context {E : Type} `{SocketApi E}.
Local Open Scope sm_scope.

(** [Address::resolve]. *)
Definition resolve (host : string) (port : Z) : SM E (option Address) :=
  let! answer := sys_getaddrinfo host in
  sm_ret (match answer with Some ip => Some (mkAddress ip port) | None => None end).

(** [TcpSocket::connect] on a closed socket; [None] is [false], with the
    socket closed. *)
Definition tcp_connect (address : Address) : SM E (option Socket) :=
  let! handle := sys_stream_socket in
  if negb handle then sm_ret None
  else
    let! _ := sys_nonblocking in
    let! connection := sys_connect address in
    let '(answer, s) := connection in
    match answer with
    | ConnectOk => sm_ret (Some s)
    | ConnectErrno in_progress would_block =>
        if negb in_progress && negb would_block then sm_ret None else sm_ret (Some s)
    end.

(** [TcpSocket::connectResult]. *)
Definition connectResult : SM E bool :=
  let! error := sys_so_error in
  sm_ret (match error with None => false | Some e => e =? 0 end).

(** [UdpSocket::open] on a closed socket; [None] is [false], with the socket
    closed. *)
Definition udp_open (port : Z) : SM E (option UdpSocket) :=
  let! handle := sys_datagram_socket in
  match handle with
  | None => sm_ret None
  | Some s =>
      let! bound := sys_bind port in
      if negb bound then sm_ret None
      else
        let! nonblocking := sys_nonblocking in
        if negb nonblocking then sm_ret None else sm_ret (Some s)
  end.

(** [waitFor] with [n] descriptors: the count and the ready flags. *)
Definition waitFor (n : nat) (timeoutMs : Z) (forWrite : bool) : SM E (Z * list bool) :=
  if (n =? 0)%nat then sm_ret (0, [])
  else
    let events := if forWrite then POLLOUT else POLLIN in
    let! answer := sys_poll (repeat events n) timeoutMs in
    let '(count, revents) := answer in
    let mask := Z.lor (Z.lor events POLLHUP) POLLERR in
    sm_ret (count,
      if 0 <? count
      then (fun i => negb (Z.land (nth i revents 0) mask =? 0)) <$> seq 0 n
      else repeat false n).

Definition waitReadable (n : nat) (timeoutMs : Z) : SM E (Z * list bool) :=
  waitFor n timeoutMs false.

Definition waitWritable (n : nat) (timeoutMs : Z) : SM E (Z * list bool) :=
  waitFor n timeoutMs true.

End Sockets.

(** [UdpSocket::receiveFrom]: the flag, the datagram cut at the capacity, its
    sender, and the socket; no answer left is a call that would block. *)
Definition receiveFrom (capacity : nat) (s : UdpSocket)
    : bool * list byte * Address * UdpSocket :=
  match us_rx s with
  | [] => (true, [], default_address, s)
  | FromPeer from data :: rx => (true, take capacity data, from, mkUdpSocket rx)
  | RecvFromErrno would_block refused :: rx =>
      (would_block || refused, [], default_address, mkUdpSocket rx)
  end.
