(* ===== verification/Descriptors.v ===== *)
(** * Who owns a file descriptor ([common/net/src/socket.cpp])

    [net::TcpSocket] and [net::UdpSocket] are owners of a descriptor of the
    process: they can be moved but not copied, and close what they hold when
    destroyed. Here the variables of a program that hold sockets are a map,
    each operation of the two classes acts on a variable by the calls of POSIX
    it makes, and the descriptors the process has open are part of the
    environment. The theorem is that of ownership: every descriptor a socket
    ever got is held by exactly one variable until it is closed, once.

    The two classes have the same text for closing and moving; one definition
    stands for both. *)

From Stdlib Require Import ZArith Lia Strings.Byte.
From stdpp Require Import base list option gmap.
From S2P Require Import Prelude Framing Address Sockets.

Open Scope Z_scope.

(** ** The operating system *)

(** [sockaddr_in]: the port and the address as the integers whose bytes in
    memory are in network order. *)
Record sockaddr_in := mkSockaddr { sin_port : Z; sin_addr : Z }.

(** [htons], [htonl] and their inverses on a little-endian machine. *)
Definition swap_bytes (n : nat) (v : Z) : Z := le_value (rev (le_bytes n v)).

(** What the calls of the wrapper return, drawn from the environment; a failed
    call returns -1 and leaves [errno]. *)
Class Posix (E : Type) := {
  (** the descriptors the process has open *)
  open_fds : E -> gset Z;
  errno : E -> Z;
  posix_socket (stream : bool) : SM E Z;
  posix_close (fd : Z) : SM E Z;
  posix_getfl (fd : Z) : SM E Z;
  posix_setfl (fd flags : Z) : SM E Z;
  posix_reuseaddr (fd : Z) : SM E Z;
  posix_nodelay (fd : Z) : SM E Z;
  posix_bind (fd : Z) (addr : sockaddr_in) : SM E Z;
  posix_listen (fd backlog : Z) : SM E Z;
  posix_accept (fd : Z) : SM E (Z * sockaddr_in);
  posix_connect (fd : Z) (addr : sockaddr_in) : SM E Z;
  posix_so_error (fd : Z) : SM E (Z * Z);
  posix_recv (fd : Z) (size : nat) : SM E (Z * list byte);
  posix_send (fd : Z) (data : list byte) : SM E Z;
  posix_recvfrom (fd : Z) (size : nat) : SM E (Z * list byte * sockaddr_in);
  posix_sendto (fd : Z) (data : list byte) (addr : sockaddr_in) : SM E Z;
}.

(** [<errno.h>] of Linux, and the flags of [<fcntl.h>]. *)
Definition EAGAIN : Z := 11.
Definition EWOULDBLOCK : Z := 11.
Definition ECONNREFUSED : Z := 111.
Definition EINPROGRESS : Z := 115.
Definition O_NONBLOCK : Z := 0x800.

Definition kInvalidSocket : Z := -1.

(** A call that opens and closes nothing. *)
Definition keeps_open {E A} `{Posix E} (m : SM E A) : Prop :=
  forall e, open_fds (m e).2 = open_fds e.

(** A call that opens one descriptor, or none. *)
Definition opens {E} `{Posix E} (e : E) (fd : Z) (e' : E) : Prop :=
  if decide (fd = kInvalidSocket) then open_fds e' = open_fds e
  else (fd ∉ open_fds e) /\ open_fds e' = ({[fd]} : gset Z) ∪ open_fds e.

(** What POSIX says of descriptors: [socket] and [accept] return one that was
    not open, [close] closes the one it is given, and nothing else changes which
    are open. *)
Class PosixLaws (E : Type) `{Posix E} := {
  socket_opens stream e : opens e (posix_socket stream e).1 (posix_socket stream e).2;
  accept_opens fd e : opens e (posix_accept fd e).1.1 (posix_accept fd e).2;
  close_closes fd e : open_fds (posix_close fd e).2 = open_fds e ∖ {[fd]};
  getfl_keeps fd : keeps_open (posix_getfl fd);
  setfl_keeps fd flags : keeps_open (posix_setfl fd flags);
  reuseaddr_keeps fd : keeps_open (posix_reuseaddr fd);
  nodelay_keeps fd : keeps_open (posix_nodelay fd);
  bind_keeps fd addr : keeps_open (posix_bind fd addr);
  listen_keeps fd backlog : keeps_open (posix_listen fd backlog);
  connect_keeps fd addr : keeps_open (posix_connect fd addr);
  so_error_keeps fd : keeps_open (posix_so_error fd);
  recv_keeps fd size : keeps_open (posix_recv fd size);
  send_keeps fd data : keeps_open (posix_send fd data);
  recvfrom_keeps fd size : keeps_open (posix_recvfrom fd size);
  sendto_keeps fd data addr : keeps_open (posix_sendto fd data addr);
}.

(** ** The program *)

(** The variables that hold sockets with their [mHandle], and each descriptor
    passed to [close], with whether it was open then. *)
Record Process (E : Type) := mkProcess {
  pr_sockets : gmap nat Z;
  pr_closes : list (Z * bool);
  pr_env : E;
}.
Arguments mkProcess {E}.
Arguments pr_sockets {E}.
Arguments pr_closes {E}.
Arguments pr_env {E}.

Section Descriptors.
Context {E : Type} `{HPosix : Posix E}.
Local Open Scope sm_scope.

Abbreviation P := (Process E).

Definition os {A} (m : SM E A) : SM P A := fun p =>
  let '(a, e) := m (pr_env p) in (a, mkProcess (pr_sockets p) (pr_closes p) e).

Definition mHandle (this : nat) : SM P Z := sm_gets (fun p =>
  default kInvalidSocket (pr_sockets p !! this)).
Definition set_mHandle (this : nat) (h : Z) : SM P () := sm_modify (fun p =>
  mkProcess (<[this := h]> (pr_sockets p)) (pr_closes p) (pr_env p)).
Definition get_errno : SM P Z := sm_gets (fun p => errno (pr_env p)).

Definition closeHandle (handle : Z) : SM P Z := fun p =>
  os (posix_close handle)
    (mkProcess (pr_sockets p) (pr_closes p ++ [(handle, bool_decide (handle ∈ open_fds (pr_env p)))])
       (pr_env p)).

Definition setNonBlocking (handle : Z) : SM P bool :=
  let! flags := os (posix_getfl handle) in
  if flags =? -1 then sm_ret false
  else
    let! result := os (posix_setfl handle (Z.lor flags O_NONBLOCK)) in
    sm_ret (negb (result =? -1)).

Definition wouldBlock : SM P bool :=
  let! error := get_errno in
  sm_ret ((error =? EWOULDBLOCK) || (error =? EAGAIN)).

Definition toSockaddr (address : Address) : sockaddr_in :=
  mkSockaddr (swap_bytes 2 (port address)) (swap_bytes 4 (ip address)).
Definition fromSockaddr (addr : sockaddr_in) : Address :=
  mkAddress (swap_bytes 4 (sin_addr addr)) (swap_bytes 2 (sin_port addr)).

(** The address a server binds to: any interface. *)
Definition any_address (port : Z) : sockaddr_in := mkSockaddr (swap_bytes 2 port) (swap_bytes 4 0).

(** *** Owning *)

Definition close (this : nat) : SM P () :=
  let! handle := mHandle this in
  if handle =? kInvalidSocket then sm_ret tt
  else
    closeHandle handle;;
    set_mHandle this kInvalidSocket.

(** The move constructor, on a fresh variable. *)
Definition move_construct (this other : nat) : SM P () :=
  let! handle := mHandle other in
  set_mHandle this handle;;
  set_mHandle other kInvalidSocket.

Definition move_assign (this other : nat) : SM P () :=
  if (this =? other)%nat then sm_ret tt
  else
    close this;;
    let! handle := mHandle other in
    set_mHandle this handle;;
    set_mHandle other kInvalidSocket.

(** The destructor, after which the variable is gone. *)
Definition destroy (this : nat) : SM P () :=
  close this;;
  sm_modify (fun p => mkProcess (delete this (pr_sockets p)) (pr_closes p) (pr_env p)).

(** *** Opening *)

(** [TcpSocket::listen]. *)
Definition listen (this : nat) (port backlog : Z) : SM P bool :=
  close this;;
  let! handle := os (posix_socket true) in
  set_mHandle this handle;;
  if handle =? kInvalidSocket then sm_ret false
  else
    os (posix_reuseaddr handle);;
    let! bound := os (posix_bind handle (any_address port)) in
    let! ready :=
      (if negb (bound =? 0) then sm_ret false
       else
         let! listening := os (posix_listen handle backlog) in
         if negb (listening =? 0) then sm_ret false else setNonBlocking handle) in
    if ready : bool then sm_ret true
    else close this;; sm_ret false.

(** [TcpSocket::accept], into the fresh variable [result]; the address is the
    peer's when there is one. *)
Definition accept (this result : nat) : SM P (option Address) :=
  let! listener := mHandle this in
  let! accepted := os (posix_accept listener) in
  let '(handle, addr) := accepted in
  if handle =? kInvalidSocket then
    set_mHandle result kInvalidSocket;; sm_ret None
  else
    setNonBlocking handle;;
    os (posix_nodelay handle);;
    set_mHandle result handle;;
    sm_ret (Some (fromSockaddr addr)).

(** [TcpSocket::connect]. *)
Definition connect (this : nat) (address : Address) : SM P bool :=
  close this;;
  let! handle := os (posix_socket true) in
  set_mHandle this handle;;
  if handle =? kInvalidSocket then sm_ret false
  else
    setNonBlocking handle;;
    os (posix_nodelay handle);;
    let! result := os (posix_connect handle (toSockaddr address)) in
    if result =? 0 then sm_ret true
    else
      let! error := get_errno in
      if negb (error =? EINPROGRESS) && negb (error =? EWOULDBLOCK)
      then close this;; sm_ret false
      else sm_ret true.

(** [UdpSocket::open]. *)
Definition udp_open (this : nat) (port : Z) : SM P bool :=
  close this;;
  let! handle := os (posix_socket false) in
  set_mHandle this handle;;
  if handle =? kInvalidSocket then sm_ret false
  else
    let! bound := os (posix_bind handle (any_address port)) in
    let! ready := (if negb (bound =? 0) then sm_ret false else setNonBlocking handle) in
    if ready : bool then sm_ret true
    else close this;; sm_ret false.

(** *** Using *)

Definition connectResult (this : nat) : SM P bool :=
  let! handle := mHandle this in
  let! answer := os (posix_so_error handle) in
  let '(result, error) := answer in
  sm_ret (if negb (result =? 0) then false else error =? 0).

(** [TcpSocket::receive]: the flag and the bytes read. *)
Definition receive (this : nat) (size : nat) : SM P (bool * list byte) :=
  let! handle := mHandle this in
  let! answer := os (posix_recv handle size) in
  let '(received, data) := answer in
  if 0 <? received then sm_ret (true, data)
  else if received =? 0 then sm_ret (false, [])
  else let! block := wouldBlock in sm_ret (block, []).

(** [TcpSocket::send]: the flag and the number of bytes taken. *)
Definition send (this : nat) (data : list byte) : SM P (bool * Z) :=
  let! handle := mHandle this in
  let! sent := os (posix_send handle data) in
  if 0 <=? sent then sm_ret (true, sent)
  else let! block := wouldBlock in sm_ret (block, 0).

(** [UdpSocket::receiveFrom]: the flag, the datagram and its sender. *)
Definition receiveFrom (this : nat) (capacity : nat) : SM P (bool * list byte * option Address) :=
  let! handle := mHandle this in
  let! answer := os (posix_recvfrom handle capacity) in
  let '(received, data, addr) := answer in
  if 0 <=? received then sm_ret (true, data, Some (fromSockaddr addr))
  else
    let! block := wouldBlock in
    let! error := get_errno in
    sm_ret (block || (error =? ECONNREFUSED), [], None).

(** [UdpSocket::sendTo]. *)
Definition sendTo (this : nat) (data : list byte) (to : Address) : SM P bool :=
  let! handle := mHandle this in
  let! sent := os (posix_sendto handle data (toSockaddr to)) in
  if 0 <=? sent then sm_ret true else wouldBlock.

End Descriptors.

(** ** Ownership *)

Section Ownership.
Context {E : Type} `{HPosix : Posix E} `{HLaws : !PosixLaws E}.
Local Open Scope sm_scope.

Abbreviation P := (Process E).

(** Every descriptor held is held by one variable and open, every open one is
    held by a variable or was open from outside, and nothing was ever closed that
    was not open. *)
Record owned (outside : gset Z) (p : P) : Prop := {
  ow_once v1 v2 h : pr_sockets p !! v1 = Some h -> pr_sockets p !! v2 = Some h ->
    h <> kInvalidSocket -> v1 = v2;
  ow_open h : h ∈ open_fds (pr_env p) <->
    h ∈ outside \/ exists v, pr_sockets p !! v = Some h /\ h <> kInvalidSocket;
  ow_outside v h : pr_sockets p !! v = Some h -> h <> kInvalidSocket -> h ∉ outside;
  ow_closes : Forall (fun c => c.2 = true) (pr_closes p);
}.

(** From [p], [m] ends in a state that satisfies [Q]. *)
Definition ends {A} (m : SM P A) (Q : A -> P -> Prop) (p : P) : Prop := Q (m p).1 (m p).2.

Lemma ends_bind {A B} (m : SM P A) (k : A -> SM P B) Q p :
  ends m (fun a => ends (k a) Q) p -> ends (sm_bind m k) Q p.
Proof. unfold ends, sm_bind. by destruct (m p). Qed.

Lemma ends_mono {A} (m : SM P A) (Q Q' : A -> P -> Prop) p :
  ends m Q p -> (forall a p', Q a p' -> Q' a p') -> ends m Q' p.
Proof. unfold ends. auto. Qed.

Lemma ends_handle {A} this (k : Z -> SM P A) Q p :
  ends (k (default kInvalidSocket (pr_sockets p !! this))) Q p ->
  ends (let! h := mHandle this in k h) Q p.
Proof. done. Qed.

Lemma ends_os {A B} (m : SM E A) (k : A -> SM P B) Q p :
  (forall a e, m (pr_env p) = (a, e) ->
     ends (k a) Q (mkProcess (pr_sockets p) (pr_closes p) e)) ->
  ends (sm_bind (os m) k) Q p.
Proof.
  intros HQ. unfold ends, sm_bind, os. destruct (m (pr_env p)) as [a e] eqn:Em. by apply HQ.
Qed.

(** The state with another environment where the same descriptors are open. *)
Definition same_sockets (p p' : P) : Prop :=
  pr_sockets p' = pr_sockets p /\ pr_closes p' = pr_closes p /\
  open_fds (pr_env p') = open_fds (pr_env p).

Lemma same_owned outside p p' : same_sockets p p' -> owned outside p -> owned outside p'.
Proof.
  intros (H1 & H2 & H3) [Ho1 Ho2 Ho3 Ho4].
  split; rewrite ?H1, ?H2, ?H3; [exact Ho1|exact Ho2|exact Ho3|exact Ho4].
Qed.

Lemma same_trans p1 p2 p3 : same_sockets p1 p2 -> same_sockets p2 p3 -> same_sockets p1 p3.
Proof. intros (? & ? & ?) (? & ? & ?). split_and!; congruence. Qed.

(** An operation that opens, closes and moves nothing. *)
Definition quiet {A} (m : SM P A) : Prop := forall p, same_sockets p (m p).2.

Lemma calm_ret {A} (a : A) : quiet (sm_ret a).
Proof. by intros p. Qed.

Lemma calm_gets {A} (f : P -> A) : quiet (sm_gets f).
Proof. by intros p. Qed.

Lemma quiet_os {A} (m : SM E A) : keeps_open m -> quiet (os m).
Proof.
  intros Hm p. unfold os. pose proof (Hm (pr_env p)) as H. by destruct (m (pr_env p)).
Qed.

Lemma calm_bind {A B} (m : SM P A) (k : A -> SM P B) :
  quiet m -> (forall a, quiet (k a)) -> quiet (sm_bind m k).
Proof.
  intros Hm Hk p. unfold sm_bind. pose proof (Hm p) as H1. destruct (m p) as [a p1].
  eapply same_trans; [exact H1|apply Hk].
Qed.

Create HintDb quiet.
Hint Resolve calm_ret calm_gets quiet_os getfl_keeps setfl_keeps reuseaddr_keeps nodelay_keeps
  bind_keeps listen_keeps connect_keeps so_error_keeps recv_keeps send_keeps recvfrom_keeps
  sendto_keeps : quiet.

Ltac solve_quiet :=
  repeat first
    [ solve [auto with quiet] | apply calm_bind; [|intros ?]
    | match goal with |- quiet (match ?x with _ => _ end) => destruct x end ].

Lemma quiet_setNonBlocking h : quiet (setNonBlocking h).
Proof. unfold setNonBlocking. solve_quiet. Qed.

Lemma quiet_wouldBlock : quiet wouldBlock.
Proof. unfold wouldBlock, get_errno. solve_quiet. Qed.
Hint Resolve quiet_setNonBlocking quiet_wouldBlock : quiet.

Lemma quiet_uses this size data to :
  quiet (connectResult this) /\ quiet (receive this size) /\ quiet (send this data) /\
  quiet (receiveFrom this size) /\ quiet (sendTo this data to).
Proof.
  split_and!; unfold connectResult, receive, send, receiveFrom, sendTo, mHandle, get_errno;
    solve_quiet.
Qed.

(** *** What the operations do to the variables *)

Definition handle_in (p : P) (v : nat) : Z := default kInvalidSocket (pr_sockets p !! v).

Lemma ends_quiet {A} (m : SM P A) (Q : A -> P -> Prop) p :
  quiet m -> (forall a p', same_sockets p p' -> Q a p') -> ends m Q p.
Proof. intros Hm HQ. apply HQ, Hm. Qed.

Lemma close_owned outside this p :
  owned outside p -> (is_Some (pr_sockets p !! this)) ->
  ends (close this) (fun _ p' => owned outside p' /\
    pr_sockets p' = <[this := kInvalidSocket]> (pr_sockets p)) p.
Proof.
  intros Ho [h Hh]. unfold ends, close, sm_bind, mHandle, sm_gets. rewrite Hh.
  change (default kInvalidSocket (Some h)) with h.
  destruct (Z.eqb_spec h kInvalidSocket) as [->|Hne]; cbn [sm_ret fst snd].
  { split; [done|]. by rewrite insert_id. }
  unfold closeHandle, os. cbn [pr_env pr_sockets pr_closes].
  pose proof (close_closes h (pr_env p)) as Hc. destruct (posix_close h (pr_env p)) as [r e].
  cbn [snd] in Hc. cbn. split; [|done]. destruct Ho as [H1 H2 H3 H4].
  split; cbn [pr_sockets pr_env pr_closes].
  - intros v1 v2 h'. rewrite !lookup_insert. do 2 case_decide; intros; simplify_eq; eauto.
  - intros h'. rewrite Hc, elem_of_difference, elem_of_singleton, H2. split.
    + intros [[Hout|(v & Hv & Hn)] Hneq]; [by left|right]. exists v. split; [|done].
      rewrite lookup_insert_ne; [done|]. intros <-. congruence.
    + intros [Hout|(v & Hv & Hn)].
      * split; [by left|]. intros ->. by apply (H3 _ _ Hh).
      * rewrite lookup_insert in Hv. case_decide; [congruence|]. split; [right; eauto|].
        intros ->. eauto.
  - intros v h'. rewrite lookup_insert. case_decide; [by intros [= <-]|apply H3].
  - apply Forall_app. split; [done|]. apply Forall_singleton. cbn.
    apply bool_decide_eq_true_2, H2. right. eauto.
Qed.

(** A variable that holds nothing takes a descriptor the system just gave. *)
Lemma take_owned outside this h e' p :
  owned outside p -> default kInvalidSocket (pr_sockets p !! this) = kInvalidSocket ->
  opens (pr_env p) h e' ->
  owned outside (mkProcess (<[this := h]> (pr_sockets p)) (pr_closes p) e').
Proof.
  intros [H1 H2 H3 H4] Hthis Hop. unfold opens in Hop.
  assert (Hnone : forall x, pr_sockets p !! this = Some x -> x = kInvalidSocket).
  { intros x Hx. by rewrite Hx in Hthis. }
  split; cbn [pr_sockets pr_env pr_closes]; [| | |done].
  - intros v1 v2 h'. rewrite !lookup_insert. destruct (decide (this = v1)), (decide (this = v2));
      intros; simplify_eq; eauto; exfalso; (rewrite decide_False in Hop by done; apply (proj1 Hop), H2; eauto).
  - intros h'. assert (Hkeep : (exists v, <[this := h]> (pr_sockets p) !! v = Some h' /\
      h' <> kInvalidSocket) <-> h' = h /\ h <> kInvalidSocket \/
      exists v, pr_sockets p !! v = Some h' /\ h' <> kInvalidSocket).
    { split.
      - intros (v & Hv & Hn). rewrite lookup_insert in Hv.
        destruct (decide (this = v)); [|eauto]. left. by simplify_eq.
      - intros [[-> Hn]|(v & Hv & Hn)].
        + exists this. by rewrite lookup_insert_eq.
        + exists v. rewrite lookup_insert_ne; [done|]. intros <-. by apply Hn, Hnone. }
    rewrite Hkeep. destruct (decide (h = kInvalidSocket)) as [Hinv|Hinv].
    + rewrite Hop, H2. tauto.
    + destruct Hop as [_ ->]. rewrite elem_of_union, elem_of_singleton, H2. tauto.
  - intros v h'. rewrite lookup_insert. destruct (decide (this = v)); [|by apply H3].
    intros [= <-] Hn Hin.
    rewrite decide_False in Hop by done. apply (proj1 Hop), H2. by left.
Qed.

(** A variable that holds nothing takes what another one holds. *)
Lemma moved_owned outside this other h p :
  owned outside p -> default kInvalidSocket (pr_sockets p !! this) = kInvalidSocket ->
  pr_sockets p !! other = Some h -> this <> other ->
  owned outside (mkProcess (<[other := kInvalidSocket]> (<[this := h]> (pr_sockets p)))
    (pr_closes p) (pr_env p)).
Proof.
  intros [H1 H2 H3 H4] Hthis Hother Hne.
  assert (Hnone : forall x, pr_sockets p !! this = Some x -> x = kInvalidSocket).
  { intros x Hx. by rewrite Hx in Hthis. }
  split; cbn [pr_sockets pr_env pr_closes]; [| | |done].
  - intros v1 v2 h'. rewrite !lookup_insert. repeat case_decide; intros; simplify_eq; eauto;
      exfalso; eauto.
  - intros h'. rewrite H2. split; (intros [Hout|(v & Hv & Hn)]; [by left|right]).
    + destruct (decide (v = other)) as [->|Hv'].
      * exists this. rewrite lookup_insert_ne, lookup_insert_eq by done. by simplify_eq.
      * exists v. rewrite !lookup_insert_ne; [done| |done]. intros <-. by apply Hn, Hnone.
    + rewrite !lookup_insert in Hv. repeat case_decide; simplify_eq; eauto.
  - intros v h'. rewrite !lookup_insert. repeat case_decide; intros; simplify_eq; eauto.
Qed.

(** *** Every operation *)

(** [this] holds nothing, and otherwise the variables are those of [p]. *)
Definition emptied (this : nat) (p p' : P) : Prop :=
  pr_sockets p' = <[this := kInvalidSocket]> (pr_sockets p).

(** What a call that opens a socket leaves: the flag says whether [this] holds
    one, and the other variables are as they were. *)
Definition opened (outside : gset Z) (this : nat) (p : P) (ok : bool) (p' : P) : Prop :=
  owned outside p' /\ exists h, pr_sockets p' = <[this := h]> (pr_sockets p) /\
    (ok = true <-> h <> kInvalidSocket).

(** Closing [this] and opening it anew. *)
Lemma ends_socket {A} outside this stream (p0 : P) (k : Z -> SM P A) (Q : A -> P -> Prop) :
  owned outside p0 -> is_Some (pr_sockets p0 !! this) ->
  (forall h p', owned outside p' -> pr_sockets p' = <[this := h]> (pr_sockets p0) ->
     ends (k h) Q p') ->
  ends (close this;; let! handle := os (posix_socket stream) in
        set_mHandle this handle;; k handle)%sm Q p0.
Proof.
  intros Ho0 Hs HQ. apply ends_bind. eapply ends_mono; [by apply (close_owned outside)|].
  intros _ p [Ho He]. unfold ends, sm_bind, os.
  pose proof (socket_opens stream (pr_env p)) as Hop.
  destruct (posix_socket stream (pr_env p)) as [h e]. cbn [fst snd] in Hop. cbn. apply HQ; [|cbn; by rewrite He, insert_insert_eq].
  apply take_owned; [done| |done]. by rewrite He, lookup_insert_eq.
Qed.

Lemma quiet_then {A} outside this (p0 p : P) h (m : SM P A) (Q : A -> P -> Prop) :
  quiet m -> owned outside p -> pr_sockets p = <[this := h]> (pr_sockets p0) ->
  (forall a p', owned outside p' -> pr_sockets p' = <[this := h]> (pr_sockets p0) -> Q a p') ->
  ends m Q p.
Proof.
  intros Hm Ho Hp HQ. apply ends_quiet; [done|]. intros a p' Hs.
  apply HQ; [by eapply same_owned|]. destruct Hs as [-> _]. done.
Qed.

Lemma opened_failed outside this p0 p h :
  owned outside p -> pr_sockets p = <[this := h]> (pr_sockets p0) ->
  ends (close this;; sm_ret false)%sm (opened outside this p0) p.
Proof.
  intros Ho Hp. apply ends_bind. eapply ends_mono.
  { apply (close_owned outside); [done|]. rewrite Hp, lookup_insert_eq. by eexists. }
  intros _ p' [Ho' Hp']. unfold ends. cbn. split; [done|]. exists kInvalidSocket.
  by rewrite Hp', Hp, insert_insert_eq.
Qed.

Lemma opened_ok outside this p0 p h :
  owned outside p -> pr_sockets p = <[this := h]> (pr_sockets p0) -> h <> kInvalidSocket ->
  ends (sm_ret true) (opened outside this p0) p.
Proof. intros Ho Hp Hn. split; [done|]. by exists h. Qed.

Lemma opened_none outside this p0 p :
  owned outside p -> pr_sockets p = <[this := kInvalidSocket]> (pr_sockets p0) ->
  ends (sm_ret false) (opened outside this p0) p.
Proof. intros Ho Hp. split; [done|]. by exists kInvalidSocket. Qed.

Ltac step_quiet :=
  apply ends_bind; eapply quiet_then; [solve_quiet|eassumption|eassumption|]; intros ? ? ? ?.

Lemma listen_opened outside this port backlog p :
  owned outside p -> is_Some (pr_sockets p !! this) ->
  ends (listen this port backlog) (opened outside this p) p.
Proof.
  intros Ho Hs. unfold listen. eapply ends_socket; [done..|]. intros h p1 Ho1 Hp1.
  destruct (Z.eqb_spec h kInvalidSocket) as [->|Hn]; [by apply opened_none|].
  do 3 step_quiet.
  case_match; [by eapply opened_ok|by eapply opened_failed].
Qed.

Lemma udp_open_opened outside this port p :
  owned outside p -> is_Some (pr_sockets p !! this) ->
  ends (udp_open this port) (opened outside this p) p.
Proof.
  intros Ho Hs. unfold udp_open. eapply ends_socket; [done..|]. intros h p1 Ho1 Hp1.
  destruct (Z.eqb_spec h kInvalidSocket) as [->|Hn]; [by apply opened_none|].
  do 2 step_quiet.
  case_match; [by eapply opened_ok|by eapply opened_failed].
Qed.

Lemma connect_opened outside this address p :
  owned outside p -> is_Some (pr_sockets p !! this) ->
  ends (connect this address) (opened outside this p) p.
Proof.
  intros Ho Hs. unfold connect. eapply ends_socket; [done..|]. intros h p1 Ho1 Hp1.
  destruct (Z.eqb_spec h kInvalidSocket) as [->|Hn]; [by apply opened_none|].
  do 3 step_quiet. destruct (_ =? 0); [by eapply opened_ok|]. unfold get_errno. step_quiet.
  destruct (_ && _); [by eapply opened_failed|by eapply opened_ok].
Qed.

Lemma accept_owned outside this result p :
  owned outside p -> pr_sockets p !! result = None ->
  ends (accept this result) (fun peer p' => owned outside p' /\
    exists h, pr_sockets p' = <[result := h]> (pr_sockets p) /\
      (is_Some peer <-> h <> kInvalidSocket)) p.
Proof.
  intros Ho Hr. unfold accept. apply ends_handle, ends_os. intros [h addr] e He.
  pose proof (accept_opens (handle_in p this) (pr_env p)) as Hop. unfold handle_in in Hop.
  rewrite He in Hop. cbn [fst snd] in Hop.
  assert (Ht : owned outside (mkProcess (<[result := h]> (pr_sockets p)) (pr_closes p) e)).
  { apply take_owned; [done| |done]. by rewrite Hr. }
  destruct (Z.eqb_spec h kInvalidSocket) as [->|Hn].
  - split; [exact Ht|]. exists kInvalidSocket. split; [done|]. by split; [intros []|].
  - apply ends_bind, ends_quiet; [solve_quiet|]. intros _ p1 H1.
    apply ends_bind, ends_quiet; [solve_quiet|]. intros _ p2 H2.
    pose proof (same_trans _ _ _ H1 H2) as (E1 & E2 & E3). cbn in E1, E2, E3.
    unfold ends. cbn. rewrite E1, E2. split.
    + eapply same_owned; [|exact Ht]. by split_and!.
    + exists h. split; [done|]. by split; [|eexists].
Qed.

(** *** Programs *)

(** An operation of a program on its socket variables. *)
Inductive SocketOp :=
| MakeSocket (this : nat)
| MoveConstruct (this other : nat)
| MoveAssign (this other : nat)
| Close (this : nat)
| Destroy (this : nat)
| Listen (this : nat) (port backlog : Z)
| Accept (this result : nat)
| Connect (this : nat) (address : Address)
| OpenUdp (this : nat) (port : Z)
| Use (this : nat) (size : nat) (data : list byte) (to : Address).

Definition run_socket_op (op : SocketOp) (p : P) : P :=
  match op with
  | MakeSocket this => (set_mHandle this kInvalidSocket p).2
  | MoveConstruct this other => (move_construct this other p).2
  | MoveAssign this other => (move_assign this other p).2
  | Close this => (close this p).2
  | Destroy this => (destroy this p).2
  | Listen this port backlog => (listen this port backlog p).2
  | Accept this result => (accept this result p).2
  | Connect this address => (connect this address p).2
  | OpenUdp this port => (udp_open this port p).2
  | Use this size data to =>
      let p := (connectResult this p).2 in
      let p := (receive this size p).2 in
      let p := (send this data p).2 in
      let p := (receiveFrom this size p).2 in
      (sendTo this data to p).2
  end.

(** What the language asks of a program: a variable is made once, and used
    while it lives. *)
Definition allowed (op : SocketOp) (p : P) : Prop :=
  match op with
  | MakeSocket this => pr_sockets p !! this = None
  | MoveConstruct this other => pr_sockets p !! this = None /\ is_Some (pr_sockets p !! other)
  | MoveAssign this other => is_Some (pr_sockets p !! this) /\ is_Some (pr_sockets p !! other)
  | Accept this result => is_Some (pr_sockets p !! this) /\ pr_sockets p !! result = None
  | Close this | Destroy this | Listen this _ _ | Connect this _ | OpenUdp this _
  | Use this _ _ _ => is_Some (pr_sockets p !! this)
  end.

(** A program without sockets in the environment [e]. *)
Definition no_sockets (e : E) : P := mkProcess ∅ [] e.

Inductive reached (e : E) : P -> Prop :=
| reached_start : reached e (no_sockets e)
| reached_op op p : reached e p -> allowed op p -> reached e (run_socket_op op p).

Lemma ends_run {A} (m : SM P A) (Q : P -> Prop) p : ends m (fun _ => Q) p -> Q (m p).2.
Proof. done. Qed.

Lemma move_assign_owned outside this other p :
  owned outside p -> is_Some (pr_sockets p !! this) -> is_Some (pr_sockets p !! other) ->
  ends (move_assign this other) (fun _ p' => owned outside p' /\
    pr_sockets p' = if decide (this = other) then pr_sockets p
      else <[other := kInvalidSocket]> (<[this := handle_in p other]> (pr_sockets p))) p.
Proof.
  intros Ho Hthis [h Hh]. unfold move_assign.
  destruct (Nat.eqb_spec this other) as [Heq|Hne].
  { rewrite decide_True by done. done. }
  rewrite decide_False by done.
  apply ends_bind. eapply ends_mono; [by apply (close_owned outside)|]. intros _ p1 [Ho1 Hp1].
  assert (Hoth : pr_sockets p1 !! other = Some h) by (by rewrite Hp1, lookup_insert_ne).
  unfold ends, sm_bind, mHandle, sm_gets, set_mHandle, sm_modify.
  cbn [fst snd pr_sockets pr_closes pr_env].
  unfold handle_in. rewrite Hoth, Hh. change (default kInvalidSocket (Some h)) with h. split.
  - apply moved_owned; [done| |done|done]. by rewrite Hp1, lookup_insert_eq.
  - cbn. by rewrite Hp1, insert_insert_eq.
Qed.

Lemma destroy_owned outside this p :
  owned outside p -> is_Some (pr_sockets p !! this) ->
  ends (destroy this) (fun _ p' => owned outside p' /\
    pr_sockets p' = delete this (pr_sockets p)) p.
Proof.
  intros Ho Hs. unfold destroy. apply ends_bind. eapply ends_mono; [by apply (close_owned outside)|].
  intros _ p1 [[H1 H2 H3 H4] Hp1]. unfold ends, sm_modify. cbn [snd].
  split; [|cbn; by rewrite Hp1, delete_insert_eq].
  split; cbn [pr_sockets pr_env pr_closes]; [| | |done].
  - intros v1 v2 h [_ E1]%lookup_delete_Some [_ E2]%lookup_delete_Some. eauto.
  - intros h. rewrite H2. split; (intros [Hout|(v & Hv & Hn)]; [by left|right]).
    + exists v. split; [|done]. apply lookup_delete_Some. split; [|done]. intros <-.
      rewrite Hp1, lookup_insert_eq in Hv. by simplify_eq.
    + apply lookup_delete_Some in Hv as [_ Hv]. eauto.
  - intros v h [_ Hv]%lookup_delete_Some. eauto.
Qed.

Lemma run_socket_op_owned outside op p :
  owned outside p -> allowed op p -> owned outside (run_socket_op op p).
Proof.
  intros Ho Ha. destruct op; cbn [allowed run_socket_op] in *.
  - apply take_owned; [done|by rewrite Ha|]. unfold opens. by rewrite decide_True.
  - destruct Ha as [Hthis [h Hh]].
    unfold move_construct, sm_bind, mHandle, sm_gets, set_mHandle, sm_modify.
    cbn [fst snd pr_sockets pr_closes pr_env].
    rewrite Hh. apply moved_owned; [done|by rewrite Hthis|done|]. intros ->. congruence.
  - by apply (proj1 (move_assign_owned outside this other p Ho (proj1 Ha) (proj2 Ha))).
  - by apply (proj1 (close_owned outside this p Ho Ha)).
  - by apply (proj1 (destroy_owned outside this p Ho Ha)).
  - by apply (proj1 (listen_opened outside this port backlog p Ho Ha)).
  - by apply (proj1 (accept_owned outside this result p Ho (proj2 Ha))).
  - by apply (proj1 (connect_opened outside this address p Ho Ha)).
  - by apply (proj1 (udp_open_opened outside this port p Ho Ha)).
  - destruct (quiet_uses this size data to) as (H1 & H2 & H3 & H4 & H5).
    eapply same_owned; [apply H5|]. eapply same_owned; [apply H4|]. eapply same_owned; [apply H3|].
    eapply same_owned; [apply H2|]. eapply same_owned; [apply H1|done].
Qed.

Lemma reached_owned e p : reached e p -> owned (open_fds e) p.
Proof.
  induction 1 as [|op p _ IH Ha]; [|by apply run_socket_op_owned].
  split; cbn; [by intros ?? h; rewrite lookup_empty| |by intros v h; rewrite lookup_empty|constructor].
  intros h. split; [by left|]. intros [Hh|(v & Hv & _)]; [done|]. by rewrite lookup_empty in Hv.
Qed.

(** C30: a descriptor has one owner. In every program on socket variables (making
    them, moving them, listening, accepting, connecting, opening UDP ports,
    sending, receiving, closing, destroying, in any order and with any answers of
    the system), no descriptor is held by two variables, none is ever closed that
    is not open, the descriptors open are those that were open from the start and
    those the variables hold, so that none is left when the variables are gone; and
    a listen, a connect or an open that reports failure holds nothing, while one
    that reports success holds a descriptor. *)
Theorem descriptors_owned (e : E) (p : P) (Hreached : reached e p) :
  (forall v1 v2 h, pr_sockets p !! v1 = Some h -> pr_sockets p !! v2 = Some h ->
     h <> kInvalidSocket -> v1 = v2) /\
  Forall (fun c => c.2 = true) (pr_closes p) /\
  (forall h, h ∈ open_fds (pr_env p) <->
     h ∈ open_fds e \/ exists v, pr_sockets p !! v = Some h /\ h <> kInvalidSocket) /\
  (pr_sockets p = ∅ -> open_fds (pr_env p) = open_fds e) /\
  (forall this port backlog address (op : SM P bool), is_Some (pr_sockets p !! this) ->
     op = listen this port backlog \/ op = connect this address \/ op = udp_open this port ->
     ((op p).1 = true <-> handle_in (op p).2 this <> kInvalidSocket)).
Proof.
  pose proof (reached_owned e p Hreached) as Ho. pose proof Ho as [H1 H2 H3 H4].
  split_and!; [done..| |].
  - intros Hnone. apply set_eq. intros h. rewrite H2. split; [|by left].
    intros [Hh|(v & Hv & _)]; [done|]. by rewrite Hnone, lookup_empty in Hv.
  - intros this port backlog address op Hs Hop.
    assert (Hopened : opened (open_fds e) this p (op p).1 (op p).2).
    { destruct Hop as [->|[->| ->]]; [by apply listen_opened|by apply connect_opened
        |by apply udp_open_opened]. }
    destruct Hopened as [_ (h & Hp & ->)]. unfold handle_in. by rewrite Hp, lookup_insert_eq.
Qed.

End Ownership.

(** ** Addresses go through the system unchanged *)

Lemma swap_swap n v : fits (8 * Z.of_nat n) v -> swap_bytes n (swap_bytes n v) = v.
Proof.
  intros Hv. unfold swap_bytes.
  assert (Hl : length (rev (le_bytes n v)) = n) by (by rewrite length_rev, length_le_bytes).
  pose proof (le_bytes_value (rev (le_bytes n v))) as Hb. rewrite Hl in Hb.
  rewrite Hb, rev_involutive, le_value_bytes. by apply wrap_id.
Qed.

Lemma address_through_system a : fits 32 (ip a) -> fits 16 (port a) -> fromSockaddr (toSockaddr a) = a.
Proof.
  intros H1 H2. unfold fromSockaddr, toSockaddr. cbn [sin_addr sin_port].
  rewrite (swap_swap 4), (swap_swap 2) by done. by destruct a.
Qed.

(** ** What the other files take a socket for

    The lists of answers of [Framing] and [Sockets] stand for what the system
    returns: with the answer [recv], [send] and [recvfrom] give, the operations on a
    descriptor are theirs. *)

Section Answers.
Context {E : Type} `{HPosix : Posix E}.

Definition would_block (e : E) : bool := (errno e =? EWOULDBLOCK) || (errno e =? EAGAIN).

Definition recv_result (received : Z) (data : list byte) (e : E) : RecvResult :=
  if 0 <? received then RecvBytes data
  else if received =? 0 then RecvBytes [] else RecvError (would_block e).

Lemma receive_answer this size p received data e :
  posix_recv (handle_in p this) size (pr_env p) = ((received, data), e) ->
  (0 < received -> data <> []) ->
  (receive this size p).1 = Framing.receive (recv_result received data e).
Proof.
  intros Hr Hd. unfold receive, recv_result. unfold sm_bind at 1. cbn [mHandle sm_gets].
  unfold handle_in in Hr. unfold sm_bind at 1, os. rewrite Hr.
  destruct (Z.ltb_spec 0 received) as [Hp|Hp].
  - cbn. destruct data; [|done]. by specialize (Hd Hp).
  - by destruct (received =? 0).
Qed.

Definition send_result (sent : Z) (e : E) : SendResult :=
  if 0 <=? sent then SendCount (Z.to_nat sent) else SendError (would_block e).

Lemma send_answer this data p sent e :
  posix_send (handle_in p this) data (pr_env p) = (sent, e) -> sent <= Z.of_nat (length data) ->
  let '(ok, n) := Framing.send_bytes (length data) (send_result sent e) in
  (send this data p).1 = (ok, Z.of_nat n).
Proof.
  intros Hs Hl. unfold send, send_result. unfold sm_bind at 1. cbn [mHandle sm_gets].
  unfold handle_in in Hs. unfold sm_bind at 1, os. rewrite Hs.
  destruct (Z.leb_spec 0 sent) as [Hp|Hp]; [|done].
  cbn. do 2 f_equal. lia.
Qed.

Definition recvfrom_answer (received : Z) (data : list byte) (addr : sockaddr_in) (e : E)
    : RecvFromAnswer :=
  if 0 <=? received then FromPeer (fromSockaddr addr) data
  else RecvFromErrno (would_block e) (errno e =? ECONNREFUSED).

Lemma receiveFrom_answer this capacity p received data addr e rx :
  posix_recvfrom (handle_in p this) capacity (pr_env p) = ((received, data, addr), e) ->
  (length data <= capacity)%nat ->
  let '(ok, datagram, from, _) :=
    Sockets.receiveFrom capacity (mkUdpSocket (recvfrom_answer received data addr e :: rx)) in
  let '(ok', datagram', from') := (receiveFrom this capacity p).1 in
  ok' = ok /\ datagram' = datagram /\ default from from' = from.
Proof.
  intros Hr Hl. unfold receiveFrom, recvfrom_answer. unfold sm_bind at 1. cbn [mHandle sm_gets].
  unfold handle_in in Hr. unfold sm_bind at 1, os. rewrite Hr.
  destruct (0 <=? received); cbn; [|done]. by rewrite take_ge.
Qed.

End Answers.

(** ** A concrete system

    Descriptors are numbered from 3, above all that are open; every call
    succeeds, but port 80 cannot be bound. *)

Record Table := mkTable { tb_open : gset Z; tb_errno : Z }.

Definition above (s : gset Z) : Z := set_fold Z.max 2 s + 1.

Lemma above_all s x : x ∈ s -> x < above s.
Proof.
  unfold above. enough (Hall : forall y, y ∈ s -> y <= set_fold Z.max 2 s) by (intros Hx; specialize (Hall x Hx); lia).
  apply (set_fold_ind_L (fun r s => forall y, y ∈ s -> y <= r)).
  - intros y Hy. set_solver.
  - intros y s' r _ IH z [->%elem_of_singleton|Hz]%elem_of_union; [lia|]. specialize (IH z Hz). lia.
Qed.

Lemma above_least s : 2 < above s.
Proof.
  unfold above. enough (2 <= set_fold Z.max 2 s) by lia.
  apply (set_fold_ind_L (fun r _ => 2 <= r)); [lia|]. intros. lia.
Qed.

Definition open_one (t : Table) : Z * Table :=
  (above (tb_open t), mkTable ({[above (tb_open t)]} ∪ tb_open t) (tb_errno t)).

#[export] Instance table_posix : Posix Table := {
  open_fds := tb_open;
  errno := tb_errno;
  posix_socket _ := open_one;
  posix_close fd t := (0, mkTable (tb_open t ∖ {[fd]}) (tb_errno t));
  posix_getfl _ := sm_ret 2;
  posix_setfl _ _ := sm_ret 0;
  posix_reuseaddr _ := sm_ret 0;
  posix_nodelay _ := sm_ret 0;
  posix_bind _ addr t :=
    if sin_port addr =? swap_bytes 2 80 then (-1, mkTable (tb_open t) 13) else (0, t);
  posix_listen _ _ := sm_ret 0;
  posix_accept _ t := let '(h, t) := open_one t in ((h, mkSockaddr 0 0), t);
  posix_connect _ _ t := (-1, mkTable (tb_open t) EINPROGRESS);
  posix_so_error _ := sm_ret (0, 0);
  posix_recv _ _ t := ((-1, []), mkTable (tb_open t) EAGAIN);
  posix_send _ data := sm_ret (Z.of_nat (length data));
  posix_recvfrom _ _ t := ((-1, [], mkSockaddr 0 0), mkTable (tb_open t) EAGAIN);
  posix_sendto _ data _ := sm_ret (Z.of_nat (length data));
}.

Lemma open_one_opens t : opens t (open_one t).1 (open_one t).2.
Proof.
  unfold opens. pose proof (above_least (tb_open t)). unfold kInvalidSocket.
  rewrite decide_False by (cbn; lia). split; [|done].
  intros Hin. cbn in Hin. apply above_all in Hin. lia.
Qed.

#[export] Instance table_laws : PosixLaws Table.
Proof.
  split; try (intros; intros ?; done); try done; try (intros; apply open_one_opens).
  intros fd addr t. cbn. by case_match.
Qed.

(** A server that fails on port 80, listens on 8080, takes a connection, moves it
    into a variable that was connected elsewhere, and ends. *)
Definition toy_program : list SocketOp :=
  [MakeSocket 0; Listen 0 80 64; Listen 0 8080 64; Accept 0 1; MakeSocket 2;
   Connect 2 (mkAddress 1 7000); MoveAssign 2 1; MoveAssign 2 2; Destroy 1; Close 2; Destroy 2; Destroy 0].

Definition toy_descriptors : Table := mkTable {[0; 1; 2]} 0.

Definition toy_after (n : nat) : Process Table :=
  foldl (fun p op => run_socket_op op p) (no_sockets toy_descriptors) (take n toy_program).

Lemma toy_reached : reached toy_descriptors (toy_after 12).
Proof.
  unfold toy_after. cbn [take toy_program foldl].
  repeat (apply reached_op; [|vm_compute; repeat split; by eexists]). apply reached_start.
Qed.

Example toy_moved :
  (fun v => pr_sockets (toy_after 7) !! v) <$> [0; 1; 2]%nat = [Some 3; Some (-1); Some 4].
Proof. vm_compute. reflexivity. Qed.

Lemma descriptors_owned_witness :
  let p := toy_after 12 in
  (forall v1 v2 h, pr_sockets p !! v1 = Some h -> pr_sockets p !! v2 = Some h ->
     h <> kInvalidSocket -> v1 = v2) /\
  Forall (fun c => c.2 = true) (pr_closes p) /\
  (forall h, h ∈ open_fds (pr_env p) <->
     h ∈ open_fds toy_descriptors \/ exists v, pr_sockets p !! v = Some h /\ h <> kInvalidSocket) /\
  (pr_sockets p = ∅ -> open_fds (pr_env p) = open_fds toy_descriptors) /\
  (forall this port backlog address (op : SM (Process Table) bool),
     is_Some (pr_sockets p !! this) ->
     op = listen this port backlog \/ op = connect this address \/ op = udp_open this port ->
     ((op p).1 = true <-> handle_in (op p).2 this <> kInvalidSocket)).
Proof. exact (descriptors_owned toy_descriptors (toy_after 12) toy_reached). Defined.
