(* ===== verification/NetClient.v ===== *)
(** * The client's networking ([client/src/net_client.{h,cpp}])

    The login and join state machine, the UDP snapshot stream and the
    simulated latency and loss, as functions on the client's state. The
    operating system, the environment variables and [std::rand] are drawn
    from the environment [E]. *)

From Stdlib Require Import ZArith Lia Strings.Byte Strings.String Floats.SpecFloat.
From stdpp Require Import base list option gmap strings sorting.
From S2P Require Import Prelude Float32 Platform Config ByteStream Protocol Snapshot Framing.
From S2P Require Import Address Sockets.
Import ByteWriter.

Open Scope Z_scope.

(** ** State *)

Inductive State :=
  Idle | ConnectingAuth | AwaitingLogin | ConnectingWorld | AwaitingJoin | InWorld | Failed.

Global Instance State_eq_dec : EqDecision State.
Proof. solve_decision. Defined.

Definition kHelloRetrySeconds : double := lit64 25 100.

Record Replicated := mkReplicated { rp_state : EntityState; rp_receivedAt : double }.

(** [NetClient::DelayedPacket]. *)
Record HeldPacket := mkHeld { hp_dueAt : double; hp_data : list byte }.

(** The sockets: [mAuth], [mWorld], [mPendingAuthSocket], [mPendingWorldSocket]
    and [mUdp], absent when null, closed or invalid. *)
Record Links := mkLinks {
  mAuth : option MessageStream;
  mWorld : option MessageStream;
  mPendingAuthSocket : option Socket;
  mPendingWorldSocket : option Socket;
  mUdp : option UdpSocket;
}.

Definition closed_links : Links := mkLinks None None None None None.

(** Who the client is, and where it connects. *)
Record Session := mkSession {
  mUsername : string;
  mPassword : string;
  mToken : string;
  mWorldHost : string;
  mWorldPort : Z;
  mUdpTarget : Address;
  mPlayerId : Z;
  mOwnEntityId : Z;
  mInputSequence : Z;
}.

(** The packets held back, and what the delays are. *)
Record Latency := mkLatency {
  mDelayedOutgoing : list HeldPacket;
  mDelayedIncoming : list HeldPacket;
  mFakeLatency : double;
  mFakeLoss : double;
  mLastPollTime : double;
}.

(** The world as last reported. *)
Record View := mkView {
  mEntities : gmap Z Replicated;
  mTimeOfDay : float;
  mLastSnapshotAt : double;
  mLastHelloAt : double;
  mLastSnapshotSequence : Z;
  mSnapshotsReceived : Z;
}.

(** [nc_sent] records the datagrams handed to [UdpSocket::sendTo]. *)
Record NetClient (E : Type) := mkNetClient {
  mState : State;
  mError : string;
  nc_links : Links;
  nc_session : Session;
  nc_latency : Latency;
  nc_view : View;
  nc_sent : list (Address * list byte);
  nc_env : E;
}.
Arguments mkNetClient {E}.
Arguments mState {E}.
Arguments mError {E}.
Arguments nc_links {E}.
Arguments nc_session {E}.
Arguments nc_latency {E}.
Arguments nc_view {E}.
Arguments nc_sent {E}.
Arguments nc_env {E}.

Definition new_session : Session := mkSession "" "" "" "" 0 default_address 0 0 1.
Definition new_latency : Latency := mkLatency [] [] f64_zero f64_zero f64_zero.
Definition new_view : View := mkView ∅ f32_zero f64_zero f64_zero 0 0.

Definition new_net_client {E} (e : E) : NetClient E :=
  mkNetClient Idle "" closed_links new_session new_latency new_view [] e.

(** [std::rand], and the constant it is divided by. *)
Class Rand (E : Type) := { rand : SM E Z; RAND_MAX : Z }.

Section Setters.
Context {E : Type}.

Definition set_state (s : State) (c : NetClient E) : NetClient E :=
  mkNetClient s (mError c) (nc_links c) (nc_session c) (nc_latency c) (nc_view c) (nc_sent c)
    (nc_env c).
Definition set_links (l : Links) (c : NetClient E) : NetClient E :=
  mkNetClient (mState c) (mError c) l (nc_session c) (nc_latency c) (nc_view c) (nc_sent c)
    (nc_env c).
Definition set_session (s : Session) (c : NetClient E) : NetClient E :=
  mkNetClient (mState c) (mError c) (nc_links c) s (nc_latency c) (nc_view c) (nc_sent c)
    (nc_env c).
Definition set_held (l : Latency) (c : NetClient E) : NetClient E :=
  mkNetClient (mState c) (mError c) (nc_links c) (nc_session c) l (nc_view c) (nc_sent c)
    (nc_env c).
Definition set_view (v : View) (c : NetClient E) : NetClient E :=
  mkNetClient (mState c) (mError c) (nc_links c) (nc_session c) (nc_latency c) v (nc_sent c)
    (nc_env c).

Definition set_env (e : E) (c : NetClient E) : NetClient E :=
  mkNetClient (mState c) (mError c) (nc_links c) (nc_session c) (nc_latency c) (nc_view c)
    (nc_sent c) e.

(** A call on the environment. *)
Definition call {A} (m : SM E A) (c : NetClient E) : A * NetClient E :=
  let '(a, e) := m (nc_env c) in (a, set_env e c).

(** [mUdp.sendTo]: on an invalid socket the call fails. *)
Definition sendTo (data : list byte) (to : Address) (c : NetClient E) : NetClient E :=
  match mUdp (nc_links c) with
  | None => c
  | Some _ =>
      mkNetClient (mState c) (mError c) (nc_links c) (nc_session c) (nc_latency c) (nc_view c)
        (nc_sent c ++ [(to, data)]) (nc_env c)
  end.

End Setters.

(** ** Wire texts *)

Definition login_payload (username password : string) : list byte :=
  w_string password (w_string username (w_u32 kProtocolVersion [])).

Definition join_payload (token : string) : list byte :=
  w_string token (w_u32 kProtocolVersion []).

Definition hello_packet (playerId : Z) (token : string) : list byte :=
  w_string token (w_u64 playerId (writeUdpHeader [] (world_message_code ClientHello) 0)).

Definition input_packet (playerId sequence : Z) (moveForward moveRight yaw : float) (buttons : Z)
    : list byte :=
  w_u8 buttons (w_f32 yaw (w_f32 moveRight (w_f32 moveForward (w_u32 sequence (w_u64 playerId
    (writeUdpHeader [] (world_message_code ClientInput) sequence)))))).

(** The fields of a login response: the result, the token, the world host and
    port. *)
Definition read_login : Reader (Z * string * string * Z) :=
  (result <-- r_u8 ;;
   token <-- r_string ;;
   worldHost <-- r_string ;;
   worldPort <-- r_u16 ;;
   _ <-- r_u64 ;;
   rret (result, token, worldHost, worldPort))%reader.

(** The fields of a join response: the result, the player id, the UDP port,
    the name and the entity id. *)
Definition read_join : Reader (Z * Z * Z * string * Z) :=
  (result <-- r_u8 ;;
   playerId <-- r_u64 ;;
   udpPort <-- r_u16 ;;
   username <-- r_string ;;
   entityId <-- r_u32 ;;
   rret (result, playerId, udpPort, username, entityId))%reader.

Section NetClient.
Context {E : Type} `{HApi : SocketApi E} `{HRand : Rand E} `{HAtof : Atof}.

Abbreviation St := (NetClient E).

(** ** Opening and closing *)

(** [init] on POSIX, where [initSockets] does nothing. *)
Definition init (getenv : string -> option string) (c : St) : bool * St :=
  let l := nc_latency c in
  let latency := match getenv "NET_FAKE_LATENCY_MS"%string with
                 | Some value => (atof (c_str value) / f64_of_Z 1000)%f64
                 | None => mFakeLatency l
                 end in
  let loss := match getenv "NET_FAKE_LOSS_PERCENT"%string with
              | Some value => (atof (c_str value) / f64_of_Z 100)%f64
              | None => mFakeLoss l
              end in
  (true, set_held (mkLatency (mDelayedOutgoing l) (mDelayedIncoming l) latency loss
           (mLastPollTime l)) c).

Definition fail (message : string) (c : St) : St :=
  mkNetClient Failed message closed_links (nc_session c) (nc_latency c) (nc_view c) (nc_sent c)
    (nc_env c).

Definition disconnect (c : St) : St :=
  let s := nc_session c in
  let l := nc_latency c in
  let v := nc_view c in
  mkNetClient Idle (mError c) closed_links
    (mkSession (mUsername s) "" "" (mWorldHost s) (mWorldPort s) (mUdpTarget s) 0 0 1)
    (mkLatency [] [] (mFakeLatency l) (mFakeLoss l) (mLastPollTime l))
    (mkView ∅ (mTimeOfDay v) (mLastSnapshotAt v) (mLastHelloAt v) 0 0)
    (nc_sent c) (nc_env c).

(** [shutdown] on POSIX, where [shutdownSockets] does nothing. *)
Definition shutdown (c : St) : St := disconnect c.

Definition with_pending_auth (socket : option Socket) (c : St) : St :=
  let l := nc_links c in
  set_links (mkLinks (mAuth l) (mWorld l) socket (mPendingWorldSocket l) (mUdp l)) c.

Definition with_credentials (username password : string) (c : St) : St :=
  let s := nc_session c in
  let v := nc_view c in
  mkNetClient (mState c) "" (nc_links c)
    (mkSession username password (mToken s) (mWorldHost s) (mWorldPort s) (mUdpTarget s)
       (mPlayerId s) (mOwnEntityId s) (mInputSequence s))
    (nc_latency c)
    (mkView ∅ (mTimeOfDay v) (mLastSnapshotAt v) (mLastHelloAt v) (mLastSnapshotSequence v) 0)
    (nc_sent c) (nc_env c).

Definition login (host : string) (port : Z) (username password : string) (c : St) : St :=
  let c := with_credentials username password (disconnect c) in
  let '(address, c) := call (resolve host port) c in
  match address with
  | None => fail ("cannot resolve " ++ host)%string c
  | Some address =>
      let '(socket, c) := call (tcp_connect address) c in
      match socket with
      | None => fail "cannot reach auth server" c
      | Some socket => set_state ConnectingAuth (with_pending_auth (Some socket) c)
      end
  end.

(** [mWorld->send(LogoutRequest)] and the flush, while in the world. *)
Definition notify_logout (c : St) : St :=
  let l := nc_links c in
  match mWorld l with
  | Some world =>
      if decide (mState c = InWorld) then
        let world := (flush (send world (world_message_code LogoutRequest) [])).2 in
        set_links (mkLinks (mAuth l) (Some world) (mPendingAuthSocket l) (mPendingWorldSocket l)
                     (mUdp l)) c
      else c
  | None => c
  end.

Definition logout (c : St) : St := disconnect (notify_logout c).

(** ** The auth server *)

(** [waitWritable] on one socket, with a zero timeout. *)
Definition became_writable (c : St) : bool * St :=
  let '((count, ready), c) := call (waitWritable 1 0) c in
  ((0 <? count) && nth 0 ready false, c).

Definition clear_password (c : St) : St :=
  let s := nc_session c in
  set_session (mkSession (mUsername s) "" (mToken s) (mWorldHost s) (mWorldPort s) (mUdpTarget s)
    (mPlayerId s) (mOwnEntityId s) (mInputSequence s)) c.

Definition poll_connecting_auth (c : St) : St :=
  match mPendingAuthSocket (nc_links c) with
  | None => c
  | Some socket =>
      let '(writable, c) := became_writable c in
      if negb writable then c
      else
        let '(ok, c) := call connectResult c in
        if negb ok then fail "cannot reach auth server" c
        else
          let l := nc_links c in
          let stream := send (new_stream socket) (auth_message_code LoginRequest)
                          (login_payload (mUsername (nc_session c)) (mPassword (nc_session c))) in
          let c := set_links (mkLinks (Some stream) (mWorld l) None (mPendingWorldSocket l)
                                (mUdp l)) c in
          set_state AwaitingLogin (clear_password c)
  end.

Definition with_token (token worldHost : string) (worldPort : Z) (c : St) : St :=
  let s := nc_session c in
  set_session (mkSession (mUsername s) (mPassword s) token worldHost worldPort (mUdpTarget s)
    (mPlayerId s) (mOwnEntityId s) (mInputSequence s)) c.

Definition with_auth (stream : option MessageStream) (c : St) : St :=
  let l := nc_links c in
  set_links (mkLinks stream (mWorld l) (mPendingAuthSocket l) (mPendingWorldSocket l) (mUdp l)) c.

Definition with_pending_world (socket : option Socket) (c : St) : St :=
  let l := nc_links c in
  set_links (mkLinks (mAuth l) (mWorld l) (mPendingAuthSocket l) socket (mUdp l)) c.

(** A login response. *)
Definition onLoginResponse (payload : list byte) (c : St) : St :=
  let '((result, token, worldHost, worldPort), reader) := read_login (open_reader payload) in
  let c := with_token token worldHost worldPort c in
  if failed reader then fail "malformed login response" c
  else if bool_decide (auth_result_of result <> Some AuthSuccess) then
    fail (toString (auth_result_of result)) c
  else
    let c := with_auth None c in
    let '(address, c) := call (resolve worldHost worldPort) c in
    match address with
    | None => fail "cannot resolve world server" c
    | Some address =>
        let '(socket, c) := call (tcp_connect address) c in
        match socket with
        | None => fail "cannot reach world server" c
        | Some socket => set_state ConnectingWorld (with_pending_world (Some socket) c)
        end
    end.

(** The messages of the auth server: everything but a login response is
    skipped, and a login response ends the loop. *)
Fixpoint auth_messages (messages : nat) (stream : MessageStream) (c : St) : St :=
  match messages with
  | O => with_auth (Some stream) c
  | S messages =>
      match next stream with
      | None => with_auth (Some stream) c
      | Some (m, stream) =>
          if negb (msg_type m =? auth_message_code LoginResponse)
          then auth_messages messages stream c
          else onLoginResponse (msg_payload m) (with_auth (Some stream) c)
      end
  end.

Definition pumpAuth (c : St) : St :=
  match mAuth (nc_links c) with
  | None => fail "auth server closed the connection" c
  | Some stream =>
      let '(ok, stream) := pump stream in
      if negb ok then fail "auth server closed the connection" c
      else auth_messages (length (ms_readBuffer stream)) stream c
  end.

(** ** The world server *)

Definition sendUdpHello (c : St) : St :=
  let s := nc_session c in
  sendTo (hello_packet (mPlayerId s) (mToken s)) (mUdpTarget s) c.

Definition with_world (stream : option MessageStream) (c : St) : St :=
  let l := nc_links c in
  set_links (mkLinks (mAuth l) stream (mPendingAuthSocket l) (mPendingWorldSocket l) (mUdp l)) c.

Definition with_udp (socket : option UdpSocket) (c : St) : St :=
  let l := nc_links c in
  set_links (mkLinks (mAuth l) (mWorld l) (mPendingAuthSocket l) (mPendingWorldSocket l) socket) c.

Definition with_identity (username : string) (playerId entityId : Z) (c : St) : St :=
  let s := nc_session c in
  set_session (mkSession username (mPassword s) (mToken s) (mWorldHost s) (mWorldPort s)
    (mUdpTarget s) playerId entityId (mInputSequence s)) c.

Definition with_target (target : Address) (c : St) : St :=
  let s := nc_session c in
  set_session (mkSession (mUsername s) (mPassword s) (mToken s) (mWorldHost s) (mWorldPort s)
    target (mPlayerId s) (mOwnEntityId s) (mInputSequence s)) c.

Definition hello_at (now : double) (c : St) : St :=
  let v := nc_view c in
  set_view (mkView (mEntities v) (mTimeOfDay v) (mLastSnapshotAt v) now (mLastSnapshotSequence v)
    (mSnapshotsReceived v)) c.

Definition snapshot_at (now : double) (c : St) : St :=
  let v := nc_view c in
  set_view (mkView (mEntities v) (mTimeOfDay v) now (mLastHelloAt v) (mLastSnapshotSequence v)
    (mSnapshotsReceived v)) c.

Definition poll_connecting_world (c : St) : St :=
  match mPendingWorldSocket (nc_links c) with
  | None => c
  | Some socket =>
      let '(writable, c) := became_writable c in
      if negb writable then c
      else
        let '(ok, c) := call connectResult c in
        if negb ok then fail "cannot reach world server" c
        else
          let stream := send (new_stream socket) (world_message_code JoinRequest)
                          (join_payload (mToken (nc_session c))) in
          set_state AwaitingJoin (with_world (Some stream) (with_pending_world None c))
  end.

(** A join response; the flag is whether the loop goes on. *)
Definition onJoinResponse (now : double) (payload : list byte) (c : St) : bool * St :=
  let '((result, playerId, udpPort, username, entityId), reader) :=
    read_join (open_reader payload) in
  let c := with_identity username playerId entityId c in
  if failed reader then (false, fail "malformed join response" c)
  else if bool_decide (join_result_of result <> Some JoinSuccess) then
    (false, fail (if bool_decide (join_result_of result = Some InvalidSession)
                  then "session rejected" else "could not join the world") c)
  else
    let '(socket, c) := call (udp_open 0) (with_udp None c) in
    match socket with
    | None => (false, fail "cannot open a UDP socket" c)
    | Some socket =>
        let '(target, c) := call (resolve (mWorldHost (nc_session c)) udpPort)
                              (with_udp (Some socket) c) in
        match target with
        | None => (false, fail "cannot resolve the world server's UDP address" c)
        | Some target =>
            let c := sendUdpHello (set_state InWorld (with_target target c)) in
            (true, snapshot_at now (hello_at now c))
        end
    end.

(** A message of the world server; the flag is whether the loop goes on. *)
Definition onWorldMessage (now : double) (m : Message) (c : St) : bool * St :=
  match world_message_of (msg_type m) with
  | Some JoinResponse => onJoinResponse now (msg_payload m) c
  | Some Disconnect => (false, fail "disconnected by the server" c)
  | _ => (true, c)
  end.

Fixpoint world_messages (messages : nat) (now : double) (stream : MessageStream) (c : St) : St :=
  match messages with
  | O => with_world (Some stream) c
  | S messages =>
      match next stream with
      | None => with_world (Some stream) c
      | Some (m, stream) =>
          let '(continue, c) := onWorldMessage now m (with_world (Some stream) c) in
          if continue then world_messages messages now stream c else c
      end
  end.

Definition retry_hello (now : double) (c : St) : St :=
  let v := nc_view c in
  if (mSnapshotsReceived v =? 0) && (kHelloRetrySeconds <? now - mLastHelloAt v)%f64
  then hello_at now (sendUdpHello c)
  else c.

(** ** Snapshots *)

Definition store_entity (now : double) (entities : gmap Z Replicated) (e : EntityState)
    : gmap Z Replicated :=
  <[es_id e := mkReplicated e now]> entities.

Definition apply_view (data : list byte) (sequence : Z) (now : double) (v : View) : View :=
  let '(ok, snapshot) := decodeSnapshot data snapshot_default in
  if negb ok then v
  else
    mkView (foldl (store_entity now) (mEntities v) (sn_entities snapshot)) (sn_timeOfDay snapshot)
      now (mLastHelloAt v) sequence (u32 (mSnapshotsReceived v + 1)).

Definition applySnapshotPacket (data : list byte) (sequence : Z) (now : double) (c : St) : St :=
  set_view (apply_view data sequence now (nc_view c)) c.

Definition hold_incoming (p : HeldPacket) (c : St) : St :=
  let l := nc_latency c in
  set_held (mkLatency (mDelayedOutgoing l) (mDelayedIncoming l ++ [p]) (mFakeLatency l)
    (mFakeLoss l) (mLastPollTime l)) c.

Definition latch_sequence (sequence : Z) (c : St) : St :=
  let v := nc_view c in
  set_view (mkView (mEntities v) (mTimeOfDay v) (mLastSnapshotAt v) (mLastHelloAt v) sequence
    (mSnapshotsReceived v)) c.

(** The checks on a datagram: the sequence and the body of a snapshot newer
    than the last one. *)
Definition fresh_snapshot (v : View) (data : list byte) : option (Z * list byte) :=
  match readUdpHeader data with
  | None => None
  | Some (header, bodyOffset) =>
      if bool_decide (world_message_of (uh_type header) <> Some SnapshotMessage) then None
      else if negb (mSnapshotsReceived v =? 0) && (uh_sequence header <=? mLastSnapshotSequence v)
      then None
      else Some (uh_sequence header, drop bodyOffset data)
  end.

Definition onDatagram (now : double) (data : list byte) (c : St) : St :=
  match fresh_snapshot (nc_view c) data with
  | None => c
  | Some (sequence, body) =>
      if (f64_zero <? mFakeLatency (nc_latency c))%f64 then
        latch_sequence sequence
          (hold_incoming (mkHeld (now + mFakeLatency (nc_latency c))%f64 body) c)
      else applySnapshotPacket body sequence now c
  end.

Definition datagram_size : nat := 2048.

(** The receive loop: an error or an empty datagram ends it. Each turn takes
    an answer of the kernel, so their number is enough. *)
Fixpoint receive_datagrams (answers : nat) (now : double) (socket : UdpSocket) (c : St) : St :=
  match answers with
  | O => with_udp (Some socket) c
  | S answers =>
      let '(ok, data, _, socket) := receiveFrom datagram_size socket in
      if negb ok || bool_decide (data = []) then with_udp (Some socket) c
      else receive_datagrams answers now socket (onDatagram now data c)
  end.

(** [while (!queue.empty() && queue.front().dueAt <= now)]: what is released
    and what stays. *)
Fixpoint due (now : double) (queue : list HeldPacket) : list HeldPacket * list HeldPacket :=
  match queue with
  | [] => ([], [])
  | p :: queue' =>
      if (hp_dueAt p <=? now)%f64 then
        let '(released, held) := due now queue' in (p :: released, held)
      else ([], queue)
  end.

Definition with_queues (outgoing incoming : list HeldPacket) (c : St) : St :=
  let l := nc_latency c in
  set_held (mkLatency outgoing incoming (mFakeLatency l) (mFakeLoss l) (mLastPollTime l)) c.

Definition flushDelayed (now : double) (c : St) : St :=
  let l := nc_latency c in
  let '(out, outgoing) := due now (mDelayedOutgoing l) in
  let '(inc, incoming) := due now (mDelayedIncoming l) in
  let c := foldl (fun c p => sendTo (hp_data p) (mUdpTarget (nc_session c)) c) c out in
  let c := foldl (fun c p =>
             applySnapshotPacket (hp_data p) (mLastSnapshotSequence (nc_view c)) now c) c inc in
  with_queues outgoing incoming c.

Definition receive_stream (now : double) (c : St) : St :=
  match mUdp (nc_links c) with
  | None => c
  | Some socket => receive_datagrams (S (length (us_rx socket))) now socket c
  end.

Definition pumpWorld (now : double) (c : St) : St :=
  match mWorld (nc_links c) with
  | None => fail "world server closed the connection" c
  | Some stream =>
      let '(ok, stream) := pump stream in
      if negb ok then fail "world server closed the connection" c
      else
        let c := world_messages (length (ms_readBuffer stream)) now stream c in
        if decide (mState c = InWorld)
        then flushDelayed now (receive_stream now (retry_hello now c))
        else c
  end.

Definition poll_at (now : double) (c : St) : St :=
  let l := nc_latency c in
  set_held (mkLatency (mDelayedOutgoing l) (mDelayedIncoming l) (mFakeLatency l) (mFakeLoss l)
    now) c.

Definition poll (now : double) (c : St) : St :=
  let c := poll_at now c in
  match mState c with
  | ConnectingAuth => poll_connecting_auth c
  | AwaitingLogin => pumpAuth c
  | ConnectingWorld => poll_connecting_world c
  | AwaitingJoin | InWorld => pumpWorld now c
  | Idle | Failed => c
  end.

(** ** Input *)

Definition input_buttons (jump sprint : bool) : Z :=
  Z.lor (if jump then kInputJump else 0) (if sprint then kInputSprint else 0).

Definition hold_outgoing (p : HeldPacket) (c : St) : St :=
  let l := nc_latency c in
  set_held (mkLatency (mDelayedOutgoing l ++ [p]) (mDelayedIncoming l) (mFakeLatency l)
    (mFakeLoss l) (mLastPollTime l)) c.

(** Whether a packet is lost: [rand] is only called when losses are simulated. *)
Definition lose_packet (c : St) : bool * St :=
  if (f64_zero <? mFakeLoss (nc_latency c))%f64 then
    let '(r, c) := call rand c in
    ((f64_of_Z r / f64_of_Z RAND_MAX <? mFakeLoss (nc_latency c))%f64, c)
  else (false, c).

Definition sendInput (moveForward moveRight yaw : float) (jump sprint : bool) (sequence : Z)
    (c : St) : St :=
  if bool_decide (mState c <> InWorld) || bool_decide (mUdp (nc_links c) = None) then c
  else
    let packet := input_packet (mPlayerId (nc_session c)) sequence moveForward moveRight yaw
                    (input_buttons jump sprint) in
    let '(lost, c) := lose_packet c in
    if lost then c
    else
      let l := nc_latency c in
      if (f64_zero <? mFakeLatency l)%f64
      then hold_outgoing (mkHeld (mLastPollTime l + mFakeLatency l)%f64 packet) c
      else sendTo packet (mUdpTarget (nc_session c)) c.

(** ** Accessors *)

Definition timeSinceSnapshot (now : double) (c : St) : double :=
  (now - mLastSnapshotAt (nc_view c))%f64.

End NetClient.
