(* ===== verification/NetClientSpec.v ===== *)
(** * What the client's networking promises

    The protocol the client follows, as a relation on its states; the
    invariant that ties the sockets it holds and what it remembers to its
    state, and since when it remembers it; the order in which snapshots are
    applied or queued; the release of packets held back. *)

From Stdlib Require Import ZArith Lia Strings.Byte Strings.String Floats.SpecFloat.
From stdpp Require Import base list option gmap strings sorting relations.
From S2P Require Import Prelude Float32 Platform Config ByteStream Protocol Snapshot Framing.
From S2P Require Import Address Sockets NetClient.

Open Scope Z_scope.

(** ** The protocol *)

(** One step of the way from the login screen into the world. *)
Inductive advances : State -> State -> Prop :=
| advance_login : advances ConnectingAuth AwaitingLogin
| advance_token : advances AwaitingLogin ConnectingWorld
| advance_join : advances ConnectingWorld AwaitingJoin
| advance_enter : advances AwaitingJoin InWorld.

Definition at_rest (s : State) : bool := bool_decide (s = Idle \/ s = Failed).

(** What a poll may do to the state: stay, take one step, or fail. *)
Inductive poll_edge (s : State) : State -> Prop :=
| edge_stay : poll_edge s s
| edge_advance s' : advances s s' -> poll_edge s s'
| edge_fail : at_rest s = false -> poll_edge s Failed.

(** Which sockets are held in a state: to the auth server, to the world
    server, the two being connected, and the UDP socket. *)
Definition links_of (s : State) : list bool :=
  match s with
  | Idle | Failed => [false; false; false; false; false]
  | ConnectingAuth => [false; false; true; false; false]
  | AwaitingLogin => [true; false; false; false; false]
  | ConnectingWorld => [false; false; false; true; false]
  | AwaitingJoin => [false; true; false; false; false]
  | InWorld => [false; true; false; false; true]
  end.

Definition held {A} (x : option A) : bool := match x with Some _ => true | None => false end.

Definition links_held (l : Links) : list bool :=
  [held (mAuth l); held (mWorld l); held (mPendingAuthSocket l); held (mPendingWorldSocket l);
   held (mUdp l)].

(** Nothing of a world: no entity, no identity, no packet held back. *)
Definition no_world {E} (c : NetClient E) : Prop :=
  mEntities (nc_view c) = ∅ /\ mSnapshotsReceived (nc_view c) = 0 /\
  mPlayerId (nc_session c) = 0 /\ mOwnEntityId (nc_session c) = 0 /\
  mDelayedOutgoing (nc_latency c) = [] /\ mDelayedIncoming (nc_latency c) = [].

Record client_ok {E} (c : NetClient E) : Prop := {
  ok_links : links_held (nc_links c) = links_of (mState c);
  ok_password : mState c <> ConnectingAuth -> mState c <> Failed ->
                mPassword (nc_session c) = EmptyString;
  ok_no_world : mState c <> InWorld -> mState c <> Failed -> no_world c;
}.

Section NetClientSpec.
Context {E : Type} `{HApi : SocketApi E} `{HRand : Rand E} `{HAtof : Atof}.

Abbreviation St := (NetClient E).
Implicit Types (c : St).

Lemma call_eq {A} (m : SM E A) (c : St) :
  call m c = ((m (nc_env c)).1, set_env (m (nc_env c)).2 c).
Proof. unfold call. by destruct (m (nc_env c)). Qed.

Lemma became_writable_spec (c : St) :
  exists writable e, became_writable c = (writable, set_env e c).
Proof.
  unfold became_writable. rewrite call_eq.
  destruct (waitWritable 1 0 (nc_env c)) as [[count ready] e]. by eexists _, _.
Qed.

Lemma sendTo_eq data to (c : St) :
  sendTo data to c =
  mkNetClient (mState c) (mError c) (nc_links c) (nc_session c) (nc_latency c) (nc_view c)
    (nc_sent c ++ match mUdp (nc_links c) with Some _ => [(to, data)] | None => [] end) (nc_env c).
Proof.
  unfold sendTo. destruct (mUdp (nc_links c)); [done|]. rewrite app_nil_r. by destruct c.
Qed.

(** ** What each operation leaves alone *)

(** Changes to the view, the queues, the datagrams sent (never taken back) and
    the environment. *)
Definition quiet (c c' : St) : Prop :=
  (mState c' = mState c /\ mError c' = mError c /\ nc_session c' = nc_session c /\
   links_held (nc_links c') = links_held (nc_links c)) /\
  nc_sent c `prefix_of` nc_sent c'.

Lemma quiet_refl c : quiet c c.
Proof. by split. Qed.

Lemma quiet_trans c1 c2 c3 : quiet c1 c2 -> quiet c2 c3 -> quiet c1 c3.
Proof.
  intros [(?&?&?&?) ?] [(?&?&?&?) ?]. split; [split_and!; congruence|by etrans].
Qed.

Lemma quiet_sendTo data to c : quiet c (sendTo data to c).
Proof. rewrite sendTo_eq. split; [done|]. by apply prefix_app_r. Qed.

Lemma quiet_datagram now data c : quiet c (onDatagram now data c).
Proof. unfold onDatagram. by repeat case_match. Qed.

Lemma quiet_with_udp u u' c : mUdp (nc_links c) = Some u -> quiet c (with_udp (Some u') c).
Proof. intros Hu. split; [|done]. split_and!; [done..|]. unfold links_held. cbn. by rewrite Hu. Qed.

Lemma quiet_links c c' : quiet c c' -> is_Some (mUdp (nc_links c)) -> is_Some (mUdp (nc_links c')).
Proof.
  intros [(_ & _ & _ & Hl) _] [u Hu]. unfold links_held in Hl. rewrite Hu in Hl.
  injection Hl. destruct (mUdp (nc_links c')); [by eexists|done].
Qed.

Lemma quiet_receive answers now socket c :
  is_Some (mUdp (nc_links c)) -> quiet c (receive_datagrams answers now socket c).
Proof.
  revert socket c. induction answers as [|n IH]; intros socket c Hu; cbn [receive_datagrams].
  - destruct Hu as [u Hu]. by eapply quiet_with_udp.
  - destruct (receiveFrom datagram_size socket) as [[[ok data] from] socket'].
    case_match; [destruct Hu as [u Hu]; by eapply quiet_with_udp|].
    eapply quiet_trans; [apply quiet_datagram|]. apply IH.
    eapply quiet_links; [apply quiet_datagram|done].
Qed.

Lemma quiet_foldl {A} (f : St -> A -> St) xs c :
  (forall c x, quiet c (f c x)) -> quiet c (foldl f c xs).
Proof.
  intros Hf. revert c. induction xs as [|x xs IH]; intros c; [done|].
  eapply quiet_trans; [apply Hf|apply IH].
Qed.

Lemma quiet_flush now c : quiet c (flushDelayed now c).
Proof.
  unfold flushDelayed. destruct (due now _) as [out outgoing], (due now _) as [inc incoming].
  match goal with |- quiet _ (with_queues _ _ ?c') => apply (quiet_trans _ c'); [|done] end.
  eapply quiet_trans; [|by apply quiet_foldl]. apply quiet_foldl. intros. apply quiet_sendTo.
Qed.

Lemma quiet_retry now c : quiet c (retry_hello now c).
Proof.
  unfold retry_hello. case_match; [|done].
  eapply quiet_trans; [apply quiet_sendTo|done].
Qed.

Lemma quiet_stream now c :
  is_Some (mUdp (nc_links c)) ->
  quiet c (flushDelayed now (receive_stream now (retry_hello now c))).
Proof.
  intros Hu. eapply quiet_trans; [apply quiet_retry|].
  eapply quiet_trans; [|apply quiet_flush]. unfold receive_stream.
  case_match; [|done]. apply quiet_receive. by eexists.
Qed.

Lemma quiet_ok c c' :
  quiet c c' -> mState c = InWorld -> client_ok c -> client_ok c'.
Proof.
  intros [(Hs & _ & He & Hl) _] Hw [H1 H2 H3]. split; rewrite ?Hs, ?Hl, ?He; [done|auto|].
  congruence.
Qed.

(** ** The invariant *)

Lemma fail_ok message c : client_ok (fail message c).
Proof. by split. Qed.

Lemma disconnect_ok c : client_ok (disconnect c).
Proof. by split. Qed.

Lemma new_ok e : client_ok (new_net_client (E := E) e).
Proof. by split. Qed.

Lemma notify_logout_session c :
  nc_session (notify_logout c) = nc_session c /\ mState (notify_logout c) = mState c.
Proof. unfold notify_logout. by repeat case_match. Qed.

(** A client at one point of the protocol, by its sockets. *)
Ltac at_state c Hok Hs :=
  destruct c as [state error [a w pa pw u] session latency view sent env];
  cbn [mState] in Hs; subst state;
  pose proof (ok_links _ Hok) as Hlinks; cbn in Hlinks;
  destruct a, w, pa, pw, u; try discriminate Hlinks; clear Hlinks.

Lemma login_ok host port username password c : client_ok (login host port username password c).
Proof.
  unfold login. rewrite call_eq. destruct (resolve host port _).1; [|by split].
  rewrite call_eq. destruct (tcp_connect _ _).1; [|by split].
  split; [done|by intros []|done].
Qed.

Lemma poll_connecting_auth_step c :
  client_ok c -> mState c = ConnectingAuth ->
  client_ok (poll_connecting_auth c) /\ poll_edge ConnectingAuth (mState (poll_connecting_auth c)).
Proof.
  intros Hok Hs. at_state c Hok Hs. unfold poll_connecting_auth. cbn [nc_links mPendingAuthSocket].
  edestruct became_writable_spec as (writable & e & ->).
  destruct writable; [|split; [by destruct Hok|constructor]]. cbn [negb].
  rewrite call_eq. destruct (connectResult _).1; [|split; [by split|by constructor]].
  split; [|by repeat constructor]. destruct Hok as [_ _ H3]. split; [done..|].
  intros _ _. by apply H3.
Qed.

Lemma poll_connecting_world_step c :
  client_ok c -> mState c = ConnectingWorld ->
  client_ok (poll_connecting_world c) /\
  poll_edge ConnectingWorld (mState (poll_connecting_world c)).
Proof.
  intros Hok Hs. at_state c Hok Hs. unfold poll_connecting_world. cbn [nc_links mPendingWorldSocket].
  edestruct became_writable_spec as (writable & e & ->).
  destruct writable; [|split; [by destruct Hok|constructor]]. cbn [negb].
  rewrite call_eq. destruct (connectResult _).1; [|split; [by split|by constructor]].
  split; [|by repeat constructor]. destruct Hok as [_ H2 H3]. split; [done|by intros; apply H2|].
  intros _ _. by apply H3.
Qed.

Lemma onLoginResponse_step payload c :
  client_ok c -> mState c = AwaitingLogin ->
  client_ok (onLoginResponse payload c) /\
  poll_edge AwaitingLogin (mState (onLoginResponse payload c)).
Proof.
  intros Hok Hs. at_state c Hok Hs. unfold onLoginResponse.
  destruct (read_login _) as [[[[result token] worldHost] worldPort] reader].
  destruct (failed reader); [split; [by split|by constructor]|].
  destruct (bool_decide _); [split; [by split|by constructor]|].
  rewrite call_eq. destruct (resolve _ _ _).1; [|split; [by split|by constructor]].
  rewrite call_eq. destruct (tcp_connect _ _).1; [|split; [by split|by constructor]].
  split; [|by repeat constructor]. destruct Hok as [_ H2 H3]. split; [done|by intros; apply H2|].
  intros _ _. by apply H3.
Qed.

Lemma auth_messages_step n stream c :
  client_ok c -> mState c = AwaitingLogin ->
  client_ok (auth_messages n stream c) /\
  poll_edge AwaitingLogin (mState (auth_messages n stream c)).
Proof.
  assert (Hwith : forall s c, client_ok c -> mState c = AwaitingLogin ->
            client_ok (with_auth (Some s) c)).
  { intros s c' Hok Hs. at_state c' Hok Hs. by destruct Hok. }
  intros Hok Hs. revert stream. induction n as [|n IH]; intros stream; cbn [auth_messages].
  - split; [by apply Hwith|]. cbn. rewrite Hs. constructor.
  - destruct (next stream) as [[m stream']|].
    + case_match; [apply IH|]. apply onLoginResponse_step; [by apply Hwith|done].
    + split; [by apply Hwith|]. cbn. rewrite Hs. constructor.
Qed.

Lemma pumpAuth_step c :
  client_ok c -> mState c = AwaitingLogin ->
  client_ok (pumpAuth c) /\ poll_edge AwaitingLogin (mState (pumpAuth c)).
Proof.
  intros Hok Hs. unfold pumpAuth.
  destruct (mAuth (nc_links c)); [|split; [by split|by constructor]].
  destruct (pump m) as [ok stream]. destruct ok; [|split; [by split|by constructor]].
  by apply auth_messages_step.
Qed.

(** Reading the world server: the state before is [AwaitingJoin] or [InWorld]. *)
Definition joining (s : State) : Prop := s = AwaitingJoin \/ s = InWorld.

Lemma joining_edges s s' :
  joining s -> s' = s \/ s' = InWorld \/ s' = Failed -> poll_edge s s'.
Proof. intros [->| ->] [->|[->| ->]]; by repeat constructor. Qed.

Lemma with_world_ok stream c : client_ok c -> joining (mState c) -> client_ok (with_world (Some stream) c).
Proof. intros Hok [Hs|Hs]; at_state c Hok Hs; by destruct Hok. Qed.

(** What a message of the world server leaves: a client still joining, in the
    world, or failed. *)
Definition world_step (c c' : St) : Prop :=
  client_ok c' /\ (mState c' = mState c \/ mState c' = InWorld \/ mState c' = Failed).

Lemma failed_step message c c' : world_step c (fail message c').
Proof. split; [by split|by right; right]. Qed.

Lemma onJoinResponse_step now payload c :
  client_ok c -> joining (mState c) ->
  world_step c (onJoinResponse now payload c).2 /\
  ((onJoinResponse now payload c).1 = true -> mState (onJoinResponse now payload c).2 = InWorld).
Proof.
  intros Hok Hs. unfold onJoinResponse.
  destruct (read_join _) as [[[[[result playerId] udpPort] username] entityId] reader].
  destruct (failed reader); [split; [apply failed_step|done]|].
  destruct (bool_decide _); [split; [apply failed_step|done]|].
  rewrite call_eq. destruct (udp_open 0 _).1 as [socket|]; [|split; [apply failed_step|done]].
  rewrite call_eq. destruct (resolve _ _ _).1 as [target|]; [|split; [apply failed_step|done]].
  unfold sendUdpHello. rewrite sendTo_eq. cbn [fst snd].
  split; [|done]. split; [|by right; left].
  destruct Hs as [Hs|Hs]; at_state c Hok Hs; destruct Hok as [_ Hp Hn];
    (split; [done|by intros; apply Hp|done]).
Qed.

Lemma world_messages_step n now stream c :
  client_ok c -> joining (mState c) -> world_step c (world_messages n now stream c).
Proof.
  revert stream c. induction n as [|n IH]; intros stream c Hok Hs; cbn [world_messages].
  - split; [by apply with_world_ok|by left].
  - destruct (next stream) as [[m stream']|]; [|split; [by apply with_world_ok|by left]].
    unfold onWorldMessage. pose proof (with_world_ok stream' c Hok Hs) as Hok'.
    destruct (world_message_of (msg_type m)) as [[]|]; try by apply (IH _ (with_world _ c)).
    + destruct (onJoinResponse_step now (msg_payload m) (with_world (Some stream') c) Hok' Hs)
        as [[H1 H2] H3].
      destruct (onJoinResponse _ _ _) as [continue c']. cbn [fst snd] in *.
      destruct continue; [|done]. specialize (H3 eq_refl).
      destruct (IH stream' c' H1 (or_intror H3)) as [H4 H5]. rewrite H3 in H5.
      split; [done|]. tauto.
    + apply failed_step.
Qed.

Lemma pumpWorld_step now c :
  client_ok c -> joining (mState c) -> world_step c (pumpWorld now c).
Proof.
  intros Hok Hs. unfold pumpWorld.
  destruct (mWorld (nc_links c)); [|apply failed_step].
  destruct (pump m) as [ok stream]. destruct ok; [|apply failed_step]. cbn [negb].
  destruct (world_messages_step (length (ms_readBuffer stream)) now stream c Hok Hs) as [H1 H2].
  set (c' := world_messages _ _ _ _) in *. destruct (decide (mState c' = InWorld)) as [Hw|]; [|done].
  assert (Hq : quiet c' (flushDelayed now (receive_stream now (retry_hello now c')))).
  { apply quiet_stream. pose proof (ok_links _ H1) as Hl. rewrite Hw in Hl. injection Hl.
    destruct (mUdp (nc_links c')); [by eexists|done]. }
  split; [by eapply quiet_ok|]. destruct Hq as [(-> & _) _]. tauto.
Qed.

Lemma poll_at_ok now c : client_ok c -> client_ok (poll_at now c).
Proof. by intros []. Qed.

Lemma poll_step now c :
  client_ok c -> client_ok (poll now c) /\ poll_edge (mState c) (mState (poll now c)).
Proof.
  intros Hok%(poll_at_ok now). unfold poll. change (mState c) with (mState (poll_at now c)).
  destruct (mState (poll_at now c)) eqn:Hs; try (split; [done|rewrite Hs; constructor]).
  - by apply poll_connecting_auth_step.
  - by apply pumpAuth_step.
  - by apply poll_connecting_world_step.
  - destruct (pumpWorld_step now _ Hok (or_introl Hs)) as [H1 H2].
    split; [done|]. rewrite Hs in H2. by apply joining_edges; [left|].
  - destruct (pumpWorld_step now _ Hok (or_intror Hs)) as [H1 H2].
    split; [done|]. rewrite Hs in H2. by apply joining_edges; [right|].
Qed.

Lemma sendInput_quiet forward right yaw jump sprint sequence c :
  quiet c (sendInput forward right yaw jump sprint sequence c).
Proof.
  unfold sendInput, lose_packet. case_match; [done|].
  destruct (f64_zero <? mFakeLoss _)%f64; [rewrite call_eq|]; repeat case_match; simplify_eq;
    try done; (eapply quiet_trans; [|apply quiet_sendTo]; done).
Qed.

(** ** Every history of a client *)

Inductive ClientOp :=
| OpLogin (host : string) (port : Z) (username password : string)
| OpPoll (now : double)
| OpInput (moveForward moveRight yaw : float) (jump sprint : bool) (sequence : Z)
| OpLogout
| OpDisconnect.

Definition run_op (c : St) (op : ClientOp) : St :=
  match op with
  | OpLogin host port username password => login host port username password c
  | OpPoll now => poll now c
  | OpInput forward sideways yaw jump sprint sequence =>
      sendInput forward sideways yaw jump sprint sequence c
  | OpLogout => logout c
  | OpDisconnect => disconnect c
  end.

(** Where each operation may lead. *)
Definition op_edge (op : ClientOp) (s s' : State) : Prop :=
  match op with
  | OpLogin _ _ _ _ => s' = ConnectingAuth \/ s' = Failed
  | OpPoll _ => poll_edge s s'
  | OpInput _ _ _ _ _ _ => s' = s
  | OpLogout | OpDisconnect => s' = Idle
  end.

Lemma login_edge host port username password c :
  mState (login host port username password c) = ConnectingAuth \/
  mState (login host port username password c) = Failed.
Proof.
  unfold login. rewrite call_eq. destruct (resolve _ _ _).1; [|by right].
  rewrite call_eq. destruct (tcp_connect _ _).1; [by left|by right].
Qed.

Lemma run_op_step op c : client_ok c -> client_ok (run_op c op) /\ op_edge op (mState c) (mState (run_op c op)).
Proof.
  intros Hok. destruct op; cbn [run_op op_edge].
  - split; [apply login_ok|apply login_edge].
  - by apply poll_step.
  - pose proof (sendInput_quiet moveForward moveRight yaw jump sprint sequence c) as Hq.
    split; [|by destruct Hq as [[] _]]. destruct (decide (mState c = InWorld)) as [Hw|Hw].
    + by eapply quiet_ok.
    + unfold sendInput. by rewrite bool_decide_true.
  - split; [apply disconnect_ok|done].
  - split; [apply disconnect_ok|done].
Qed.

Lemma run_ops_ok ops c : client_ok c -> client_ok (foldl run_op c ops).
Proof.
  revert c. induction ops as [|op ops IH]; intros c Hok; [done|].
  apply IH. by apply run_op_step.
Qed.

(** ** What is kept, and until when *)

Definition retains (c c' : St) : Prop :=
  mPassword (nc_session c') = mPassword (nc_session c) /\
  mEntities (nc_view c') = mEntities (nc_view c).

Lemma retains_trans c1 c2 c3 : retains c1 c2 -> retains c2 c3 -> retains c1 c3.
Proof. intros [? ?] [? ?]. split; congruence. Qed.

Lemma retains_login_response payload c : retains c (onLoginResponse payload c).
Proof.
  unfold onLoginResponse. destruct (read_login _) as [[[[result token] worldHost] worldPort] reader].
  destruct (failed reader); [done|]. destruct (bool_decide _); [done|].
  rewrite call_eq. destruct (resolve _ _ _).1; [|done].
  rewrite call_eq. by destruct (tcp_connect _ _).1.
Qed.

Lemma retains_auth_messages n stream c : retains c (auth_messages n stream c).
Proof.
  revert stream. induction n as [|n IH]; intros stream; cbn [auth_messages]; [done|].
  destruct (next stream) as [[m stream']|]; [|done]. case_match; [apply IH|].
  exact (retains_login_response (msg_payload m) (with_auth (Some stream') c)).
Qed.

Lemma retains_join_response now payload c : retains c (onJoinResponse now payload c).2.
Proof.
  unfold onJoinResponse.
  destruct (read_join _) as [[[[[result playerId] udpPort] username] entityId] reader].
  destruct (failed reader); [done|]. destruct (bool_decide _); [done|].
  rewrite call_eq. destruct (udp_open 0 _).1 as [socket|]; [|done].
  rewrite call_eq. destruct (resolve _ _ _).1 as [target|]; [|done].
  unfold sendUdpHello. by rewrite sendTo_eq.
Qed.

Lemma retains_world_messages n now stream c : retains c (world_messages n now stream c).
Proof.
  revert stream c. induction n as [|n IH]; intros stream c; cbn [world_messages]; [done|].
  destruct (next stream) as [[m stream']|]; [|done]. unfold onWorldMessage.
  destruct (world_message_of (msg_type m)) as [[]|]; try exact (IH stream' (with_world (Some stream') c)).
  - pose proof (retains_join_response now (msg_payload m) (with_world (Some stream') c)) as Hj.
    destruct (onJoinResponse _ _ _) as [continue c']. cbn [snd] in Hj. destruct continue; [|done].
    exact (retains_trans _ _ _ Hj (IH stream' c')).
  - done.
Qed.

(** What a poll keeps: the password, except that it is forgotten when the
    credentials have been sent, and the picture of the world outside it. *)
Definition poll_keeps (c c' : St) : Prop :=
  mPassword (nc_session c') =
    (if bool_decide (mState c = ConnectingAuth /\ mState c' = AwaitingLogin)
     then EmptyString else mPassword (nc_session c)) /\
  (mState c' <> InWorld -> mEntities (nc_view c') = mEntities (nc_view c)).

Lemma retains_keeps c c' :
  mState c <> ConnectingAuth \/ mState c' <> AwaitingLogin -> retains c c' -> poll_keeps c c'.
Proof. intros Hs [H1 H2]. split; [|done]. rewrite bool_decide_false by tauto. done. Qed.

Lemma poll_connecting_auth_keeps c : mState c = ConnectingAuth -> poll_keeps c (poll_connecting_auth c).
Proof.
  intros Hs. assert (Hstay : forall e, poll_keeps c (set_env e c)).
  { intros e. apply retains_keeps; [right|done]. change (mState c <> AwaitingLogin). congruence. }
  unfold poll_connecting_auth. destruct (mPendingAuthSocket (nc_links c)) as [socket|].
  2: { apply retains_keeps; [right; congruence|done]. }
  destruct (became_writable_spec c) as (writable & e & ->). destruct writable; cbn [negb]; [|done].
  rewrite call_eq.
  destruct (connectResult _).1; [|by apply retains_keeps; [right|]].
  split; [|done]. by rewrite bool_decide_true by done.
Qed.

Lemma poll_connecting_world_retains c : retains c (poll_connecting_world c).
Proof.
  unfold poll_connecting_world. destruct (mPendingWorldSocket (nc_links c)); [|done].
  destruct (became_writable_spec c) as (writable & e & ->). destruct writable; cbn [negb]; [|done].
  rewrite call_eq. by destruct (connectResult _).1.
Qed.

Lemma pumpAuth_retains c : retains c (pumpAuth c).
Proof.
  unfold pumpAuth. destruct (mAuth (nc_links c)); [|done].
  destruct (pump m) as [ok stream]. destruct ok; [|done]. apply retains_auth_messages.
Qed.

Lemma pumpWorld_keeps now c :
  client_ok c -> joining (mState c) -> poll_keeps c (pumpWorld now c).
Proof.
  intros Hok Hs. assert (Hn : mState c <> ConnectingAuth) by (by destruct Hs as [->| ->]).
  unfold pumpWorld. destruct (mWorld (nc_links c)); [|by apply retains_keeps; [left|]].
  destruct (pump m) as [ok stream]. destruct ok; cbn [negb]; [|by apply retains_keeps; [left|]].
  destruct (world_messages_step (length (ms_readBuffer stream)) now stream c Hok Hs) as [H1 _].
  pose proof (retains_world_messages (length (ms_readBuffer stream)) now stream c) as Hr.
  set (c' := world_messages _ _ _ _) in *. destruct (decide (mState c' = InWorld)) as [Hw|];
    [|by apply retains_keeps; [left|]].
  assert (Hq : quiet c' (flushDelayed now (receive_stream now (retry_hello now c')))).
  { apply quiet_stream. pose proof (ok_links _ H1) as Hl. rewrite Hw in Hl. injection Hl.
    destruct (mUdp (nc_links c')); [by eexists|done]. }
  destruct Hq as [(Hst & _ & Hse & _) _]. destruct Hr as [Hr _]. split.
  - rewrite bool_decide_false by tauto. by rewrite Hse.
  - by rewrite Hst.
Qed.

Lemma poll_keeps_poll now c : client_ok c -> poll_keeps c (poll now c).
Proof.
  intros Hok%(poll_at_ok now). change (poll_keeps c) with (poll_keeps (poll_at now c)).
  unfold poll. destruct (mState (poll_at now c)) eqn:Hs;
    try (apply retains_keeps; [left; by rewrite Hs|done]).
  - by apply poll_connecting_auth_keeps.
  - apply retains_keeps; [left; by rewrite Hs|]. apply pumpAuth_retains.
  - apply retains_keeps; [left; by rewrite Hs|]. apply poll_connecting_world_retains.
  - apply pumpWorld_keeps; [done|by left].
  - apply pumpWorld_keeps; [done|by right].
Qed.

(** What each operation leaves of the password and of the world. *)
Definition op_keeps (op : ClientOp) (c c' : St) : Prop :=
  match op with
  | OpLogin _ _ _ password => mPassword (nc_session c') = password /\ no_world c'
  | OpPoll now => poll_keeps c c' /\ (at_rest (mState c) = true -> c' = poll_at now c)
  | OpInput _ _ _ _ _ _ => nc_session c' = nc_session c /\ nc_view c' = nc_view c
  | OpLogout | OpDisconnect => mPassword (nc_session c') = EmptyString /\ no_world c'
  end.

Lemma sendInput_view forward sideways yaw jump sprint sequence c :
  nc_view (sendInput forward sideways yaw jump sprint sequence c) = nc_view c.
Proof.
  unfold sendInput, lose_packet. case_match; [done|].
  destruct (f64_zero <? mFakeLoss _)%f64; [rewrite call_eq|]; repeat case_match; simplify_eq;
    by rewrite ?sendTo_eq.
Qed.

Lemma login_keeps host port username password c :
  op_keeps (OpLogin host port username password) c (login host port username password c).
Proof.
  unfold login. rewrite call_eq. destruct (resolve host port _).1; [|done].
  rewrite call_eq. by destruct (tcp_connect _ _).1.
Qed.

Lemma run_op_keeps op c : client_ok c -> op_keeps op c (run_op c op).
Proof.
  intros Hok. destruct op; cbn [run_op].
  - apply login_keeps.
  - split; [by apply poll_keeps_poll|]. unfold poll, at_rest.
    change (mState (poll_at now c)) with (mState c). intros Hr%bool_decide_eq_true.
    by destruct Hr as [-> | ->].
  - pose proof (sendInput_quiet moveForward moveRight yaw jump sprint sequence c) as [(_ & _ & H & _) _].
    split; [done|]. apply sendInput_view.
  - done.
  - done.
Qed.

(** The client after a history of operations. *)
Section History.
Context (getenv : string -> option string) (e : E).

Definition client_after (ops : list ClientOp) : St := foldl run_op (init getenv (new_net_client e)).2 ops.

Lemma client_after_ok ops : client_ok (client_after ops).
Proof. by apply run_ops_ok. Qed.

Lemma client_after_snoc ops op : client_after (ops ++ [op]) = run_op (client_after ops) op.
Proof. unfold client_after. by rewrite foldl_app. Qed.

(** [P] holds of the client at every point of a stretch [ops] that follows
    [before], but its start. *)
Definition since (before ops : list ClientOp) (P : St -> Prop) : Prop :=
  forall done left op, ops = done ++ op :: left -> P (client_after (before ++ done ++ [op])).

Lemma since_nil before P : since before [] P.
Proof. intros done left op H. by destruct done. Qed.

Lemma since_snoc before ops op P :
  since before ops P -> P (client_after (before ++ ops ++ [op])) -> since before (ops ++ [op]) P.
Proof.
  intros Hs Hl done left op' H. destruct left as [|x left _] using rev_ind.
  - apply app_inj_tail in H as [-> ->]. done.
  - rewrite app_comm_cons, app_assoc in H. apply app_inj_tail in H as [-> _]. by eapply Hs.
Qed.

(** A password in memory is that of the last login, and the client has been
    connecting or failed ever since. *)
Lemma password_origin ops :
  mPassword (nc_session (client_after ops)) <> EmptyString ->
  exists before host port username rest,
    ops = before ++ OpLogin host port username (mPassword (nc_session (client_after ops))) :: rest /\
    since before
      (OpLogin host port username (mPassword (nc_session (client_after ops))) :: rest)
      (fun c => mState c = ConnectingAuth \/ mState c = Failed).
Proof.
  induction ops as [|op ops IH] using rev_ind; [done|]. intros Hp.
  assert (Hst : mState (client_after (ops ++ [op])) = ConnectingAuth \/
                mState (client_after (ops ++ [op])) = Failed).
  { destruct (client_after_ok (ops ++ [op])) as [_ Hok _].
    destruct (mState (client_after (ops ++ [op]))); try tauto; by destruct Hp; apply Hok. }
  pose proof (run_op_keeps op (client_after ops) (client_after_ok ops)) as Hk.
  rewrite <- client_after_snoc in Hk.
  assert (Hsame : mPassword (nc_session (client_after (ops ++ [op]))) =
                    mPassword (nc_session (client_after ops)) \/
                  exists host port username,
                    op = OpLogin host port username (mPassword (nc_session (client_after (ops ++ [op]))))).
  { destruct op; cbn [op_keeps] in Hk.
    - right. destruct Hk as [Hk _]. rewrite Hk. by eexists _, _, _.
    - left. destruct Hk as [[Hk _] _]. revert Hk. case_bool_decide; [by intros Hk; rewrite Hk in Hp|done].
    - left. destruct Hk as [Hk _]. by rewrite Hk.
    - by destruct Hk as [Hk _].
    - by destruct Hk as [Hk _]. }
  destruct Hsame as [Hsame|(host & port & username & Heq)].
  - rewrite Hsame in *. destruct (IH Hp) as (before & host & port & username & rest & Heq & Hs).
    exists before, host, port, username, (rest ++ [op]). split; [by rewrite Heq at 1; rewrite <- app_assoc|].
    rewrite app_comm_cons. apply since_snoc; [done|].
    rewrite app_assoc, <- Heq. exact Hst.
  - exists ops, host, port, username, []. rewrite <- Heq. split; [done|].
    apply (since_snoc ops [] op); [apply since_nil|exact Hst].
Qed.

(** What a client that is not in the world has of one is what it had when it
    was last in it, and it has failed ever since. *)
Lemma picture_origin ops :
  mState (client_after ops) <> InWorld -> mEntities (nc_view (client_after ops)) <> ∅ ->
  exists before rest,
    ops = before ++ rest /\ mState (client_after before) = InWorld /\
    mEntities (nc_view (client_after ops)) = mEntities (nc_view (client_after before)) /\
    since before rest (fun c => mState c = Failed).
Proof.
  induction ops as [|op ops IH] using rev_ind; [done|]. intros Hw He.
  assert (Hst : mState (client_after (ops ++ [op])) = Failed).
  { destruct (client_after_ok (ops ++ [op])) as [_ _ Hok].
    destruct (decide (mState (client_after (ops ++ [op])) = Failed)) as [|Hf]; [done|].
    destruct He. by apply Hok. }
  pose proof (run_op_keeps op (client_after ops) (client_after_ok ops)) as Hk.
  rewrite <- client_after_snoc in Hk.
  assert (Hsame : mEntities (nc_view (client_after (ops ++ [op]))) =
                  mEntities (nc_view (client_after ops))).
  { destruct op; cbn [op_keeps] in Hk.
    - destruct He. apply Hk.
    - destruct Hk as [[_ Hk] _]. by apply Hk.
    - destruct Hk as [_ Hk]. by rewrite Hk.
    - destruct He. apply Hk.
    - destruct He. apply Hk. }
  destruct (decide (mState (client_after ops) = InWorld)) as [Hin|Hout].
  - exists ops, [op]. split_and!; [done..|]. apply (since_snoc ops [] op); [apply since_nil|done].
  - rewrite Hsame in *. destruct (IH Hout He) as (before & rest & Heq & Hb & Hm & Hs).
    exists before, (rest ++ [op]). split_and!; [by rewrite Heq at 1; rewrite <- app_assoc|done..|].
    apply since_snoc; [done|]. rewrite app_assoc, <- Heq. exact Hst.
Qed.

End History.

(** C6: Whatever is called on a client and whatever the network answers, the
    client follows the protocol: a poll stays, takes one step of the way
    into the world, or fails. In each state it holds exactly the sockets of that
    state (none once idle or failed). A login, a logout and a disconnect leave
    nothing of a world; a login leaves its own password, and a poll forgets it
    when it has sent the credentials. So a password is in memory only of the
    last login, and only while the client has done nothing since but connect to
    the auth server or fail; and a client that is not in the world has nothing
    of one, unless it has failed. [fail] clears neither: a client whose
    connection to the auth server failed keeps the password, and one thrown out
    of the world keeps the entities (those it had when it was last in the
    world), its player id and the packets held back, until the next login,
    logout or disconnect. *)
Theorem client_protocol (getenv : string -> option string) (e : E) (ops : list ClientOp)
    (op : ClientOp) :
  let c := client_after getenv e ops in
  let c' := run_op c op in
  client_ok c /\ client_ok c' /\ op_edge op (mState c) (mState c') /\ op_keeps op c c' /\
  (mPassword (nc_session c) <> EmptyString ->
   exists before host port username rest,
     ops = before ++ OpLogin host port username (mPassword (nc_session c)) :: rest /\
     since getenv e before (OpLogin host port username (mPassword (nc_session c)) :: rest)
       (fun c => mState c = ConnectingAuth \/ mState c = Failed)) /\
  (mState c <> InWorld -> mEntities (nc_view c) <> ∅ ->
   exists before rest,
     ops = before ++ rest /\ mState (client_after getenv e before) = InWorld /\
     mEntities (nc_view c) = mEntities (nc_view (client_after getenv e before)) /\
     since getenv e before rest (fun c => mState c = Failed)).
Proof.
  cbv zeta. pose proof (client_after_ok getenv e ops) as Hok.
  destruct (run_op_step op _ Hok) as [Hok' Hedge].
  split_and!; [done..|by apply run_op_keeps|apply password_origin|apply picture_origin].
Qed.

(** ** Snapshots *)

(** The snapshot a datagram carries, with its sequence. *)
Definition snapshot_in (data : list byte) : option (Z * Snapshot) :=
  match readUdpHeader data with
  | None => None
  | Some (header, bodyOffset) =>
      if bool_decide (world_message_of (uh_type header) = Some SnapshotMessage) then
        let '(ok, snapshot) := decodeSnapshot (drop bodyOffset data) snapshot_default in
        if ok then Some (uh_sequence header, snapshot) else None
      else None
  end.

(** What a client makes of a snapshot. *)
Definition see (now : double) (v : View) (s : Z * Snapshot) : View :=
  mkView (foldl (store_entity now) (mEntities v) (sn_entities s.2)) (sn_timeOfDay s.2) now
    (mLastHelloAt v) s.1 (u32 (mSnapshotsReceived v + 1)).

Definition stale (v : View) (sequence : Z) : bool :=
  negb (mSnapshotsReceived v =? 0) && (sequence <=? mLastSnapshotSequence v).

Definition see_datagram (now : double) (v : View) (data : list byte) : View :=
  match snapshot_in data with
  | Some s => if stale v s.1 then v else see now v s
  | None => v
  end.

(** The datagrams a receive loop takes from the kernel's answers. *)
Fixpoint arriving (rx : list RecvFromAnswer) : list (list byte) :=
  match rx with
  | FromPeer _ data :: rx =>
      if decide (take datagram_size data = []) then [] else take datagram_size data :: arriving rx
  | _ => []
  end.

Definition no_latency (c : St) : Prop := (f64_zero <? mFakeLatency (nc_latency c))%f64 = false.

Lemma onDatagram_view now data c :
  no_latency c ->
  onDatagram now data c = set_view (see_datagram now (nc_view c) data) c.
Proof.
  intros Hl. unfold onDatagram, fresh_snapshot, see_datagram, snapshot_in.
  destruct (readUdpHeader data) as [[header offset]|]; [|by destruct c].
  destruct (bool_decide_reflect (world_message_of (uh_type header) = Some SnapshotMessage)) as [Ht|Ht];
    [rewrite bool_decide_false by tauto|rewrite bool_decide_true by done; by destruct c].
  fold (stale (nc_view c) (uh_sequence header)). rewrite Hl.
  unfold applySnapshotPacket, apply_view.
  destruct (stale _ _) eqn:Es; destruct (decodeSnapshot _ _) as [[] snapshot]; cbn [fst negb];
    rewrite ?Es; by destruct c.
Qed.

Lemma receive_view rx now c answers :
  no_latency c -> (length rx < answers)%nat ->
  nc_view (receive_datagrams answers now (mkUdpSocket rx) c) =
  foldl (see_datagram now) (nc_view c) (arriving rx).
Proof.
  revert rx c. induction answers as [|n IH]; intros rx c Hl Hn; [lia|].
  cbn [receive_datagrams]. destruct rx as [|[from data|b r] rx]; cbn [receiveFrom us_rx arriving].
  - done.
  - rewrite orb_false_l. destruct (decide (take datagram_size data = [])) as [Hd|Hd].
    + by rewrite bool_decide_true.
    + rewrite bool_decide_false by done. rewrite onDatagram_view by done.
      cbn in Hn. rewrite IH by (done || lia). done.
  - rewrite bool_decide_true, orb_true_r by done. done.
Qed.

(** The snapshots a client accepts: each newer than the one before. *)
Definition newer (v : View) (accepted : list (Z * Snapshot)) : Prop :=
  StronglySorted Z.lt (fst <$> accepted) /\
  (mSnapshotsReceived v <> 0 -> Forall (fun s => mLastSnapshotSequence v < s.1) accepted).

Lemma see_received now v s :
  0 <= mSnapshotsReceived v < 2 ^ 32 - 1 ->
  mSnapshotsReceived (see now v s) = mSnapshotsReceived v + 1.
Proof. intros H. apply wrap_id. unfold fits. lia. Qed.

Lemma see_all now datagrams : forall v,
  0 <= mSnapshotsReceived v -> mSnapshotsReceived v + Z.of_nat (length datagrams) < 2 ^ 32 ->
  exists accepted,
    accepted `sublist_of` omap snapshot_in datagrams /\ newer v accepted /\
    foldl (see_datagram now) v datagrams = foldl (see now) v accepted /\
    (mSnapshotsReceived v <> 0 ->
     mLastSnapshotSequence v <= mLastSnapshotSequence (foldl (see now) v accepted)) /\
    Forall (fun s => s.1 <= mLastSnapshotSequence (foldl (see now) v accepted))
      (omap snapshot_in datagrams).
Proof.
  induction datagrams as [|data datagrams IH]; intros v H0 Hmax.
  { exists []. split_and!; [done|split; [constructor|by constructor]|done|done|constructor]. }
  cbn [length] in Hmax. rewrite Nat2Z.inj_succ in Hmax.
  cbn [foldl omap list_omap]. unfold see_datagram at 2.
  destruct (snapshot_in data) as [s|]; [|apply IH; lia].
  destruct (stale v s.1) eqn:Es.
  - destruct (IH v H0 ltac:(lia)) as (acc & H1 & H2 & H3 & H4 & H5).
    exists acc. split_and!; [by apply sublist_cons|done..|].
    apply andb_true_iff in Es as [Hr%negb_true_iff%Z.eqb_neq Hle%Z.leb_le].
    constructor; [|done]. specialize (H4 Hr). lia.
  - pose proof (see_received now v s ltac:(lia)) as Hr.
    destruct (IH (see now v s) ltac:(lia) ltac:(lia)) as (acc & H1 & [H2 H2'] & H3 & H4 & H5).
    specialize (H2' ltac:(lia)). specialize (H4 ltac:(lia)). cbn [mLastSnapshotSequence] in H2', H4.
    assert (Hv : mSnapshotsReceived v <> 0 -> mLastSnapshotSequence v < s.1).
    { intros Hz. apply andb_false_iff in Es as [Es|Es]; [|lia].
      by apply negb_false_iff, Z.eqb_eq in Es. }
    exists (s :: acc). split_and!.
    + by apply sublist_skip.
    + split.
      * cbn [fmap list_fmap]. constructor; [done|]. by apply Forall_fmap.
      * intros Hz. specialize (Hv Hz). constructor; [done|].
        eapply Forall_impl; [done|]. cbn. lia.
    + done.
    + intros Hz. specialize (Hv Hz). cbn in H4 |- *. lia.
    + by constructor.
Qed.

(** *** Snapshots held back *)

(** The sequence and the body of a snapshot datagram. *)
Definition packet_in (data : list byte) : option (Z * list byte) :=
  match readUdpHeader data with
  | None => None
  | Some (header, bodyOffset) =>
      if bool_decide (world_message_of (uh_type header) = Some SnapshotMessage)
      then Some (uh_sequence header, drop bodyOffset data) else None
  end.

Definition latch (v : View) (p : Z * list byte) : View :=
  mkView (mEntities v) (mTimeOfDay v) (mLastSnapshotAt v) (mLastHelloAt v) p.1 (mSnapshotsReceived v).

(** The packet as it is queued. *)
Definition delayed (now : double) (c : St) (p : Z * list byte) : HeldPacket :=
  mkHeld (now + mFakeLatency (nc_latency c))%f64 p.2.

Lemma onDatagram_held now data c :
  ~ no_latency c ->
  onDatagram now data c =
  match packet_in data with
  | Some p => if stale (nc_view c) p.1 then c
              else latch_sequence p.1 (hold_incoming (delayed now c p) c)
  | None => c
  end.
Proof.
  intros Hl%not_false_iff_true. unfold onDatagram, fresh_snapshot, packet_in.
  destruct (readUdpHeader data) as [[header offset]|]; [|done].
  destruct (bool_decide_reflect (world_message_of (uh_type header) = Some SnapshotMessage)) as [Ht|Ht];
    [rewrite bool_decide_false by tauto|by rewrite bool_decide_true].
  cbn [fst]. fold (stale (nc_view c) (uh_sequence header)).
  destruct (stale _ _); [done|]. by rewrite Hl.
Qed.

(** What a burst leaves in the queue of a client with simulated latency: the
    newer ones in order once a snapshot has been applied, all of them before. *)
Definition holds_back (now : double) (c c' : St) (packets : list (Z * list byte)) : Prop :=
  exists kept,
    kept `sublist_of` packets /\
    mDelayedIncoming (nc_latency c') = mDelayedIncoming (nc_latency c) ++ (delayed now c <$> kept) /\
    nc_view c' = foldl latch (nc_view c) kept /\
    (mSnapshotsReceived (nc_view c) <> 0 ->
     StronglySorted Z.lt (fst <$> kept) /\
     Forall (fun p => mLastSnapshotSequence (nc_view c) < p.1) kept /\
     Forall (fun p => p.1 <= mLastSnapshotSequence (nc_view c')) packets) /\
    (mSnapshotsReceived (nc_view c) = 0 -> kept = packets).

Lemma foldl_latch_received v kept :
  mSnapshotsReceived (foldl latch v kept) = mSnapshotsReceived v.
Proof. revert v. induction kept as [|p kept IH]; intros v; [done|]. cbn [foldl]. by rewrite IH. Qed.

Lemma foldl_latch_sequence v kept :
  StronglySorted Z.lt (fst <$> kept) -> Forall (fun p => mLastSnapshotSequence v < p.1) kept ->
  mLastSnapshotSequence v <= mLastSnapshotSequence (foldl latch v kept).
Proof.
  revert v. induction kept as [|p kept IH]; intros v Hs Hf; cbn [foldl]; [lia|].
  cbn [fmap list_fmap] in Hs. apply StronglySorted_inv in Hs as [Hs Hp].
  apply Forall_cons in Hf as [Hv _]. etrans; [|apply IH; [done|]].
  - cbn [latch mLastSnapshotSequence]. lia.
  - apply (Forall_fmap fst) in Hp. exact Hp.
Qed.

Lemma holds_back_skip now c c' p packets :
  stale (nc_view c) p.1 = true -> holds_back now c c' packets -> holds_back now c c' (p :: packets).
Proof.
  intros Hst (kept & H1 & H2 & H3 & H4 & H5).
  apply andb_true_iff in Hst as [Hr%negb_true_iff%Z.eqb_neq Hle%Z.leb_le].
  exists kept. split_and!; [by apply sublist_cons|done..| |done].
  intros Hz. destruct (H4 Hz) as (K1 & K2 & K3). split_and!; [done..|]. constructor; [|done].
  rewrite H3. pose proof (foldl_latch_sequence (nc_view c) kept K1 K2). lia.
Qed.

Lemma holds_back_keep now c c' p packets :
  stale (nc_view c) p.1 = false ->
  holds_back now (latch_sequence p.1 (hold_incoming (delayed now c p) c)) c' packets ->
  holds_back now c c' (p :: packets).
Proof.
  intros Hst (kept & H1 & H2 & H3 & H4 & H5). exists (p :: kept). split_and!.
  - by apply sublist_skip.
  - rewrite H2. cbn. by rewrite <- app_assoc.
  - done.
  - intros Hz. destruct (H4 Hz) as (K1 & K2 & K3).
    assert (Hp : mLastSnapshotSequence (nc_view c) < p.1).
    { apply andb_false_iff in Hst as [Hst|Hst]; [by apply negb_false_iff, Z.eqb_eq in Hst|lia]. }
    cbn in K2. split_and!.
    + cbn [fmap list_fmap]. constructor; [done|]. by apply Forall_fmap.
    + constructor; [done|]. eapply Forall_impl; [exact K2|]. cbn. lia.
    + constructor; [|done]. rewrite H3. by apply (foldl_latch_sequence (latch (nc_view c) p)).
  - intros Hz. by rewrite (H5 Hz).
Qed.

Lemma receive_held rx now c answers :
  ~ no_latency c -> (length rx < answers)%nat ->
  holds_back now c (receive_datagrams answers now (mkUdpSocket rx) c) (omap packet_in (arriving rx)).
Proof.
  revert rx c. induction answers as [|n IH]; intros rx c Hl Hn; [lia|].
  assert (Hend : forall s, holds_back now c (with_udp (Some s) c) []).
  { intros s. exists []. rewrite app_nil_r. split_and!; try done. intros _. split_and!; constructor. }
  cbn [receive_datagrams]. destruct rx as [|[from data|b r] rx]; cbn [receiveFrom us_rx arriving].
  - apply Hend.
  - rewrite orb_false_l. destruct (decide (take datagram_size data = [])) as [Hd|Hd].
    + rewrite bool_decide_true by done. apply Hend.
    + rewrite bool_decide_false by done. rewrite onDatagram_held by done.
      cbn in Hn. cbn [omap list_omap]. destruct (packet_in _) as [p|]; [|by apply IH; [|lia]].
      destruct (stale (nc_view c) p.1) eqn:Hst.
      * apply holds_back_skip; [done|]. by apply IH; [|lia].
      * apply holds_back_keep; [done|]. by apply IH; [|lia].
  - rewrite bool_decide_true, orb_true_r by done. apply Hend.
Qed.

(** C25: What a client in the world makes of a burst of datagrams, in any
    order and with any of them lost or repeated. Without simulated latency the
    accepted snapshots are some of those that arrived, in strictly increasing
    sequence and all newer than what was shown before; the view is theirs in
    that order, and nothing that arrived is newer than what is shown at the
    end. With it (the variable [NET_FAKE_LATENCY_MS] is set) nothing is shown
    yet: packets are queued, in the order they came, to be applied in that
    order when their time has come. Once a snapshot has been applied they too
    are in strictly increasing sequence and newer than the last one queued; before, the test
    on [mSnapshotsReceived] lets every one of them through, older ones after
    newer ones ([older_snapshot_applied] is such a run). *)
Theorem snapshots_in_order (now : double) (c : St) (socket : UdpSocket)
    (Hudp : mUdp (nc_links c) = Some socket)
    (Hreceived : 0 <= mSnapshotsReceived (nc_view c))
    (Hmax : mSnapshotsReceived (nc_view c) + Z.of_nat (length (arriving (us_rx socket))) < 2 ^ 32) :
  (no_latency c ->
   exists accepted,
     accepted `sublist_of` omap snapshot_in (arriving (us_rx socket)) /\
     newer (nc_view c) accepted /\
     nc_view (receive_stream now c) = foldl (see now) (nc_view c) accepted /\
     Forall (fun s => s.1 <= mLastSnapshotSequence (nc_view (receive_stream now c)))
       (omap snapshot_in (arriving (us_rx socket)))) /\
  (~ no_latency c ->
   holds_back now c (receive_stream now c) (omap packet_in (arriving (us_rx socket)))).
Proof.
  unfold receive_stream. rewrite Hudp. destruct socket as [rx]. cbn [us_rx] in *. split.
  - intros Hl. rewrite receive_view by (done || lia).
    destruct (see_all now (arriving rx) (nc_view c)) as (acc & H1 & H2 & H3 & _ & H5); [done..|].
    rewrite H3. by exists acc.
  - intros Hl. by apply receive_held; [|lia].
Qed.

(** ** Packets held back *)

Lemma due_spec now queue :
  (due now queue).1 ++ (due now queue).2 = queue /\
  Forall (fun p => (hp_dueAt p <=? now)%f64 = true) (due now queue).1 /\
  (forall p, head (due now queue).2 = Some p -> (hp_dueAt p <=? now)%f64 = false).
Proof.
  induction queue as [|p queue (H1 & H2 & H3)]; cbn [due].
  - split_and!; [done|constructor|done].
  - destruct (hp_dueAt p <=? now)%f64 eqn:Ed.
    + destruct (due now queue) as [released rest]. cbn [fst snd] in *.
      split_and!; [by rewrite <- H1|by constructor|done].
    + split_and!; [done|constructor|]. by intros q [= <-].
Qed.

Definition apply_held (now : double) (v : View) (p : HeldPacket) : View :=
  apply_view (hp_data p) (mLastSnapshotSequence v) now v.

Lemma send_all_held packets c :
  is_Some (mUdp (nc_links c)) ->
  foldl (fun c p => sendTo (hp_data p) (mUdpTarget (nc_session c)) c) c packets =
  mkNetClient (mState c) (mError c) (nc_links c) (nc_session c) (nc_latency c) (nc_view c)
    (nc_sent c ++ ((fun p => (mUdpTarget (nc_session c), hp_data p)) <$> packets)) (nc_env c).
Proof.
  intros [u Hu]. revert c Hu. induction packets as [|p packets IH]; intros c Hu; cbn [foldl].
  - rewrite app_nil_r. by destruct c.
  - rewrite IH by (by rewrite sendTo_eq). rewrite sendTo_eq, Hu. cbn.
    by rewrite <- app_assoc.
Qed.

Lemma apply_all_held now packets c :
  foldl (fun c p => applySnapshotPacket (hp_data p) (mLastSnapshotSequence (nc_view c)) now c) c
    packets = set_view (foldl (apply_held now) (nc_view c) packets) c.
Proof.
  revert c. induction packets as [|p packets IH]; intros c; cbn [foldl]; [by destruct c|].
  rewrite IH. by destruct c.
Qed.

(** Simulated latency delays packets and does nothing else to them: a
    flush sends, in the order they were held and to the server's address, the
    packets whose time has come, applies the snapshots whose time has
    come, and keeps the rest, of which the first is not due. *)
Theorem latency_keeps_order (now : double) (c : St) (Hudp : is_Some (mUdp (nc_links c))) :
  exists out outgoing inc incoming,
    mDelayedOutgoing (nc_latency c) = out ++ outgoing /\
    mDelayedIncoming (nc_latency c) = inc ++ incoming /\
    Forall (fun p => (hp_dueAt p <=? now)%f64 = true) (out ++ inc) /\
    (forall p, head outgoing = Some p \/ head incoming = Some p -> (hp_dueAt p <=? now)%f64 = false) /\
    nc_sent (flushDelayed now c) =
      nc_sent c ++ ((fun p => (mUdpTarget (nc_session c), hp_data p)) <$> out) /\
    nc_view (flushDelayed now c) = foldl (apply_held now) (nc_view c) inc /\
    mDelayedOutgoing (nc_latency (flushDelayed now c)) = outgoing /\
    mDelayedIncoming (nc_latency (flushDelayed now c)) = incoming.
Proof.
  unfold flushDelayed.
  destruct (due_spec now (mDelayedOutgoing (nc_latency c))) as (H1 & H2 & H3).
  destruct (due_spec now (mDelayedIncoming (nc_latency c))) as (H4 & H5 & H6).
  destruct (due now (mDelayedOutgoing _)) as [out outgoing], (due now (mDelayedIncoming _)) as [inc incoming].
  cbn [fst snd] in *. exists out, outgoing, inc, incoming.
  rewrite send_all_held, apply_all_held by done. split_and!; try done.
  - by apply Forall_app.
  - intros p [Hp|Hp]; auto.
Qed.

(** ** A login that meets no obstacle *)

(** A network where every call succeeds at once: names resolve by [ip_of], a
    connection to an address is answered with [script], and a UDP socket opens. *)
Record cooperative (ip_of : string -> Z) (script : Address -> list RecvResult) : Prop := {
  co_resolve host port e : (resolve (E := E) host port e).1 = Some (mkAddress (ip_of host) port);
  co_connect a e : exists tx, (tcp_connect (E := E) a e).1 = Some (mkSocket (script a) tx []);
  co_writable e : (waitWritable (E := E) 1 0 e).1 = (1, [true]);
  co_result e : (connectResult (E := E) e).1 = true;
  co_udp e : is_Some (udp_open (E := E) 0 e).1;
}.

(** What a connection delivers before it would block. *)
Definition delivers (rx : list RecvResult) (ms : list Message) : Prop :=
  Forall message_wf ms /\ exists rest, pump_loop rx [] = (true, frames ms, rest).

Lemma delivers_pump rx ms s :
  delivers rx ms -> sk_rx (ms_socket s) = rx -> ms_readBuffer s = [] ->
  Forall message_wf ms /\
  exists s', pump s = (true, s') /\ ms_readBuffer s' = frames ms.
Proof.
  intros [Hwf (rest & Hp)] Hrx Hb. split; [done|].
  unfold pump. rewrite Hrx, Hb, Hp. by eexists.
Qed.

Lemma next_frames m ms s :
  message_wf m -> ms_readBuffer s = frames (m :: ms) ->
  exists s', next s = Some (m, s') /\ ms_readBuffer s' = frames ms.
Proof.
  intros Hm Hb. unfold next. rewrite Hb, frames_cons, next_message_frame by done. by eexists.
Qed.

Lemma length_frames ms : (length ms <= length (frames ms))%nat.
Proof.
  induction ms as [|m ms IH]; [done|]. rewrite frames_cons, length_app, length_frame.
  cbn [length]. unfold kHeaderSize. lia.
Qed.

(** The messages before the login response are skipped. *)
Lemma auth_messages_skip others response later n : forall s c,
  Forall message_wf (others ++ response :: later) ->
  Forall (fun m => msg_type m <> auth_message_code LoginResponse) others ->
  msg_type response = auth_message_code LoginResponse ->
  ms_readBuffer s = frames (others ++ response :: later) -> (length others < n)%nat ->
  exists s', auth_messages n s c = onLoginResponse (msg_payload response) (with_auth (Some s') c).
Proof.
  revert n. induction others as [|m others IH]; intros n s c Hwf Ho Hr Hb Hn;
    (destruct n as [|n]; [cbn in Hn; lia|]); cbn [auth_messages].
  - apply Forall_cons in Hwf as [Hm Hwf].
    destruct (next_frames response later s) as (s' & -> & _); [done..|].
    rewrite Hr, Z.eqb_refl. by exists s'.
  - apply Forall_cons in Hwf as [Hm Hwf]. apply Forall_cons in Ho as [Hne Ho].
    destruct (next_frames m (others ++ response :: later) s) as (s' & -> & Hs'); [done..|].
    apply Z.eqb_neq in Hne. rewrite Hne. cbn [negb]. apply IH; [done..|cbn in Hn; lia].
Qed.

(** A message the client ignores. *)
Definition ignored (m : Message) : Prop :=
  match world_message_of (msg_type m) with
  | Some JoinResponse | Some Disconnect => False
  | _ => True
  end.

Lemma onWorldMessage_ignored now m c : ignored m -> onWorldMessage now m c = (true, c).
Proof. unfold ignored, onWorldMessage. by destruct (world_message_of (msg_type m)) as [[]|]. Qed.

Lemma world_messages_ignore now ms rest : forall n s c,
  Forall message_wf (ms ++ rest) -> Forall ignored ms ->
  ms_readBuffer s = frames (ms ++ rest) -> (length (ms ++ rest) <= n)%nat ->
  exists s' c', world_messages n now s c = world_messages (n - length ms) now s' c' /\
    ms_readBuffer s' = frames rest /\ forall stream, with_world stream c' = with_world stream c.
Proof.
  induction ms as [|m ms IH]; intros n s c Hwf Hi Hb Hn.
  - exists s, c. by rewrite Nat.sub_0_r.
  - destruct n as [|n]; [cbn in Hn; lia|]. cbn [world_messages].
    apply Forall_cons in Hwf as [Hm Hwf]. apply Forall_cons in Hi as [Hi1 Hi].
    destruct (next_frames m (ms ++ rest) s) as (s1 & -> & Hs1); [done..|].
    rewrite onWorldMessage_ignored by done. cbn [length Nat.sub].
    destruct (IH n s1 (with_world (Some s1) c)) as (s' & c' & H1 & H2 & H3);
      [done..|cbn in Hn; lia|].
    exists s', c'. split_and!; [done..|]. intros stream. by rewrite H3.
Qed.

Section Cooperative.
Context (ip_of : string -> Z) (script : Address -> list RecvResult).
Hypothesis Hco : cooperative ip_of script.

Lemma login_connects host port username password c :
  let c' := login host port username password c in
  mState c' = ConnectingAuth /\
  exists tx, nc_links c' =
    mkLinks None None (Some (mkSocket (script (mkAddress (ip_of host) port)) tx [])) None None.
Proof.
  cbv zeta. unfold login. rewrite call_eq, (co_resolve _ _ Hco), call_eq.
  match goal with |- context [tcp_connect ?a ?e] => destruct (co_connect _ _ Hco a e) as [tx ->] end.
  split; [done|]. by exists tx.
Qed.

Lemma connects_writable c : exists e, became_writable c = (true, set_env e c).
Proof.
  unfold became_writable. rewrite call_eq, (co_writable _ _ Hco). by eexists.
Qed.

Lemma poll_sends_login now c rx tx :
  mState c = ConnectingAuth ->
  nc_links c = mkLinks None None (Some (mkSocket rx tx [])) None None ->
  mState (poll now c) = AwaitingLogin /\
  exists s, nc_links (poll now c) = mkLinks (Some s) None None None None /\
    sk_rx (ms_socket s) = rx /\ ms_readBuffer s = [].
Proof.
  intros Hs Hl. unfold poll. cbn [mState poll_at set_held]. rewrite Hs.
  unfold poll_connecting_auth. cbn [nc_links poll_at set_held]. rewrite Hl. cbn [mPendingAuthSocket].
  destruct (connects_writable (poll_at now c)) as [e He].
  rewrite He. cbn [negb]. rewrite call_eq, (co_result _ _ Hco). cbn [negb].
  split; [done|]. cbn [nc_links set_state clear_password set_session set_links set_env poll_at set_held].
  rewrite Hl.
  eexists. split; [done|].
  match goal with |- sk_rx (ms_socket (send ?s ?t ?p)) = _ /\ _ =>
    by destruct (send_keeps_input s t p) as [-> ->] end.
Qed.

Lemma poll_takes_token now c s before payload after token worldHost worldPort reader :
  mState c = AwaitingLogin -> nc_links c = mkLinks (Some s) None None None None ->
  ms_readBuffer s = [] ->
  delivers (sk_rx (ms_socket s))
    (before ++ mkMessage (auth_message_code LoginResponse) payload :: after) ->
  Forall (fun m => msg_type m <> auth_message_code LoginResponse) before ->
  read_login (open_reader payload) =
    ((auth_result_code AuthSuccess, token, worldHost, worldPort), reader) ->
  failed reader = false ->
  mState (poll now c) = ConnectingWorld /\
  mToken (nc_session (poll now c)) = token /\ mWorldHost (nc_session (poll now c)) = worldHost /\
  exists tx, nc_links (poll now c) =
    mkLinks None None None (Some (mkSocket (script (mkAddress (ip_of worldHost) worldPort)) tx []))
      None.
Proof.
  intros Hs Hl Hb Hd Hbefore Hread Hf. unfold poll. cbn [mState poll_at set_held]. rewrite Hs.
  unfold pumpAuth. cbn [nc_links poll_at set_held]. rewrite Hl. cbn [mAuth].
  destruct (delivers_pump _ _ _ Hd eq_refl Hb) as (Hwf & s' & -> & Hb'). cbn [negb].
  edestruct (auth_messages_skip before (mkMessage (auth_message_code LoginResponse) payload) after)
    as (s'' & ->); [exact Hwf|done|done|done| |].
  { rewrite Hb'. pose proof (length_frames (before ++
      mkMessage (auth_message_code LoginResponse) payload :: after)) as Hn.
    rewrite length_app in Hn. cbn [length] in Hn. lia. }
  cbn [msg_payload]. unfold onLoginResponse. rewrite Hread, Hf.
  rewrite bool_decide_false by (intros Hne; by apply Hne).
  rewrite call_eq, (co_resolve _ _ Hco), call_eq.
  match goal with |- context [tcp_connect ?a ?e] => destruct (co_connect _ _ Hco a e) as [tx ->] end.
  split_and!; [done..|]. exists tx. cbn. by rewrite Hl.
Qed.

Lemma poll_sends_join now c rx tx :
  mState c = ConnectingWorld ->
  nc_links c = mkLinks None None None (Some (mkSocket rx tx [])) None ->
  mState (poll now c) = AwaitingJoin /\ nc_session (poll now c) = nc_session c /\
  exists s, nc_links (poll now c) = mkLinks None (Some s) None None None /\
    sk_rx (ms_socket s) = rx /\ ms_readBuffer s = [].
Proof.
  intros Hs Hl. unfold poll. cbn [mState poll_at set_held]. rewrite Hs.
  unfold poll_connecting_world. cbn [nc_links poll_at set_held]. rewrite Hl.
  cbn [mPendingWorldSocket].
  destruct (connects_writable (poll_at now c)) as [e He].
  rewrite He. cbn [negb]. rewrite call_eq, (co_result _ _ Hco). cbn [negb].
  split; [done|]. split; [done|].
  cbn [nc_links set_state with_world with_pending_world set_links set_env poll_at set_held].
  rewrite Hl.
  eexists. split; [done|].
  match goal with |- sk_rx (ms_socket (send ?s ?t ?p)) = _ /\ _ =>
    by destruct (send_keeps_input s t p) as [-> ->] end.
Qed.

Lemma world_messages_end n now s c :
  ms_readBuffer s = frames [] -> world_messages n now s c = with_world (Some s) c.
Proof. intros Hb. destruct n as [|n]; [done|]. cbn [world_messages]. unfold next. by rewrite Hb. Qed.

Lemma onJoinResponse_enters now payload c playerId udpPort name entityId reader :
  read_join (open_reader payload) =
    ((join_result_code JoinSuccess, playerId, udpPort, name, entityId), reader) ->
  failed reader = false ->
  exists c', onJoinResponse now payload c = (true, c') /\ mState c' = InWorld /\
    mPlayerId (nc_session c') = playerId /\ mOwnEntityId (nc_session c') = entityId /\
    mUsername (nc_session c') = name /\ is_Some (mUdp (nc_links c')) /\
    last (nc_sent c') = Some (mkAddress (ip_of (mWorldHost (nc_session c))) udpPort,
                              hello_packet playerId (mToken (nc_session c))).
Proof.
  intros Hread Hf. unfold onJoinResponse. rewrite Hread, Hf.
  rewrite bool_decide_false by (intros Hne; by apply Hne).
  rewrite call_eq. edestruct (co_udp _ _ Hco) as [socket ->].
  rewrite call_eq, (co_resolve _ _ Hco). eexists. split; [done|].
  unfold sendUdpHello. rewrite sendTo_eq. split_and!; try done. cbn. apply last_snoc.
Qed.

Lemma poll_enters now c s before payload after playerId udpPort name entityId reader :
  mState c = AwaitingJoin -> nc_links c = mkLinks None (Some s) None None None ->
  ms_readBuffer s = [] ->
  delivers (sk_rx (ms_socket s))
    (before ++ mkMessage (world_message_code JoinResponse) payload :: after) ->
  Forall ignored before -> Forall ignored after ->
  read_join (open_reader payload) =
    ((join_result_code JoinSuccess, playerId, udpPort, name, entityId), reader) ->
  failed reader = false ->
  let c' := poll now c in
  mState c' = InWorld /\ mPlayerId (nc_session c') = playerId /\
  mOwnEntityId (nc_session c') = entityId /\ mUsername (nc_session c') = name /\
  (mkAddress (ip_of (mWorldHost (nc_session c))) udpPort,
   hello_packet playerId (mToken (nc_session c))) ∈ nc_sent c'.
Proof.
  intros Hs Hl Hb Hd Hbefore Hafter Hread Hf. cbv zeta. unfold poll.
  cbn [mState poll_at set_held]. rewrite Hs.
  unfold pumpWorld. cbn [nc_links poll_at set_held]. rewrite Hl. cbn [mWorld].
  destruct (delivers_pump _ _ _ Hd eq_refl Hb) as (Hwf & s' & -> & Hb'). cbn [negb].
  fold (poll_at now c).
  destruct (world_messages_ignore now before
    (mkMessage (world_message_code JoinResponse) payload :: after)
    (length (ms_readBuffer s')) s' (poll_at now c)) as (s1 & c1 & -> & Hb1 & Hc1);
    [done..|rewrite Hb'; apply length_frames|].
  assert (Hn : (length before + S (length after) <= length (ms_readBuffer s'))%nat).
  { rewrite Hb'. etrans; [|apply length_frames]. by rewrite length_app. }
  destruct (length (ms_readBuffer s') - length before)%nat as [|n] eqn:En; [lia|].
  apply Forall_app in Hwf as [_ [Hm Hwf]%Forall_cons].
  destruct (next_frames _ after s1 Hm Hb1) as (s2 & Hnext & Hb2).
  cbn [world_messages]. rewrite Hnext, Hc1. unfold onWorldMessage.
  change (world_message_of _) with (Some JoinResponse). cbv beta iota.
  destruct (onJoinResponse_enters now payload (with_world (Some s2) (poll_at now c)) _ _ _ _ _
    Hread Hf) as (c2 & Hj & H1 & H2 & H3 & H4 & H5 & H6).
  cbn [msg_payload]. rewrite Hj.
  destruct (world_messages_ignore now after [] n s2 c2) as (s3 & c3 & -> & Hb3 & Hc3);
    rewrite ?app_nil_r; [done..|lia|].
  rewrite world_messages_end, Hc3 by done. cbn [mState with_world set_links].
  rewrite decide_True by done.
  destruct (quiet_stream now (with_world (Some s3) c2) H5) as [(Q1 & _ & Q3 & _) Q5].
  rewrite Q1, Q3. split_and!; [done..|].
  destruct Q5 as [tail ->]. apply elem_of_app. left. by apply last_Some_elem_of.
Qed.

End Cooperative.

(** A login that meets no obstacle ends in the world: on a network where every
    call succeeds, with an auth server that answers the login (whatever it sends
    before and after) and a world server that answers the join (with any other
    messages around it), four polls after [login] the client is in the world, as
    the player and the entity it was told, and has announced itself to the
    world's UDP port. *)
Theorem login_reaches_world (ip_of : string -> Z) (script : Address -> list RecvResult)
    (host : string) (port : Z) (username password : string) (c : St)
    (now1 now2 now3 now4 : double) (authBefore authAfter worldBefore worldAfter : list Message)
    (login_bytes join_bytes : list byte) (token worldHost : string) (worldPort : Z)
    (playerId udpPort : Z) (name : string) (entityId : Z) (reader1 reader2 : ByteReader)
    (Hco : cooperative ip_of script)
    (Hauth : delivers (script (mkAddress (ip_of host) port))
      (authBefore ++ mkMessage (auth_message_code LoginResponse) login_bytes :: authAfter))
    (Hskip : Forall (fun m => msg_type m <> auth_message_code LoginResponse) authBefore)
    (Hlogin : read_login (open_reader login_bytes) =
      ((auth_result_code AuthSuccess, token, worldHost, worldPort), reader1))
    (Hread1 : failed reader1 = false)
    (Hworld : delivers (script (mkAddress (ip_of worldHost) worldPort))
      (worldBefore ++ mkMessage (world_message_code JoinResponse) join_bytes :: worldAfter))
    (Hbefore : Forall ignored worldBefore) (Hafter : Forall ignored worldAfter)
    (Hjoin : read_join (open_reader join_bytes) =
      ((join_result_code JoinSuccess, playerId, udpPort, name, entityId), reader2))
    (Hread2 : failed reader2 = false) :
  let c' := poll now4 (poll now3 (poll now2 (poll now1
              (login host port username password c)))) in
  mState c' = InWorld /\ mPlayerId (nc_session c') = playerId /\
  mOwnEntityId (nc_session c') = entityId /\ mUsername (nc_session c') = name /\
  (mkAddress (ip_of worldHost) udpPort, hello_packet playerId token) ∈ nc_sent c'.
Proof.
  destruct (login_connects _ _ Hco host port username password c) as (S1 & tx1 & L1).
  destruct (poll_sends_login _ _ Hco now1 _ _ _ S1 L1) as (S2 & s2 & L2 & R2 & B2).
  rewrite <- R2 in Hauth.
  destruct (poll_takes_token _ _ Hco now2 _ _ _ _ _ _ _ _ _ S2 L2 B2 Hauth Hskip Hlogin Hread1)
    as (S3 & T3 & H3 & tx3 & L3).
  destruct (poll_sends_join _ _ Hco now3 _ _ _ S3 L3) as (S4 & E4 & s4 & L4 & R4 & B4).
  rewrite <- R4 in Hworld.
  pose proof (poll_enters _ _ Hco now4 _ _ _ _ _ _ _ _ _ _ S4 L4 B4 Hworld Hbefore Hafter Hjoin Hread2)
    as H. by rewrite E4, T3, H3 in H.
Qed.

End NetClientSpec.

