(* ===== verification/ClientServer.v ===== *)
(** * The client against the servers

    What one side writes is what the other reads: the requests of
    NetClient.v against the handlers of AuthServer.v and World.v, their
    answers against the client's readers, and the two datagram streams, from
    the client's controls to the server's simulation and from the simulation
    to what the client shows. *)

From Stdlib Require Import ZArith Lia Strings.Byte Strings.String Floats.SpecFloat.
From stdpp Require Import base list option gmap strings.
From S2P Require Import Prelude Float32 Platform Config ByteStream Protocol Snapshot Framing.
From S2P Require Import Address Terrain Character Simulation Ticks TcpServer DbClient Outputs.
From S2P Require Import AuthServer Console World WorldConsole WorldLoop WorldSpec WorldHistory.
From S2P Require Import WorldProperties.
From S2P Require Import Sockets NetClient NetClientSpec.
Import ByteWriter.

Open Scope Z_scope.

(** ** Requests and answers *)

#[local] Hint Resolve auth_result_fits join_result_fits version_fits : reader.
#[local] Hint Unfold wire_ok : reader.

Lemma read_two (s1 s2 : string) post :
  wire_ok s1 -> wire_ok s2 ->
  (let '(version, r) := r_u32 (open_reader ((e_u32 kProtocolVersion ++ e_string s1 ++ e_string s2) ++ post)) in
   let '(a, r) := r_string r in
   let '(b, r) := r_string r in
   (version, a, b, failed r)) = (kProtocolVersion, s1, s2, false).
Proof.
  intros H1 H2.
  assert (Hr : reads (v <-- r_u32 ;; a <-- r_string ;; b <-- r_string ;; rret (v, a, b))%reader
    (e_u32 kProtocolVersion ++ e_string s1 ++ e_string s2 ++ []) (kProtocolVersion, s1, s2)).
  { solve_reads. }
  apply (reads_open _ _ post) in Hr. rewrite app_nil_r in Hr. unfold rbind, rret in Hr.
  destruct (r_u32 _) as [v r1]. destruct (r_string r1) as [a r2]. destruct (r_string r2) as [b r3].
  by injection Hr as -> -> -> ->.
Qed.

Lemma login_request_read username password :
  wire_ok username -> wire_ok password ->
  login_fields (NetClient.login_payload username password) = Some (username, password).
Proof.
  intros H1 H2. pose proof (read_two username password [] H1 H2) as H.
  unfold NetClient.login_payload, login_fields. wire_text. rewrite app_nil_r in H.
  destruct (r_u32 _) as [v r1]. destruct (r_string r1) as [a r2]. destruct (r_string r2) as [b r3].
  by injection H as -> -> -> ->.
Qed.

Lemma join_request_read token :
  wire_ok token -> join_token (NetClient.join_payload token) = Some token.
Proof.
  intros H1. assert (Hr : reads (v <-- r_u32 ;; a <-- r_string ;; rret (v, a))%reader
    (e_u32 kProtocolVersion ++ e_string token ++ []) (kProtocolVersion, token)).
  { solve_reads. }
  apply (reads_open _ _ []) in Hr. rewrite !app_nil_r in Hr. unfold rbind, rret in Hr.
  unfold NetClient.join_payload, join_token. wire_text.
  destruct (r_u32 _) as [v r1]. destruct (r_string r1) as [a r2].
  by injection Hr as -> -> ->.
Qed.

Lemma login_response_read result token worldHost worldPort accountId level :
  wire_ok token -> wire_ok worldHost -> fits 16 worldPort -> fits 64 accountId ->
  exists r, failed r = false /\
    read_login (open_reader (AuthServer.login_payload result token worldHost worldPort accountId level))
    = ((auth_result_code result, token, worldHost, worldPort), r).
Proof.
  intros Ht Hw Hp Ha.
  assert (Hr : reads read_login
    (e_u8 (auth_result_code result) ++ e_string token ++ e_string worldHost ++ e_u16 worldPort ++
     e_u64 accountId ++ []) (auth_result_code result, token, worldHost, worldPort)).
  { unfold read_login. solve_reads. }
  unfold AuthServer.login_payload. wire_text.
  apply (reads_open _ _ (e_u8 level)) in Hr. rewrite <- !app_assoc in Hr. cbn [app] in Hr.
  rewrite Hr. eexists. by split; [|reflexivity].
Qed.

Lemma join_response_read result playerId udpPort username entityId :
  fits 64 playerId -> fits 16 udpPort -> wire_ok username -> fits 32 entityId ->
  exists r, failed r = false /\
    read_join (open_reader (World.join_payload result playerId udpPort username entityId))
    = ((join_result_code result, playerId, udpPort, username, entityId), r).
Proof.
  intros Hp Hu Hn He.
  assert (Hr : reads read_join
    (e_u8 (join_result_code result) ++ e_u64 playerId ++ e_u16 udpPort ++ e_string username ++
     e_u32 entityId ++ []) (join_result_code result, playerId, udpPort, username, entityId)).
  { unfold read_join. solve_reads. }
  unfold World.join_payload. wire_text.
  apply (reads_open _ _ []) in Hr. rewrite !app_nil_r in Hr.
  rewrite Hr. eexists. by split; [|reflexivity].
Qed.

(** The four messages of a login and a join are read as they were written:
    the auth server finds the credentials in the client's request and the
    world server the token, and the client finds in their answers the token and
    the world's address, and its player, UDP port and entity. *)
Theorem handshake_roundtrip (username password token worldHost name : string)
    (authResult : AuthResult) (joinResult : JoinResult)
    (worldPort accountId level playerId udpPort entityId : Z)
    (Htexts : Forall wire_ok [username; password; token; worldHost; name])
    (Hports : fits 16 worldPort /\ fits 16 udpPort)
    (Hids : fits 64 accountId /\ fits 64 playerId /\ fits 32 entityId) :
  login_fields (NetClient.login_payload username password) = Some (username, password) /\
  join_token (NetClient.join_payload token) = Some token /\
  (exists r, failed r = false /\
    read_login (open_reader
      (AuthServer.login_payload authResult token worldHost worldPort accountId level)) =
    ((auth_result_code authResult, token, worldHost, worldPort), r)) /\
  (exists r, failed r = false /\
    read_join (open_reader (World.join_payload joinResult playerId udpPort name entityId)) =
    ((join_result_code joinResult, playerId, udpPort, name, entityId), r)).
Proof.
  rewrite !Forall_cons in Htexts. destruct Htexts as (H1 & H2 & H3 & H4 & H5 & _).
  destruct Hports, Hids as (? & ? & ?).
  split_and!; [by apply login_request_read|by apply join_request_read
    |by apply login_response_read|by apply join_response_read].
Qed.

(** ** Datagrams to the server *)

Lemma packet_header m sequence body :
  fits 32 sequence ->
  readUdpHeader (writeUdpHeader [] (world_message_code m) sequence ++ body) =
  Some (mkUdpHeader (world_message_code m) sequence, 10%nat) /\
  drop 10 (writeUdpHeader [] (world_message_code m) sequence ++ body) = body.
Proof.
  intros Hs. split.
  - apply (readUdpHeader_write (mkUdpHeader (world_message_code m) sequence)).
    split; [|done]. destruct m; by vm_compute.
  - by rewrite writeUdpHeader_app.
Qed.

Lemma hello_read playerId token :
  fits 64 playerId -> wire_ok token ->
  hello_of (hello_packet playerId token) = Some (playerId, token).
Proof.
  intros Hp Ht. assert (Hr : reads read_hello (e_u64 playerId ++ e_string token ++ []) (playerId, token)).
  { unfold read_hello. solve_reads. }
  apply (reads_open _ _ []) in Hr. rewrite !app_nil_r in Hr.
  unfold hello_packet, hello_of. wire_text.
  destruct (packet_header ClientHello 0 (e_u64 playerId ++ e_string token)) as [-> Hd]; [done|].
  rewrite Hd, Hr. done.
Qed.

(** The input the server makes of the client's controls. *)
Definition received_input (sequence : Z) (moveForward moveRight yaw : float) (jump sprint : bool)
    : CharacterInput :=
  {| ci_sequence := sequence;
     ci_moveForward := clamp moveForward (- f32_one)%f32 f32_one;
     ci_moveRight := clamp moveRight (- f32_one)%f32 f32_one;
     ci_yaw := yaw; ci_jump := jump; ci_sprint := sprint |}.

Definition controls_ok (playerId sequence : Z) (moveForward moveRight yaw : float) : Prop :=
  fits 64 playerId /\ fits 32 sequence /\
  f32_valid moveForward = true /\ f32_valid moveRight = true /\ f32_valid yaw = true.

Lemma buttons_fits jump sprint : fits 8 (input_buttons jump sprint).
Proof. by destruct jump, sprint; vm_compute. Qed.

Lemma input_read playerId sequence moveForward moveRight yaw jump sprint :
  controls_ok playerId sequence moveForward moveRight yaw ->
  input_in (input_packet playerId sequence moveForward moveRight yaw (input_buttons jump sprint)) =
  Some (playerId, received_input sequence moveForward moveRight yaw jump sprint).
Proof.
  intros (Hp & Hs & Hf & Hr & Hy). pose proof (buttons_fits jump sprint) as Hb.
  assert (H : reads read_input (e_u64 playerId ++ e_u32 sequence ++ e_f32 moveForward ++
    e_f32 moveRight ++ e_f32 yaw ++ e_u8 (input_buttons jump sprint) ++ [])
    (playerId, received_input sequence moveForward moveRight yaw jump sprint)).
  { unfold read_input. repeat (eapply reads_bind; [solve [eauto with reader]|]).
    replace (received_input _ _ _ _ _ _) with
      {| ci_sequence := sequence;
         ci_moveForward := clamp moveForward (- f32_one)%f32 f32_one;
         ci_moveRight := clamp moveRight (- f32_one)%f32 f32_one; ci_yaw := yaw;
         ci_jump := negb (Z.land (input_buttons jump sprint) kInputJump =? 0);
         ci_sprint := negb (Z.land (input_buttons jump sprint) kInputSprint =? 0) |}
      by (by destruct jump, sprint).
    apply reads_ret. }
  apply (reads_open _ _ []) in H. rewrite !app_nil_r in H.
  unfold input_packet, input_in. wire_text.
  edestruct (packet_header ClientInput sequence) as [-> Hd]; [done|].
  rewrite Hd, H. done.
Qed.

Lemma length_input_packet playerId sequence moveForward moveRight yaw buttons :
  length (input_packet playerId sequence moveForward moveRight yaw buttons) = 35%nat.
Proof. done. Qed.

Section Streams.
Context {EC : Type} `{HApi : SocketApi EC} `{HRand : Rand EC}.
Context {EW : Type} `{HSod : Sodium EW} `{HClk : Clocks EW} `{HLibm : Libm}.

Lemma handleDatagram_input from data input id p (w : World EW) :
  findPlayerByUdp from (ro_players (w_roster w)) = Some (id, p) ->
  input_in data = Some (wp_playerId p, input) -> ln_latencyMs (w_link w) <= 0 ->
  w_simulation (handleDatagram from data w) = setInput (wp_playerId p) input (w_simulation w).
Proof.
  intros Hp Hi Hl. unfold input_in in Hi. unfold handleDatagram.
  destruct (readUdpHeader data) as [[header off]|]; [|done].
  case_bool_decide as Ht; [|done]. rewrite bool_decide_false by (by rewrite Ht).
  rewrite Hp. unfold read_clock. destruct (steady_now _) as [now e].
  unfold handleInput. destruct (read_input _) as [[claimed i] r].
  destruct (failed r); [done|]. injection Hi as -> ->. rewrite Z.eqb_refl.
  cbn [orb negb w_link update_player set_roster World.set_env].
  destruct (Z.ltb_spec 0 (ln_latencyMs (w_link w))); [lia|done].
Qed.

(** No simulated loss or latency. *)
Definition plain_link (c : NetClient EC) : Prop :=
  no_latency c /\ (f64_zero <? mFakeLoss (nc_latency c))%f64 = false.

(** C12: The controls of the player move the player: a client in the world sends
    one datagram to the world's UDP address, and the server that knows this
    address as the player's sets exactly that player's input, with the
    sequence the client's prediction gave it, the axes clamped and the yaw
    and the buttons as they are. *)
Theorem input_reaches_simulation (c : NetClient EC) (w : World EW) (from : Address)
    (id : ConnectionId) (p : WorldPlayer) (moveForward moveRight yaw : float) (jump sprint : bool)
    (sequence : Z)
    (Hin : mState c = InWorld) (Hudp : is_Some (mUdp (nc_links c))) (Hplain : plain_link c)
    (Hp : findPlayerByUdp from (ro_players (w_roster w)) = Some (id, p))
    (Hid : wp_playerId p = mPlayerId (nc_session c)) (Hlink : ln_latencyMs (w_link w) <= 0)
    (Hok : controls_ok (mPlayerId (nc_session c)) sequence moveForward moveRight yaw) :
  exists packet,
    nc_sent (sendInput moveForward moveRight yaw jump sprint sequence c) =
      nc_sent c ++ [(mUdpTarget (nc_session c), packet)] /\
    (length packet < datagram_size)%nat /\
    w_simulation (handleDatagram from packet w) =
      setInput (wp_playerId p)
        (received_input sequence moveForward moveRight yaw jump sprint) (w_simulation w).
Proof.
  exists (input_packet (mPlayerId (nc_session c)) sequence moveForward moveRight yaw
            (input_buttons jump sprint)). destruct Hplain as [Hlat Hloss].
  split_and!.
  - unfold sendInput, lose_packet. destruct Hudp as [u Hu].
    rewrite !bool_decide_false by (rewrite ?Hin, ?Hu; naive_solver). cbn [orb]. rewrite Hloss, Hlat, sendTo_eq.
    by rewrite Hu.
  - rewrite length_input_packet. unfold datagram_size. lia.
  - apply (handleDatagram_input _ _ _ id); [done| |done]. rewrite Hid. by apply input_read.
Qed.

(** ** Snapshots to the client *)

(** The most entities a client's receive buffer holds. *)
Definition kReceivableEntities : nat := 33.

Lemma snapshot_datagram s sequence :
  snapshot_packet sequence (encodeSnapshot s []) =
  writeUdpHeader [] (world_message_code SnapshotMessage) sequence ++ encodeSnapshot s [].
Proof. done. Qed.

Lemma snapshot_received s sequence n :
  fits 32 sequence ->
  snapshot_in (take (10 + n) (snapshot_packet sequence (encodeSnapshot s []))) =
  let '(ok, s') := decodeSnapshot (take n (encodeSnapshot s [])) snapshot_default in
  if ok then Some (sequence, s') else None.
Proof.
  intros Hs. rewrite snapshot_datagram.
  rewrite (take_app_add' _ _ 10) by done.
  unfold snapshot_in. edestruct (packet_header SnapshotMessage sequence) as [-> Hd]; [done|].
  by rewrite bool_decide_true, Hd by done.
Qed.

(** C13: A snapshot of the world server, sent as one datagram and received in the
    client's buffer of 2048 bytes, is seen as it was built when it has at most
    33 entities. One with more is cut and makes no difference. *)
Theorem snapshot_delivery (s : Snapshot) (sequence : Z) (now : double) (c : NetClient EC)
    (Hwf : snapshot_wf s) (Hs : fits 32 sequence)
    (Hcount : Z.of_nat (length (sn_entities s)) <= kMaxEntitiesPerSnapshot)
    (Hlatency : no_latency c) (Hnew : stale (nc_view c) sequence = false) :
  onDatagram now (take datagram_size (snapshot_packet sequence (encodeSnapshot s []))) c =
  if (length (sn_entities s) <=? kReceivableEntities)%nat
  then set_view (see now (nc_view c) (sequence, s)) c
  else c.
Proof.
  rewrite onDatagram_view by done. unfold see_datagram.
  change datagram_size with (10 + 2038)%nat. rewrite snapshot_received by done.
  pose proof (length_encodeSnapshot s) as Hl. unfold kReceivableEntities.
  destruct (Nat.leb_spec (length (sn_entities s)) 33) as [Hn|Hn].
  - rewrite take_ge by lia. rewrite <- (app_nil_r (encodeSnapshot s [])).
    rewrite decode_encoded by done. cbn [fst]. by rewrite Hnew.
  - pose proof (truncated_snapshot_rejected s snapshot_default 2038 Hwf Hcount ltac:(lia)) as Hr.
    destruct (decodeSnapshot _ _) as [ok s']. cbn [fst] in Hr. subst ok. by destruct c.
Qed.

End Streams.

(** ** A client, an auth server and a world server

    Every call succeeds; the auth server (port 7001) answers the login and the
    world server (port 7003) the join, each with a message the client ignores
    before it; three snapshots arrive out of order. *)

Definition toy_login_answer : list byte :=
  AuthServer.login_payload AuthSuccess "t" "world" 7003 5 0.

Definition toy_join_answer : list byte := World.join_payload JoinSuccess 1 7004 "alex" 1000.

Definition toy_script (a : Address) : list RecvResult :=
  if port a =? 7001 then
    [RecvBytes (frame (mkMessage 999 [x2a]) ++
                frame (mkMessage (auth_message_code LoginResponse) toy_login_answer))]
  else
    [RecvBytes (frame (mkMessage 999 []));
     RecvBytes (frame (mkMessage (world_message_code JoinResponse) toy_join_answer))].

Definition toy_snapshot (sequence : Z) : list byte :=
  snapshot_packet sequence (encodeSnapshot example_snapshot []).

Definition toy_arrivals : list RecvFromAnswer :=
  [FromPeer (mkAddress 1 7004) (toy_snapshot 5); FromPeer (mkAddress 1 7004) (toy_snapshot 3);
   FromPeer (mkAddress 1 7004) (toy_snapshot 7); RecvFromErrno true false].

(** A network on which every connection is made and delivers its script. *)
Definition scripted_api (script : Address -> list RecvResult) : SocketApi () :=
  {| sys_stream_socket := sm_ret true;
     sys_datagram_socket := sm_ret (Some (mkUdpSocket toy_arrivals));
     sys_connect a := sm_ret (ConnectErrno true false, mkSocket (script a) [] []);
     sys_so_error := sm_ret (Some 0);
     sys_bind _ := sm_ret true;
     sys_nonblocking := sm_ret true;
     sys_getaddrinfo _ := sm_ret (Some 1);
     sys_poll _ _ := sm_ret (1, [POLLOUT]) |}.

Definition toy_api : SocketApi () := scripted_api toy_script.

Definition toy_rand : Rand () := {| rand := sm_ret 7; RAND_MAX := 2147483647 |}.

#[local] Existing Instances toy_api toy_rand toy_sodium toy_clocks axis_libm.

Lemma scripted_cooperative script :
  cooperative (HApi := scripted_api script) (fun _ => 1) script.
Proof. split; try done; by eexists. Qed.

Definition toy_logged_in : NetClient () :=
  NetClient.login "auth" 7001 "alex" "secret" (new_net_client tt).

Definition toy_in_world : NetClient () :=
  poll f64_zero (poll f64_zero (poll f64_zero (poll f64_zero toy_logged_in))).

Example toy_enters :
  mState toy_in_world = InWorld /\ mPlayerId (nc_session toy_in_world) = 1 /\
  mOwnEntityId (nc_session toy_in_world) = 1000 /\
  mUsername (nc_session toy_in_world) = "alex"%string /\
  (mkAddress 1 7004, hello_packet 1 "t") ∈ nc_sent toy_in_world.
Proof.
  refine (login_reaches_world (fun _ => 1) toy_script "auth" 7001 "alex" "secret"
    (new_net_client tt) f64_zero f64_zero f64_zero f64_zero
    [mkMessage 999 [x2a]] [] [mkMessage 999 []] [] toy_login_answer toy_join_answer
    "t" "world" 7003 1 7004 "alex" 1000 _ _ (scripted_cooperative toy_script) _ _ _ _ _ _ _ _ _).
  - split; [repeat constructor; by vm_compute|]. eexists. vm_compute. reflexivity.
  - by repeat constructor.
  - vm_compute. reflexivity.
  - vm_compute. reflexivity.
  - split; [repeat constructor; by vm_compute|]. eexists. vm_compute. reflexivity.
  - by repeat constructor.
  - constructor.
  - vm_compute. reflexivity.
  - vm_compute. reflexivity.
Defined.

(** The snapshot that arrived late is the one not shown. *)
Example toy_view :
  (mSnapshotsReceived (nc_view toy_in_world), mLastSnapshotSequence (nc_view toy_in_world),
   size (mEntities (nc_view toy_in_world))) = (2, 7, 2%nat).
Proof. vm_compute. reflexivity. Qed.

(** The client of the witnesses below: in the world, before any snapshot. *)
Definition toy_client : NetClient () :=
  mkNetClient InWorld "" (mkLinks None (Some toy_stream) None None (Some (mkUdpSocket toy_arrivals)))
    (mkSession "alex" "" "t" "world" 7003 (mkAddress 1 7004) 1 1000 1)
    new_latency new_view [] tt.

(** The same client with half a second of simulated latency. *)
Definition toy_delayed : NetClient () :=
  set_held (mkLatency [] [] (lit64 1 2) f64_zero f64_zero) toy_client.

Lemma snapshots_in_order_witness :
  (exists accepted,
    accepted `sublist_of` omap snapshot_in (arriving toy_arrivals) /\
    newer (nc_view toy_client) accepted /\
    nc_view (receive_stream f64_zero toy_client) = foldl (see f64_zero) (nc_view toy_client) accepted /\
    Forall (fun s => s.1 <= mLastSnapshotSequence (nc_view (receive_stream f64_zero toy_client)))
      (omap snapshot_in (arriving toy_arrivals))) /\
  holds_back f64_zero toy_delayed (receive_stream f64_zero toy_delayed)
    (omap packet_in (arriving toy_arrivals)).
Proof.
  split.
  - refine (proj1 (snapshots_in_order f64_zero toy_client (mkUdpSocket toy_arrivals) eq_refl _ _) _).
    + vm_compute. discriminate.
    + vm_compute. reflexivity.
    + vm_compute. reflexivity.
  - refine (proj2 (snapshots_in_order f64_zero toy_delayed (mkUdpSocket toy_arrivals) eq_refl _ _) _).
    + vm_compute. discriminate.
    + vm_compute. reflexivity.
    + vm_compute. discriminate.
Defined.

(** An older snapshot, at another time of day, that arrives after a newer one. *)
Definition older_snapshot : Snapshot := mkSnapshot 3 123456589 (lit32 1 4) [].

Definition swapped_arrivals : list RecvFromAnswer :=
  [FromPeer (mkAddress 1 7004) (toy_snapshot 5);
   FromPeer (mkAddress 1 7004) (snapshot_packet 3 (encodeSnapshot older_snapshot []))].

(** Two polls of a client that has received nothing yet. With simulated latency
    the older snapshot is applied after the newer one, and the time of day and
    the sequence go back to it; without, it is dropped. *)
Lemma older_snapshot_applied :
  let run c := nc_view (poll (f64_of_Z 1) (poll f64_zero
                 (set_links (mkLinks None (Some toy_stream) None None
                   (Some (mkUdpSocket swapped_arrivals))) c))) in
  (mSnapshotsReceived (run toy_delayed), mLastSnapshotSequence (run toy_delayed),
   mTimeOfDay (run toy_delayed)) = (2, 3, sn_timeOfDay older_snapshot) /\
  (mSnapshotsReceived (run toy_client), mLastSnapshotSequence (run toy_client),
   mTimeOfDay (run toy_client)) = (1, 5, sn_timeOfDay example_snapshot).
Proof. split; vm_compute; reflexivity. Qed.

Lemma handshake_roundtrip_witness :
  login_fields (NetClient.login_payload "alex" "secret") = Some ("alex", "secret")%string /\
  join_token (NetClient.join_payload "t") = Some "t"%string /\
  (exists r, failed r = false /\
    read_login (open_reader toy_login_answer) =
    ((auth_result_code AuthSuccess, "t"%string, "world"%string, 7003), r)) /\
  (exists r, failed r = false /\
    read_join (open_reader toy_join_answer) =
    ((join_result_code JoinSuccess, 1, 7004, "alex"%string, 1000), r)).
Proof.
  apply (handshake_roundtrip "alex" "secret" "t" "world" "alex" AuthSuccess JoinSuccess
    7003 5 0 1 7004 1000).
  - repeat constructor; unfold wire_ok, kMaxStringLength; cbn; lia.
  - unfold fits. lia.
  - unfold fits. lia.
Defined.

Lemma input_reaches_simulation_witness :
  exists packet,
    nc_sent (sendInput f32_one (f32_of_Z 4) f32_zero true false 12 toy_client) =
      [(mkAddress 1 7004, packet)] /\ (length packet < datagram_size)%nat /\
    w_simulation (handleDatagram (mkAddress 9 9) packet toy_3) =
      setInput 1 (received_input 12 f32_one (f32_of_Z 4) f32_zero true false) (w_simulation toy_3).
Proof.
  refine (input_reaches_simulation toy_client toy_3 (mkAddress 9 9) 1
    (mkPlayer 1 5 "alex" "t" 1 true (mkAddress 9 9) 0 42)
    f32_one (f32_of_Z 4) f32_zero true false 12 eq_refl _ _ _ eq_refl _ _).
  - by eexists.
  - by split.
  - vm_compute. reflexivity.
  - vm_compute. discriminate.
  - unfold controls_ok, fits. split_and!; by vm_compute.
Defined.

Lemma snapshot_delivery_witness :
  onDatagram f64_zero (take datagram_size (toy_snapshot 5)) toy_client =
  set_view (see f64_zero new_view (5, example_snapshot)) toy_client.
Proof.
  refine (snapshot_delivery example_snapshot 5 f64_zero toy_client example_snapshot_wf _ _ _ _).
  - by vm_compute.
  - by vm_compute.
  - by vm_compute.
  - by vm_compute.
Defined.

(** Half a second of latency: what is held is due one poll later. *)
Definition toy_late : NetClient () :=
  sendInput f32_one f32_zero f32_zero false false 12
    (set_held (mkLatency [] [] (lit64 1 2) f64_zero f64_zero) toy_client).

Lemma latency_keeps_order_witness :
  exists out outgoing inc incoming,
    mDelayedOutgoing (nc_latency toy_late) = out ++ outgoing /\
    mDelayedIncoming (nc_latency toy_late) = inc ++ incoming /\
    Forall (fun p => (hp_dueAt p <=? f64_of_Z 1)%f64 = true) (out ++ inc) /\
    (forall p, head outgoing = Some p \/ head incoming = Some p ->
       (hp_dueAt p <=? f64_of_Z 1)%f64 = false) /\
    nc_sent (flushDelayed (f64_of_Z 1) toy_late) =
      nc_sent toy_late ++ ((fun p => (mUdpTarget (nc_session toy_late), hp_data p)) <$> out) /\
    nc_view (flushDelayed (f64_of_Z 1) toy_late) =
      foldl (apply_held (f64_of_Z 1)) (nc_view toy_late) inc /\
    mDelayedOutgoing (nc_latency (flushDelayed (f64_of_Z 1) toy_late)) = outgoing /\
    mDelayedIncoming (nc_latency (flushDelayed (f64_of_Z 1) toy_late)) = incoming.
Proof. apply (latency_keeps_order (f64_of_Z 1) toy_late). by eexists. Defined.

Example toy_latency :
  (length (nc_sent toy_late), length (mDelayedOutgoing (nc_latency toy_late)),
   length (nc_sent (flushDelayed (f64_of_Z 1) toy_late))) = (0, 1, 1)%nat.
Proof. vm_compute. reflexivity. Qed.
