(* ===== verification/EndToEnd.v ===== *)
(** * The right password gets in

    A login and a join through all four programs: the client's requests, the
    auth server's and the world server's handlers, the database server's answers
    while Postgres is up, and the responses the client reads. System.v shows that
    nobody is in the world without the password; this file, that whoever has the
    password gets in. *)

From Stdlib Require Import ZArith Lia Strings.Byte Strings.Ascii Strings.String.
From stdpp Require Import base list option gmap strings.
From S2P Require Import Prelude Float32 Platform Config Text ByteStream Protocol Framing TcpServer.
From S2P Require Import DbClient Database DbServer Outputs Correlation AuthServer.
From S2P Require Import Character Simulation World WorldConsole WorldLoop WorldSpec WorldHistory.
From S2P Require Import System Answering.
From S2P Require WorldProperties.
From S2P Require Import Address Sockets NetClient NetClientSpec ClientServer.
Import ByteWriter.

Open Scope Z_scope.

(** ** A client of the database server that is ready for a request *)

Section Ready.
Context {St : Type} {K : DbCall -> Type} `{HS : HasServer St} `{HD : HasDbClient St K}.
Context `{SD : !ServerWithDb St K}.

Record ready (d : DbClient K) : Prop := {
  ready_connected : mConnected d = true;
  ready_stream : connection_ok d;
  ready_fresh : forall n p, mPending d !! n = Some p -> n < mNextRequestId d;
  ready_next : 0 <= mNextRequestId d;
}.

Lemma ready_remove n d : ready d -> ready (remove_pending n d).
Proof.
  intros [H1 H2 H3 H4]. split; try done.
  cbn [remove_pending mPending mNextRequestId]. intros n' p [_ E]%lookup_delete_Some. by eapply H3.
Qed.

Definition asks_for (r : Request) (k : K (call_of r)) (d : DbClient K) : Message :=
  asked_message (mkAsked (mNextRequestId d) r (mkPending (call_of r) k)).

Lemma issue_ready r k d :
  ready d -> mNextRequestId d + 1 < 2 ^ 32 ->
  ready (issue r k d) /\ mNextRequestId (issue r k d) = mNextRequestId d + 1 /\
  mPending (issue r k d) !! mNextRequestId d = Some (mkPending (call_of r) k) /\
  sends d (issue r k d) [asks_for r k d].
Proof.
  intros [H1 H2 H3 H4] Hn. destruct (issue_sends r k d H1 H2) as [Hw Hc].
  destruct (issue_evolves r k d H4 Hn) as [[_ Hev] En].
  assert (Hfree : mPending d !! mNextRequestId d = None).
  { destruct (mPending d !! mNextRequestId d) eqn:E; [|done]. apply H3 in E. lia. }
  split_and!; [split; try done; try lia|done| |].
  - intros n p E. rewrite En. destruct (Hev n p E) as [E'|]; [apply H3 in E'; lia|lia].
  - unfold issue. cbn [mPending]. by rewrite Hfree, lookup_insert, decide_True.
  - split; [done|]. constructor; [apply request_message_wf|constructor].
Qed.

(** On a live connection a request is issued, whatever its callback is. *)
Lemma request_connected {CB : DbCallbacks St K} r k (st : St) :
  mConnected (db st) = true -> request (CB := CB) r k st = on_db (issue r k) st.
Proof. intros Hc. unfold request. by rewrite Hc. Qed.

Lemma sends_nil (d d' : DbClient K) : db_wire d' = db_wire d -> sends d d' [].
Proof.
  intros E. split; [|constructor]. change (frames []) with (@nil byte). by rewrite app_nil_r.
Qed.

(** The reply to the request that is waited for. *)
Lemma deliver_answer {CB : DbCallbacks St K} m n c k reply (st : St) :
  answers n m = true -> mPending (db st) !! n = Some (mkPending c k) ->
  handler_reply c true (msg_type m) (msg_payload m) = (true, reply) ->
  deliver m st = run c k true reply (on_db (remove_pending n) st).
Proof.
  intros Ha Hp Hr. unfold deliver. unfold answers in Ha. destruct (r_u32 _) as [n' r].
  apply andb_true_iff in Ha as [Hf%negb_true_iff ->%Z.eqb_eq]. by rewrite Hf, Hp, Hr.
Qed.

End Ready.

(** ** The tables of a login *)

Section Rows.
Variable lower : string -> string.

Lemma NoDup_fmap_eq {A B} (f : A -> B) l x y :
  NoDup (f <$> l) -> x ∈ l -> y ∈ l -> f x = f y -> x = y.
Proof.
  intros Hnd [i Hi]%list_elem_of_lookup_1 [j Hj]%list_elem_of_lookup_1 E.
  assert (i = j) as ->; [|congruence].
  eapply NoDup_lookup; [exact Hnd| |]; rewrite list_lookup_fmap; [by rewrite Hi|].
  rewrite Hj. cbn. by rewrite E.
Qed.

(** A stored name finds its row. *)
Lemma find_rows_of t row name :
  store_ok lower t -> row ∈ t_accounts t -> same_name lower name row = true ->
  exists rows, find_rows lower name t = row :: rows.
Proof.
  intros [[_ _ Hnames _ _ _ _] _] Hin Hname.
  assert (Hf : row ∈ find_rows lower name t) by (by apply elem_of_filter_).
  destruct (find_rows lower name t) as [|row' rows] eqn:E; [by apply not_elem_of_nil in Hf|].
  exists rows. f_equal.
  assert (Hf' : row' ∈ find_rows lower name t) by (rewrite E; left).
  apply elem_of_filter_ in Hf' as [Hname' Hin'].
  unfold same_name in Hname, Hname'. rewrite bool_decide_eq_true in Hname, Hname'.
  eapply (NoDup_fmap_eq (fun a => lower (ar_username a))); [exact Hnames|done|done|].
  cbn. congruence.
Qed.

Lemma find_app {A} (f : A -> bool) l1 l2 :
  (forall x, x ∈ l1 -> f x = false) -> List.find f (l1 ++ l2) = List.find f l2.
Proof.
  induction l1 as [|x l1 IH]; intros Hf; [done|]. cbn. rewrite Hf by left. apply IH.
  intros y Hy. apply Hf. by right.
Qed.

(** A new session is found until it expires. *)
Lemma live_created t row token expires now :
  store_ok lower t -> row ∈ t_accounts t -> token ∉ sr_token <$> t_sessions t -> now < expires ->
  live now token (do_createSession token (ar_id row) expires t) = Some row.
Proof.
  intros [[Hids _ _ _ _ _ _] _] Hin Hnew Hexp. unfold live. cbn [do_createSession t_sessions t_accounts].
  rewrite find_app.
  - cbn. rewrite bool_decide_eq_true_2 by done. rewrite (proj2 (Z.ltb_lt _ _) Hexp).
    cbn [mbind option_bind andb sr_account_id].
    destruct (List.find _ (t_accounts t)) as [row'|] eqn:E.
    + apply List.find_some in E as [Hin'%list_elem_of_In Hid%Z.eqb_eq]. f_equal.
      by eapply (NoDup_fmap_eq ar_id).
    + eapply List.find_none in E; [|by apply list_elem_of_In]. by apply Z.eqb_neq in E.
  - intros s Hs. rewrite bool_decide_eq_false_2; [done|]. intros <-.
    apply Hnew. by apply list_elem_of_fmap_2.
Qed.

End Rows.

(** ** The token *)

Lemma token_ok {Ent} `{Sodium Ent} (st : AuthServer Ent) :
  length (randombytes_buf kTokenBytes (as_entropy st)).1 = kTokenBytes ->
  let token := (generateToken st).1 in wire_ok token /\ c_str token = token.
Proof.
  intros Hlen. unfold generateToken. destruct (randombytes_buf _ _) as [raw e]. cbn [fst] in *.
  destruct (hex_of_bytes_chars raw) as [Hl Hc]. split.
  - unfold wire_ok. rewrite Hl, Hlen. unfold kTokenBytes, kMaxStringLength. lia.
  - apply c_str_id, Forall_forall. intros c Hin ->. apply Hc in Hin. unfold hex_char in Hin.
    assert (Hz : Ascii.zero ∉ list_ascii_of_string "0123456789abcdef")
      by (apply (bool_decide_unpack _); vm_compute; exact I).
    contradiction.
Qed.

(** ** Through the servers *)

Section EndToEnd.
Context {EA EW PG : Type} `{SodA : Sodium EA} `{SodW : Sodium EW} `{HClk : Clocks EW}.
Context `{HLibm : Libm} `{HAtof : Atof} `{Laws : PostgresLaws PG}.
Variable cfg : AuthConfig.
Variable udpPort : Z.
Variable up : PG -> Prop.
Variable lag : Z.
Hypothesis Hup : postgres_up up lag.

#[local] Instance e2e_auth_callback : DbCallbacks (AuthServer EA) AuthK := AuthServer.callback cfg.
#[local] Instance e2e_world_callback : DbCallbacks (World EW) WorldK := World.callback udpPort.

Abbreviation Sys := (System (EA := EA) (EW := EW) (PG := PG)).

(** Steps lead from one state to another. *)
Definition leads (events : list Event) (s s' : Sys) : Prop :=
  forall tr, system_run cfg udpPort tr s -> system_run cfg udpPort (tr ++ events) s'.

Lemma leads_step s e s' : system_step cfg udpPort s e s' -> leads [e] s s'.
Proof. intros Hs tr Hr. by eapply run_step. Qed.

Lemma leads_trans es es' s s1 s' : leads es s s1 -> leads es' s1 s' -> leads (es ++ es') s s'.
Proof. intros H1 H2 tr Hr. rewrite app_assoc. by apply H2, H1. Qed.

(** The auth server asks, is answered, and goes on. *)
Lemma leads_auth_asks (s : Sys) l st ms :
  match l with Some (AuthServer.LReply _ _ _ _) => False | _ => True end ->
  AuthServer.handler_step cfg (sy_auth s) l st -> sends (db (sy_auth s)) (db st) ms ->
  leads [EAuth l] s (mkSystem st (post ms (sy_authLink s)) (sy_world s) (sy_worldLink s) (sy_data s)).
Proof.
  intros Hl Hs Hms. apply leads_step. by eapply system_auth, auth_acts.
Qed.

Lemma leads_auth_takes (s : Sys) m ms :
  ch_down (sy_authLink s) = [m] -> sends (db (sy_auth s)) (db (deliver m (sy_auth s))) ms ->
  leads [EAuth (auth_reply m (sy_auth s))] s (mkSystem (deliver m (sy_auth s))
    (post ms (mkChannel (ch_up (sy_authLink s)) (ch_lost (sy_authLink s)) []))
    (sy_world s) (sy_worldLink s) (sy_data s)).
Proof.
  intros Hd Hms. apply leads_step. by eapply system_auth, auth_takes.
Qed.

Lemma leads_auth_answer (s : Sys) m reply data :
  ch_up (sy_authLink s) = [m] ->
  handleMessage (msg_type m) (msg_payload m) (sy_data s) = (Some reply, data) ->
  leads [EData (served_event (sy_data s) data)] s (mkSystem (sy_auth s)
    (mkChannel [] (ch_lost (sy_authLink s)) (ch_down (sy_authLink s) ++ [reply]))
    (sy_world s) (sy_worldLink s) data).
Proof.
  intros Hu Hh. apply leads_step.
  eapply system_data_auth. by eapply (data_answers _ _ m [] (Some reply)).
Qed.

Lemma leads_world_asks (s : Sys) l w ms :
  match l with Some (WorldSpec.LReply _ _ _ _) => False | _ => True end ->
  WorldHistory.handler_step udpPort (sy_world s) l w -> sends (db (sy_world s)) (db w) ms ->
  leads [EWorld l] s (mkSystem (sy_auth s) (sy_authLink s) w (post ms (sy_worldLink s)) (sy_data s)).
Proof.
  intros Hl Hs Hms. apply leads_step. by eapply system_world, world_acts.
Qed.

Lemma leads_world_takes (s : Sys) m ms :
  ch_down (sy_worldLink s) = [m] -> sends (db (sy_world s)) (db (deliver m (sy_world s))) ms ->
  leads [EWorld (world_reply m (sy_world s))] s (mkSystem (sy_auth s) (sy_authLink s) (deliver m (sy_world s))
    (post ms (mkChannel (ch_up (sy_worldLink s)) (ch_lost (sy_worldLink s)) [])) (sy_data s)).
Proof.
  intros Hd Hms. apply leads_step. by eapply system_world, world_takes.
Qed.

Lemma leads_world_answer (s : Sys) m reply data :
  ch_up (sy_worldLink s) = [m] ->
  handleMessage (msg_type m) (msg_payload m) (sy_data s) = (Some reply, data) ->
  leads [EData (served_event (sy_data s) data)] s (mkSystem (sy_auth s) (sy_authLink s) (sy_world s)
    (mkChannel [] (ch_lost (sy_worldLink s)) (ch_down (sy_worldLink s) ++ [reply])) data).
Proof.
  intros Hu Hh. apply leads_step.
  eapply system_data_world. by eapply (data_answers _ _ m [] (Some reply)).
Qed.

(** A request on its way, its answer and the callback. *)
Lemma auth_exchange (s : Sys) n r (k : AuthK (call_of r)) reply ms data :
  ch_up (sy_authLink s) = [asked_message (mkAsked n r (mkPending (call_of r) k))] ->
  ch_down (sy_authLink s) = [] ->
  mPending (db (sy_auth s)) !! n = Some (mkPending (call_of r) k) ->
  answers_with n r reply (sy_data s) data ->
  let st := run (call_of r) k true reply (on_db (remove_pending n) (sy_auth s)) in
  sends (db (sy_auth s)) (db st) ms ->
  exists e1 e2, leads [e1; e2] s (mkSystem st (mkChannel ms (ch_lost (sy_authLink s)) []) (sy_world s) (sy_worldLink s)
    data).
Proof.
  intros Hu Hd Hp (m & Hm & Ha & Hr) st Hms.
  assert (Est : deliver m (sy_auth s) = st) by (by eapply deliver_answer).
  do 2 eexists. apply (leads_trans [_] [_] _ _ _ (leads_auth_answer s _ m data Hu Hm)). rewrite Hd, <- Est in *.
  exact (leads_auth_takes (mkSystem (sy_auth s) (mkChannel [] (ch_lost (sy_authLink s)) [m])
    (sy_world s) (sy_worldLink s) data) m ms eq_refl Hms).
Qed.

Lemma world_exchange (s : Sys) n r (k : WorldK (call_of r)) reply ms data :
  ch_up (sy_worldLink s) = [asked_message (mkAsked n r (mkPending (call_of r) k))] ->
  ch_down (sy_worldLink s) = [] ->
  mPending (db (sy_world s)) !! n = Some (mkPending (call_of r) k) ->
  answers_with n r reply (sy_data s) data ->
  let w := run (call_of r) k true reply (on_db (remove_pending n) (sy_world s)) in
  sends (db (sy_world s)) (db w) ms ->
  exists e1 e2, leads [e1; e2] s (mkSystem (sy_auth s) (sy_authLink s) w (mkChannel ms (ch_lost (sy_worldLink s)) [])
    data).
Proof.
  intros Hu Hd Hp (m & Hm & Ha & Hr) w Hms.
  assert (Ew : deliver m (sy_world s) = w) by (by eapply deliver_answer).
  do 2 eexists. apply (leads_trans [_] [_] _ _ _ (leads_world_answer s _ m data Hu Hm)). rewrite Hd, <- Ew in *.
  exact (leads_world_takes (mkSystem (sy_auth s) (sy_authLink s) (sy_world s)
    (mkChannel [] (ch_lost (sy_worldLink s)) [m]) data) m ms eq_refl Hms).
Qed.

Lemma onMessage_login id data u p (st : AuthServer EA) :
  login_fields data = Some (u, p) -> mConnected (db st) = true ->
  AuthServer.onMessage cfg id (auth_message_code LoginRequest) data st =
  on_db (issue (ReqLookupAccount u) (KLoginLookup id p u)) st.
Proof.
  intros Hf Hc. unfold AuthServer.onMessage. change (auth_message_of _) with (Some LoginRequest).
  cbv beta iota. unfold handleLogin. unfold login_fields in Hf.
  destruct (r_u32 _) as [version r]. destruct (r_string r) as [u' r1]. destruct (r_string r1) as [p' r2].
  destruct (failed r2); [done|]. destruct (version =? kProtocolVersion); [|done].
  cbn [negb orb] in *. injection Hf as -> ->. by apply request_connected.
Qed.

Lemma onMessage_join id data token (w : World EW) :
  join_token data = Some token -> mConnected (db w) = true ->
  ro_players (w_roster w) !! id = None ->
  World.onMessage udpPort id (world_message_code JoinRequest) data w =
  on_db (issue (ReqLookupSession token) (KJoin id token)) w.
Proof.
  intros Hf Hc Hnew. unfold World.onMessage. change (world_message_of _) with (Some JoinRequest).
  cbv beta iota. unfold handleJoin. unfold join_token in Hf.
  destruct (r_u32 _) as [version r]. destruct (r_string r) as [t r1].
  destruct (failed r1); [done|]. destruct (version =? kProtocolVersion); [|done].
  cbn [negb orb] in *. injection Hf as ->. rewrite bool_decide_eq_false_2.
  - by apply request_connected.
  - rewrite Hnew. by intros [].
Qed.

(** ** The login *)

Section Login.
Variables (s : Sys) (a : ConnectionId) (u p : string) (row : AccountRow).
Let st := sy_auth s.
Let token := (generateToken st).1.

Hypothesis Hready : ready (db st).
Hypothesis Hnext : mNextRequestId (db st) + 2 < 2 ^ 32.
Hypothesis Hquiet : ch_up (sy_authLink s) = [] /\ ch_down (sy_authLink s) = [].
Hypothesis Hserving : serving up (sy_data s).
Hypothesis Hok : store_ok lower (tables_of (sy_data s)).
Hypothesis Hrow : row ∈ t_accounts (tables_of (sy_data s)).
Hypothesis Hname : same_name lower (c_str u) row = true.
Hypothesis Hpassword : verifyPassword (Ent := EA) (ar_password_hash row) p = true.
Hypothesis Hwire : wire_ok u /\ wire_ok p.
Hypothesis Httl : fits 32 (cfg_sessionTtl cfg).
Hypothesis Hrandom : length (randombytes_buf kTokenBytes (as_entropy st)).1 = kTokenBytes.
Hypothesis Hnew : token ∉ sr_token <$> t_sessions (tables_of (sy_data s)).

Let k1 : AuthK CallLookupAccount := KLoginLookup a p u.
Let r1 := ReqLookupAccount u.
Let k2 : AuthK CallCreateSession := KLoginSession a token u (ar_id row) (ar_permission_level row).
Let r2 := ReqCreateSession (ar_id row) token (cfg_sessionTtl cfg).
Let n := mNextRequestId (db st).
Let asks_in : Event := EAuth (Some
  (AuthServer.LMessage a (auth_message_code LoginRequest) (NetClient.login_payload u p))).

Let st1 : AuthServer EA := on_db (issue r1 k1) st.

Lemma login_asked :
  leads [asks_in] s (mkSystem st1 (mkChannel [asks_for r1 k1 (db st)] (ch_lost (sy_authLink s)) [])
    (sy_world s) (sy_worldLink s) (sy_data s)).
Proof.
  destruct (issue_ready r1 k1 (db st) Hready) as (_ & _ & _ & Hs); [fold n; lia|].
  destruct Hquiet as [Hu Hd], Hwire as [Hwu Hwp].
  pose proof (leads_auth_asks s (Some (AuthServer.LMessage a (auth_message_code LoginRequest)
    (NetClient.login_payload u p))) st1 [asks_for r1 k1 (db st)] I) as Hl.
  unfold post in Hl. rewrite Hu, Hd in Hl. apply Hl; clear Hl; [|exact Hs].
  assert (E : AuthServer.onMessage cfg a (auth_message_code LoginRequest)
    (NetClient.login_payload u p) st = st1).
  { apply onMessage_login; [by apply login_request_read|apply Hready]. }
  rewrite <- E. constructor.
Qed.

Lemma login_found :
  run CallLookupAccount k1 true (account_reply [row]) (on_db (remove_pending n) st1) =
  on_db (issue r2 k2) (mkAuth (as_server st) (remove_pending n (issue r1 k1 (as_db st)))
    (as_entropy (generateToken st).2)).
Proof.
  unfold run, st1, e2e_auth_callback, AuthServer.callback. cbn [k1 AuthServer.onLoginLookup].
  unfold k1, onLoginLookup. cbn [account_reply al_found al_passwordHash negb].
  rewrite Hpassword. cbn [orb negb].
  unfold k2, r2, token, generateToken. cbn [as_entropy on_db set_db auth_has_db].
  destruct (randombytes_buf _ _) as [raw e]. cbn [fst].
  unfold DbClient.createSession. rewrite request_connected; [|cbn; apply Hready].
  reflexivity.
Qed.

Let d1 := remove_pending n (issue r1 k1 (as_db st)).
Let st2 : AuthServer EA :=
  on_db (issue r2 k2) (mkAuth (as_server st) d1 (as_entropy (generateToken st).2)).

Lemma login_id : fits 32 n /\ fits 32 (n + 1).
Proof. unfold fits, n. pose proof (ready_next _ Hready). lia. Qed.

Lemma login_d1 : ready d1 /\ mNextRequestId d1 = n + 1.
Proof.
  destruct (issue_ready r1 k1 (db st) Hready) as (Hr & En & _ & _); [fold n; lia|].
  split; [by apply ready_remove|exact En].
Qed.

Lemma login_looked_up :
  exists e1 e2 data, leads [asks_in; e1; e2] s (mkSystem st2 (mkChannel [asks_for r2 k2 d1] (ch_lost (sy_authLink s)) [])
      (sy_world s) (sy_worldLink s) data) /\
    tables_of data = tables_of (sy_data s) /\ soon up lag (sy_data s) data.
Proof.
  destruct (find_rows_of lower _ row _ Hok Hrow Hname) as [rows Hfind].
  destruct login_id as [Hn Hn1], login_d1 as [Hd1 En1].
  destruct (lookup_answered up lag Hup n u row rows (sy_data s) Hserving Hok (proj1 Hwire) Hn Hfind)
    as (data & Ha & Hc).
  destruct (issue_ready r1 k1 (db st) Hready) as (_ & _ & Hp & _); [fold n; lia|].
  destruct (issue_ready r2 k2 d1 Hd1) as (_ & _ & _ & Hs); [rewrite En1; lia|].
  pose proof (auth_exchange (mkSystem st1 (mkChannel [asks_for r1 k1 (db st)]
      (ch_lost (sy_authLink s)) []) (sy_world s) (sy_worldLink s) (sy_data s))
    n r1 k1 (account_reply [row]) [asks_for r2 k2 d1] data eq_refl eq_refl Hp Ha) as Hl.
  cbv zeta in Hl. cbn [sy_auth sy_authLink sy_world sy_worldLink ch_lost] in Hl.
  change (call_of r1) with CallLookupAccount in Hl. rewrite login_found in Hl.
  destruct (Hl Hs) as (e1 & e2 & Hl2). exists e1, e2, data. split; [|exact Hc].
  exact (leads_trans [_] [_; _] _ _ _ login_asked Hl2).
Qed.

(** The login ends with the token's session and the response. *)
Lemma auth_lets_in :
  exists e1 e2 e3 e4 s', leads [asks_in; e1; e2; e3; e4] s s' /\
    server (sy_auth s') = server_send a (auth_message_code LoginResponse)
      (AuthServer.login_payload AuthSuccess token (cfg_worldHost cfg) (cfg_worldPort cfg)
        (ar_id row) (ar_permission_level row)) (server st) /\
    sy_world s' = sy_world s /\ sy_worldLink s' = sy_worldLink s /\ serving up (sy_data s') /\
    exists now, Database.clock_of (sy_data s) <= now /\
      Database.clock_of (sy_data s') <= Database.clock_of (sy_data s) + 3 * lag /\
      tables_of (sy_data s') = do_createSession token (ar_id row)
        (now + cfg_sessionTtl cfg * 10 ^ 6) (tables_of (sy_data s)).
Proof.
  destruct login_looked_up as (e1 & e2 & data1 & Hl & Ht1 & Hserv1 & Hc1).
  destruct login_id as [Hn Hn1], login_d1 as [Hd1 En1], (token_ok st Hrandom) as [Hwt Hct].
  destruct (issue_ready r2 k2 d1 Hd1) as (_ & _ & Hp & _); [rewrite En1; lia|]. rewrite En1 in Hp.
  destruct (session_answered up lag Hup (n + 1) (ar_id row) token (cfg_sessionTtl cfg) data1 Hserv1)
    as (data2 & now & Ha & Hnow & Ht2 & Hserv2 & Hc2); rewrite ?Ht1; try done.
  - split; [by eapply row_fits|done].
  - by apply list_elem_of_fmap_2.
  - fold token in Hct. by rewrite Hct.
  - pose proof (auth_exchange (mkSystem st2 (mkChannel [asks_for r2 k2 d1]
        (ch_lost (sy_authLink s)) []) (sy_world s) (sy_worldLink s) data1)
      (n + 1) r2 k2 (Some DbOk) [] data2) as Hl2.
    cbn [sy_auth sy_authLink sy_world sy_worldLink sy_data ch_up ch_down ch_lost] in Hl2.
    unfold asks_for in Hl, Hl2. rewrite En1 in Hl, Hl2. specialize (Hl2 eq_refl eq_refl Hp Ha).
    destruct Hl2 as (e3 & e4 & Hl2); [by apply sends_nil|]. exists e1, e2, e3, e4. eexists.
    split; [exact (leads_trans [_; _; _] [_; _] _ _ _ Hl Hl2)|].
    split; [reflexivity|]. split; [reflexivity|]. split; [reflexivity|]. split; [exact Hserv2|].
    exists now. cbn [sy_data]. split_and!; [lia|lia|]. fold token in Hct. by rewrite Hct, Ht1 in Ht2.
Qed.

End Login.

(** ** The join *)

Section Join.
Variables (s : Sys) (b : ConnectionId) (token : string) (row : AccountRow).
Let w := sy_world s.
Let m := mNextRequestId (db w).
Let playerId := ro_next (w_roster w).
Let entityId := sim_nextPlayerEntityId (w_simulation w).

Hypothesis Hready : ready (db w).
Hypothesis Hnext : mNextRequestId (db w) + 2 < 2 ^ 32.
Hypothesis Hquiet : ch_up (sy_worldLink s) = [] /\ ch_down (sy_worldLink s) = [].
Hypothesis Hserving : serving up (sy_data s).
Hypothesis Hok : store_ok lower (tables_of (sy_data s)).
Hypothesis Htoken : wire_ok token /\ c_str token = token.
Hypothesis Hplayer : ro_players (w_roster w) !! b = None.
Hypothesis Hbody : sim_players (w_simulation w) !! playerId = None.
Hypothesis Hlive : forall now, Database.clock_of (sy_data s) <= now <=
    Database.clock_of (sy_data s) + lag -> live now token (tables_of (sy_data s)) = Some row.

Let k : WorldK CallLookupSession := KJoin b token.
Let r := ReqLookupSession token.
Let w1 : World EW := on_db (issue r k) w.
Let asks_in : Event := EWorld (Some
  (WorldSpec.LMessage b (world_message_code JoinRequest) (NetClient.join_payload token))).

Lemma join_asked :
  leads [asks_in] s (mkSystem (sy_auth s) (sy_authLink s) w1
    (mkChannel [asks_for r k (db w)] (ch_lost (sy_worldLink s)) []) (sy_data s)).
Proof.
  destruct (issue_ready r k (db w) Hready) as (_ & _ & _ & Hs); [fold m; lia|].
  destruct Hquiet as [Hu Hd].
  pose proof (leads_world_asks s (Some (WorldSpec.LMessage b (world_message_code JoinRequest)
    (NetClient.join_payload token))) w1 [asks_for r k (db w)] I) as Hl.
  unfold post in Hl. rewrite Hu, Hd in Hl. apply Hl; clear Hl; [|exact Hs].
  assert (E : World.onMessage udpPort b (world_message_code JoinRequest)
    (NetClient.join_payload token) w = w1).
  { apply onMessage_join; [apply join_request_read, Htoken|apply Hready|done]. }
  rewrite <- E. constructor.
Qed.

(** The join ends with a player in the world and the response. *)
Lemma world_lets_in :
  exists e1 e2 s', leads [asks_in; e1; e2] s s' /\ sy_auth s' = sy_auth s /\
    (exists now, ro_players (w_roster (sy_world s')) !! b =
      Some (mkPlayer playerId (ar_id row) (ar_username row) token b false default_address 0 now)) /\
    (exists body, sim_players (w_simulation (sy_world s')) !! playerId = Some body /\
      sp_entityId body = entityId) /\
    server (sy_world s') = server_send b (world_message_code JoinResponse)
      (World.join_payload JoinSuccess playerId udpPort (ar_username row) entityId) (server w).
Proof.
  destruct (issue_ready r k (db w) Hready) as (Hr1 & En1 & Hp & _); [fold m; lia|].
  assert (Hm : fits 32 m) by (unfold fits, m; pose proof (ready_next _ Hready); lia).
  destruct (token_answered up lag Hup m token row (sy_data s) Hserving Hok (proj1 Htoken) Hm)
    as (data & Ha & _ & _); [by rewrite (proj2 Htoken)|].
  set (w0 := on_db (remove_pending m) w1 : World EW).
  destruct (WorldProperties.join_admits udpPort b token (DbServer.session_reply (Some row)) w0 eq_refl Hplayer
    Hbody (ready_connected _ Hr1)) as (Hpl & _ & Hb & Hsv & Hdb).
  destruct (issue_ready (ReqDeleteSession token) KRedeemed (remove_pending m (issue r k (db w)))
    (ready_remove m _ Hr1)) as (_ & _ & _ & Hs).
  { cbn [remove_pending mNextRequestId]. rewrite En1. lia. }
  pose proof (world_exchange (mkSystem (sy_auth s) (sy_authLink s) w1
      (mkChannel [asks_for r k (db w)] (ch_lost (sy_worldLink s)) []) (sy_data s))
    m r k (DbServer.session_reply (Some row)) [asks_for (ReqDeleteSession token) KRedeemed (db w0)]
    data eq_refl eq_refl Hp Ha) as Hl.
  destruct Hl as (e1 & e2 & Hl).
  - change (sends (remove_pending m (issue r k (db w)))
      (db (onJoinLookup udpPort b token true (DbServer.session_reply (Some row)) w0))
      [asks_for (ReqDeleteSession token) KRedeemed (remove_pending m (issue r k (db w)))]).
    rewrite Hdb. exact Hs.
  - exists e1, e2. eexists. split; [exact (leads_trans [_] [_; _] _ _ _ join_asked Hl)|].
    split; [reflexivity|]. split; [exact Hpl|]. split; [exact Hb|exact Hsv].
Qed.

End Join.

(** ** What every run guarantees *)

Lemma linked_ready {K} ev (qs : list (Asked K)) d ch :
  linked ev qs d ch -> mConnected d = true ->
  ready d /\ mNextRequestId d = 1 + Z.of_nat (length qs).
Proof.
  intros Hl Hc. pose proof (linked_next _ _ _ _ Hl) as En. split; [|done].
  split; [done|apply Hl| |lia].
  intros n p (q & Hq & <- & _)%(linked_pending _ _ _ _ Hl). by apply (linked_ids _ _ _ _ Hl).
Qed.

Lemma joins_bounded tr : joins (world_labels tr) <= Z.of_nat (length tr).
Proof.
  unfold joins, world_labels. pose proof (filter_length_le is_join (omap world_label tr)) as Hf.
  assert (Ho : (length (omap world_label tr) <= length tr)%nat).
  { clear Hf. induction tr as [|e tr IH]; [done|]. cbn. destruct (world_label e); cbn; lia. }
  lia.
Qed.

(** The world has a free player id and a free entity. *)
Lemma world_has_room tr (s : Sys) :
  system_run cfg udpPort tr s -> Z.of_nat (length tr) + kFirstPlayerEntityId < 2 ^ 32 ->
  let playerId := ro_next (w_roster (sy_world s)) in
  sim_players (w_simulation (sy_world s)) !! playerId = None /\ fits 64 playerId /\
  fits 32 (sim_nextPlayerEntityId (w_simulation (sy_world s))).
Proof.
  intros Hrun Hb. destruct (system_run_inv cfg udpPort tr s Hrun) as (_ & qw & _ & (_ & Hh & _) & _).
  { unfold kFirstPlayerEntityId in Hb. lia. }
  pose proof (joins_bounded tr) as Hj.
  destruct (core_history_ok _ _ (history_core udpPort _ _ Hh) ltac:(lia))
    as ((_ & Hc & Hbody & Hsim & _) & Hn & He).
  cbn [core c_simulation c_roster] in *. unfold kFirstPlayerEntityId in *. cbv zeta.
  split_and!; [|unfold fits; lia|unfold fits; lia].
  apply eq_None_not_Some. intros [id Hid]%Hbody. apply Hc in Hid. lia.
Qed.

(** ** The four programs *)

(** The servers' answers to a login and a join that succeed. *)
Definition login_answer (st : AuthServer EA) (row : AccountRow) : list byte :=
  AuthServer.login_payload AuthSuccess (generateToken st).1 (cfg_worldHost cfg)
    (cfg_worldPort cfg) (ar_id row) (ar_permission_level row).

Definition join_answer (w : World EW) (row : AccountRow) : list byte :=
  World.join_payload JoinSuccess (ro_next (w_roster w)) udpPort (ar_username row)
    (sim_nextPlayerEntityId (w_simulation w)).

(** A link with nothing on its way, to a server that considers it connected. *)
Definition calm {K} (d : DbClient K) (ch : Channel) : Prop :=
  mConnected d = true /\ ch_up ch = [] /\ ch_down ch = [].

(** Everything is in place for [row]'s owner: the links work, Postgres is up, the
    name and the password are the stored ones, a token lives longer than four
    answers of Postgres take and its random bytes are new. *)
Record may_enter (s : Sys) (b : ConnectionId) (u p : string) (row : AccountRow) : Prop := {
  me_auth : calm (db (sy_auth s)) (sy_authLink s);
  me_world : calm (db (sy_world s)) (sy_worldLink s);
  me_serving : serving up (sy_data s);
  me_row : row ∈ t_accounts (tables_of (sy_data s));
  me_name : same_name lower (c_str u) row = true;
  me_password : verifyPassword (Ent := EA) (ar_password_hash row) p = true;
  me_wire : wire_ok u /\ wire_ok p;
  me_ttl : fits 32 (cfg_sessionTtl cfg) /\ 4 * lag < cfg_sessionTtl cfg * 10 ^ 6;
  me_random : length (randombytes_buf kTokenBytes (as_entropy (sy_auth s))).1 = kTokenBytes;
  me_new : (generateToken (sy_auth s)).1 ∉ sr_token <$> t_sessions (tables_of (sy_data s));
  me_player : ro_players (w_roster (sy_world s)) !! b = None;
}.

(** The servers let the account in. *)
Lemma servers_let_in tr (s : Sys) (a b : ConnectionId) (u p : string) (row : AccountRow)
    (Hrun : system_run cfg udpPort tr s)
    (Hlen : Z.of_nat (length tr) + kFirstPlayerEntityId < 2 ^ 32)
    (Hin : may_enter s b u p row) :
  let token := (generateToken (sy_auth s)).1 in
  let playerId := ro_next (w_roster (sy_world s)) in
  exists e1 e2 e3 e4 e5 e6 (s' : Sys),
    system_run cfg udpPort (tr ++
      [EAuth (Some (AuthServer.LMessage a (auth_message_code LoginRequest)
         (NetClient.login_payload u p))); e1; e2; e3; e4;
       EWorld (Some (WorldSpec.LMessage b (world_message_code JoinRequest)
         (NetClient.join_payload token))); e5; e6]) s' /\
    (exists now, ro_players (w_roster (sy_world s')) !! b =
      Some (mkPlayer playerId (ar_id row) (ar_username row) token b false default_address 0 now)) /\
    (exists body, sim_players (w_simulation (sy_world s')) !! playerId = Some body /\
      sp_entityId body = sim_nextPlayerEntityId (w_simulation (sy_world s))) /\
    server (sy_auth s') = server_send a (auth_message_code LoginResponse)
      (login_answer (sy_auth s) row) (server (sy_auth s)) /\
    server (sy_world s') = server_send b (world_message_code JoinResponse)
      (join_answer (sy_world s) row) (server (sy_world s)).
Proof.
  cbv zeta. destruct Hin as [Hauth Hworld Hserving Hrow Hname Hpassword Hwire Httl Hrandom Hnew Hplayer].
  destruct (system_run_inv cfg udpPort tr s Hrun)
    as (qa & qw & (Hla & _) & (Hlw & _) & Hqs & Hok & _); [unfold kFirstPlayerEntityId in Hlen; lia|].
  destruct (world_has_room tr s Hrun Hlen) as (Hbody & _). unfold kFirstPlayerEntityId in Hlen.
  destruct (linked_ready _ _ _ _ Hla (proj1 Hauth)) as [Hra Hna].
  destruct (linked_ready _ _ _ _ Hlw (proj1 Hworld)) as [Hrw Hnw].
  destruct (auth_lets_in s a u p row Hra ltac:(rewrite Hna; lia) (proj2 Hauth) Hserving Hok Hrow Hname
    Hpassword Hwire (proj1 Httl) Hrandom Hnew)
    as (e1 & e2 & e3 & e4 & s1 & Hl1 & Hsv & Ew & Ewl & Hserv1 & now & Hnow & Hck & Ht).
  pose proof (Hl1 tr Hrun) as Hrun1.
  destruct (system_run_inv cfg udpPort _ s1 Hrun1) as (_ & _ & _ & _ & _ & Hok1 & _).
  { rewrite length_app. cbn [length]. lia. }
  destruct (token_ok (sy_auth s) Hrandom) as [Hwt Hct].
  destruct (world_lets_in s1 b (generateToken (sy_auth s)).1 row) as
    (e5 & e6 & s2 & Hl2 & Eauth & Hpl & Hb & Hsw); rewrite ?Ew, ?Ewl; try done.
  - rewrite Hnw. lia.
  - apply Hworld.
  - intros now' Hnow'. rewrite Ht. eapply live_created; [done|done|exact Hnew|lia].
  - rewrite Ew in Hpl, Hb, Hsw. exists e1, e2, e3, e4, e5, e6, s2.
    split; [|split; [exact Hpl|split; [exact Hb|split; [by rewrite Eauth|exact Hsw]]]].
    apply Hl2 in Hrun1. by rewrite <- app_assoc in Hrun1.
Qed.

Section Client.
Context {E : Type} `{HApi : SocketApi E} `{HRand : Rand E}.

(** What a server sends a client, other messages around it. *)
Definition auth_tells (rx : list RecvResult) (answer : list byte) : Prop :=
  exists before after,
    delivers rx (before ++ mkMessage (auth_message_code LoginResponse) answer :: after) /\
    Forall (fun m => msg_type m <> auth_message_code LoginResponse) before.

Definition world_tells (rx : list RecvResult) (answer : list byte) : Prop :=
  exists before after,
    delivers rx (before ++ mkMessage (world_message_code JoinResponse) answer :: after) /\
    Forall ignored before /\ Forall ignored after.

(** C2: The right password gets in. In every run of the three servers in which the
    two services and their links to the database are idle, Postgres is up and
    holds an account, and the name and password a client enters are those of the
    account: eight more steps, in which the auth server hears the client's login
    and the world server its join, let the account in. There is a player of that
    account and name on the connection, with a body of its own; the two servers
    send the answers [login_answer] and [join_answer]; and the client, on a
    network where every call succeeds and that delivers these answers, whatever
    else the servers send around them, is in the world four polls after [login],
    as that player and that entity, and has announced itself to the world's UDP
    port with the token. *)
Theorem right_password_gets_in tr (s : Sys) (a b : ConnectionId) (u p : string) (row : AccountRow)
    (ip_of : string -> Z) (script : Address -> list RecvResult) (host : string) (port : Z)
    (c : NetClient E) (now1 now2 now3 now4 : double)
    (Hrun : system_run cfg udpPort tr s)
    (Hlen : Z.of_nat (length tr) + kFirstPlayerEntityId < 2 ^ 32)
    (Hin : may_enter s b u p row)
    (Hports : fits 16 (cfg_worldPort cfg) /\ fits 16 udpPort /\ wire_ok (cfg_worldHost cfg))
    (Hco : cooperative (E := E) ip_of script)
    (Hauth : auth_tells (script (mkAddress (ip_of host) port)) (login_answer (sy_auth s) row))
    (Hworld : world_tells (script (mkAddress (ip_of (cfg_worldHost cfg)) (cfg_worldPort cfg)))
      (join_answer (sy_world s) row)) :
  let token := (generateToken (sy_auth s)).1 in
  let playerId := ro_next (w_roster (sy_world s)) in
  let entityId := sim_nextPlayerEntityId (w_simulation (sy_world s)) in
  (exists e1 e2 e3 e4 e5 e6 (s' : Sys),
    system_run cfg udpPort (tr ++
      [EAuth (Some (AuthServer.LMessage a (auth_message_code LoginRequest)
         (NetClient.login_payload u p))); e1; e2; e3; e4;
       EWorld (Some (WorldSpec.LMessage b (world_message_code JoinRequest)
         (NetClient.join_payload token))); e5; e6]) s' /\
    (exists now, ro_players (w_roster (sy_world s')) !! b =
      Some (mkPlayer playerId (ar_id row) (ar_username row) token b false default_address 0 now)) /\
    (exists body, sim_players (w_simulation (sy_world s')) !! playerId = Some body /\
      sp_entityId body = entityId) /\
    server (sy_auth s') = server_send a (auth_message_code LoginResponse)
      (login_answer (sy_auth s) row) (server (sy_auth s)) /\
    server (sy_world s') = server_send b (world_message_code JoinResponse)
      (join_answer (sy_world s) row) (server (sy_world s))) /\
  let c' := poll now4 (poll now3 (poll now2 (poll now1 (NetClient.login host port u p c)))) in
  mState c' = InWorld /\ mPlayerId (nc_session c') = playerId /\
  mOwnEntityId (nc_session c') = entityId /\ mUsername (nc_session c') = ar_username row /\
  (mkAddress (ip_of (cfg_worldHost cfg)) udpPort, hello_packet playerId token) ∈ nc_sent c'.
Proof.
  cbv zeta. split; [by apply servers_let_in|].
  destruct (world_has_room tr s Hrun Hlen) as (_ & Hid & He).
  destruct (system_run_inv cfg udpPort tr s Hrun) as (_ & _ & _ & _ & _ & Hok & _).
  { unfold kFirstPlayerEntityId in Hlen. lia. }
  destruct (row_fits _ _ Hok (me_row _ _ _ _ _ Hin)) as (Hrow & _ & Huser & _).
  destruct (token_ok (sy_auth s) (me_random _ _ _ _ _ Hin)) as [Hwt _].
  destruct Hports as (Hp & Hu & Hw).
  destruct (login_response_read AuthSuccess _ _ _ _ (ar_permission_level row) Hwt Hw Hp Hrow)
    as (reader1 & Hf1 & Hr1).
  destruct (join_response_read JoinSuccess _ _ _ _ Hid Hu Huser He) as (reader2 & Hf2 & Hr2).
  destruct Hauth as (before1 & after1 & Hd1 & Hs1), Hworld as (before2 & after2 & Hd2 & Hs2 & Hs3).
  by eapply login_reaches_world.
Qed.

End Client.

End EndToEnd.

(** ** A login of the concrete system

    The account of System.v's run, on a network whose two servers' connections
    deliver the answers. *)

#[local] Existing Instances System.toy_sodium System.toy_clocks toy_atof axis_libm.

Definition toy_answers (addr : Address) : list RecvResult :=
  [RecvBytes (frame (if port addr =? 7001
     then mkMessage (auth_message_code LoginResponse)
            (login_answer toy_cfg (sy_auth (toy_system [])) toy_row)
     else mkMessage (world_message_code JoinResponse)
            (join_answer 7003 (sy_world (toy_system [])) toy_row)))].

Lemma toy_may_enter :
  may_enter toy_cfg (fun pg => InMemory.mem_up pg = true) 0 (toy_system []) 1 "alex" "secret1" toy_row.
Proof.
  split.
  - done.
  - done.
  - done.
  - left.
  - by vm_compute.
  - by vm_compute.
  - split; unfold wire_ok; vm_compute; lia.
  - split; [split; vm_compute; congruence|by vm_compute].
  - by vm_compute.
  - apply not_elem_of_nil.
  - done.
Qed.

#[local] Instance toy_answering : SocketApi () := scripted_api toy_answers.
#[local] Existing Instance toy_rand.

Lemma right_password_gets_in_witness :
  let c' := poll f64_zero (poll f64_zero (poll f64_zero (poll f64_zero
    (NetClient.login "auth" 7001 "alex" "secret1" (new_net_client tt))))) in
  (exists tr' s', system_run toy_cfg 7003 tr' s' /\ exists p,
    ro_players (w_roster (sy_world s')) !! 1 = Some p /\ wp_accountId p = 5) /\
  mState c' = InWorld /\ mPlayerId (nc_session c') = 1.
Proof.
  destruct (right_password_gets_in toy_cfg 7003 (fun pg => InMemory.mem_up pg = true) 0 mem_is_up
    [] (toy_system []) 1 1 "alex" "secret1" toy_row (fun _ => 1) toy_answers "auth" 7001
    (new_net_client tt) f64_zero f64_zero f64_zero f64_zero (run_start _ _ _ (toy_system_start [])))
    as [(e1 & e2 & e3 & e4 & e5 & e6 & s' & Hr & (now & Hp) & _) (Hs & Hid & _)].
  - vm_compute. reflexivity.
  - exact toy_may_enter.
  - split_and!; [by vm_compute..|vm_compute; lia].
  - apply scripted_cooperative.
  - exists [], []. split; [|constructor]. split; [repeat constructor; by vm_compute|].
    eexists. vm_compute. reflexivity.
  - exists [], []. split; [|split; constructor]. split; [repeat constructor; by vm_compute|].
    eexists. vm_compute. reflexivity.
  - cbv zeta. split; [|exact (conj Hs Hid)]. do 2 eexists. split; [exact Hr|].
    eexists. split; [exact Hp|reflexivity].
Defined.
