(* ===== verification/Tools.v ===== *)
(** * What the command-line tools share ([server/tools/src/])

    [authcli.cpp] and [worldcli.cpp] are single functions with many early
    returns: a monad of state and exit, where [return 1] in the middle of
    [main] is [t_exit 1]. The state is what the tool has printed and sent so
    far, in order, and the environment that answers its calls. The rules of
    [wp] reason about such programs a statement at a time. *)

From Stdlib Require Import ZArith Lia Strings.Byte Strings.String.
From stdpp Require Import base list option strings.
From S2P Require Import Prelude ByteStream Framing Address Sockets.

Open Scope Z_scope.

(** ** Programs that exit *)

(** What is seen of a tool: its lines, of type [L], the messages it sends on a
    connection and its datagrams. *)
Inductive Act (L : Type) :=
| Line (l : L)
| Sent (host : string) (port : Z) (type : Z) (payload : list byte)
| Datagram (to : Address) (data : list byte).
Arguments Line {L}.
Arguments Sent {L}.
Arguments Datagram {L}.

Record Tool (L E : Type) := mkTool { tl_acts : list (Act L); tl_env : E }.
Arguments mkTool {L E}.
Arguments tl_acts {L E}.
Arguments tl_env {L E}.

Inductive Outcome (A : Type) := Value (a : A) | Exit (code : Z).
Arguments Value {A}.
Arguments Exit {A}.

(** The code a program ends with, when it ends by itself or early. *)
Definition exit_code (o : Outcome Z) : Z := match o with Value code => code | Exit code => code end.

Declare Scope tool_scope.
Delimit Scope tool_scope with tool.

Section Programs.
Context {L E : Type}.

Definition TM (A : Type) : Type := SM (Tool L E) (Outcome A).

Definition t_ret {A} (a : A) : TM A := sm_ret (Value a).
Definition t_exit {A} (code : Z) : TM A := sm_ret (Exit code).
Definition t_bind {A B} (m : TM A) (k : A -> TM B) : TM B :=
  sm_bind m (fun o => match o with Value a => k a | Exit code => t_exit code end).

Definition t_env {A} (m : SM E A) : TM A := fun t =>
  let '(a, e) := m (tl_env t) in (Value a, mkTool (tl_acts t) e).

Definition t_act (a : Act L) : TM () := fun t =>
  (Value tt, mkTool (tl_acts t ++ [a]) (tl_env t)).

Definition t_say (l : L) : TM () := t_act (Line l).

(** [if (!ok) { print; return code; }] *)
Definition t_require (ok : bool) (l : L) (code : Z) : TM () :=
  if ok then t_ret tt else t_bind (t_say l) (fun _ => t_exit code).

(** The value of a pointer or a flag with a value; printing and leaving when
    there is none. *)
Definition t_some {A} (o : option A) (l : L) (code : Z) : TM A :=
  match o with
  | Some a => t_ret a
  | None => t_bind (t_say l) (fun _ => t_exit code)
  end.

(** ** Reasoning *)

(** After [m], run from [t], its outcome and the state satisfy [Q]. *)
Definition wp {A} (m : TM A) (Q : Outcome A -> Tool L E -> Prop) (t : Tool L E) : Prop :=
  Q (m t).1 (m t).2.

(** What follows a program that may have exited. *)
Definition and_then {A B} (k : A -> TM B) (Q : Outcome B -> Tool L E -> Prop)
    (o : Outcome A) (t : Tool L E) : Prop :=
  match o with Value a => wp (k a) Q t | Exit code => Q (Exit code) t end.

Lemma wp_bind {A B} (m : TM A) (k : A -> TM B) Q t :
  wp m (and_then k Q) t -> wp (t_bind m k) Q t.
Proof. unfold wp, t_bind, sm_bind. by destruct (m t) as [[a|code] t']. Qed.

Lemma wp_ret {A} (a : A) (Q : Outcome A -> Tool L E -> Prop) t : Q (Value a) t -> wp (t_ret a) Q t.
Proof. done. Qed.

Lemma wp_exit {A} code (Q : Outcome A -> Tool L E -> Prop) t :
  Q (Exit code) t -> wp (t_exit code) Q t.
Proof. done. Qed.

Lemma wp_act a (Q : Outcome () -> Tool L E -> Prop) t :
  Q (Value tt) (mkTool (tl_acts t ++ [a]) (tl_env t)) -> wp (t_act a) Q t.
Proof. done. Qed.

Lemma wp_env {A} (m : SM E A) (Q : Outcome A -> Tool L E -> Prop) t :
  (forall a e, m (tl_env t) = (a, e) -> Q (Value a) (mkTool (tl_acts t) e)) -> wp (t_env m) Q t.
Proof.
  intros HQ. unfold wp, t_env. destruct (m (tl_env t)) as [a e] eqn:Em. by apply (HQ a e).
Qed.

Lemma wp_require ok l code (Q : Outcome () -> Tool L E -> Prop) t :
  (ok = true -> Q (Value tt) t) ->
  (ok = false -> Q (Exit code) (mkTool (tl_acts t ++ [Line l]) (tl_env t))) ->
  wp (t_require ok l code) Q t.
Proof. destruct ok; intros H1 H2; [by apply H1|by apply H2]. Qed.

Lemma wp_some {A} (o : option A) l code (Q : Outcome A -> Tool L E -> Prop) t :
  (forall a, o = Some a -> Q (Value a) t) ->
  (o = None -> Q (Exit code) (mkTool (tl_acts t ++ [Line l]) (tl_env t))) ->
  wp (t_some o l code) Q t.
Proof. destruct o; intros H1 H2; [by apply H1|by apply H2]. Qed.

Lemma wp_run {A} (m : TM A) (Q : Outcome A -> Tool L E -> Prop) t :
  wp m Q t -> let '(o, t') := m t in Q o t'.
Proof. unfold wp. by destruct (m t). Qed.

Lemma wp_mono {A} (m : TM A) (Q Q' : Outcome A -> Tool L E -> Prop) t :
  wp m Q t -> (forall o t', Q o t' -> Q' o t') -> wp m Q' t.
Proof. unfold wp. auto. Qed.

End Programs.
Arguments TM : clear implicits.

Notation "'let?' x := m 'in' k" := (t_bind m (fun x => k))
  (at level 10, x name, m at level 100, k at level 200) : tool_scope.
Notation "m ;;? k" := (t_bind m (fun _ => k))
  (at level 100, k at level 200, right associativity) : tool_scope.

(** One statement of a program. *)
Ltac wp_step :=
  match goal with
  | |- wp (t_bind _ _) _ _ => apply wp_bind
  | |- wp (t_ret _) _ _ => apply wp_ret
  | |- wp (t_exit _) _ _ => apply wp_exit
  | |- wp (t_act _) _ _ => apply wp_act
  | |- wp (t_say _) _ _ => apply wp_act
  | |- wp (t_env _) _ _ => apply wp_env; intros ? ? ?
  | |- wp (t_require _ _ _) _ _ => apply wp_require; intros ?
  | |- wp (t_some _ _ _) _ _ => apply wp_some; [intros ? ?|intros ?]
  | |- and_then _ _ _ _ => cbn [and_then tl_acts tl_env]
  end.

(** ** Calls of both tools *)

Section Calls.
Context {E : Type} `{HApi : SocketApi E}.
Local Open Scope sm_scope.

(** [awaitMessage] of [authcli]: the loop over the slices, then one look
    more; [None] is [false]. *)
Fixpoint await_slices (slices : nat) (stream : MessageStream) : SM E (option Message * MessageStream) :=
  match Framing.next stream with
  | Some (m, stream) => sm_ret (Some m, stream)
  | None =>
      match slices with
      | O => sm_ret (None, stream)
      | S slices' =>
          waitReadable 1 50;;
          let '(ok, stream) := pump stream in
          if ok then await_slices slices' stream else sm_ret (None, stream)
      end
  end.

(** [awaitMessage] of [worldcli], which counts the milliseconds; the fuel is a
    number of turns. *)
Fixpoint await_elapsed (fuel : nat) (elapsed timeoutMs : Z) (stream : MessageStream)
    : SM E (option Message * MessageStream) :=
  match fuel with
  | O => sm_ret (None, stream)
  | S fuel' =>
      match Framing.next stream with
      | Some (m, stream) => sm_ret (Some m, stream)
      | None =>
          if elapsed <? timeoutMs then
            waitReadable 1 50;;
            let '(ok, stream) := pump stream in
            if ok then await_elapsed fuel' (elapsed + 50) timeoutMs stream
            else sm_ret (None, stream)
          else sm_ret (None, stream)
      end
  end.

(** The two loops are one: a turn for every started 50 milliseconds. *)
Lemma await_elapsed_slices slices : forall fuel elapsed timeoutMs stream e,
  (slices < fuel)%nat -> elapsed + 50 * Z.of_nat slices = timeoutMs ->
  await_elapsed fuel elapsed timeoutMs stream e = await_slices slices stream e.
Proof.
  induction slices as [|slices IH]; intros [|fuel] elapsed timeoutMs stream e Hf Ht; try lia;
    cbn [await_elapsed await_slices]; destruct (Framing.next stream) as [[m s]|]; try done.
  - by rewrite (proj2 (Z.ltb_ge _ _)) by lia.
  - rewrite (proj2 (Z.ltb_lt _ _)) by lia. unfold sm_bind. destruct (waitReadable 1 50 e) as [w e1].
    destruct (pump stream) as [[] s]; [|done]. by rewrite IH by lia.
Qed.

End Calls.

Section Connecting.
Context {L E : Type} `{HApi : SocketApi E}.
Variables (cannot_resolve : string -> L) (connect_failed connect_refused : Address -> L).
Local Open Scope tool_scope.

(** [connectTo]: resolve, start connecting, wait at most two seconds, look at
    the result; every failure is printed and ends the tool with code 1. *)
Definition t_connect (host : string) (port : Z) : TM L E Socket :=
  let? address := t_env (resolve host port) in
  let? address := t_some address (cannot_resolve host) 1 in
  let? socket := t_env (tcp_connect address) in
  let? socket := t_some socket (connect_failed address) 1 in
  let? _ready := t_env (waitReadable 1 2000) in
  let? connected := t_env connectResult in
  t_require connected (connect_refused address) 1 ;;?
  t_ret socket.

(** Sending a message on a fresh connection. *)
Definition t_send (host : string) (port type : Z) (payload : list byte) (socket : Socket)
    : TM L E MessageStream :=
  t_act (Sent host port type payload) ;;? t_ret (send (new_stream socket) type payload).

(** From the environment [e], connecting succeeds with the socket [s]. *)
Definition reaches (host : string) (port : Z) (s : Socket) (e e' : E) : Prop :=
  exists a e1 e2 ready e3, resolve host port e = (Some a, e1) /\
    tcp_connect a e1 = (Some s, e2) /\ waitReadable 1 2000 e2 = (ready, e3) /\
    connectResult e3 = (true, e').

(** From the environment [e], connecting fails, which the line [l] reports. *)
Definition connect_fault (host : string) (port : Z) (e : E) (l : L) : Prop :=
  ((resolve host port e).1 = None /\ l = cannot_resolve host) \/
  exists a e1, resolve host port e = (Some a, e1) /\
    (((tcp_connect a e1).1 = None /\ l = connect_failed a) \/
     exists s e2, tcp_connect a e1 = (Some s, e2) /\
       (connectResult (waitReadable 1 2000 e2).2).1 = false /\ l = connect_refused a).

Lemma wp_connect_cases host port (Q : Outcome Socket -> Tool L E -> Prop) t :
  (forall s e, reaches host port s (tl_env t) e -> Q (Value s) (mkTool (tl_acts t) e)) ->
  (forall l e, connect_fault host port (tl_env t) l ->
     Q (Exit 1) (mkTool (tl_acts t ++ [Line l]) e)) ->
  wp (t_connect host port) Q t.
Proof.
  intros Hok Hfail. unfold wp, t_connect, t_bind, sm_bind, t_env.
  assert (Hf : forall l e, connect_fault host port (tl_env t) l ->
    Q (Exit 1) (mkTool (tl_acts t ++ [Line l]) e)) by done. unfold connect_fault in Hf.
  destruct (resolve host port (tl_env t)) as [[a|] e1] eqn:H1; [|by apply Hf; left].
  cbn [t_some t_ret sm_ret tl_env tl_acts].
  destruct (tcp_connect a e1) as [[s|] e2] eqn:H2; cbn [t_some t_ret sm_ret tl_env tl_acts].
  2: { apply Hf. right. exists a, e1. split; [done|]. left. by rewrite H2. }
  destruct (waitReadable 1 2000 e2) as [ready e3] eqn:H3. cbn [tl_env tl_acts].
  destruct (connectResult e3) as [[] e4] eqn:H4; cbn.
  - apply Hok. by exists a, e1, e2, ready, e3.
  - apply Hf. right. exists a, e1. split; [done|]. right. exists s, e2. split; [done|].
    rewrite H3. cbn [snd]. by rewrite H4.
Qed.

Lemma wp_connect host port (Q : Outcome Socket -> Tool L E -> Prop) t :
  (forall s e, Q (Value s) (mkTool (tl_acts t) e)) ->
  (forall l e, l = cannot_resolve host \/ (exists a, l = connect_failed a \/ l = connect_refused a) ->
     Q (Exit 1) (mkTool (tl_acts t ++ [Line l]) e)) ->
  wp (t_connect host port) Q t.
Proof.
  intros Hok Hfail. apply wp_connect_cases; [by intros|]. intros l e Hl. apply Hfail.
  destruct Hl as [[_ Hl]|(a & e1 & _ & [[_ Hl]|(s & e2 & _ & _ & Hl)])]; eauto.
Qed.


Lemma wp_reaches host port s e' (Q : Outcome Socket -> Tool L E -> Prop) t :
  reaches host port s (tl_env t) e' -> Q (Value s) (mkTool (tl_acts t) e') ->
  wp (t_connect host port) Q t.
Proof.
  intros (a & e1 & e2 & ready & e3 & H1 & H2 & H3 & H4) HQ.
  enough (Heq : t_connect host port t = (Value s, mkTool (tl_acts t) e')) by (unfold wp; by rewrite Heq).
  unfold t_connect, t_bind, sm_bind, t_env. rewrite H1. cbn [t_some t_ret sm_ret tl_env tl_acts].
  rewrite H2. cbn [t_some t_ret sm_ret tl_env tl_acts]. rewrite H3.
  cbn [tl_env tl_acts]. by rewrite H4.
Qed.

(** The message that ends the wait is the first of what the buffer and the
    connection hold. *)
Lemma await_slices_first slices : forall (stream s' : MessageStream) m (e e' : E),
  await_slices slices stream e = ((Some m, s'), e') ->
  frame m `prefix_of` ms_readBuffer stream ++ rx_bytes (sk_rx (ms_socket stream)).
Proof.
  induction slices as [|slices IH]; intros stream s' m e e'; cbn [await_slices];
    unfold Framing.next;
    destruct (next_message (ms_readBuffer stream)) as [[m' rest]|] eqn:En; try done.
  - intros [= -> _ _]. apply next_message_inv in En as [-> _].
    rewrite <- app_assoc. by apply prefix_app_r.
  - intros [= -> _ _]. apply next_message_inv in En as [-> _].
    rewrite <- app_assoc. by apply prefix_app_r.
  - unfold sm_bind. destruct (waitReadable 1 50 e) as [w e1].
    destruct (pump stream) as [[] s1] eqn:Ep; [|done].
    intros Hm%IH. by rewrite <- (pump_bytes _ _ Ep).
Qed.

(** The connection carries [m] whole in at most [slices] batches, after what
    is already in the buffer. *)
Definition carries (slices : nat) (m : Message) (rx : list RecvResult) (buffer : list byte) : Prop :=
  exists batches, rx = arrivals batches /\ nonempty_chunks batches /\ message_wf m /\
    frame m = buffer ++ mjoin (mjoin <$> batches) /\ (length batches <= slices)%nat.

Lemma await_slices_carried slices m : forall (s : MessageStream) e,
  carries slices m (sk_rx (ms_socket s)) (ms_readBuffer s) ->
  exists s' e', await_slices slices s e = ((Some m, s'), e').
Proof.
  induction slices as [|slices IH]; intros s e (batches & Hrx & Hne & Hwf & Hf & Hl).
  - destruct batches; [|cbn in Hl; lia]. cbn [await_slices]. unfold Framing.next.
    change (mjoin (mjoin <$> [])) with (@nil byte) in Hf. rewrite app_nil_r in Hf.
    rewrite <- Hf, <- (app_nil_r (frame m)), next_message_frame by done. by eexists _, _.
  - cbn [await_slices]. unfold Framing.next.
    destruct (next_message (ms_readBuffer s)) as [[m' rest]|] eqn:En.
    + apply next_message_inv in En as [En Hm'].
      pose proof (next_message_frame m [] Hwf) as H1. rewrite app_nil_r, Hf, En, <- app_assoc in H1.
      rewrite next_message_frame in H1 by done. injection H1 as -> _. by eexists _, _.
    + destruct batches as [|b bs].
      { exfalso. change (mjoin (mjoin <$> [])) with (@nil byte) in Hf. rewrite app_nil_r in Hf.
        rewrite <- Hf, <- (app_nil_r (frame m)), next_message_frame in En by done. done. }
      unfold nonempty_chunks in Hne. apply Forall_cons_1 in Hne as [Hb Hbs]. unfold sm_bind at 1.
      destruct (waitReadable 1 50 e) as [w e1].
      change (mjoin (mjoin <$> b :: bs)) with (mjoin b ++ mjoin (mjoin <$> bs)) in Hf.
      rewrite (pump_batch b bs s [m] []); [|done|by apply Forall_singleton|done|].
      * apply IH. exists bs. cbn [ms_readBuffer ms_socket sk_rx length] in *.
        split_and!; [done..|by rewrite <- app_assoc|lia].
      * rewrite frames_cons. change (frames []) with (@nil byte).
        by rewrite Hf, !app_nil_r, app_assoc.
Qed.

Lemma wp_carried slices m s (Q : Outcome (option Message * MessageStream) -> Tool L E -> Prop) t :
  carries slices m (sk_rx (ms_socket s)) (ms_readBuffer s) ->
  (forall s' e', Q (Value (Some m, s')) (mkTool (tl_acts t) e')) ->
  wp (t_env (await_slices slices s)) Q t.
Proof.
  intros Hc HQ. destruct (await_slices_carried slices m s (tl_env t) Hc) as (s' & e' & He).
  apply wp_env. intros a e. rewrite He. intros [= <- <-]. apply HQ.
Qed.

Lemma wp_send host port type payload socket (Q : Outcome MessageStream -> Tool L E -> Prop) t :
  (forall s, sk_rx (ms_socket s) = sk_rx socket -> ms_readBuffer s = [] ->
     Q (Value s) (mkTool (tl_acts t ++ [Sent host port type payload]) (tl_env t))) ->
  wp (t_send host port type payload socket) Q t.
Proof.
  intros HQ. unfold t_send. repeat wp_step.
  destruct (send_keeps_input (new_stream socket) type payload) as [H1 H2].
  by apply HQ; rewrite ?H1, ?H2.
Qed.

End Connecting.
