(* ===== verification/AuthCli.v ===== *)
(** * The login tool ([server/tools/src/authcli.cpp])

    [authcli register|login <user> <pass>]: one request to the auth server and
    its answer printed, with the exit codes scripts go by. *)

From Stdlib Require Import ZArith Lia Strings.Byte Strings.String.
From stdpp Require Import base list option strings.
From S2P Require Import Prelude Config ByteStream Protocol Framing Address Sockets Tools.
From S2P Require NetClient AuthServer ClientServer.
Import ByteWriter.

Open Scope Z_scope.

(** ** The program *)

(** The lines it prints. *)
Inductive Printed :=
| Usage
| SocketInitFailed
| CannotResolve (host : string)
| ConnectFailed (address : Address)
| ConnectRefused (address : Address)
| NoResponse
| Registered (text : string)
| Malformed
| LoggedIn (text : string)
| AccountId (id : Z)
| TokenIs (token : string)
| WorldAt (host : string) (port : Z).

Section AuthCli.
Context {E : Type} `{HApi : SocketApi E}.
Local Open Scope tool_scope.

Abbreviation M := (TM Printed E).

Definition usage : M Z := t_say Usage ;;? t_ret 2.

(** [10000 / 50] slices. *)
Definition kSlices : nat := Z.to_nat (Z.quot 10000 50).

Definition request_type (command : string) : Z :=
  auth_message_code (if decide (command = "login"%string) then LoginRequest else RegisterRequest).

Definition request_payload (username password : string) : list byte :=
  w_string password (w_string username (w_u32 kProtocolVersion [])).

Definition result_code (result : option AuthResult) : Z :=
  if bool_decide (result = Some AuthSuccess) then 0 else 1.

(** The rest of a login response, after its result. *)
Definition read_session : Reader (string * string * Z * Z) :=
  (token <-- r_string ;; worldHost <-- r_string ;; worldPort <-- r_u16 ;; accountId <-- r_u64 ;;
   rret (token, worldHost, worldPort, accountId))%reader.

(** What is printed of the answer to [command], and the code. *)
Definition report (command : string) (payload : list byte) : M Z :=
  let '(code, reader) := r_u8 (open_reader payload) in
  let result := auth_result_of code in
  if decide (command = "register"%string) then
    t_say (Registered (toString result)) ;;? t_ret (result_code result)
  else
    let '((token, worldHost, worldPort, accountId), reader) := read_session reader in
    t_require (negb (failed reader)) Malformed 1 ;;?
    t_say (LoggedIn (toString result)) ;;?
    (if bool_decide (result = Some AuthSuccess) then
       t_say (AccountId accountId) ;;? t_say (TokenIs token) ;;? t_say (WorldAt worldHost worldPort)
     else t_ret tt) ;;?
    t_ret (result_code result).

(** [main], with [argv[1..]] and whether [initSockets] succeeds. *)
Definition main (getenv : string -> option string) (initSockets : bool) (args : list string)
    : M Z :=
  match args with
  | [command; username; password] =>
      if bool_decide (command <> "register"%string) && bool_decide (command <> "login"%string)
      then usage
      else
        t_require initSockets SocketInitFailed 1 ;;?
        let host := envString getenv "AUTH_HOST" "127.0.0.1" in
        let port := envPort getenv "AUTH_SERVER_PORT" 7001 in
        let? socket := t_connect CannotResolve ConnectFailed ConnectRefused host port in
        let? stream := t_send host port (request_type command) (request_payload username password)
                         socket in
        let? answer := t_env (await_slices kSlices stream) in
        let? message := t_some answer.1 NoResponse 1 in
        report command (msg_payload message)
  | _ => usage
  end.

(** ** Exit codes *)

(** The code a line stands for; [None] for a line of detail. *)
Definition verdict (l : Printed) : option Z :=
  match l with
  | Usage => Some 2
  | SocketInitFailed | CannotResolve _ | ConnectFailed _ | ConnectRefused _ | NoResponse
  | Malformed => Some 1
  | Registered text | LoggedIn text =>
      Some (if bool_decide (text = toString (Some AuthSuccess)) then 0 else 1)
  | AccountId _ | TokenIs _ | WorldAt _ _ => None
  end.

(** The line comes after the server was asked. *)
Definition asked (l : Printed) : bool :=
  match l with
  | NoResponse | Registered _ | LoggedIn _ | Malformed => true
  | _ => false
  end.

Definition valid_args (args : list string) : Prop :=
  exists command username password, args = [command; username; password] /\
    (command = "register"%string \/ command = "login"%string).

Lemma toString_success result :
  (toString result = toString (Some AuthSuccess)) <-> result = Some AuthSuccess.
Proof. by destruct result as [[]|]. Qed.

(** *** What an answer says *)

(** The fields of a login response up to the account, as bytes. *)
Definition login_bytes (code : Z) (token worldHost : string) (worldPort accountId : Z) : list byte :=
  e_u8 code ++ e_string token ++ e_string worldHost ++ e_u16 worldPort ++ e_u64 accountId.

Definition login_values (code : Z) (token worldHost : string) (worldPort accountId : Z) : Prop :=
  fits 8 code /\ wire_ok token /\ wire_ok worldHost /\ fits 16 worldPort /\ fits 64 accountId.

(** The lines printed of an answer with these bytes, and the exit code. Of an
    answer to a registration only the first byte counts, and none counts as
    zero; an answer to a login is a whole response, whatever follows it. *)
Inductive answer_says (command : string) (payload : list byte) : list Printed -> Z -> Prop :=
| says_nothing :
    command = "register"%string -> payload = [] ->
    answer_says command payload [Registered (toString (Some AuthSuccess))] 0
| says_registered b rest :
    command = "register"%string -> payload = b :: rest ->
    answer_says command payload [Registered (toString (auth_result_of (Z_of_byte b)))]
      (if decide (b = x00) then 0 else 1)
| says_malformed :
    command <> "register"%string ->
    (forall code token worldHost worldPort accountId,
       login_values code token worldHost worldPort accountId ->
       ~ login_bytes code token worldHost worldPort accountId `prefix_of` payload) ->
    answer_says command payload [Malformed] 1
| says_refused code token worldHost worldPort accountId :
    command <> "register"%string -> login_values code token worldHost worldPort accountId ->
    login_bytes code token worldHost worldPort accountId `prefix_of` payload -> code <> 0 ->
    answer_says command payload [LoggedIn (toString (auth_result_of code))] 1
| says_logged_in token worldHost worldPort accountId :
    command <> "register"%string -> login_values 0 token worldHost worldPort accountId ->
    login_bytes 0 token worldHost worldPort accountId `prefix_of` payload ->
    answer_says command payload
      [LoggedIn (toString (Some AuthSuccess)); AccountId accountId; TokenIs token;
       WorldAt worldHost worldPort] 0.

(** The bytes of a success. *)
Definition success_payload (command : string) (payload : list byte) : Prop :=
  if decide (command = "register"%string)
  then payload = [] \/ head payload = Some x00
  else exists token worldHost worldPort accountId,
         login_values 0 token worldHost worldPort accountId /\
         login_bytes 0 token worldHost worldPort accountId `prefix_of` payload.

Lemma login_bytes_code code token worldHost worldPort accountId payload :
  fits 8 code -> login_bytes code token worldHost worldPort accountId `prefix_of` payload ->
  exists b rest, payload = b :: rest /\ Z_of_byte b = code.
Proof.
  intros Hc [rest ->]. eexists _, _. split; [done|].
  rewrite Z_of_byte_of_Z. by apply (wrap_id 8).
Qed.

Lemma answer_says_success command payload lines code :
  answer_says command payload lines code -> code = 0 <-> success_payload command payload.
Proof.
  unfold success_payload. intros [Hc ->|b rest Hc ->|Hc Hm|c t h p a Hc Hv Hp H0|t h p a Hc Hv Hp];
    destruct (decide (command = _)) as [Hd|Hd]; try done.
  - split; [by intros _; left|done].
  - cbn [head]. destruct (decide (b = x00)) as [->|Hb]; [split; [by intros _; right|done]|].
    split; [done|]. intros [|[= ->]]; done.
  - split; [done|]. intros (t & h & p & a & Hv & Hp). by destruct (Hm 0 t h p a).
  - split; [done|]. intros (t' & h' & p' & a' & [Hf _] & Hp'). destruct Hv as [Hv _].
    destruct (login_bytes_code _ _ _ _ _ _ Hf Hp') as (b & rest & -> & Hb).
    destruct (login_bytes_code _ _ _ _ _ _ Hv Hp) as (b' & rest' & [= <- <-] & Hb'). by subst.
  - split; [|done]. intros _. by exists t, h, p, a.
Qed.

(** A login response, as [main] reads it. *)
Definition read_answer : Reader (Z * (string * string * Z * Z)) :=
  (code <-- r_u8 ;; session <-- read_session ;; rret (code, session))%reader.

Lemma read_answer_reads code token worldHost worldPort accountId :
  login_values code token worldHost worldPort accountId ->
  reads read_answer (login_bytes code token worldHost worldPort accountId)
    (code, (token, worldHost, worldPort, accountId)).
Proof.
  intros (Hc & Ht & Hw & Hp & Ha). unfold login_bytes.
  rewrite <- (app_nil_r (e_u8 code ++ _)), <- !app_assoc.
  eapply reads_bind; [auto with reader|]. rewrite !app_assoc.
  eapply reads_bind; [|apply reads_ret]. unfold read_session. rewrite <- !app_assoc.
  rewrite <- (app_nil_r (e_u64 accountId)). solve_reads.
Qed.

Lemma read_session_only : reads_only read_session (fun s used => exists token worldHost worldPort accountId,
  s = (token, worldHost, worldPort, accountId) /\
  (wire_ok token /\ wire_ok worldHost /\ fits 16 worldPort /\ fits 64 accountId) /\
  used = e_string token ++ e_string worldHost ++ e_u16 worldPort ++ e_u64 accountId).
Proof.
  intros pre bs r Hf.
  eassert (Hr : reads_only read_session _).
  { unfold read_session. repeat (eapply reads_only_bind;
      [first [apply reads_only_string|apply reads_only_u16|apply reads_only_u64]|intros ?|intros ?; unfold r_u16, r_u64; auto 12 with reader]).
    apply reads_only_ret. }
  destruct (Hr pre bs Hf) as (used & post & -> & H & Hend). cbv beta in H. unfold r. rewrite Hend. clear Hend Hf.
  destruct H as (t & u1 & u2 & -> & [Ht ->] & h & u3 & u4 & -> & [Hh ->] & p & u5 & u6 & -> &
    [Hp ->] & a & u7 & u8 & -> & [Ha ->] & Hs & ->).
  eexists _, _. split; [done|]. split; [|done]. rewrite Hs. exists t, h, p, a. rewrite app_nil_r. by split_and!.
Qed.

(** What an answer that was read whole held. *)
Lemma read_answer_held payload code token worldHost worldPort accountId reader :
  read_answer (open_reader payload) = ((code, (token, worldHost, worldPort, accountId)), reader) ->
  mFailed reader = false ->
  login_values code token worldHost worldPort accountId /\
  login_bytes code token worldHost worldPort accountId `prefix_of` payload.
Proof.
  intros Hr Hf.
  eassert (Ho : reads_only read_answer _).
  { unfold read_answer. eapply reads_only_bind; [apply reads_only_u8|intros c|intros c].
    - eapply reads_only_bind; [apply read_session_only|intros s; apply reads_only_ret|intros s; apply safe_ret].
    - unfold read_session, r_u16, r_u64. auto 20 with reader. }
  destruct (reads_only_open _ _ _ _ _ Ho Hr Hf)
    as (used & post & -> & c & u1 & u2 & -> & [Hc ->] & s & u3 & u4 & -> & (t & h & p & a & -> & Hv & ->) & [= -> -> -> -> ->] & ->).
  split; [by split|]. rewrite app_nil_r. by exists post.
Qed.


(** [report] prints what the answer says. *)
Definition reported (command : string) (payload : list byte) (before : list (Act Printed))
    (o : Outcome Z) (t : Tool Printed E) : Prop :=
  exists lines, tl_acts t = before ++ (Line <$> lines) /\
    answer_says command payload lines (exit_code o).

Lemma reported_line command payload before l o e :
  answer_says command payload [l] (exit_code o) ->
  reported command payload before o (mkTool (before ++ [Line l]) e).
Proof. by exists [l]. Qed.

Lemma auth_result_success code : auth_result_of code = Some AuthSuccess <-> code = 0.
Proof. split; [by intros H%find_code_Some|by intros ->]. Qed.

Lemma register_says payload code reader :
  r_u8 (open_reader payload) = (code, reader) ->
  answer_says "register" payload [Registered (toString (auth_result_of code))]
    (result_code (auth_result_of code)).
Proof.
  destruct payload as [|b rest]; [by intros [= <- _]; apply says_nothing|].
  pose proof (reads_open r_u8 [b] rest _ (reads_take 1 [b] eq_refl)) as Hr. cbn [app] in Hr.
  rewrite le_value_cons in Hr. change (le_value []) with 0 in Hr. rewrite Z.mul_0_r, Z.add_0_r in Hr.
  intros Hc. rewrite Hc in Hr. cbn in Hr. injection Hr as -> _.
  replace (result_code _) with (if decide (b = x00) then 0 else 1).
  { by eapply says_registered. }
  unfold result_code. rewrite (bool_decide_ext _ _ (auth_result_success (Z_of_byte b))).
  destruct (decide (b = x00)) as [->|Hb]; [done|]. rewrite bool_decide_false; [done|].
  intros Hz. apply Hb. by apply Z_of_byte_inj.
Qed.

Lemma wp_report command payload t :
  wp (report command payload) (reported command payload (tl_acts t)) t.
Proof.
  unfold report. destruct (r_u8 (open_reader payload)) as [code reader] eqn:Ec.
  destruct (decide (command = "register"%string)) as [->|Hc].
  { repeat wp_step. apply reported_line. cbn [exit_code]. by eapply register_says. }
  destruct (read_session reader) as [[[[token host] port] account] r] eqn:Es.
  assert (Hr : read_answer (open_reader payload) = ((code, (token, host, port, account)), r)).
  { unfold read_answer, rbind, rret. by rewrite Ec, Es. }
  wp_step. wp_step; cbn [and_then].
  2: { apply reported_line. apply says_malformed; [done|]. intros code' t' h' p' a' Hv [rest ->].
    pose proof (reads_open _ _ rest _ (read_answer_reads _ _ _ _ _ Hv)) as Hr'.
    rewrite Hr in Hr'. injection Hr' as _ _ _ _ _ Hf. unfold failed in H. by rewrite Hf in H. }
  apply negb_true_iff in H. destruct (read_answer_held _ _ _ _ _ _ _ Hr H) as [Hv Hp].
  unfold result_code. rewrite (bool_decide_ext _ _ (auth_result_success code)).
  destruct (bool_decide_reflect (code = 0)) as [->|Hne]; repeat wp_step.
  - exists [LoggedIn (toString (Some AuthSuccess)); AccountId account; TokenIs token; WorldAt host port].
    cbn [tl_acts fmap list_fmap]. rewrite <- !app_assoc. split; [done|]. by apply says_logged_in.
  - apply reported_line. by eapply says_refused.
Qed.

(** An answer decides the code by its first line. *)
Lemma answer_says_verdict command payload lines code :
  answer_says command payload lines code ->
  exists l details, lines = l :: details /\ asked l = true /\ verdict l = Some code /\
    Forall (fun d => verdict d = None) details /\ (details <> [] -> code = 0).
Proof.
  assert (Hv : forall c, c <> 0 -> toString (auth_result_of c) <> toString (Some AuthSuccess)).
  { by intros c Hc Ht%toString_success%auth_result_success. }
  intros [Hc ->|b rest Hc ->|Hc Hm|c t h p a Hc _ _ H0|t h p a Hc _ _]; eexists _, _.
  - by split_and!.
  - split_and!; [done|done| |constructor|done]. cbn [verdict]. do 2 f_equal.
    destruct (decide (b = x00)) as [->|Hb]; [done|]. rewrite bool_decide_false; [done|].
    apply Hv. intros Hz. apply Hb. by apply Z_of_byte_inj.
  - by split_and!.
  - split_and!; [done|done| |constructor|done]. cbn [verdict].
    by rewrite bool_decide_false by auto.
  - split_and!; [done..| |done]. by repeat constructor.
Qed.

Lemma valid_args_cases args :
  valid_args args \/
  ~ valid_args args /\ forall getenv initSockets, main getenv initSockets args = usage.
Proof.
  destruct args as [|command [|username [|password [|extra args]]]];
    try (right; split; [intros (c & u & p & [=] & _)|done]).
  destruct (decide (command = "register"%string)); [left; exists command, username, password; auto|].
  destruct (decide (command = "login"%string)); [left; exists command, username, password; auto|].
  right. split; [intros (c & u & p & [= <- <- <-] & [?|?]); done|].
  intros. unfold main. by rewrite !bool_decide_eq_true_2.
Qed.

(** The one message of the tool. *)
Definition request (getenv : string -> option string) (command username password : string)
    : Act Printed :=
  Sent (envString getenv "AUTH_HOST" "127.0.0.1") (envPort getenv "AUTH_SERVER_PORT" 7001)
    (request_type command) (request_payload username password).

Lemma valid_command (command : string) :
  command = "register"%string \/ command = "login"%string ->
  bool_decide (command <> "register"%string) && bool_decide (command <> "login"%string) = false.
Proof. by intros [->| ->]. Qed.

(** What happened to a valid command line, by the messages [sent], the line that
    decides, the details after it and the exit code: the sockets did not start,
    the connection was not made, or the request was sent and no answer came, or
    one did: the first message on the connection, whatever its type. *)
Inductive course (getenv : string -> option string) (initSockets : bool)
    (command username password : string) (env : E)
  : list (Act Printed) -> Printed -> list Printed -> Z -> Prop :=
| no_sockets :
    initSockets = false ->
    course getenv initSockets command username password env [] SocketInitFailed [] 1
| no_connection l :
    initSockets = true ->
    connect_fault CannotResolve ConnectFailed ConnectRefused (envString getenv "AUTH_HOST" "127.0.0.1")
      (envPort getenv "AUTH_SERVER_PORT" 7001) env l ->
    course getenv initSockets command username password env [] l [] 1
| no_answer s env' :
    initSockets = true ->
    reaches (envString getenv "AUTH_HOST" "127.0.0.1") (envPort getenv "AUTH_SERVER_PORT" 7001)
      s env env' ->
    course getenv initSockets command username password env
      [request getenv command username password] NoResponse [] 1
| answered s env' m l details code :
    initSockets = true ->
    reaches (envString getenv "AUTH_HOST" "127.0.0.1") (envPort getenv "AUTH_SERVER_PORT" 7001)
      s env env' ->
    frame m `prefix_of` rx_bytes (sk_rx s) ->
    answer_says command (msg_payload m) (l :: details) code ->
    course getenv initSockets command username password env
      [request getenv command username password] l details code.

Lemma wp_main getenv initSockets command username password env :
  command = "register"%string \/ command = "login"%string ->
  wp (main getenv initSockets [command; username; password])
    (fun o t => exists sent l details,
       tl_acts t = sent ++ Line l :: (Line <$> details) /\
       course getenv initSockets command username password env sent l details (exit_code o))
    (mkTool [] env).
Proof.
  intros Hc. unfold main. rewrite valid_command by done.
  wp_step. wp_step; cbn [and_then tl_acts].
  2: { exists [], SocketInitFailed, []. split; [done|]. by apply no_sockets. }
  wp_step. apply wp_connect_cases.
  - intros s e Hs. wp_step. wp_step. apply wp_send. intros st Hrx Hb. cbn [and_then]. wp_step.
    apply wp_env. intros [answer s'] e' Ha. cbn [and_then tl_acts tl_env fst] in *. wp_step. wp_step.
    + cbn [and_then]. destruct answer as [m|]; [|done].
      assert (Hm : frame m `prefix_of` rx_bytes (sk_rx s)).
      { apply await_slices_first in Ha. by rewrite Hb, Hrx in Ha. }
      eapply wp_mono; [apply wp_report|]. intros o t (lines & Hacts & Hsays).
      destruct (answer_says_verdict _ _ _ _ Hsays) as (l & details & -> & _).
      injection H0 as <-.
      exists [request getenv command username password], l, details. split; [done|].
      by eapply answered.
    + exists [request getenv command username password], NoResponse, []. split; [done|].
      by eapply no_answer.
  - intros l e Hl. exists [], l, []. split; [done|]. by apply no_connection.
Qed.

Lemma connect_fault_verdict host port env l :
  connect_fault CannotResolve ConnectFailed ConnectRefused host port env l ->
  asked l = false /\ verdict l = Some 1.
Proof. by intros [[_ ->]|(a & e1 & _ & [[_ ->]|(s & e2 & _ & _ & ->)])]. Qed.

Lemma course_verdict getenv initSockets command username password env sent l details code :
  course getenv initSockets command username password env sent l details code ->
  verdict l = Some code /\ Forall (fun d => verdict d = None) details /\
  (details <> [] -> code = 0) /\ code <> 2 /\
  sent = (if asked l then [request getenv command username password] else []).
Proof.
  intros [Hi|l' Hi Hl|s e Hi Hs|s e m l' d c Hi Hs Hm Ha]; [by split_and!| |by split_and!|].
  - destruct (connect_fault_verdict _ _ _ _ Hl) as [-> ->]. by split_and!.
  - destruct (answer_says_verdict _ _ _ _ Ha) as (l1 & d1 & [= <- <-] & H1 & H2 & H3 & H4).
    rewrite H1. split_and!; try done. intros ->. by inversion Ha; case_match.
Qed.

(** C31: the exit code of the tool tells what happened, on every path. It is 2 for
    a wrong command line, after which nothing else happens. Otherwise the tool
    prints exactly one line that decides the code, and details only after a
    success; the line comes after the credentials of the command line were sent,
    once, or before anything was. It is 1 when the sockets do not start, the
    connection fails or no answer comes; and when one does (the first message on
    the connection, whatever its type) the lines are those of its bytes and the code
    is 0 exactly when they report a success: for a login a whole response with
    result 0, whose account, token and world are printed; for a registration a
    first byte 0, or no byte at all. *)
Theorem exit_code_tells (getenv : string -> option string) (initSockets : bool)
    (args : list string) (env : E) :
  let '(o, t) := main getenv initSockets args (mkTool [] env) in
  exists sent l details,
    tl_acts t = sent ++ Line l :: (Line <$> details) /\
    verdict l = Some (exit_code o) /\ Forall (fun d => verdict d = None) details /\
    (details <> [] -> exit_code o = 0) /\
    (exit_code o = 2 <-> ~ valid_args args) /\
    (exit_code o = 2 -> tl_env t = env) /\
    (if asked l
     then exists command username password,
            args = [command; username; password] /\
            sent = [request getenv command username password]
     else sent = []) /\
    (forall command username password, valid_args args -> args = [command; username; password] ->
       course getenv initSockets command username password env sent l details (exit_code o)) /\
    (exit_code o = 0 -> asked l = true /\ l <> NoResponse) /\
    (asked l = true -> l <> NoResponse ->
     exists command username password s env' m,
       args = [command; username; password] /\
       reaches (envString getenv "AUTH_HOST" "127.0.0.1")
         (envPort getenv "AUTH_SERVER_PORT" 7001) s env env' /\
       frame m `prefix_of` rx_bytes (sk_rx s) /\
       (exit_code o = 0 <-> success_payload command (msg_payload m))).
Proof.
  destruct (valid_args_cases args) as [Hv|[Hv Hm]].
  - destruct Hv as (command & username & password & -> & Hc).
    pose proof (wp_main getenv initSockets command username password env Hc) as Hw.
    unfold wp in Hw. destruct (main _ _ _ _) as [o t]. cbn [fst snd] in Hw.
    destruct Hw as (sent & l & details & Ht & Hcourse).
    assert (Hok : valid_args [command; username; password]) by (by exists command, username, password).
    destruct (course_verdict _ _ _ _ _ _ _ _ _ _ Hcourse) as (H1 & H2 & H3 & H4 & H5).
    exists sent, l, details. split_and!; try done.
    + destruct (asked l); [|done]. by exists command, username, password.
    + by intros c u p _ [= <- <- <-].
    + intros H0. rewrite H0 in H1. by destruct l.
    + intros Hl Hn. destruct Hcourse as [| |s env' Hi Hs|s env' m l details code Hi Hs Hm Ha]; try done.
      * by destruct (connect_fault_verdict _ _ _ _ H0) as [H6 _]; rewrite H6 in Hl.
      * exists command, username, password, s, env', m. split_and!; try done.
        by apply answer_says_success in Ha.
  - rewrite Hm. exists [], Usage, []. by split_and!.
Qed.

(** ** Against the server *)

(** The auth server's answer to [command]. *)
Definition server_answer (command : string) (result : AuthResult) (token worldHost : string)
    (worldPort accountId level : Z) : list byte :=
  if decide (command = "register"%string) then AuthServer.result_payload result
  else AuthServer.login_payload result token worldHost worldPort accountId level.

Definition answer_lines (command : string) (result : AuthResult) (token worldHost : string)
    (worldPort accountId : Z) : list Printed :=
  if decide (command = "register"%string) then [Registered (toString (Some result))]
  else LoggedIn (toString (Some result)) ::
    match result with
    | AuthSuccess => [AccountId accountId; TokenIs token; WorldAt worldHost worldPort]
    | _ => []
    end.

#[local] Hint Resolve auth_result_fits : reader.

Lemma login_answer_read result token worldHost worldPort accountId level :
  wire_ok token -> wire_ok worldHost -> fits 16 worldPort -> fits 64 accountId ->
  let '(code, reader) := r_u8 (open_reader
    (AuthServer.login_payload result token worldHost worldPort accountId level)) in
  let '(session, reader) := read_session reader in
  (code, session, failed reader) =
    (auth_result_code result, (token, worldHost, worldPort, accountId), false).
Proof.
  intros Ht Hw Hp Ha.
  pose proof (read_answer_reads (auth_result_code result) token worldHost worldPort accountId
    (conj (auth_result_fits result) (conj Ht (conj Hw (conj Hp Ha))))) as Hr.
  apply (reads_open _ _ (e_u8 level)) in Hr. unfold login_bytes in Hr.
  rewrite <- !app_assoc in Hr.
  unfold AuthServer.login_payload. wire_text. unfold read_answer, rbind, rret in Hr.
  destruct (r_u8 _) as [code r1]. destruct (read_session r1) as [session r2].
  by injection Hr as -> -> ->.
Qed.

Lemma report_server command result token worldHost worldPort accountId level t :
  wire_ok token -> wire_ok worldHost -> fits 16 worldPort -> fits 64 accountId ->
  report command (server_answer command result token worldHost worldPort accountId level) t =
  (Value (result_code (Some result)),
   mkTool (tl_acts t ++ (Line <$> answer_lines command result token worldHost worldPort accountId))
     (tl_env t)).
Proof.
  intros Ht Hw Hp Ha. unfold report, server_answer, answer_lines.
  destruct (decide _) as [Hc|Hc]; [by destruct result|].
  pose proof (login_answer_read result token worldHost worldPort accountId level Ht Hw Hp Ha) as Hr.
  destruct (r_u8 _) as [code r1]. destruct (read_session r1) as [[[[a b] c] d] r2].
  injection Hr as -> -> -> -> -> ->.
  assert (Hof : auth_result_of (auth_result_code result) = Some result) by (by destruct result).
  rewrite Hof. unfold t_require. cbn [negb].
  unfold t_bind, sm_bind, t_say, t_act, t_ret, sm_ret.
  destruct result; try reflexivity. rewrite bool_decide_eq_true_2 by done. cbn.
  rewrite <- !app_assoc. reflexivity.
Qed.

(** C33: against the auth server, the tool reports what the server decided. When
    the connection is made and the answer arrives within ten seconds, cut into any
    chunks, then the server was asked with the command line's credentials, the
    tool prints the server's result, after a login the account, the token and the
    world's address the server gave, and exits with 0 exactly on success. *)
Theorem server_answer_reported (getenv : string -> option string)
    (command username password token worldHost : string) (result : AuthResult)
    (worldPort accountId level : Z) (env env' : E) (s : Socket) (type : Z)
    (Hcommand : command = "register"%string \/ command = "login"%string)
    (Htexts : Forall wire_ok [username; password; token; worldHost])
    (Hids : fits 16 worldPort /\ fits 64 accountId)
    (Hreach : reaches (envString getenv "AUTH_HOST" "127.0.0.1")
       (envPort getenv "AUTH_SERVER_PORT" 7001) s env env')
    (Hanswer : carries kSlices (mkMessage type
       (server_answer command result token worldHost worldPort accountId level)) (sk_rx s) []) :
  let '(o, t) := main getenv true [command; username; password] (mkTool [] env) in
  exit_code o = result_code (Some result) /\
  tl_acts t = request getenv command username password ::
    (Line <$> answer_lines command result token worldHost worldPort accountId) /\
  AuthServer.login_fields (request_payload username password) = Some (username, password).
Proof.
  rewrite !Forall_cons in Htexts. destruct Htexts as (H1 & H2 & H3 & H4 & _).
  destruct Hids as [H5 H6]. pose proof (ClientServer.login_request_read username password H1 H2) as Hread.
  pose proof (fun t => report_server command result token worldHost worldPort accountId level t H3 H4 H5 H6)
    as Hreport.
  enough (Hw : wp (main getenv true [command; username; password]) (fun o t =>
    exit_code o = result_code (Some result) /\
    tl_acts t = request getenv command username password ::
      (Line <$> answer_lines command result token worldHost worldPort accountId)) (mkTool [] env)).
  { unfold wp in Hw. destruct (main _ _ _ _) as [o t]. destruct Hw. by split_and!. }
  unfold main. rewrite valid_command by done. wp_step. apply wp_require; [intros _|done].
  repeat wp_step. eapply wp_reaches; [exact Hreach|]. cbn [and_then tl_acts]. wp_step.
  apply wp_send. intros st Hrx Hb. cbn [and_then]. wp_step.
  eapply wp_carried; [rewrite Hrx, Hb; exact Hanswer|]. intros st' e'.
  cbn [and_then tl_acts fst t_some msg_payload]. unfold wp, t_bind, sm_bind, t_ret, sm_ret.
  by rewrite Hreport.
Qed.

(** A registration is believed without a look at the answer: the reader of an
    empty payload fails and returns zero, which is [AuthSuccess], and neither
    [failed] nor the type of the message is tested on this path. *)
Lemma register_accepts_empty (t : Tool Printed E) :
  (report "register" [] t).1 = Value 0.
Proof. reflexivity. Qed.

End AuthCli.

(** ** A concrete run

    A server on port 7001 that answers a login in two pieces. *)

Definition toy_answer : Message :=
  mkMessage (auth_message_code LoginResponse)
    (server_answer "login" AuthSuccess "t" "world" 7003 5 0).

Definition toy_batches : list (list (list byte)) :=
  [[take 4 (frame toy_answer)]; [drop 4 (frame toy_answer)]].

Definition toy_api : SocketApi () :=
  {| sys_stream_socket := sm_ret true;
     sys_datagram_socket := sm_ret None;
     sys_connect _ := sm_ret (ConnectErrno true false, mkSocket (arrivals toy_batches) [] []);
     sys_so_error := sm_ret (Some 0);
     sys_bind _ := sm_ret true;
     sys_nonblocking := sm_ret true;
     sys_getaddrinfo _ := sm_ret (Some 1);
     sys_poll _ _ := sm_ret (1, [POLLIN]) |}.

#[local] Existing Instance toy_api.

Example toy_login :
  let '(o, t) := main (fun _ => None) true ["login"; "alex"; "secret"]%string (mkTool [] tt) in
  (o, tl_acts t) =
  (Value 0, [Sent "127.0.0.1" 7001 1 (request_payload "alex" "secret");
             Line (LoggedIn "success"); Line (AccountId 5); Line (TokenIs "t");
             Line (WorldAt "world" 7003)]).
Proof. vm_compute. reflexivity. Qed.

Lemma server_answer_reported_witness :
  let '(o, t) := main (fun _ => None) true ["login"; "alex"; "secret"]%string (mkTool [] tt) in
  exit_code o = 0 /\
  tl_acts t = request (fun _ => None) "login" "alex" "secret" ::
    (Line <$> answer_lines "login" AuthSuccess "t" "world" 7003 5) /\
  AuthServer.login_fields (request_payload "alex" "secret") = Some ("alex"%string, "secret"%string).
Proof.
  apply (server_answer_reported (fun _ => None) "login" "alex" "secret" "t" "world" AuthSuccess
    7003 5 0 tt tt (mkSocket (arrivals toy_batches) [] []) (auth_message_code LoginResponse)).
  - by right.
  - repeat constructor; by vm_compute.
  - by vm_compute.
  - eexists _, _, _, _, _. by split_and!.
  - exists toy_batches. split_and!; [done| |split; by vm_compute|by vm_compute|].
    + repeat constructor; by vm_compute.
    + apply (bool_decide_eq_true_1 (_ <= _)%nat). vm_compute. reflexivity.
Defined.
