(* ===== verification/WorldCli.v ===== *)
(** * The replication tool ([server/tools/src/worldcli.cpp])

    [worldcli <user> <pass> [seconds] [move|jump]]: logs in, joins the world,
    reads snapshots for some seconds while sending the inputs of a script, and
    logs out. *)

From Stdlib Require Import ZArith Lia Strings.Byte Strings.String Floats.SpecFloat.
From stdpp Require Import base list option strings.
From S2P Require Import Prelude Float32 Platform Config ByteStream Protocol Snapshot Framing.
From S2P Require Import Address Sockets Tools.
From S2P Require NetClient.
Import ByteWriter.

Open Scope Z_scope.

(** [std::atan2] of two [float]s. *)
Class Atan2 := { f32_atan2 : float -> float -> float }.

(** ** What it prints *)

(** An entity of a summary: its id, whether it is a player, its position. *)
Record Listed := mkListed { li_id : Z; li_player : bool; li_position : Vec3 }.

Inductive Printed :=
| Usage
| CannotResolve (host : string)
| ConnectFailed (address : Address)
| ConnectRefused (address : Address)
| NoLoginResponse
| LoginFailed (text : string)
| LoginOk (host : string) (port : Z)
| NoJoinResponse
| JoinFailed (result : Z)
| Joined (playerId : Z) (name : string) (entity udpPort : Z)
| NoUdpSocket
| HelloSent
| MalformedSnapshot
| OwnBody (elapsed : double) (position velocity : Vec3)
| Everyone (count : nat) (entities : list Listed)
| FirstEntity (tick id : Z) (position : Vec3) (velX : float) (yaw : double)
| Summary (received seconds rate firstTick lastTick outOfOrder : Z)
| LoggedOut.

(** ** Receiving *)

(** The counters of the loop. *)
Record Progress := mkProgress {
  received : Z;
  lastSequence : Z;
  outOfOrder : Z;
  firstTick : Z;
  lastTick : Z;
}.

Definition no_progress : Progress := mkProgress 0 0 0 0 0.

Section Receiving.
Context `{HAtan : Atan2}.
Variables (ownEntityId : Z) (action : string).

Definition listed (p : EntityState) : Listed :=
  mkListed (es_id p) (es_type p =? entity_type_code PlayerEntity) (es_position p).

(** What is printed of a snapshot when [n] came before it. *)
Definition sample (elapsed : double) (n : Z) (snapshot : Snapshot) : list Printed :=
  let scripted := negb (bool_decide (action = EmptyString)) in
  if (Z.rem n 15 =? 0) && scripted then
    (fun p => OwnBody elapsed (es_position p) (es_velocity p))
      <$> List.filter (fun p => es_id p =? ownEntityId) (sn_entities snapshot)
  else if (Z.rem n 30 =? 0) && negb scripted then
    match sn_entities snapshot with
    | [] => []
    | e :: _ =>
        [Everyone (length (sn_entities snapshot)) (listed <$> sn_entities snapshot);
         FirstEntity (sn_tick snapshot) (es_id e) (es_position e) (vx (es_velocity e))
           (f64_of_Z 2 * f64_of_f32 (f32_atan2 (qy (es_rotation e)) (qw (es_rotation e))))%f64]
    end
  else [].

(** One datagram: the lines, and the counters after it. *)
Definition onDatagram (elapsed : double) (data : list byte) (p : Progress)
    : list Printed * Progress :=
  match readUdpHeader data with
  | None => ([], p)
  | Some (header, bodyOffset) =>
      if negb (bool_decide (world_message_of (uh_type header) = Some SnapshotMessage)) then ([], p)
      else
        let '(ok, snapshot) := decodeSnapshot (drop bodyOffset data) snapshot_default in
        if negb ok then ([MalformedSnapshot], p)
        else
          (sample elapsed (received p) snapshot,
           mkProgress (received p + 1) (uh_sequence header)
             (if (0 <? received p) && (uh_sequence header <? lastSequence p)
              then outOfOrder p + 1 else outOfOrder p)
             (if received p =? 0 then sn_tick snapshot else firstTick p)
             (sn_tick snapshot))
  end.

(** [sizeof buffer]. *)
Definition buffer_size : nat := 2048.

(** The inner loop: one turn per answer of the kernel; it ends at the first
    call that brings nothing. *)
Fixpoint receive_loop (answers : nat) (elapsed : double) (udp : UdpSocket) (p : Progress)
    : list Printed * UdpSocket * Progress :=
  match answers with
  | O => ([], udp, p)
  | S answers' =>
      let '(ok, data, _, udp) := receiveFrom buffer_size udp in
      if negb ok || bool_decide (data = []) then ([], udp, p)
      else
        let '(lines, p) := onDatagram elapsed data p in
        let '(rest, udp, p) := receive_loop answers' elapsed udp p in
        (lines ++ rest, udp, p)
  end.

End Receiving.

(** ** The program *)

Section WorldCli.
Context {E : Type} `{HApi : SocketApi E} `{HClk : Clocks E} `{HAtan : Atan2}.
Local Open Scope tool_scope.

Abbreviation M := (TM Printed E).

Fixpoint t_says (ls : list Printed) : M () :=
  match ls with [] => t_ret tt | l :: ls' => t_say l ;;? t_says ls' end.

(** [sendInput] of the script: nothing, a step forward, or standing still with
    a jump between the first and the next tenth of a second. *)
Definition script_packet (action : string) (playerId inputSequence : Z) (elapsed : double)
    : option (list byte) :=
  let packet forward jump :=
    NetClient.input_packet playerId inputSequence forward f32_zero f32_zero
      (if jump : bool then kInputJump else 0) in
  if decide (action = "move"%string) then Some (packet f32_one false)
  else if decide (action = "jump"%string) then
    Some (packet f32_zero ((f64_of_Z 1 <? elapsed)%f64 && (elapsed <? lit64 11 10)%f64))
  else None.

Section Listening.
Variables (playerId ownEntityId : Z) (action : string) (udpTarget : Address) (started deadline : Z).

(** The loop until the deadline; [None] is out of fuel. *)
Fixpoint listen (fuel : nat) (inputSequence : Z) (udp : UdpSocket) (p : Progress)
    : M (option (Z * UdpSocket * Progress)) :=
  match fuel with
  | O => t_ret None
  | S fuel' =>
      let? now := t_env steady_now in
      if negb (now <? deadline) then t_ret (Some (inputSequence, udp, p))
      else
        let? _ready := t_env (waitReadable 1 16) in
        let? now := t_env steady_now in
        let elapsed := seconds_of_nanos (now - started) in
        let packet := script_packet action playerId inputSequence elapsed in
        match packet with Some data => t_act (Datagram udpTarget data) | None => t_ret tt end ;;?
        let inputSequence :=
          match packet with Some _ => u32 (inputSequence + 1) | None => inputSequence end in
        let '(lines, udp, p) :=
          receive_loop ownEntityId action (S (length (us_rx udp))) elapsed udp p in
        t_says lines ;;?
        listen fuel' inputSequence udp p
  end.

End Listening.

(** [for (elapsed = 0; elapsed < timeoutMs; elapsed += 50)]: a turn for each
    started 50 milliseconds and a last look. *)
Definition awaitMessage (stream : MessageStream) (timeoutMs : Z)
    : SM E (option Message * MessageStream) :=
  await_elapsed (S (S (Z.to_nat (timeoutMs / 50)))) 0 timeoutMs stream.

(** The login of step 1: the token, and the world's address. *)
Definition log_in (getenv : string -> option string) (username password : string)
    : M (string * string * Z) :=
  let host := envString getenv "AUTH_HOST" "127.0.0.1" in
  let port := envPort getenv "AUTH_SERVER_PORT" 7001 in
  let? socket := t_connect CannotResolve ConnectFailed ConnectRefused host port in
  let? stream := t_send host port (auth_message_code LoginRequest)
                   (NetClient.login_payload username password) socket in
  let? answer := t_env (awaitMessage stream 10000) in
  let? message := t_some answer.1 NoLoginResponse 1 in
  let '(result, reader) := r_u8 (open_reader (msg_payload message)) in
  let '(token, reader) := r_string reader in
  let '(worldHost, reader) := r_string reader in
  let '(worldPort, _) := r_u16 reader in
  t_require (bool_decide (auth_result_of result = Some AuthSuccess))
    (LoginFailed (toString (auth_result_of result))) 1 ;;?
  t_say (LoginOk worldHost worldPort) ;;?
  t_ret (token, worldHost, worldPort).

(** The join of step 2: the connection, the player, the UDP port and the
    entity. *)
Definition join (token worldHost : string) (worldPort : Z) : M (MessageStream * Z * Z * Z) :=
  let? socket := t_connect CannotResolve ConnectFailed ConnectRefused worldHost worldPort in
  let? stream := t_send worldHost worldPort (world_message_code JoinRequest)
                   (NetClient.join_payload token) socket in
  let? answer := t_env (awaitMessage stream 10000) in
  let? message := t_some answer.1 NoJoinResponse 1 in
  let '((result, playerId, udpPort, name, entityId), _) :=
    NetClient.read_join (open_reader (msg_payload message)) in
  t_require (bool_decide (join_result_of result = Some JoinSuccess)) (JoinFailed result) 1 ;;?
  t_say (Joined playerId name entityId udpPort) ;;?
  t_ret (answer.2, playerId, udpPort, entityId).

(** The hello of step 3: the UDP socket and the world's address. *)
Definition say_hello (worldHost token : string) (udpPort playerId : Z) : M (UdpSocket * Address) :=
  let? udp := t_env (udp_open 0) in
  let? udp := t_some udp NoUdpSocket 1 in
  let? target := t_env (resolve worldHost udpPort) in
  match target with
  | None => t_exit 1
  | Some target =>
      t_act (Datagram target (NetClient.hello_packet playerId token)) ;;?
      t_say HelloSent ;;?
      t_ret (udp, target)
  end.

(** Step 4. *)
Definition log_out (worldHost : string) (worldPort : Z) (world : MessageStream) : M () :=
  let code := world_message_code LogoutRequest in
  t_act (Sent worldHost worldPort code []) ;;?
  let? answer := t_env (awaitMessage (send world code []) 3000) in
  match answer.1 with Some _ => t_say LoggedOut | None => t_ret tt end.

Definition summary (seconds : Z) (p : Progress) : Printed :=
  Summary (received p) seconds (Z.quot (received p) (if 0 <? seconds then seconds else 1))
    (firstTick p) (lastTick p) (outOfOrder p).

(** [main], with [argv[1..]], whether [initSockets] succeeds and the fuel of the
    loop; [None] is out of fuel. *)
Definition main (fuel : nat) (getenv : string -> option string) (initSockets : bool)
    (args : list string) : M (option Z) :=
  match args with
  | username :: password :: options =>
      let seconds := match options with s :: _ => atoi (c_str s) | [] => 3 end in
      let action := nth 1 options EmptyString in
      if negb initSockets then t_exit 1
      else
        let? session := log_in getenv username password in
        let '(token, worldHost, worldPort) := session in
        let? joined := join token worldHost worldPort in
        let '(world, playerId, udpPort, entityId) := joined in
        let? link := say_hello worldHost token udpPort playerId in
        let '(udp, target) := link in
        let? started := t_env steady_now in
        let deadline := started + seconds * nanos_per_second in
        let? listened := listen playerId entityId action target started deadline fuel 1 udp
                           no_progress in
        match listened with
        | None => t_ret None
        | Some (_, _, p) =>
            t_say (summary seconds p) ;;?
            log_out worldHost worldPort world ;;?
            t_ret (Some (if 0 <? received p then 0 else 1))
        end
  | _ => t_say Usage ;;? t_ret (Some 2)
  end.

End WorldCli.
