(* ===== verification/WorldCliSpec.v ===== *)
(** * The replication tool, by itself and against the servers

    The counters it prints are functions of the list of snapshots it received; it
    stops by the clock; and on a network without obstacles it joins the
    world it was sent to and exits with 0 exactly when replication works. *)

From Stdlib Require Import ZArith Lia Strings.Byte Strings.String Floats.SpecFloat.
From stdpp Require Import base list option strings.
From S2P Require Import Prelude Float32 Platform Config ByteStream Protocol Snapshot Framing.
From S2P Require Import Address Sockets Tools NetClientSpec ClientServer.
From S2P Require NetClient AuthServer World.
From S2P Require Import WorldCli.

Open Scope Z_scope.

(** ** The counters *)

(** How often a list goes down from one element to the next. *)
Fixpoint descents (l : list Z) : Z :=
  match l with
  | a :: ((b :: _) as l') => (if b <? a then 1 else 0) + descents l'
  | _ => 0
  end.

Lemma descents_snoc l a b :
  descents ((l ++ [a]) ++ [b]) = descents (l ++ [a]) + (if b <? a then 1 else 0).
Proof.
  induction l as [|x l IH]; [cbn; lia|].
  destruct l as [|y l]; cbn [app descents] in *; lia.
Qed.

(** What the counters are for the snapshots received so far, each with the
    sequence of its datagram. *)
Definition tally (l : list (Z * Snapshot)) : Progress :=
  mkProgress (Z.of_nat (length l)) (default 0 (fst <$> last l)) (descents (fst <$> l))
    (default 0 ((fun s => sn_tick s.2) <$> head l)) (default 0 ((fun s => sn_tick s.2) <$> last l)).

Lemma tally_snoc l s :
  tally (l ++ [s]) =
  mkProgress (received (tally l) + 1) s.1
    (if (0 <? received (tally l)) && (s.1 <? lastSequence (tally l))
     then outOfOrder (tally l) + 1 else outOfOrder (tally l))
    (if received (tally l) =? 0 then sn_tick s.2 else firstTick (tally l)) (sn_tick s.2).
Proof.
  unfold tally. cbn [received lastSequence outOfOrder firstTick]. rewrite last_snoc, length_app.
  destruct l as [|x l] using rev_ind; [done|].
  rewrite !fmap_app. cbn [fmap list_fmap]. rewrite descents_snoc, last_snoc.
  assert (Hl : (0 <? Z.of_nat (length (l ++ [x]))) = true /\ (Z.of_nat (length (l ++ [x])) =? 0) = false).
  { rewrite length_app. cbn. rewrite Z.ltb_lt, Z.eqb_neq. lia. }
  destruct Hl as [-> ->]. cbn [fmap option_fmap option_map default andb length].
  rewrite Nat2Z.inj_add. f_equal.
  - unfold id. destruct (s.1 <? x.1); lia.
  - by destruct l.
Qed.

Section Counting.
Context `{HAtan : Atan2}.
Variables (ownEntityId : Z) (action : string).

Lemma onDatagram_tally elapsed data l :
  (onDatagram ownEntityId action elapsed data (tally l)).2 = tally (l ++ option_list (snapshot_in data)).
Proof.
  unfold onDatagram, snapshot_in. destruct (readUdpHeader data) as [[header offset]|];
    [|by rewrite app_nil_r].
  destruct (bool_decide _); cbn [negb]; [|by rewrite app_nil_r].
  destruct (decodeSnapshot _ _) as [[] snapshot]; cbn [negb snd].
  - symmetry. apply (tally_snoc l (uh_sequence header, snapshot)).
  - by rewrite app_nil_r.
Qed.

(** The datagrams among the kernel's answers, as the buffer holds them; an
    empty one ends a turn like no datagram at all. *)
Definition heard (answers : list RecvFromAnswer) : list (list byte) :=
  omap (fun a => match a with
                 | FromPeer _ data =>
                     if decide (take buffer_size data = []) then None else Some (take buffer_size data)
                 | RecvFromErrno _ _ => None
                 end) answers.

Definition taken (answers : list RecvFromAnswer) : list (Z * Snapshot) :=
  omap snapshot_in (heard answers).

Lemma taken_cons a answers : taken (a :: answers) = taken [a] ++ taken answers.
Proof.
  unfold taken, heard. rewrite <- omap_app. f_equal. by rewrite <- omap_app.
Qed.

Lemma tally_silent l answers : taken answers = [] -> tally l = tally (l ++ taken answers).
Proof. intros ->. by rewrite app_nil_r. Qed.

Lemma receive_loop_tally answers elapsed : forall udp l,
  let '(_, udp', p') := receive_loop ownEntityId action answers elapsed udp (tally l) in
  exists used, us_rx udp = used ++ us_rx udp' /\ p' = tally (l ++ taken used).
Proof.
  induction answers as [|n IH]; intros [rx] l; cbn [receive_loop].
  { exists []. by split; [|apply tally_silent]. }
  destruct rx as [|[from data|b r] rx]; cbn [receiveFrom us_rx].
  - exists []. by split; [|apply tally_silent].
  - cbn [negb orb]. case_bool_decide as Hd.
    + exists [FromPeer from data]. split; [done|]. apply tally_silent. unfold taken, heard. cbn.
      by rewrite decide_True.
    + pose proof (onDatagram_tally elapsed (take buffer_size data) l) as Hp.
      destruct (onDatagram _ _ _ _ _) as [lines p]. cbn [snd] in Hp. subst p.
      specialize (IH (mkUdpSocket rx) (l ++ option_list (snapshot_in (take buffer_size data)))).
      destruct (receive_loop _ _ n _ _ _) as [[rest udp'] p']. destruct IH as (used & H1 & H2).
      exists (FromPeer from data :: used). cbn [us_rx] in H1. split; [by rewrite H1|].
      rewrite H2, taken_cons, app_assoc. do 3 f_equal. unfold taken, heard. cbn.
      rewrite decide_False by done. cbn. by destruct (snapshot_in _).
  - destruct (b || r)%bool; exists [RecvFromErrno b r]; by (split; [|apply tally_silent]).
Qed.

End Counting.

(** ** Listening *)

Section Listening.
Context {E : Type} `{HApi : SocketApi E} `{HClk : Clocks E} `{HAtan : Atan2}.
Local Open Scope tool_scope.

Abbreviation Acts := (list (Act Printed)).

(** The datagrams of a trace. *)
Definition datagrams (acts : Acts) : list (Address * list byte) :=
  omap (fun a => match a with Datagram to data => Some (to, data) | _ => None end) acts.

Definition local_act (a : Act Printed) : Prop := match a with Sent _ _ _ _ => False | _ => True end.

(** [packets] are inputs to [target], numbered on from [sequence]. *)
Fixpoint numbered (playerId : Z) (target : Address) (sequence : Z)
    (packets : list (Address * list byte)) : Prop :=
  match packets with
  | [] => True
  | (to, data) :: packets =>
      to = target /\ (exists forward buttons,
        data = NetClient.input_packet playerId sequence forward f32_zero f32_zero buttons) /\
      numbered playerId target (u32 (sequence + 1)) packets
  end.

Lemma t_says_does ls (t : Tool Printed E) : t_says ls t = (Value tt, mkTool (tl_acts t ++ (Line <$> ls)) (tl_env t)).
Proof.
  revert t. induction ls as [|l ls IH]; intros t; cbn [t_says].
  - destruct t. cbn. by rewrite app_nil_r.
  - unfold t_bind, sm_bind, t_say, t_act. rewrite IH. cbn. by rewrite <- app_assoc.
Qed.

(** The clock never goes back and every wait takes at least a nanosecond;
    [clk] is the time it shows. *)
Record clock_runs (clk : E -> Z) : Prop := {
  now_shown e : (steady_now e).1 = clk e;
  now_passes e : clk e <= clk (steady_now e).2;
  wait_passes ms e : clk e + 1 <= clk (waitReadable 1 ms e).2;
}.

Context (clk : E -> Z) (Hclk : clock_runs clk).
Variables (playerId ownEntityId : Z) (action : string) (target : Address) (started deadline : Z).

Abbreviation listening := (listen playerId ownEntityId action target started deadline).

(** The result of listening: where it stopped, with the snapshots taken
    counted and the inputs numbered. *)
Definition listened (sequence : Z) (udp : UdpSocket) (l : list (Z * Snapshot))
    (t : Tool Printed E) (r : Outcome (option (Z * UdpSocket * Progress)) * Tool Printed E) : Prop :=
  exists sequence' udp' p' acts used,
    r.1 = Value (Some (sequence', udp', p')) /\ tl_acts r.2 = tl_acts t ++ acts /\
    Forall local_act acts /\ numbered playerId target sequence (datagrams acts) /\
    (action = EmptyString -> datagrams acts = []) /\
    us_rx udp = used ++ us_rx udp' /\ p' = tally (l ++ taken used).

Lemma datagrams_lines (ls : list Printed) : datagrams (Line <$> ls) = [].
Proof. induction ls; [done|]. unfold datagrams in *. cbn. done. Qed.

Lemma local_lines (ls : list Printed) : Forall local_act (Line <$> ls).
Proof. apply Forall_fmap. by induction ls; constructor. Qed.

Lemma script_packet_spec sequence elapsed data :
  script_packet action playerId sequence elapsed = Some data ->
  action <> EmptyString /\ exists forward buttons,
    data = NetClient.input_packet playerId sequence forward f32_zero f32_zero buttons.
Proof.
  unfold script_packet. destruct (decide (action = "move"%string)) as [->|Hm].
  - intros [= <-]. split; [done|]. by eexists _, _.
  - destruct (decide (action = "jump"%string)) as [->|Hj]; [|done].
    intros [= <-]. split; [done|]. by eexists _, _.
Qed.

(** The loop stops by the clock: a turn takes at least a nanosecond. *)
Lemma listened_turn sequence sequence' udp udp' used l t acts e r :
  Forall local_act acts ->
  (forall rest, numbered playerId target sequence' rest ->
     numbered playerId target sequence (datagrams acts ++ rest)) ->
  (action = EmptyString -> datagrams acts = []) ->
  us_rx udp = used ++ us_rx udp' ->
  listened sequence' udp' (l ++ taken used) (mkTool (tl_acts t ++ acts) e) r ->
  listened sequence udp l t r.
Proof.
  intros Ha Hn Hq Hu (s2 & udp2 & p2 & acts2 & used2 & H1 & H2 & H3 & H4 & H5 & H6 & H7).
  assert (Hd : datagrams (acts ++ acts2) = datagrams acts ++ datagrams acts2) by apply omap_app.
  exists s2, udp2, p2, (acts ++ acts2), (used ++ used2). split_and!.
  - done.
  - rewrite H2. cbn [tl_acts]. by rewrite app_assoc.
  - by apply Forall_app.
  - rewrite Hd. by apply Hn.
  - intros E0. rewrite Hd, Hq, H5 by done. done.
  - by rewrite Hu, H6, app_assoc.
  - rewrite H7, <- app_assoc. unfold taken, heard. by rewrite !omap_app.
Qed.

Lemma listen_ends fuel : forall sequence udp l t,
  Z.max 0 (deadline - clk (tl_env t)) < Z.of_nat fuel ->
  wp (listening fuel sequence udp (tally l))
    (fun o t' => listened sequence udp l t (o, t')) t.
Proof.
  induction fuel as [|fuel IH]; intros sequence udp l t Hf; [lia|]. cbn [listen].
  wp_step. apply wp_env. intros now e1 Hnow. cbn [and_then].
  pose proof (now_shown _ Hclk (tl_env t)) as Hs1. pose proof (now_passes _ Hclk (tl_env t)) as Hp1.
  rewrite Hnow in Hs1, Hp1. cbn [fst snd] in Hs1, Hp1. subst now.
  destruct (Z.ltb_spec (clk (tl_env t)) deadline) as [Hlt|Hge]; cbn [negb].
  2: { wp_step. exists sequence, udp, (tally l), [], []. cbn [fst snd tl_acts].
       rewrite app_nil_r. split_and!; try done. by apply tally_silent. }
  wp_step. apply wp_env. intros ready e2 Hready. cbn [and_then tl_env tl_acts] in *.
  pose proof (wait_passes _ Hclk 16 e1) as Hw. rewrite Hready in Hw. cbn [snd] in Hw.
  wp_step. apply wp_env. intros now2 e3 Hnow2. cbn [and_then tl_env tl_acts] in *.
  pose proof (now_passes _ Hclk e2) as Hp2. rewrite Hnow2 in Hp2. cbn [snd] in Hp2.
  set (elapsed := seconds_of_nanos _).
  pose proof (receive_loop_tally ownEntityId action (S (length (us_rx udp))) elapsed udp l) as Hr.
  destruct (receive_loop _ _ _ _ _ _) as [[lines udp'] p']. destruct Hr as (used & Hu & ->).
  destruct (script_packet _ _ _ _) as [data|] eqn:Ep.
  - apply script_packet_spec in Ep as [Hact (forward & buttons & ->)].
    repeat wp_step. unfold wp at 1. rewrite t_says_does. cbn [fst snd and_then tl_env tl_acts].
    eapply wp_mono; [apply IH; cbn [tl_env]; lia|]. intros o t' Hl.
    rewrite <- app_assoc in Hl. eapply listened_turn; [..|exact Hl].
    + constructor; [done|apply local_lines].
    + intros rest Hrest. cbn. rewrite datagrams_lines. by eauto.
    + by intros ->.
    + done.
  - repeat wp_step. unfold wp at 1. rewrite t_says_does. cbn [fst snd and_then tl_env tl_acts].
    eapply wp_mono; [apply IH; cbn [tl_env]; lia|]. intros o t' Hl.
    eapply listened_turn; [..|exact Hl]; rewrite ?datagrams_lines; try done. apply local_lines.
Qed.

End Listening.

(** ** A whole run *)

Section Run.
Context {E : Type} `{HApi : SocketApi E} `{HClk : Clocks E} `{HAtan : Atan2}.
Context (ip_of : string -> Z) (script : Address -> list RecvResult) (clk : E -> Z).
Hypothesis Hco : cooperative ip_of script.
Hypothesis Hclk : clock_runs clk.

(** The slices of the ten seconds an answer is waited for. *)
Definition kSlices : nat := 200.

Lemma cooperative_reaches host port e :
  exists tx e', reaches host port (mkSocket (script (mkAddress (ip_of host) port)) tx []) e e'.
Proof.
  set (a := mkAddress (ip_of host) port).
  pose proof (co_resolve _ _ Hco host port e) as H1.
  destruct (resolve host port e) as [o e1] eqn:E1. cbn [fst] in H1. subst o.
  destruct (co_connect _ _ Hco a e1) as [tx H2].
  destruct (tcp_connect a e1) as [o e2] eqn:E2. cbn [fst] in H2. subst o.
  destruct (waitReadable 1 2000 e2) as [ready e3] eqn:E3.
  pose proof (co_result _ _ Hco e3) as H4.
  destruct (connectResult e3) as [b e4] eqn:E4. cbn [fst] in H4. subst b.
  exists tx, e4, a, e1, e2, ready, e3. by split_and!.
Qed.

(** A request on this network, up to the answer its script carries. *)
Lemma wp_exchange {B} host port type payload m (k : MessageStream -> TM Printed E B) Q t :
  carries kSlices m (script (mkAddress (ip_of host) port)) [] ->
  (forall stream, sk_rx (ms_socket stream) = script (mkAddress (ip_of host) port) ->
     ms_readBuffer stream = [] ->
     forall e, wp (k stream) Q (mkTool (tl_acts t ++ [Sent host port type payload]) e)) ->
  wp (t_bind (t_connect CannotResolve ConnectFailed ConnectRefused host port)
        (fun socket => t_bind (t_send host port type payload socket) k)) Q t.
Proof.
  intros Hc HQ. destruct (cooperative_reaches host port (tl_env t)) as (tx & e' & Hr).
  wp_step. eapply wp_reaches; [exact Hr|]. cbn [and_then]. wp_step. apply wp_send.
  intros s Hrx Hb. cbn [and_then]. by apply HQ.
Qed.

Lemma wp_await m stream (Q : Outcome (option Message * MessageStream) -> Tool Printed E -> Prop) t :
  carries kSlices m (sk_rx (ms_socket stream)) (ms_readBuffer stream) ->
  (forall s e, Q (Value (Some m, s)) (mkTool (tl_acts t) e)) ->
  wp (t_env (awaitMessage stream 10000)) Q t.
Proof.
  intros Hc HQ. destruct (await_slices_carried kSlices m stream (tl_env t) Hc) as (s & e & He).
  apply wp_env. intros a e'. unfold awaitMessage.
  rewrite (await_elapsed_slices kSlices) by (vm_compute; lia || done). rewrite He.
  intros [= <- <-]. apply HQ.
Qed.

Lemma login_fields_read token worldHost worldPort accountId level :
  wire_ok token -> wire_ok worldHost -> fits 16 worldPort -> fits 64 accountId ->
  let '(result, reader) := r_u8 (open_reader
    (AuthServer.login_payload AuthSuccess token worldHost worldPort accountId level)) in
  let '(a, reader) := r_string reader in
  let '(b, reader) := r_string reader in
  let '(c, _) := r_u16 reader in
  (result, a, b, c) = (auth_result_code AuthSuccess, token, worldHost, worldPort).
Proof.
  intros H1 H2 H3 H4.
  destruct (login_response_read AuthSuccess token worldHost worldPort accountId level H1 H2 H3 H4)
    as (r & _ & Hr).
  unfold NetClient.read_login, rbind, rret in Hr.
  destruct (r_u8 _) as [x r1]. destruct (r_string r1) as [a r2]. destruct (r_string r2) as [b r3].
  destruct (r_u16 r3) as [c r4]. destruct (r_u64 r4) as [d r5]. by injection Hr as -> -> -> ->.
Qed.

Lemma wp_log_in getenv username password type token worldHost worldPort accountId level
    (Q : Outcome (string * string * Z) -> Tool Printed E -> Prop) t :
  let host := envString getenv "AUTH_HOST" "127.0.0.1" in
  let port := envPort getenv "AUTH_SERVER_PORT" 7001 in
  wire_ok token -> wire_ok worldHost -> fits 16 worldPort -> fits 64 accountId ->
  carries kSlices (mkMessage type
    (AuthServer.login_payload AuthSuccess token worldHost worldPort accountId level))
    (script (mkAddress (ip_of host) port)) [] ->
  (forall e, Q (Value (token, worldHost, worldPort)) (mkTool (tl_acts t ++
     [Sent host port (auth_message_code LoginRequest) (NetClient.login_payload username password);
      Line (LoginOk worldHost worldPort)]) e)) ->
  wp (log_in getenv username password) Q t.
Proof.
  cbv zeta. intros H1 H2 H3 H4 Hc HQ. unfold log_in. eapply wp_exchange; [exact Hc|].
  intros stream Hrx Hb e. wp_step. eapply wp_await; [rewrite Hrx, Hb; exact Hc|]. intros s e'.
  cbn [and_then fst t_some msg_payload tl_acts]. wp_step. apply wp_ret. cbn [and_then msg_payload].
  pose proof (login_fields_read token worldHost worldPort accountId level H1 H2 H3 H4) as Hr.
  destruct (r_u8 _) as [x r1]. destruct (r_string r1) as [a r2]. destruct (r_string r2) as [b r3].
  destruct (r_u16 r3) as [c r4]. injection Hr as -> -> -> ->.
  wp_step. apply wp_require; [intros _|done]. repeat wp_step. cbn [tl_acts] in *.
  rewrite <- app_assoc. apply HQ.
Qed.

Lemma wp_join type token worldHost worldPort playerId udpPort name entityId
    (Q : Outcome (MessageStream * Z * Z * Z) -> Tool Printed E -> Prop) t :
  fits 64 playerId -> fits 16 udpPort -> wire_ok name -> fits 32 entityId ->
  carries kSlices (mkMessage type (World.join_payload JoinSuccess playerId udpPort name entityId))
    (script (mkAddress (ip_of worldHost) worldPort)) [] ->
  (forall stream e, Q (Value (stream, playerId, udpPort, entityId)) (mkTool (tl_acts t ++
     [Sent worldHost worldPort (world_message_code JoinRequest) (NetClient.join_payload token);
      Line (Joined playerId name entityId udpPort)]) e)) ->
  wp (join token worldHost worldPort) Q t.
Proof.
  intros H1 H2 H3 H4 Hc HQ. unfold join. eapply wp_exchange; [exact Hc|].
  intros stream Hrx Hb e. wp_step. eapply wp_await; [rewrite Hrx, Hb; exact Hc|]. intros s e'.
  cbn [and_then fst snd t_some msg_payload tl_acts]. wp_step. apply wp_ret. cbn [and_then msg_payload].
  destruct (join_response_read JoinSuccess playerId udpPort name entityId H1 H2 H3 H4) as (r & _ & ->).
  wp_step. apply wp_require; [intros _|done]. repeat wp_step. cbn [tl_acts] in *.
  rewrite <- app_assoc. apply HQ.
Qed.

Lemma wp_say_hello worldHost token udpPort playerId
    (Q : Outcome (UdpSocket * Address) -> Tool Printed E -> Prop) t :
  let target := mkAddress (ip_of worldHost) udpPort in
  (forall udp e0 e, (udp_open 0 e0).1 = Some udp -> Q (Value (udp, target)) (mkTool (tl_acts t ++
     [Datagram target (NetClient.hello_packet playerId token); Line HelloSent]) e)) ->
  wp (say_hello worldHost token udpPort playerId) Q t.
Proof.
  cbv zeta. intros HQ. unfold say_hello. wp_step. apply wp_env. intros o e1 Ho. cbn [and_then].
  pose proof (co_udp _ _ Hco (tl_env t)) as [udp Hu]. rewrite Ho in Hu. cbn [fst] in Hu. subst o.
  wp_step. apply wp_ret. cbn [and_then]. wp_step. apply wp_env. intros a e2 Ha. cbn [and_then tl_env] in *.
  pose proof (co_resolve _ _ Hco worldHost udpPort e1) as Hr. rewrite Ha in Hr. cbn [fst] in Hr. subst a.
  repeat wp_step. cbn [tl_acts]. rewrite <- app_assoc. apply (HQ udp (tl_env t)). by rewrite Ho.
Qed.

Lemma wp_log_out worldHost worldPort world
    (Q : Outcome () -> Tool Printed E -> Prop) t :
  (forall bye e, bye = [] \/ bye = [Line LoggedOut] -> Q (Value tt) (mkTool (tl_acts t ++
     Sent worldHost worldPort (world_message_code LogoutRequest) [] :: bye) e)) ->
  wp (log_out worldHost worldPort world) Q t.
Proof.
  intros HQ. unfold log_out. wp_step. apply wp_act. cbn [and_then]. wp_step. apply wp_env.
  intros answer e He. cbn [and_then tl_acts]. destruct answer.1; wp_step; cbn [tl_acts].
  - rewrite <- app_assoc. apply HQ. by right.
  - apply HQ. by left.
Qed.

(** What the options of the command line ask for. *)
Definition seconds_of (options : list string) : Z :=
  match options with s :: _ => atoi (c_str s) | [] => 3 end.
Definition action_of (options : list string) : string := nth 1 options EmptyString.

(** C32: the tool verifies replication. On a network without obstacles, with an
    auth server that accepts the login and a world server that accepts the join,
    each answering within ten seconds in any chunks, the tool ends by the clock; it
    logged in and joined as it was told, said hello with the session's token to the
    world's UDP port, sent there only inputs of the player numbered from one, and
    logged out; the summary counts exactly the snapshots among the datagrams it
    took, and it exits with 0 exactly when there was one. *)
Theorem replication_reported (getenv : string -> option string) (fuel : nat)
    (username password token worldHost name : string) (options : list string)
    (worldPort accountId level playerId udpPort entityId ltype jtype : Z) (env : E)
    (Htexts : Forall wire_ok [token; worldHost; name])
    (Hports : fits 16 worldPort /\ fits 16 udpPort)
    (Hids : fits 64 accountId /\ fits 64 playerId /\ fits 32 entityId)
    (Hauth : carries kSlices (mkMessage ltype
       (AuthServer.login_payload AuthSuccess token worldHost worldPort accountId level))
       (script (mkAddress (ip_of (envString getenv "AUTH_HOST" "127.0.0.1"))
          (envPort getenv "AUTH_SERVER_PORT" 7001))) [])
    (Hworld : carries kSlices (mkMessage jtype
       (World.join_payload JoinSuccess playerId udpPort name entityId))
       (script (mkAddress (ip_of worldHost) worldPort)) [])
    (Hfuel : Z.max 0 (seconds_of options * nanos_per_second) < Z.of_nat fuel) :
  let authHost := envString getenv "AUTH_HOST" "127.0.0.1" in
  let authPort := envPort getenv "AUTH_SERVER_PORT" 7001 in
  let target := mkAddress (ip_of worldHost) udpPort in
  let '(o, t) := main fuel getenv true (username :: password :: options) (mkTool [] env) in
  exists udp e0 used rest acts bye,
    (udp_open 0 e0).1 = Some udp /\ us_rx udp = used ++ rest /\
    o = Value (Some (if decide (taken used = []) then 1 else 0)) /\
    tl_acts t =
      [Sent authHost authPort (auth_message_code LoginRequest)
         (NetClient.login_payload username password);
       Line (LoginOk worldHost worldPort);
       Sent worldHost worldPort (world_message_code JoinRequest) (NetClient.join_payload token);
       Line (Joined playerId name entityId udpPort);
       Datagram target (NetClient.hello_packet playerId token); Line HelloSent] ++ acts ++
      [Line (summary (seconds_of options) (tally (taken used)));
       Sent worldHost worldPort (world_message_code LogoutRequest) []] ++ bye /\
    Forall local_act acts /\ numbered playerId target 1 (datagrams acts) /\
    (action_of options = EmptyString -> datagrams acts = []) /\
    (bye = [] \/ bye = [Line LoggedOut]).
Proof.
  rewrite !Forall_cons in Htexts. destruct Htexts as (H1 & H2 & H3 & _).
  destruct Hports as [H4 H5], Hids as (H6 & H7 & H8). cbv zeta.
  apply wp_run. unfold main. cbn [negb]. fold (seconds_of options). fold (action_of options).
  wp_step. eapply wp_log_in; [exact H1|exact H2|exact H4|exact H6|exact Hauth|]. intros e1. cbn [and_then tl_acts app].
  wp_step. eapply wp_join; [exact H7|exact H5|exact H3|exact H8|exact Hworld|]. intros world e2. cbn [and_then tl_acts app].
  wp_step. apply wp_say_hello. intros udp e0 e3 Hudp. cbn [and_then tl_acts app].
  wp_step. apply wp_env. intros started e4 Hst. cbn [and_then tl_acts tl_env] in *.
  pose proof (now_shown _ Hclk e3) as Hs. pose proof (now_passes _ Hclk e3) as Hp.
  rewrite Hst in Hs, Hp. cbn [fst snd] in Hs, Hp. subst started.
  wp_step. eapply wp_mono.
  { apply (listen_ends clk Hclk playerId entityId (action_of options) (mkAddress (ip_of worldHost) udpPort)
      (clk e3) (clk e3 + seconds_of options * nanos_per_second) fuel 1 udp []). cbn [tl_env]. lia. }
  intros o t' (seq & udp' & p' & acts & used & Hv & Ht & Ha & Hn & Hq & Hu & ->).
  cbn [fst snd tl_acts] in Hv, Ht. subst o. cbn [and_then app]. wp_step. wp_step. cbn [and_then].
  wp_step. apply wp_log_out. intros bye e Hbye. cbn [and_then tl_acts]. wp_step. cbn [tl_acts].
  exists udp, e0, used, (us_rx udp'), acts, bye. split_and!; try done.
  - do 2 f_equal. unfold tally. cbn [received]. destruct (taken used); [done|].
    by rewrite (proj2 (Z.ltb_lt 0 _)) by (cbn; lia).
  - rewrite Ht. cbn. by rewrite <- !app_assoc.
Qed.
End Run.

(** ** A concrete run

    The environment is the time; a wait takes a quarter of a second. Two
    snapshots arrive out of order, with a would-block between them. *)

Definition toy_script (a : Address) : list RecvResult :=
  if port a =? 7001 then
    arrivals [[frame (mkMessage (auth_message_code LoginResponse)
      (AuthServer.login_payload AuthSuccess "t" "world" 7003 5 0))]]
  else
    arrivals [[frame (mkMessage (world_message_code JoinResponse)
      (World.join_payload JoinSuccess 1 7004 "alex" 1000))]].

Definition toy_arrivals : list RecvFromAnswer :=
  [FromPeer (mkAddress 1 7004) (ClientServer.toy_snapshot 5); RecvFromErrno true false;
   FromPeer (mkAddress 1 7004) (ClientServer.toy_snapshot 3); RecvFromErrno true false].

Definition toy_api : SocketApi Z :=
  {| sys_stream_socket := sm_ret true;
     sys_datagram_socket := sm_ret (Some (mkUdpSocket toy_arrivals));
     sys_connect a := sm_ret (ConnectErrno true false, mkSocket (toy_script a) [] []);
     sys_so_error := sm_ret (Some 0);
     sys_bind _ := sm_ret true;
     sys_nonblocking := sm_ret true;
     sys_getaddrinfo _ := sm_ret (Some 1);
     sys_poll _ _ := fun now => ((1, [Z.lor POLLIN POLLOUT]), now + 250000000) |}.

Definition toy_clocks : Clocks Z :=
  {| steady_now now := (now, now); realSeconds now := (f64_zero, now); secondsToday now := (0, now) |}.

Definition toy_atan2 : Atan2 := {| f32_atan2 y x := y |}.

#[local] Existing Instances toy_api toy_clocks toy_atan2.

Example tool_run :
  let '(o, t) := main 6 (fun _ => None) true ["alex"; "secret"; "1"]%string (mkTool [] 0) in
  (o, last (tl_acts t), nth 8 (tl_acts t) (Line Usage)) =
  (Value (Some 0), Some (Sent "world" 7003 202 []),
   Line (summary 1 (tally (taken toy_arrivals)))) /\
  outOfOrder (tally (taken toy_arrivals)) = 1.
Proof. vm_compute. split; reflexivity. Qed.

Definition toy_ip (host : string) : Z := 1.
Definition toy_env (name : string) : option string := None.

Lemma tool_cooperative : cooperative toy_ip toy_script.
Proof. split; try done; by eexists. Qed.

Lemma toy_clock_runs : clock_runs (fun now => now).
Proof. split; [done|done|]. intros ms e. cbn. lia. Qed.

(** A turn for every nanosecond of the second. *)
Definition toy_fuel : nat := Z.to_nat 1000000001.
#[local] Opaque toy_fuel.

Lemma toy_fuel_enough : Z.max 0 (seconds_of ["1"%string] * nanos_per_second) < Z.of_nat toy_fuel.
Proof. Transparent toy_fuel. unfold toy_fuel. rewrite Z2Nat.id by lia. by vm_compute. Qed.
#[local] Opaque toy_fuel.

Lemma replication_reported_witness :
  let '(o, t) := main toy_fuel toy_env true ["alex"; "secret"; "1"]%string
                   (mkTool [] 0) in
  exists udp e0 used rest acts bye,
    (udp_open 0 e0).1 = Some udp /\ us_rx udp = used ++ rest /\
    o = Value (Some (if decide (taken used = []) then 1 else 0)) /\
    tl_acts t =
      [Sent (envString toy_env "AUTH_HOST" "127.0.0.1") (envPort toy_env "AUTH_SERVER_PORT" 7001)
         (auth_message_code LoginRequest)
         (NetClient.login_payload "alex" "secret");
       Line (LoginOk "world" 7003);
       Sent "world" 7003 (world_message_code JoinRequest) (NetClient.join_payload "t");
       Line (Joined 1 "alex" 1000 7004);
       Datagram (mkAddress (toy_ip "world") 7004) (NetClient.hello_packet 1 "t"); Line HelloSent] ++ acts ++
      [Line (summary (seconds_of ["1"%string]) (tally (taken used)));
       Sent "world" 7003 (world_message_code LogoutRequest) []] ++ bye /\
    Forall local_act acts /\ numbered 1 (mkAddress (toy_ip "world") 7004) 1 (datagrams acts) /\
    (action_of ["1"%string] = EmptyString -> datagrams acts = []) /\
    (bye = [] \/ bye = [Line LoggedOut]).
Proof.
  pose proof (replication_reported toy_ip toy_script (fun now => now) tool_cooperative
    toy_clock_runs toy_env toy_fuel "alex" "secret" "t" "world" "alex" ["1"%string]
    7003 5 0 1 7004 1000 (auth_message_code LoginResponse) (world_message_code JoinResponse) 0) as H.
  cbv zeta in H. apply H; clear H.
  - repeat constructor; by vm_compute.
  - by split.
  - by split_and!.
  - eexists. split; [reflexivity|]. split_and!; [repeat constructor; by vm_compute|split; by vm_compute
      |by vm_compute|]. apply (bool_decide_eq_true_1 (_ <= _)%nat). vm_compute. reflexivity.
  - eexists. split; [reflexivity|]. split_and!; [repeat constructor; by vm_compute|split; by vm_compute
      |by vm_compute|]. apply (bool_decide_eq_true_1 (_ <= _)%nat). vm_compute. reflexivity.
  - exact toy_fuel_enough.
Defined.
