(* ===== verification/AdminConsole.v ===== *)
(** * The operator's console ([server/tools/src/console.cpp])

    A separate program: it signs in at the auth server and turns each typed
    command into one request to the auth or the world server, over a
    connection of its own. The globals of the source are the fields of
    [Console], the lines of standard input to come among them; what it prints
    and sends is recorded in order. *)

From Stdlib Require Import ZArith Lia Strings.Byte Strings.Ascii Strings.String.
From Stdlib Require Import Floats.SpecFloat.
From stdpp Require Import base list option strings.
From S2P Require Import Prelude Float32 Config Text ByteStream Protocol Framing Address Sockets.
From S2P Require Console.
From S2P Require Import Console.
Import ByteWriter.

Open Scope Z_scope.

(** ** What the console does *)

(** The lines it prints, with the values [printf] is given. *)
Inductive Printed :=
| CannotReach (host : string) (port : Z)
| NoResponse
| Failed (text : string)
| AccountCreated (name : string)
| AskDelete (name : string)
| Aborted
| AccountDeleted (name : string)
| NowLevel (name levelName : string) (level : Z)
| NoPermission
| SessionOver
| LatencyOff
| LatencySet (milliseconds roundTrip : Z)
| ClockTime (hours mins : Z)
| RealTime
| Frozen
| MinuteDay (speed minutes : float)
| SecondDay (speed seconds : float)
| PlayersOnline (players tick : Z)
| SimulatedLatency (milliseconds : Z)
| LoginFailed (text : string)
| SignedIn (user levelName : string)
| NoPrivileges
| HelpText
| ExpectedTime
| ExpectedSpeed
| UsageTime
| UsageLatency
| UsageAccount
| UnknownCommand (command : string)
| NoTerminal
| AskAccount
| AskPassword
| Banner
| Prompt.

Inductive Event :=
| Print (p : Printed)
| Send (host : string) (port : Z) (type : Z) (payload : list byte).

Record Console (E : Type) := mkConsole {
  gToken : string;
  gUser : string;
  gPassword : string;
  gLevel : Z;
  cs_stdin : list string;
  cs_events : list Event;
  cs_env : E;
}.
Arguments mkConsole {E}.
Arguments gToken {E}.
Arguments gUser {E}.
Arguments gPassword {E}.
Arguments gLevel {E}.
Arguments cs_stdin {E}.
Arguments cs_events {E}.
Arguments cs_env {E}.

Section AdminConsole.
Context {E : Type} `{HApi : SocketApi E} `{HLibm : Libm}.
Local Open Scope sm_scope.

Abbreviation St := (Console E).

Definition on_env {A} (m : SM E A) : SM St A := fun c =>
  let '(a, e) := m (cs_env c) in
  (a, mkConsole (gToken c) (gUser c) (gPassword c) (gLevel c) (cs_stdin c) (cs_events c) e).

Definition event (e : Event) : SM St () := sm_modify (fun c =>
  mkConsole (gToken c) (gUser c) (gPassword c) (gLevel c) (cs_stdin c) (cs_events c ++ [e])
    (cs_env c)).

Definition say (p : Printed) : SM St () := event (Print p).

(** [std::getline(std::cin, ...)]; [None] is the end of the input. *)
Definition getline : SM St (option string) := fun c =>
  match cs_stdin c with
  | [] => (None, c)
  | line :: rest =>
      (Some line, mkConsole (gToken c) (gUser c) (gPassword c) (gLevel c) rest (cs_events c)
                    (cs_env c))
  end.

Definition set_session (token : string) (level : Z) : SM St () := sm_modify (fun c =>
  mkConsole token (gUser c) (gPassword c) level (cs_stdin c) (cs_events c) (cs_env c)).

(** The hosts and ports [main] reads once from its environment. *)
Variables (gAuthHost : string) (gAuthPort : Z) (gWorldHost : string) (gWorldPort : Z).

(** ** One request *)

Definition connectTo (host : string) (port : Z) : SM E (option Socket) :=
  let! address := resolve host port in
  match address with
  | None => sm_ret None
  | Some address =>
      let! connecting := tcp_connect address in
      match connecting with
      | None => sm_ret None
      | Some socket =>
          waitReadable 1 3000;;
          let! connected := connectResult in
          sm_ret (if connected then Some socket else None)
      end
  end.

(** The turns of the loop that waits for the answer: one every 50 of 20000
    milliseconds. *)
Definition kReplyTurns : nat := Z.to_nat (20000 / 50).

Fixpoint await_reply (turns : nat) (stream : MessageStream) : SM E (option Message) :=
  match turns with
  | O => sm_ret None
  | S turns' =>
      match Framing.next stream with
      | Some (reply, _) => sm_ret (Some reply)
      | None =>
          waitReadable 1 50;;
          let '(ok, stream) := pump stream in
          if ok then await_reply turns' stream else sm_ret None
      end
  end.

Definition request (host : string) (port type : Z) (payload : list byte) : SM St (option Message) :=
  let! socket := on_env (connectTo host port) in
  match socket with
  | None => say (CannotReach host port);; sm_ret None
  | Some socket =>
      event (Send host port type payload);;
      let! reply := on_env (await_reply kReplyTurns (send (new_stream socket) type payload)) in
      match reply with
      | Some reply => sm_ret (Some reply)
      | None => say NoResponse;; sm_ret None
      end
  end.

Definition request_auth (type : AuthMessage) (payload : list byte) : SM St (option Message) :=
  request gAuthHost gAuthPort (auth_message_code type) payload.

Definition request_world (type : WorldMessage) (payload : list byte) : SM St (option Message) :=
  request gWorldHost gWorldPort (world_message_code type) payload.

(** ** Accounts *)

Definition level_name (level : Z) : string :=
  nth (Z.to_nat (if level <? 3 then level else 0)) ["player"; "game master"; "admin"]%string
    EmptyString.

Definition read_result (reply : Message) : option AuthResult :=
  auth_result_of (r_u8 (open_reader (msg_payload reply))).1.

Definition create_payload (token name password : string) (level : Z) : list byte :=
  w_u8 level (w_string password (w_string name (w_string token []))).

Definition delete_payload (token name : string) : list byte := w_string name (w_string token []).

Definition level_payload (token name : string) (level : Z) : list byte :=
  w_u8 level (w_string name (w_string token [])).

Definition accountCreate (name password : string) (level : Z) : SM St () :=
  let! token := sm_gets gToken in
  let! reply := request_auth AdminAccountCreateRequest (create_payload token name password level) in
  match reply with
  | None => sm_ret tt
  | Some reply =>
      if bool_decide (read_result reply = Some AuthSuccess) then say (AccountCreated name)
      else say (Failed (toString (read_result reply)))
  end.

Definition accountDelete (name : string) (assumeYes : bool) : SM St () :=
  let! confirmed :=
    (if assumeYes then sm_ret true
     else
       say (AskDelete name);;
       let! answer := getline in
       match answer with
       | Some answer =>
           if bool_decide (answer = "y" \/ answer = "Y" \/ answer = "yes")%string then sm_ret true
           else say Aborted;; sm_ret false
       | None => say Aborted;; sm_ret false
       end) in
  if negb confirmed then sm_ret tt
  else
    let! token := sm_gets gToken in
    let! reply := request_auth AdminAccountDeleteRequest (delete_payload token name) in
    match reply with
    | None => sm_ret tt
    | Some reply =>
        if bool_decide (read_result reply = Some AuthSuccess) then say (AccountDeleted name)
        else say (Failed (toString (read_result reply)))
    end.

Definition accountSetLevel (name : string) (level : Z) : SM St () :=
  let! token := sm_gets gToken in
  let! reply := request_auth AdminSetLevelRequest (level_payload token name level) in
  match reply with
  | None => sm_ret tt
  | Some reply =>
      if bool_decide (read_result reply = Some AuthSuccess) then
        say (NowLevel name (level_name level) level)
      else say (Failed (toString (read_result reply)))
  end.

(** ** The world *)

Definition latency_payload (token : string) (milliseconds : Z) : list byte :=
  w_u32 milliseconds (w_string token []).

Definition read_latency : Reader (Z * Z) :=
  (result <-- r_u8 ;; current <-- r_u32 ;; rret (result, current))%reader.

(** What the answer of a world command starts with; [None] when refused. *)
Definition refused (result : Z) : option Printed :=
  if result =? 2 then Some NoPermission
  else if negb (result =? 0) then Some SessionOver
  else None.

(** [current * 2] of a [uint32_t]. *)
Definition latencyCommand (milliseconds : Z) : SM St () :=
  let! token := sm_gets gToken in
  let! reply := request_world AdminSetLatencyRequest (latency_payload token milliseconds) in
  match reply with
  | None => sm_ret tt
  | Some reply =>
      let '(result, current) := (read_latency (open_reader (msg_payload reply))).1 in
      match refused result with
      | Some p => say p
      | None => say (if current =? 0 then LatencyOff else LatencySet current (u32 (current * 2)))
      end
  end.

Definition minutes_of (timeOfDay : float) : Z :=
  Z.rem (int32_of_f32 (timeOfDay * f32_of_Z 24 * f32_of_Z 60 + lit32 1 2)%f32) 1440.

Definition speed_text (speed : float) : Printed :=
  if (speed =? f32_one)%f32 then RealTime
  else if (speed =? f32_zero)%f32 then Frozen
  else
    let dayMinutes := (f32_of_Z 24 * f32_of_Z 60 / speed)%f32 in
    if (f32_one <=? dayMinutes)%f32 then MinuteDay speed dayMinutes
    else SecondDay speed (dayMinutes * f32_of_Z 60)%f32.

Definition printClock (timeOfDay speed : float) : SM St () :=
  let mins := minutes_of timeOfDay in
  say (ClockTime (Z.quot mins 60) (Z.rem mins 60));; say (speed_text speed).

(** [None] is [false]. *)
Definition parseTimeOfDay (text : string) : option float :=
  match split_at ":"%char text with
  | None =>
      match strtof (c_str text) with
      | Some value =>
          if (value <? f32_zero)%f32 || (f32_one <=? value)%f32 then None else Some value
      | None => None
      end
  | Some (before, after) =>
      let hours := atoi (c_str before) in
      let mins := atoi (c_str after) in
      if (hours <? 0) || (23 <? hours) || (mins <? 0) || (59 <? mins) then None
      else Some (f32_of_Z (hours * 60 + mins) / (f32_of_Z 24 * f32_of_Z 60))%f32
  end.

Definition time_payload (token : string) (command : TimeCommand) (value : float) : list byte :=
  w_f32 value (w_u8 (time_command_code command) (w_string token [])).

Definition read_clock : Reader (Z * float * float) :=
  (result <-- r_u8 ;; now <-- r_f32 ;; speed <-- r_f32 ;; rret (result, now, speed))%reader.

Definition timeCommand (command : TimeCommand) (value : float) : SM St () :=
  let! token := sm_gets gToken in
  let! reply := request_world AdminSetTimeRequest (time_payload token command value) in
  match reply with
  | None => sm_ret tt
  | Some reply =>
      let '(result, now, speed) := (read_clock (open_reader (msg_payload reply))).1 in
      match refused result with
      | Some p => say p
      | None => printClock now speed
      end
  end.

Definition status_payload (token : string) : list byte := w_string token [].

Definition read_status : Reader (Z * float * float * Z * Z * Z) :=
  (result <-- r_u8 ;; timeOfDay <-- r_f32 ;; speed <-- r_f32 ;; players <-- r_u16 ;;
   tick <-- r_u32 ;; latencyMs <-- r_u32 ;;
   rret (result, timeOfDay, speed, players, tick, latencyMs))%reader.

Definition status : SM St () :=
  let! token := sm_gets gToken in
  let! reply := request_world AdminStatusRequest (status_payload token) in
  match reply with
  | None => sm_ret tt
  | Some reply =>
      let '(result, timeOfDay, speed, players, tick, latencyMs) :=
        (read_status (open_reader (msg_payload reply))).1 in
      match refused result with
      | Some p => say p
      | None =>
          printClock timeOfDay speed;;
          say (PlayersOnline players tick);;
          (if 0 <? latencyMs then say (SimulatedLatency latencyMs) else sm_ret tt)
      end
  end.

(** ** Signing in *)

Definition login_payload (user password : string) : list byte :=
  w_string password (w_string user (w_u32 kProtocolVersion [])).

Definition read_login : Reader (Z * string * Z) :=
  (result <-- r_u8 ;; token <-- r_string ;; _host <-- r_string ;; _port <-- r_u16 ;;
   _account <-- r_u64 ;; level <-- r_u8 ;; rret (result, token, level))%reader.

Definition login : SM St bool :=
  let! user := sm_gets gUser in
  let! password := sm_gets gPassword in
  let! reply := request_auth LoginRequest (login_payload user password) in
  match reply with
  | None => sm_ret false
  | Some reply =>
      let '(code, token, level) := (read_login (open_reader (msg_payload reply))).1 in
      set_session token level;;
      (if bool_decide (auth_result_of code = Some AuthSuccess) then
         say (SignedIn user (level_name level));;
         (if level <? permission_code GameMaster then say NoPrivileges else sm_ret tt);;
         sm_ret true
       else say (LoginFailed (toString (auth_result_of code)));; sm_ret false)
  end.

(** ** Commands *)

Definition word (ws : list string) (i : nat) : string := nth i ws EmptyString.

Definition runTime (ws : list string) : SM St () :=
  if (length ws =? 1)%nat then status
  else if bool_decide (word ws 1 = "reset"%string) then timeCommand TimeReset f32_zero
  else if bool_decide (word ws 1 = "set"%string) && (3 <=? length ws)%nat then
    match parseTimeOfDay (word ws 2) with
    | None => say ExpectedTime
    | Some timeOfDay => timeCommand TimeSet timeOfDay
    end
  else if bool_decide (word ws 1 = "speed"%string) && (3 <=? length ws)%nat then
    match strtof (c_str (word ws 2)) with
    | Some speed => if (speed <? f32_zero)%f32 then say ExpectedSpeed else timeCommand TimeSpeed speed
    | None => say ExpectedSpeed
    end
  else say UsageTime.

Definition runLatency (ws : list string) : SM St () :=
  if (length ws =? 1)%nat then status
  else if bool_decide (word ws 1 = "set"%string) && (3 <=? length ws)%nat then
    latencyCommand (u32 (atoi (c_str (word ws 2))))
  else say UsageLatency.

Definition runAccount (ws : list string) : SM St () :=
  let assumeYes := bool_decide (last ws = Some "--yes"%string) in
  if (4 <=? length ws)%nat && bool_decide (word ws 1 = "create"%string) then
    accountCreate (word ws 2) (word ws 3)
      (if (5 <=? length ws)%nat then u8 (atoi (c_str (word ws 4))) else 0)
  else if (3 <=? length ws)%nat && bool_decide (word ws 1 = "delete"%string) then
    accountDelete (word ws 2) assumeYes
  else if (4 <=? length ws)%nat && bool_decide (word ws 1 = "level"%string) then
    accountSetLevel (word ws 2) (u8 (atoi (c_str (word ws 3))))
  else say UsageAccount.

(** [false] when the console should exit. *)
Definition runCommand (line : string) : SM St bool :=
  match words line with
  | [] => sm_ret true
  | (command :: _) as ws =>
      if bool_decide (command = "quit"%string) || bool_decide (command = "exit"%string)
      then sm_ret false
      else
        (if bool_decide (command = "help"%string) || bool_decide (command = "?"%string) then
           say HelpText
         else if bool_decide (command = "status"%string) then status
         else if bool_decide (command = "time"%string) then runTime ws
         else if bool_decide (command = "latency"%string) then runLatency ws
         else if bool_decide (command = "account"%string) then runAccount ws
         else say (UnknownCommand command));;
        sm_ret true
  end.

(** The loop of [main]; [None] is out of fuel. *)
Fixpoint prompt_loop (fuel : nat) : SM St (option ()) :=
  match fuel with
  | O => sm_ret None
  | S fuel' =>
      say Prompt;;
      let! line := getline in
      match line with
      | None => sm_ret (Some tt)
      | Some line =>
          let! continue := runCommand line in
          if continue : bool then prompt_loop fuel' else sm_ret (Some tt)
      end
  end.

(** A prompt and its answer. *)
Definition ask (p : Printed) : SM St (option string) := say p;; getline.

Definition set_user (user : string) : SM St () := sm_modify (fun c =>
  mkConsole (gToken c) user (gPassword c) (gLevel c) (cs_stdin c) (cs_events c) (cs_env c)).

Definition set_password (password : string) : SM St () := sm_modify (fun c =>
  mkConsole (gToken c) (gUser c) password (gLevel c) (cs_stdin c) (cs_events c) (cs_env c)).

(** [main] from the prompts on, with [argv[1..]]: the exit code, [None] when
    the fuel of the loop is out. *)
Definition sign_in : SM St bool :=
  let! user := sm_gets gUser in
  let! named :=
    (if decide (user = EmptyString) then
       let! answer := ask AskAccount in
       match answer with Some a => set_user a;; sm_ret true | None => sm_ret false end
     else sm_ret true) in
  if negb named then sm_ret false
  else
    let! password := sm_gets gPassword in
    let! known :=
      (if decide (password = EmptyString) then
         let! answer := ask AskPassword in
         match answer with Some a => set_password a;; sm_ret true | None => sm_ret false end
       else sm_ret true) in
    if negb known then sm_ret false else login.

(** The arguments after the program's name, with a space between each. *)
Definition join_args (args : list string) : string := String.concat " " args.

Definition run_console (fuel : nat) (args : list string) : SM St (option Z) :=
  let! ok := sign_in in
  if negb ok then sm_ret (Some 1)
  else
    match args with
    | _ :: _ => let! _ := runCommand (join_args args) in sm_ret (Some 0)
    | [] =>
        say Banner;;
        status;;
        let! done_ := prompt_loop fuel in
        sm_ret (match done_ with Some _ => Some 0 | None => None end)
    end.

End AdminConsole.

(** [main]: [initSockets], the environment and whether standard input is a
    terminal are given; the state is the one its globals start in. *)
Definition main {E : Type} `{SocketApi E} `{Libm} (getenv : string -> option string)
    (initSockets isatty : bool) (fuel : nat) (args stdin : list string) (env : E)
    : option Z * Console E :=
  let start user password := mkConsole EmptyString user password 0 stdin [] env in
  if negb initSockets then (Some 1, start EmptyString EmptyString)
  else
    let authHost := envString getenv "AUTH_HOST" "127.0.0.1" in
    let authPort := envPort getenv "AUTH_SERVER_PORT" 7001 in
    let worldHost := envString getenv "WORLD_HOST" "127.0.0.1" in
    let worldPort := envPort getenv "WORLD_SERVER_PORT" 7002 in
    let user := envString getenv "CONSOLE_USER" "" in
    let password := envString getenv "CONSOLE_PASSWORD" "" in
    if (bool_decide (user = EmptyString) || bool_decide (password = EmptyString)) && negb isatty
    then sm_bind (say NoTerminal) (fun _ => sm_ret (Some 1)) (start user password)
    else run_console authHost authPort worldHost worldPort fuel args (start user password).
