(* ===== verification/AdminConsoleSpec.v ===== *)
(** * The operator's console: what it sends, shows and ends with

    Against the console itself: the requests its commands make, the answer a
    request waits for, the end of its loop. Against the servers: each request
    is read as it was meant, and the clock an operator sets is the clock the
    console then shows. *)

From Stdlib Require Import ZArith Lia Strings.Byte Strings.Ascii Strings.String.
From Stdlib Require Import Floats.SpecFloat.
From stdpp Require Import base list option gmap strings.
From S2P Require Import Prelude Float32 Platform Config Text ByteStream Protocol Snapshot Framing.
From S2P Require Import Address Terrain Character Simulation TcpServer DbClient Outputs.
From S2P Require AuthServer World WorldConsole WorldProperties ClientServer.
From S2P Require Import Console Sockets AdminConsole.
Import ByteWriter.

Open Scope Z_scope.

#[local] Hint Resolve auth_result_fits join_result_fits time_command_fits version_fits : reader.
#[local] Hint Unfold wire_ok : reader.

(** ** One run of a piece of the console *)

Section Runs.
Context {E : Type} `{HApi : SocketApi E} `{HLibm : Libm}.
Variables (gAuthHost : string) (gAuthPort : Z) (gWorldHost : string) (gWorldPort : Z).

Abbreviation St := (Console E).

Definition is_send (e : Event) : bool := match e with Send _ _ _ _ => true | Print _ => false end.

Definition sends (es : list Event) : nat := length (List.filter is_send es).

(** What a command may do once a token is held: print, and send one of the
    commands of a server to that server, with the token in front. *)
Definition permitted (token : string) (e : Event) : Prop :=
  match e with
  | Print _ => True
  | Send host port type payload =>
      ((host = gAuthHost /\ port = gAuthPort /\
        type ∈ (auth_message_code <$>
          [AdminAccountCreateRequest; AdminAccountDeleteRequest; AdminSetLevelRequest])) \/
       (host = gWorldHost /\ port = gWorldPort /\
        type ∈ (world_message_code <$>
          [AdminSetTimeRequest; AdminSetLatencyRequest; AdminStatusRequest]))) /\
      exists rest, payload = e_string token ++ rest
  end.

(** From [c] to [c']: the session stays, input is only consumed, and at most
    [n] permitted requests are sent. *)
Definition acted (n : nat) (c c' : St) : Prop :=
  gToken c' = gToken c /\ gUser c' = gUser c /\ gPassword c' = gPassword c /\
  gLevel c' = gLevel c /\ cs_stdin c' `suffix_of` cs_stdin c /\
  exists es, cs_events c' = cs_events c ++ es /\ Forall (permitted (gToken c)) es /\
    (sends es <= n)%nat.

Definition acts {A} (n : nat) (m : SM St A) (c : St) : Prop := acted n c (m c).2.

Lemma acted_refl n c : acted n c c.
Proof. split_and!; try done. exists []. rewrite app_nil_r. split_and!; [done..|cbn; lia]. Qed.

Lemma acted_trans n m c1 c2 c3 : acted n c1 c2 -> acted m c2 c3 -> acted (n + m) c1 c3.
Proof.
  intros (H1 & H2 & H3 & H4 & H5 & es & H6 & H7 & H8) (J1 & J2 & J3 & J4 & J5 & fs & J6 & J7 & J8).
  split_and!; [congruence..|by etrans|]. exists (es ++ fs).
  rewrite J6, H6, app_assoc. rewrite H1 in J7. split_and!; [done|by apply Forall_app|].
  unfold sends in *. rewrite List.filter_app, length_app. lia.
Qed.

Lemma acts_ret {A} n (a : A) c : acts n (sm_ret a) c.
Proof. apply acted_refl. Qed.

Lemma acts_bind {A B} n k (m : SM St A) (f : A -> SM St B) c :
  acts n m c -> (forall a c', gToken c' = gToken c -> acts k (f a) c') ->
  acts (n + k) (sm_bind m f) c.
Proof.
  unfold acts. intros Hm Hf. unfold sm_bind. destruct (m c) as [a c'] eqn:Em. cbn [snd] in Hm.
  eapply acted_trans; [done|]. apply Hf. apply Hm.
Qed.

Lemma acts_token {B} n (f : string -> SM St B) c :
  acts n (f (gToken c)) c -> acts n (sm_bind (sm_gets gToken) f) c.
Proof. done. Qed.

Lemma acts_say n p c : acts n (say p) c.
Proof.
  split_and!; try done. exists [Print p]. split_and!; [done|by repeat constructor|cbn; lia].
Qed.

Lemma acts_send n host port type payload c :
  permitted (gToken c) (Send host port type payload) ->
  acts (S n) (event (Send host port type payload)) c.
Proof.
  intros Hp. split_and!; try done. exists [Send host port type payload].
  split_and!; [done|by apply Forall_singleton|cbn; lia].
Qed.

Lemma acts_env {A} n (m : SM E A) c : acts n (on_env m) c.
Proof.
  unfold acts, on_env. destruct (m (cs_env c)) as [a e]. split_and!; try done.
  exists []. rewrite app_nil_r. split_and!; [done..|cbn; lia].
Qed.

Lemma acts_getline n c : acts n getline c.
Proof.
  unfold acts, getline. destruct (cs_stdin c) as [|l ls] eqn:Ei; [apply acted_refl|].
  split_and!; try done; cbn [snd cs_stdin cs_events]; [rewrite Ei; by exists [l]|].
  exists []. rewrite app_nil_r. split_and!; [done..|cbn; lia].
Qed.

Lemma acts_request host port type payload c :
  permitted (gToken c) (Send host port type payload) -> acts 1 (request host port type payload) c.
Proof.
  intros Hp. unfold request. apply (acts_bind 0 1); [apply acts_env|]. intros s c' Ht.
  rewrite <- Ht in Hp. destruct s as [s|].
  - apply (acts_bind 1 0); [by apply acts_send|]. intros _ c2 _.
    apply (acts_bind 0 0); [apply acts_env|]. intros r c3 _.
    destruct r; [apply acts_ret|]. apply (acts_bind 0 0); [apply acts_say|]. intros. apply acts_ret.
  - apply (acts_bind 0 1); [apply acts_say|]. intros. apply acts_ret.
Qed.

Lemma permitted_auth token type rest :
  type ∈ [AdminAccountCreateRequest; AdminAccountDeleteRequest; AdminSetLevelRequest] ->
  permitted token (Send gAuthHost gAuthPort (auth_message_code type) (e_string token ++ rest)).
Proof.
  intros Ht. split; [|by eexists]. left. split_and!; [done..|]. apply list_elem_of_fmap. eauto.
Qed.

Lemma permitted_world token type rest :
  type ∈ [AdminSetTimeRequest; AdminSetLatencyRequest; AdminStatusRequest] ->
  permitted token (Send gWorldHost gWorldPort (world_message_code type) (e_string token ++ rest)).
Proof.
  intros Ht. split; [|by eexists]. right. split_and!; [done..|]. apply list_elem_of_fmap. eauto.
Qed.

Lemma acts_auth {B} type rest payload (f : option Message -> SM St B) c :
  type ∈ [AdminAccountCreateRequest; AdminAccountDeleteRequest; AdminSetLevelRequest] ->
  payload = e_string (gToken c) ++ rest ->
  (forall reply c', acts 0 (f reply) c') ->
  acts 1 (sm_bind (request_auth gAuthHost gAuthPort type payload) f) c.
Proof.
  intros Ht -> Hf. apply (acts_bind 1 0); [|auto]. by apply acts_request, permitted_auth.
Qed.

Lemma acts_world {B} type rest payload (f : option Message -> SM St B) c :
  type ∈ [AdminSetTimeRequest; AdminSetLatencyRequest; AdminStatusRequest] ->
  payload = e_string (gToken c) ++ rest ->
  (forall reply c', acts 0 (f reply) c') ->
  acts 1 (sm_bind (request_world gWorldHost gWorldPort type payload) f) c.
Proof.
  intros Ht -> Hf. apply (acts_bind 1 0); [|auto]. by apply acts_request, permitted_world.
Qed.

(** Pieces that only print. *)
Ltac only_prints :=
  repeat first
    [ apply acts_ret | apply acts_say
    | match goal with
      | |- acts _ (sm_bind _ _) _ => apply (acts_bind 0 0); [|intros]
      | |- acts _ (let '(_, _) := ?p in _) _ => destruct p
      | |- acts _ (if ?b then _ else _) _ => destruct b
      | |- acts _ (match ?o with Some _ => _ | None => _ end) _ => destruct o
      end ].

Ltac in_list := rewrite !elem_of_cons; auto.

Ltac token_first := wire_text; reflexivity.

Lemma acts_printClock t s c : acts 0 (printClock t s) c.
Proof. unfold printClock. only_prints. Qed.

Lemma acts_accountCreate name password level c :
  acts 1 (accountCreate gAuthHost gAuthPort name password level) c.
Proof.
  apply acts_token. eapply acts_auth; [in_list|unfold create_payload; token_first|].
  intros. only_prints.
Qed.

Lemma acts_accountSetLevel name level c :
  acts 1 (accountSetLevel gAuthHost gAuthPort name level) c.
Proof.
  apply acts_token. eapply acts_auth; [in_list|unfold level_payload; token_first|].
  intros. only_prints.
Qed.

Lemma acts_confirmed_delete name c :
  acts 1 (let! token := sm_gets gToken in
          let! reply := request_auth gAuthHost gAuthPort AdminAccountDeleteRequest
                          (delete_payload token name) in
          match reply with
          | None => sm_ret tt
          | Some reply =>
              if bool_decide (read_result reply = Some AuthSuccess) then say (AccountDeleted name)
              else say (Failed (toString (read_result reply)))
          end)%sm c.
Proof.
  apply acts_token. eapply acts_auth; [in_list|unfold delete_payload; token_first|].
  intros. only_prints.
Qed.

Lemma acts_accountDelete name assumeYes c :
  acts 1 (accountDelete gAuthHost gAuthPort name assumeYes) c.
Proof.
  unfold accountDelete. apply (acts_bind 0 1).
  - destruct assumeYes; [apply acts_ret|]. apply (acts_bind 0 0); [apply acts_say|]. intros _ c1 _.
    apply (acts_bind 0 0); [apply acts_getline|]. intros. only_prints.
  - intros confirmed c' _. destruct confirmed; [apply acts_confirmed_delete|apply acts_ret].
Qed.

Lemma acts_latencyCommand ms c : acts 1 (latencyCommand gWorldHost gWorldPort ms) c.
Proof.
  apply acts_token. eapply acts_world; [in_list|unfold latency_payload; token_first|].
  intros. only_prints.
Qed.

Lemma acts_timeCommand command value c : acts 1 (timeCommand gWorldHost gWorldPort command value) c.
Proof.
  apply acts_token. eapply acts_world; [in_list|unfold time_payload; token_first|].
  intros reply c'. destruct reply as [reply|]; [|apply acts_ret].
  destruct (read_clock _).1 as [[result now] speed].
  destruct (refused result); [apply acts_say|apply acts_printClock].
Qed.

Lemma acts_status c : acts 1 (status gWorldHost gWorldPort) c.
Proof.
  apply acts_token. eapply (acts_world _ []); [in_list|by rewrite app_nil_r|].
  intros reply c'. destruct reply as [reply|]; [|apply acts_ret].
  destruct (read_status _).1 as [[[[[result now] speed] players] tick] latency].
  destruct (refused result); [apply acts_say|].
  apply (acts_bind 0 0); [apply acts_printClock|]. intros. only_prints.
Qed.

Lemma acts_runTime ws c : acts 1 (runTime gWorldHost gWorldPort ws) c.
Proof.
  unfold runTime. destruct (length ws =? 1)%nat; [apply acts_status|].
  destruct (bool_decide _); [apply acts_timeCommand|].
  destruct (_ && _).
  - destruct (parseTimeOfDay _); [apply acts_timeCommand|apply acts_say].
  - destruct (_ && _); [|apply acts_say].
    destruct (strtof _) as [speed|]; [|apply acts_say].
    destruct (speed <? f32_zero)%f32; [apply acts_say|apply acts_timeCommand].
Qed.

Lemma acts_runLatency ws c : acts 1 (runLatency gWorldHost gWorldPort ws) c.
Proof.
  unfold runLatency. destruct (length ws =? 1)%nat; [apply acts_status|].
  destruct (_ && _); [apply acts_latencyCommand|apply acts_say].
Qed.

Lemma acts_runAccount ws c : acts 1 (runAccount gAuthHost gAuthPort ws) c.
Proof.
  unfold runAccount. destruct (_ && _); [apply acts_accountCreate|].
  destruct (_ && _); [apply acts_accountDelete|].
  destruct (_ && _); [apply acts_accountSetLevel|apply acts_say].
Qed.

Lemma acts_runCommand line c :
  acts 1 (runCommand gAuthHost gAuthPort gWorldHost gWorldPort line) c.
Proof.
  unfold runCommand. destruct (words line) as [|command ws]; [apply acts_ret|].
  destruct (_ || _); [apply acts_ret|]. apply (acts_bind 1 0); [|intros; apply acts_ret].
  destruct (_ || _); [apply acts_say|].
  destruct (bool_decide _); [apply acts_status|].
  destruct (bool_decide _); [apply acts_runTime|].
  destruct (bool_decide _); [apply acts_runLatency|].
  destruct (bool_decide _); [apply acts_runAccount|apply acts_say].
Qed.

(** C18: a command does one thing, as the account signed in. Whatever is typed and
    whatever the network answers, a command sends at most one request; it is one of
    the auth server's account commands to the auth server or one of the world's
    to the world server; it starts with the session's token; and the session,
    the user's name and the password stay as they were. *)
Theorem command_permitted (line : string) (c : St) :
  let c' := (runCommand gAuthHost gAuthPort gWorldHost gWorldPort line c).2 in
  gToken c' = gToken c /\ gUser c' = gUser c /\ gPassword c' = gPassword c /\
  gLevel c' = gLevel c /\ cs_stdin c' `suffix_of` cs_stdin c /\
  exists es, cs_events c' = cs_events c ++ es /\ Forall (permitted (gToken c)) es /\
    (sends es <= 1)%nat.
Proof. apply acts_runCommand. Qed.

(** Nothing is deleted without a yes: without [--yes] as the last word, and
    unless the next line of input is one of three answers, no request is sent. *)
Lemma delete_needs_yes name c :
  (forall answer, head (cs_stdin c) = Some answer ->
     answer <> "y"%string /\ answer <> "Y"%string /\ answer <> "yes"%string) ->
  exists es, cs_events (accountDelete gAuthHost gAuthPort name false c).2 = cs_events c ++ es /\
    sends es = 0%nat.
Proof.
  intros Hans. exists [Print (AskDelete name); Print Aborted]. split; [|done].
  unfold accountDelete, sm_bind, say, event, sm_modify, getline. cbn [cs_stdin].
  destruct (cs_stdin c) as [|a ls]; cbn [snd cs_events sm_ret].
  - by rewrite <- app_assoc.
  - destruct (Hans a eq_refl) as (H1 & H2 & H3). rewrite bool_decide_eq_false_2 by tauto.
    cbn. by rewrite <- app_assoc.
Qed.

(** ** The loop ends *)

Lemma runCommand_input line c :
  (length (cs_stdin (runCommand gAuthHost gAuthPort gWorldHost gWorldPort line c).2)
   <= length (cs_stdin c))%nat.
Proof. destruct (acts_runCommand line c) as (_ & _ & _ & _ & Hs & _). by apply suffix_length. Qed.

Lemma prompt_loop_ends fuel : forall c,
  (length (cs_stdin c) < fuel)%nat ->
  (prompt_loop gAuthHost gAuthPort gWorldHost gWorldPort fuel c).1 = Some tt.
Proof.
  induction fuel as [|fuel IH]; intros c Hf; [lia|]. cbn [prompt_loop].
  unfold sm_bind, say, event, sm_modify, getline. cbn [cs_stdin].
  destruct (cs_stdin c) as [|line rest]; cbn [length] in Hf; [done|].
  match goal with |- context [runCommand _ _ _ _ line ?c0] => set (c1 := c0) end.
  pose proof (runCommand_input line c1) as Hl. cbn [c1 cs_stdin] in Hl. fold c1 in Hl.
  destruct (runCommand _ _ _ _ line c1) as [[|] c2]; cbn [snd] in Hl; [|done].
  apply IH. lia.
Qed.

(** Input is only consumed. *)
Definition shrinks {A} (m : SM St A) : Prop :=
  forall c, (length (cs_stdin (m c).2) <= length (cs_stdin c))%nat.

Lemma shrinks_bind {A B} (m : SM St A) (f : A -> SM St B) :
  shrinks m -> (forall a, shrinks (f a)) -> shrinks (sm_bind m f).
Proof.
  intros Hm Hf c. unfold sm_bind. specialize (Hm c). destruct (m c) as [a c1]. cbn [snd] in Hm.
  specialize (Hf a c1). lia.
Qed.

Lemma shrinks_ret {A} (a : A) : shrinks (sm_ret a).
Proof. intros c. cbn. lia. Qed.

Lemma shrinks_acts {A} (m : SM St A) n : (forall c, acts n m c) -> shrinks m.
Proof. intros H c. destruct (H c) as (_ & _ & _ & _ & Hs & _). by apply suffix_length. Qed.

Lemma shrinks_env {A} (m : SM E A) : shrinks (on_env m).
Proof. apply (shrinks_acts _ 0). intros c. apply acts_env. Qed.

Lemma shrinks_say p : shrinks (say (E := E) p).
Proof. apply (shrinks_acts _ 0). intros c. apply acts_say. Qed.

Lemma shrinks_same {A} (m : SM St A) : (forall c, cs_stdin (m c).2 = cs_stdin c) -> shrinks m.
Proof. intros H c. rewrite H. lia. Qed.

Lemma shrinks_ask p : shrinks (ask (E := E) p).
Proof.
  apply shrinks_bind; [apply shrinks_say|]. intros _. apply (shrinks_acts _ 0), acts_getline.
Qed.

Lemma shrinks_request host port type payload :
  shrinks (request (E := E) host port type payload).
Proof.
  apply shrinks_bind; [apply shrinks_env|]. intros [s|].
  - apply shrinks_bind; [by apply shrinks_same|]. intros _.
    apply shrinks_bind; [apply shrinks_env|]. intros [r|]; [apply shrinks_ret|].
    apply shrinks_bind; [apply shrinks_say|]. intros _. apply shrinks_ret.
  - apply shrinks_bind; [apply shrinks_say|]. intros _. apply shrinks_ret.
Qed.

Lemma shrinks_login : shrinks (login gAuthHost gAuthPort).
Proof.
  apply shrinks_bind; [by apply shrinks_same|]. intros user.
  apply shrinks_bind; [by apply shrinks_same|]. intros password.
  apply shrinks_bind; [apply shrinks_request|]. intros [r|]; [|apply shrinks_ret].
  destruct (read_login _).1 as [[code token] level].
  apply shrinks_bind; [by apply shrinks_same|]. intros _. destruct (bool_decide _).
  - apply shrinks_bind; [apply shrinks_say|]. intros _.
    apply shrinks_bind; [destruct (_ <? _); [apply shrinks_say|apply shrinks_ret]|].
    intros _. apply shrinks_ret.
  - apply shrinks_bind; [apply shrinks_say|]. intros _. apply shrinks_ret.
Qed.

Lemma shrinks_sign_in : shrinks (sign_in gAuthHost gAuthPort).
Proof.
  apply shrinks_bind; [by apply shrinks_same|]. intros user. apply shrinks_bind.
  { destruct (decide _); [|apply shrinks_ret]. apply shrinks_bind; [apply shrinks_ask|].
    intros [a|]; [|apply shrinks_ret]. apply shrinks_bind; [by apply shrinks_same|].
    intros _. apply shrinks_ret. }
  intros [|]; [|apply shrinks_ret]. cbn [negb].
  apply shrinks_bind; [by apply shrinks_same|]. intros password. apply shrinks_bind.
  { destruct (decide _); [|apply shrinks_ret]. apply shrinks_bind; [apply shrinks_ask|].
    intros [a|]; [|apply shrinks_ret]. apply shrinks_bind; [by apply shrinks_same|].
    intros _. apply shrinks_ret. }
  intros [|]; [apply shrinks_login|apply shrinks_ret].
Qed.

Lemma run_console_ends fuel args c :
  (length (cs_stdin c) < fuel)%nat ->
  let signed := (sign_in gAuthHost gAuthPort c).1 in
  (run_console gAuthHost gAuthPort gWorldHost gWorldPort fuel args c).1
  = Some (if signed then 0 else 1).
Proof.
  intros Hf. cbn zeta. unfold run_console, sm_bind. pose proof (shrinks_sign_in c) as Hs.
  destruct (sign_in _ _ c) as [[|] c1]; cbn [snd fst negb] in *; [|done].
  destruct args as [|a args].
  - unfold say at 1, event, sm_modify.
    match goal with |- context [status _ _ ?c0] => set (c2 := c0) end.
    pose proof (acts_status c2) as Hst. unfold acts in Hst. destruct (status _ _ c2) as [[] c3].
    destruct Hst as (_ & _ & _ & _ & Hst%suffix_length & _). unfold c2 in Hst. cbn [snd cs_stdin] in Hst.
    pose proof (prompt_loop_ends fuel c3 ltac:(lia)) as Hl.
    destruct (prompt_loop _ _ _ _ fuel c3) as [o c4]. cbn [fst] in Hl. by subst o.
  - by destruct (runCommand _ _ _ _ _ c1) as [b c2].
Qed.

(** ** The answer a request waits for *)

Lemma await_reply_spec m batches : forall turns (s : MessageStream) e,
  nonempty_chunks batches -> message_wf m ->
  sk_rx (ms_socket s) = arrivals batches ->
  frame m = ms_readBuffer s ++ mjoin (mjoin <$> batches) ->
  (length batches < turns)%nat -> exists e', await_reply turns s e = (Some m, e').
Proof.
  induction batches as [|b bs IH]; intros [|turns] s e Hne Hwf Hrx Hf Ht;
    cbn [length] in Ht; try lia; cbn [await_reply]; unfold Framing.next.
  - change (mjoin (mjoin <$> [])) with (@nil byte) in Hf. rewrite app_nil_r in Hf.
    rewrite <- Hf, <- (app_nil_r (frame m)), next_message_frame by done. by eexists.
  - destruct (next_message (ms_readBuffer s)) as [[m' rest]|] eqn:En.
    + apply next_message_inv in En as [En Hm'].
      pose proof (next_message_frame m [] Hwf) as H1. rewrite app_nil_r, Hf, En, <- app_assoc in H1.
      rewrite next_message_frame in H1 by done. injection H1 as -> _. by eexists.
    + apply Forall_cons_1 in Hne as [Hb Hbs]. unfold sm_bind at 1.
      destruct (waitReadable 1 50 e) as [w e1].
      change (mjoin (mjoin <$> b :: bs)) with (mjoin b ++ mjoin (mjoin <$> bs)) in Hf.
      rewrite (pump_batch b bs s [m] []); [|done|by apply Forall_singleton|done|].
      * apply IH; [done|done|done| |lia]. cbn [ms_readBuffer]. by rewrite <- app_assoc.
      * rewrite frames_cons. change (frames []) with (@nil byte).
        by rewrite Hf, !app_nil_r, app_assoc.
Qed.

(** The connection of a request succeeds and carries the answer [reply], in at
    most 399 batches. *)
Definition answered (host : string) (port : Z) (reply : Message) (c : St) : Prop :=
  exists s e batches, connectTo host port (cs_env c) = (Some s, e) /\
    sk_rx s = arrivals batches /\ nonempty_chunks batches /\ message_wf reply /\
    frame reply = mjoin (mjoin <$> batches) /\ (length batches < kReplyTurns)%nat.

Lemma send_reads s type payload :
  sk_rx (ms_socket (send s type payload)) = sk_rx (ms_socket s) /\
  ms_readBuffer (send s type payload) = ms_readBuffer s.
Proof.
  unfold send, flush. destruct (flush_loop _ _ _ _) as [[[[ok off] complete] tx] wire].
  by destruct complete.
Qed.

Lemma request_answered host port type payload reply c :
  answered host port reply c ->
  exists e, request host port type payload c
  = (Some reply, mkConsole (gToken c) (gUser c) (gPassword c) (gLevel c) (cs_stdin c)
       (cs_events c ++ [Send host port type payload]) e).
Proof.
  intros (s & e & batches & Hc & Hrx & Hne & Hwf & Hf & Ht).
  unfold request, sm_bind, on_env. rewrite Hc. cbn [event sm_modify cs_env cs_events].
  destruct (send_reads (new_stream s) type payload) as [H1 H2].
  destruct (await_reply_spec reply batches kReplyTurns (send (new_stream s) type payload) e)
    as [e' He']; [done|done|by rewrite H1|by rewrite H2|done|].
  rewrite He'. by exists e'.
Qed.
End Runs.

(** ** The program ends *)

(** The console always ends: for any environment, arguments, lines of input
    and answers of the network, a loop of one turn more than the lines of input is
    enough, and the program's code is 1 when it could not sign in and 0
    otherwise. *)
Theorem main_ends {E : Type} `{SocketApi E} `{Libm} (getenv : string -> option string)
    (initSockets isatty : bool) (args stdin : list string) (env : E) :
  exists code, (main getenv initSockets isatty (S (length stdin)) args stdin env).1 = Some code /\
    (code = 0 \/ code = 1) /\
    (code = 0 -> initSockets = true /\
       (sign_in (envString getenv "AUTH_HOST" "127.0.0.1")
          (envPort getenv "AUTH_SERVER_PORT" 7001)
          (mkConsole EmptyString (envString getenv "CONSOLE_USER" "")
             (envString getenv "CONSOLE_PASSWORD" "") 0 stdin [] env)).1 = true).
Proof.
  unfold main. destruct initSockets; cbn [negb]; [|exists 1; naive_solver lia].
  destruct (_ && _); [exists 1; naive_solver lia|]. rewrite run_console_ends by (cbn; lia).
  destruct (sign_in _ _ _).1; [exists 0|exists 1]; naive_solver lia.
Qed.

(** ** Requests, as the servers read them *)

Section Requests.
Context {EA : Type} `{HSodA : Sodium EA}.
Context {EW : Type} `{HSodW : Sodium EW} `{HClkW : Clocks EW} `{HLibmW : Libm}.
Variables (cfg : AuthServer.AuthConfig) (udpPort : Z).
Implicit Types (st : AuthServer.AuthServer EA) (w : World.World EW).

Lemma nonempty_name name : name <> EmptyString -> (String.length name =? 0)%nat = false.
Proof. by destruct name. Qed.

Lemma create_read id token name password level st :
  wire_ok token -> wire_ok name -> wire_ok password -> fits 8 level -> name <> EmptyString ->
  AuthServer.onMessage cfg id (auth_message_code AdminAccountCreateRequest)
    (create_payload token name password level) st =
  lookupSession (CB := AuthServer.callback cfg) token
    (AuthServer.KAdminLookup id AdminAccountCreateRequest AdminAccountCreateResponse name password
       level) st.
Proof.
  intros Ht Hn Hp Hl Hne.
  assert (Hr : reads (t <-- r_string ;; n <-- r_string ;; p <-- r_string ;; l <-- r_u8 ;;
      rret (t, n, p, l))%reader
    (e_string token ++ e_string name ++ e_string password ++ e_u8 level ++ [])
    (token, name, password, level)) by solve_reads.
  apply (reads_open _ _ []) in Hr. rewrite !app_nil_r in Hr. unfold rbind, rret in Hr.
  unfold AuthServer.onMessage, AuthServer.handleAdmin, create_payload. wire_text. cbn [bool_decide].
  change (auth_message_of _) with (Some AdminAccountCreateRequest). cbv iota beta.
  destruct (r_string _) as [t r1]. destruct (r_string r1) as [n r2].
  rewrite !bool_decide_eq_true_2 by done. cbn [orb].
  destruct (r_string r2) as [p r3]. destruct (r_u8 r3) as [l r4]. injection Hr as -> -> -> -> ->.
  rewrite nonempty_name by done. done.
Qed.

Lemma delete_read id token name st :
  wire_ok token -> wire_ok name -> name <> EmptyString ->
  AuthServer.onMessage cfg id (auth_message_code AdminAccountDeleteRequest)
    (delete_payload token name) st =
  lookupSession (CB := AuthServer.callback cfg) token
    (AuthServer.KAdminLookup id AdminAccountDeleteRequest AdminAccountDeleteResponse name "" 0) st.
Proof.
  intros Ht Hn Hne.
  assert (Hr : reads (t <-- r_string ;; n <-- r_string ;; rret (t, n))%reader
    (e_string token ++ e_string name ++ []) (token, name)) by solve_reads.
  apply (reads_open _ _ []) in Hr. rewrite !app_nil_r in Hr. unfold rbind, rret in Hr.
  unfold AuthServer.onMessage, AuthServer.handleAdmin, delete_payload. wire_text.
  change (auth_message_of _) with (Some AdminAccountDeleteRequest). cbv iota beta.
  destruct (r_string _) as [t r1]. destruct (r_string r1) as [n r2].
  rewrite !bool_decide_eq_false_2 by done. cbn [orb]. injection Hr as -> -> ->.
  rewrite nonempty_name by done. done.
Qed.

Lemma level_read id token name level st :
  wire_ok token -> wire_ok name -> fits 8 level -> name <> EmptyString ->
  AuthServer.onMessage cfg id (auth_message_code AdminSetLevelRequest)
    (level_payload token name level) st =
  lookupSession (CB := AuthServer.callback cfg) token
    (AuthServer.KAdminLookup id AdminSetLevelRequest AdminSetLevelResponse name "" level) st.
Proof.
  intros Ht Hn Hl Hne.
  assert (Hr : reads (t <-- r_string ;; n <-- r_string ;; l <-- r_u8 ;; rret (t, n, l))%reader
    (e_string token ++ e_string name ++ e_u8 level ++ []) (token, name, level)) by solve_reads.
  apply (reads_open _ _ []) in Hr. rewrite !app_nil_r in Hr. unfold rbind, rret in Hr.
  unfold AuthServer.onMessage, AuthServer.handleAdmin, level_payload. wire_text.
  change (auth_message_of _) with (Some AdminSetLevelRequest). cbv iota beta.
  destruct (r_string _) as [t r1]. destruct (r_string r1) as [n r2].
  rewrite bool_decide_eq_false_2, bool_decide_eq_true_2 by done. cbn [orb].
  destruct (r_u8 r2) as [l r3]. injection Hr as -> -> -> ->.
  rewrite nonempty_name by done. done.
Qed.

Lemma latency_read id token ms w :
  wire_ok token -> fits 32 ms ->
  World.onMessage udpPort id (world_message_code AdminSetLatencyRequest) (latency_payload token ms) w
  = lookupSession (CB := World.callback udpPort) token (World.KSetLatency id ms) w.
Proof.
  intros Ht Hm.
  assert (Hr : reads (t <-- r_string ;; m <-- r_u32 ;; rret (t, m))%reader
    (e_string token ++ e_u32 ms ++ []) (token, ms)) by solve_reads.
  apply (reads_open _ _ []) in Hr. rewrite !app_nil_r in Hr. unfold rbind, rret in Hr.
  unfold World.onMessage, World.handleSetLatency, latency_payload. wire_text.
  change (world_message_of _) with (Some AdminSetLatencyRequest). cbv iota beta.
  destruct (r_string _) as [t r1]. destruct (r_u32 r1) as [m r2]. by injection Hr as -> -> ->.
Qed.

Lemma time_command_decode c : time_command_of (time_command_code c) = Some c.
Proof. by destruct c. Qed.

Lemma time_read id token command value w :
  wire_ok token -> f32_valid value = true ->
  World.onMessage udpPort id (world_message_code AdminSetTimeRequest)
    (time_payload token command value) w =
  lookupSession (CB := World.callback udpPort) token
    (World.KWorldCommand id AdminSetTimeRequest (Some command) value) w.
Proof.
  intros Ht Hv.
  assert (Hr : reads (t <-- r_string ;; c <-- r_u8 ;; v <-- r_f32 ;; rret (t, c, v))%reader
    (e_string token ++ e_u8 (time_command_code command) ++ e_f32 value ++ [])
    (token, time_command_code command, value)) by solve_reads.
  apply (reads_open _ _ []) in Hr. rewrite !app_nil_r in Hr. unfold rbind, rret in Hr.
  unfold World.onMessage, World.handleWorldCommand, time_payload. wire_text.
  change (world_message_of _) with (Some AdminSetTimeRequest). cbv iota beta.
  destruct (r_string _) as [t r1]. rewrite !bool_decide_eq_true_2 by done.
  destruct (r_u8 r1) as [c r2]. destruct (r_f32 r2) as [v r3]. injection Hr as -> -> -> ->.
  by rewrite time_command_decode.
Qed.

Lemma status_read id token w :
  wire_ok token ->
  World.onMessage udpPort id (world_message_code AdminStatusRequest) (status_payload token) w =
  lookupSession (CB := World.callback udpPort) token
    (World.KWorldCommand id AdminStatusRequest (Some TimeSet) f32_zero) w.
Proof.
  intros Ht.
  assert (Hr : reads r_string (e_string token) token) by solve_reads.
  apply (reads_open _ _ []) in Hr. rewrite !app_nil_r in Hr.
  unfold World.onMessage, World.handleWorldCommand, status_payload. wire_text.
  change (world_message_of _) with (Some AdminStatusRequest). cbv iota beta.
  rewrite Hr. by rewrite !bool_decide_eq_false_2 by done.
Qed.

(** The servers act on what the operator typed: each of the console's
    requests makes the server it goes to look up the session of the console's token, on behalf
    of exactly this command with exactly this account, password, level, latency,
    time or speed; the level that decides is that session's. *)
Theorem console_requests_read (id : ConnectionId) (token name password : string)
    (level ms : Z) (command : TimeCommand) (value : float)
    (st : AuthServer.AuthServer EA) (w : World.World EW)
    (Htexts : Forall wire_ok [token; name; password]) (Hname : name <> EmptyString)
    (Hlevel : fits 8 level) (Hms : fits 32 ms) (Hvalue : f32_valid value = true) :
  let admin request response password level :=
    lookupSession (CB := AuthServer.callback cfg) token
      (AuthServer.KAdminLookup id request response name password level) st in
  let control := fun k => lookupSession (CB := World.callback udpPort) token k w in
  AuthServer.onMessage cfg id (auth_message_code AdminAccountCreateRequest)
    (create_payload token name password level) st =
    admin AdminAccountCreateRequest AdminAccountCreateResponse password level /\
  AuthServer.onMessage cfg id (auth_message_code AdminAccountDeleteRequest)
    (delete_payload token name) st =
    admin AdminAccountDeleteRequest AdminAccountDeleteResponse EmptyString 0 /\
  AuthServer.onMessage cfg id (auth_message_code AdminSetLevelRequest)
    (level_payload token name level) st =
    admin AdminSetLevelRequest AdminSetLevelResponse EmptyString level /\
  World.onMessage udpPort id (world_message_code AdminSetLatencyRequest)
    (latency_payload token ms) w = control (World.KSetLatency id ms) /\
  World.onMessage udpPort id (world_message_code AdminSetTimeRequest)
    (time_payload token command value) w =
    control (World.KWorldCommand id AdminSetTimeRequest (Some command) value) /\
  World.onMessage udpPort id (world_message_code AdminStatusRequest) (status_payload token) w =
    control (World.KWorldCommand id AdminStatusRequest (Some TimeSet) f32_zero).
Proof.
  rewrite !Forall_cons in Htexts. destruct Htexts as (H1 & H2 & H3 & _). cbv zeta.
  split_and!; [by apply create_read|by apply delete_read|by apply level_read
    |by apply latency_read|by apply time_read|by apply status_read].
Qed.

(** ** Answers, as the console reads them *)

Lemma result_read type result :
  read_result (mkMessage type (AuthServer.result_payload result)) = Some result.
Proof. by destruct result. Qed.

(** The payload of [World.reply_world] to a change of the clock. *)
Definition clock_reply (result : Z) (s : Simulation) : list byte :=
  w_f32 (sim_timeSpeed s) (w_f32 (sim_timeOfDay s) (w_u8 result [])).

Lemma reply_world_clock id result w :
  World.reply_world id AdminSetTimeResponse result w =
  on_server (server_send id (world_message_code AdminSetTimeResponse)
    (clock_reply result (World.w_simulation w))) w.
Proof. done. Qed.

Lemma clock_reply_read result s :
  fits 8 result -> f32_valid (sim_timeOfDay s) = true -> f32_valid (sim_timeSpeed s) = true ->
  (read_clock (open_reader (clock_reply result s))).1
  = (result, sim_timeOfDay s, sim_timeSpeed s).
Proof.
  intros Hr Ht Hs.
  assert (H : reads read_clock
    (e_u8 result ++ e_f32 (sim_timeOfDay s) ++ e_f32 (sim_timeSpeed s) ++ [])
    (result, sim_timeOfDay s, sim_timeSpeed s)) by (unfold read_clock; solve_reads).
  apply (reads_open _ _ []) in H. rewrite !app_nil_r in H.
  unfold clock_reply. wire_text. by rewrite H.
Qed.
End Requests.

(** ** The clock, from the operator's line to the line shown *)

Section EndToEnd.
Context {E : Type} `{HApi : SocketApi E}.
Context {EW : Type} `{HSodW : Sodium EW} `{HClkW : Clocks EW} `{HLibm : Libm}.
Variables (gAuthHost : string) (gAuthPort : Z) (gWorldHost : string) (gWorldPort udpPort : Z).

Definition clock_line (hours mins : Z) : string :=
  "time set " +:+ WorldConsole.clock_text hours mins.

Lemma clock_line_words hours mins :
  0 <= hours < 24 -> 0 <= mins < 60 ->
  words (clock_line hours mins) = ["time"; "set"; WorldConsole.clock_text hours mins]%string.
Proof.
  intros Hh Hm. eapply bool_decide_eq_true_1.
  refine (WorldConsole.every_minute (fun h m => bool_decide (words (clock_line h m)
    = ["time"; "set"; WorldConsole.clock_text h m]%string)) hours mins _ Hh Hm).
  vm_compute. reflexivity.
Qed.

Lemma parseTimeOfDay_clock hours mins :
  0 <= hours < 24 -> 0 <= mins < 60 ->
  parseTimeOfDay (WorldConsole.clock_text hours mins)
  = Some (WorldConsole.console_time_of_day hours mins).
Proof.
  intros Hh Hm. unfold parseTimeOfDay. rewrite WorldConsole.clock_text_splits by lia.
  rewrite !c_str_to_string, !atoi_to_string by lia.
  by rewrite (proj2 (Z.ltb_ge hours 0)), (proj2 (Z.ltb_ge 23 hours)), (proj2 (Z.ltb_ge mins 0)),
    (proj2 (Z.ltb_ge 59 mins)) by lia.
Qed.

Lemma console_time_valid hours mins :
  0 <= hours < 24 -> 0 <= mins < 60 ->
  f32_valid (WorldConsole.console_time_of_day hours mins) = true /\
  f32_valid (wrap_day (WorldConsole.console_time_of_day hours mins)) = true.
Proof.
  intros Hh Hm. apply andb_true_iff.
  refine (WorldConsole.every_minute (fun h m => f32_valid (WorldConsole.console_time_of_day h m) &&
    f32_valid (wrap_day (WorldConsole.console_time_of_day h m))) hours mins _ Hh Hm).
  vm_compute. reflexivity.
Qed.

(** What the line does, once read. *)
Lemma clock_line_run hours mins (c : Console E) :
  0 <= hours < 24 -> 0 <= mins < 60 ->
  runCommand gAuthHost gAuthPort gWorldHost gWorldPort (clock_line hours mins) c =
  (true, (timeCommand gWorldHost gWorldPort TimeSet
            (WorldConsole.console_time_of_day hours mins) c).2).
Proof.
  intros Hh Hm. unfold runCommand. rewrite clock_line_words by done.
  rewrite !bool_decide_eq_false_2 by done. cbn [orb]. rewrite bool_decide_eq_true_2 by done.
  unfold runTime. cbn [length Nat.eqb Nat.leb word nth].
  rewrite bool_decide_eq_false_2, bool_decide_eq_true_2 by done. cbn [andb].
  rewrite parseTimeOfDay_clock by done. unfold sm_bind, sm_ret.
  by destruct (timeCommand _ _ _ _ c) as [[] c'].
Qed.

(** C14: the clock an operator sets is the clock the operator then sees. For every
    minute of the day, [time set HH:MM] sends the world server a request that
    makes it look up the console's session; once a game master's session is found the
    server sets its clock and answers; and when that answer is what
    comes back, the console prints that hour and that minute, and the speed the server
    runs at. *)
Theorem time_set_shown (hours mins : Z) (c : Console E) (w wlater : World.World EW)
    (id : ConnectionId) (session : SessionLookup)
    (Hh : 0 <= hours < 24) (Hm : 0 <= mins < 60) (Htoken : wire_ok (gToken c))
    (Hfound : sl_found session = true)
    (Hlevel : permission_code GameMaster <= sl_permissionLevel session)
    (Hspeed : f32_valid (sim_timeSpeed (World.w_simulation wlater)) = true) :
  let type := world_message_code AdminSetTimeRequest in
  let response := world_message_code AdminSetTimeResponse in
  exists value request answer wset,
    let k := World.KWorldCommand id AdminSetTimeRequest (Some TimeSet) value in
    World.onMessage udpPort id type request w =
      lookupSession (CB := World.callback udpPort) (gToken c) k w /\
    World.callback udpPort _ k true session wlater =
      on_server (server_send id response answer) wset /\
    WorldConsole.clock_minutes (sim_timeOfDay (World.w_simulation wset)) = hours * 60 + mins /\
    (answered gWorldHost gWorldPort (mkMessage response answer) c ->
     cs_events (runCommand gAuthHost gAuthPort gWorldHost gWorldPort (clock_line hours mins) c).2 =
       cs_events c ++ [Send gWorldHost gWorldPort type request; Print (ClockTime hours mins);
         Print (speed_text (sim_timeSpeed (World.w_simulation wlater)))]).
Proof.
  cbv zeta. destruct (console_time_valid hours mins Hh Hm) as [Hv Hv'].
  set (value := WorldConsole.console_time_of_day hours mins) in *.
  pose (wset := World.set_time_of_day value wlater).
  assert (Hset : sim_timeOfDay (World.w_simulation wset) = wrap_day value /\
    sim_timeSpeed (World.w_simulation wset) = sim_timeSpeed (World.w_simulation wlater)).
  { unfold wset, World.set_time_of_day, World.read_clock. by destruct (realSeconds _). }
  destruct Hset as [Hday Hsp].
  exists value, (time_payload (gToken c) TimeSet value),
    (clock_reply 0 (World.w_simulation wset)), wset.
  split_and!.
  - by apply time_read.
  - cbn [World.callback World.final_callback]. unfold World.onWorldCommand.
    rewrite Hfound, (proj2 (Z.ltb_ge _ _) Hlevel). done.
  - rewrite Hday. by apply WorldConsole.clock_minutes_roundtrip.
  - intros Hans. rewrite clock_line_run by done. fold value. unfold timeCommand, sm_bind at 1.
    cbn [sm_gets]. unfold sm_bind, request_world.
    destruct (request_answered gWorldHost gWorldPort (world_message_code AdminSetTimeRequest)
      (time_payload (gToken c) TimeSet value) _ c Hans) as [e ->].
    cbn [msg_payload]. rewrite (surjective_pairing (read_clock _)).
    rewrite clock_reply_read; [|by unfold fits; lia|by rewrite Hday|by rewrite Hsp].
    cbn [fst]. rewrite Hday, Hsp. unfold printClock, sm_bind, minutes_of.
    pose proof (WorldConsole.clock_minutes_roundtrip hours mins Hh Hm) as Hr.
    unfold WorldConsole.clock_minutes in Hr. fold value in Hr. rewrite Hr.
    rewrite Z.quot_div_nonneg, Z.rem_mod_nonneg, Z.div_add_l, (Z.div_small mins 60), Z.add_0_r by lia.
    replace ((hours * 60 + mins) mod 60) with mins
      by (rewrite Z.add_comm, Z_mod_plus_full, Z.mod_small; lia).
    cbn. by rewrite <- !app_assoc.
Qed.
End EndToEnd.

(** ** A concrete run

    A world server that answers with the clock the operator set, in two
    pieces. *)

Definition toy_answer : Message :=
  mkMessage (world_message_code AdminSetTimeResponse)
    (clock_reply 0 (World.w_simulation (World.set_time_of_day (HClk := WorldProperties.toy_clocks)
      (WorldConsole.console_time_of_day 6 30) WorldProperties.toy_3))).

Definition toy_batches : list (list (list byte)) :=
  [[take 4 (frame toy_answer)]; [drop 4 (frame toy_answer)]].

Definition toy_api : SocketApi () :=
  {| sys_stream_socket := sm_ret true;
     sys_datagram_socket := sm_ret None;
     sys_connect _ := sm_ret (ConnectErrno true false, mkSocket (arrivals toy_batches) [] []);
     sys_so_error := sm_ret (Some 0);
     sys_bind _ := sm_ret true;
     sys_nonblocking := sm_ret true;
     sys_getaddrinfo _ := sm_ret (Some 1);
     sys_poll _ _ := sm_ret (1, [POLLIN]) |}.

Definition toy_console : Console () := mkConsole "t" "admin" "secret" 1 [] [] tt.

#[local] Existing Instances toy_api WorldProperties.toy_sodium WorldProperties.toy_clocks axis_libm.

Lemma toy_answered : answered "127.0.0.1" 7002 toy_answer toy_console.
Proof.
  eexists _, _, toy_batches. split_and!; [reflexivity|done| |split; by vm_compute|vm_compute; done|].
  - repeat constructor; by vm_compute.
  - apply (bool_decide_eq_true_1 (_ < _)%nat). vm_compute. reflexivity.
Qed.

Example toy_time_set :
  cs_events (runCommand "127.0.0.1" 7001 "127.0.0.1" 7002 "time set 06:30" toy_console).2 =
  [Send "127.0.0.1" 7002 (world_message_code AdminSetTimeRequest)
     (time_payload "t" TimeSet (WorldConsole.console_time_of_day 6 30));
   Print (ClockTime 6 30); Print RealTime].
Proof. vm_compute. reflexivity. Qed.

Definition toy_session : SessionLookup :=
  {| sl_found := true; sl_accountId := 5; sl_username := "admin"; sl_permissionLevel := 1 |}.

Lemma time_set_shown_witness :
  exists value request answer wset,
    let k := World.KWorldCommand 1 AdminSetTimeRequest (Some TimeSet) value in
    World.onMessage 7003 1 (world_message_code AdminSetTimeRequest) request WorldProperties.toy_3 =
      lookupSession (CB := World.callback 7003) "t" k WorldProperties.toy_3 /\
    World.callback 7003 _ k true toy_session WorldProperties.toy_3 =
      on_server (server_send 1 (world_message_code AdminSetTimeResponse) answer) wset /\
    WorldConsole.clock_minutes (sim_timeOfDay (World.w_simulation wset)) = 23 * 60 + 59 /\
    (answered "127.0.0.1" 7002 (mkMessage (world_message_code AdminSetTimeResponse) answer)
       toy_console ->
     cs_events (runCommand "127.0.0.1" 7001 "127.0.0.1" 7002 (clock_line 23 59) toy_console).2 =
       [] ++ [Send "127.0.0.1" 7002 (world_message_code AdminSetTimeRequest) request;
         Print (ClockTime 23 59);
         Print (speed_text (sim_timeSpeed (World.w_simulation WorldProperties.toy_3)))]).
Proof.
  apply (time_set_shown "127.0.0.1" 7001 "127.0.0.1" 7002 7003 23 59 toy_console
    WorldProperties.toy_3 WorldProperties.toy_3 1 toy_session);
    [by split|by split|unfold wire_ok; cbn; unfold kMaxStringLength; lia|reflexivity|cbn; lia|reflexivity].
Defined.

Lemma console_requests_read_witness :
  AuthServer.onMessage AuthServer.toy_config 1 (auth_message_code AdminSetLevelRequest)
    (level_payload "t" "alex" 2) AuthServer.toy_start =
  lookupSession (CB := AuthServer.callback AuthServer.toy_config) "t"
    (AuthServer.KAdminLookup 1 AdminSetLevelRequest AdminSetLevelResponse "alex" "" 2)
    AuthServer.toy_start.
Proof.
  refine (proj1 (proj2 (proj2 (console_requests_read AuthServer.toy_config 7003 1 "t" "alex"
    "secret1" 2 250 TimeSpeed f32_one AuthServer.toy_start WorldProperties.toy_start _ _ _ _ _)))).
  - repeat constructor; unfold wire_ok, kMaxStringLength; cbn; lia.
  - discriminate.
  - unfold fits. lia.
  - unfold fits. lia.
  - reflexivity.
Defined.

(** ** A time that is not a number

    [nan] passes both comparisons of [parseTimeOfDay] and the server's own
    wrapping; its clock then holds no time of day at all. *)
Example nan_accepted : parseTimeOfDay "nan" = Some S754_nan.
Proof. reflexivity. Qed.

Lemma nan_stops_clock `{Libm} (id : ConnectionId) (session : SessionLookup) {EW} `{Sodium EW}
    `{Clocks EW} (w : World.World EW) :
  sl_found session = true -> permission_code GameMaster <= sl_permissionLevel session ->
  sim_timeOfDay (World.w_simulation (World.onWorldCommand id AdminSetTimeRequest (Some TimeSet)
    S754_nan true session w)) = S754_nan.
Proof.
  intros Hf Hl. unfold World.onWorldCommand. rewrite Hf, (proj2 (Z.ltb_ge _ _) Hl).
  cbn [negb orb]. rewrite bool_decide_eq_true_2 by done.
  cbn [World.apply_time_command]. unfold World.set_time_of_day, World.read_clock.
  by destruct (realSeconds _).
Qed.

(** ** A level that is not a number

    [atoi] reads a word as level 0, and the cast keeps the low byte. *)
Example level_word {E : Type} `{SocketApi E} host port :
  runAccount host port ["account"; "level"; "alex"; "admin"]%string =
    accountSetLevel host port "alex" 0 /\
  runAccount host port ["account"; "level"; "alex"; "256"]%string =
    accountSetLevel host port "alex" 0.
Proof. done. Qed.
