(* ===== verification/Widgets.v ===== *)
(** * Widgets ([client/src/ui/widgets.{h,cpp}])

    The immediate-mode interface: the input of a frame, the focus and the
    widget held down, buttons, text fields and the order of [Tab]. What the
    widgets draw goes to the renderer and comes back nowhere; it is left out,
    and with it the caret's timer. *)

From Stdlib Require Import ZArith Lia Strings.Ascii Strings.String Floats.SpecFloat.
From stdpp Require Import base list option strings.
From S2P Require Import Prelude Float32.

Open Scope Z_scope.

(** ** State *)

Record InputState := mkInput {
  in_mouseX : float;
  in_mouseY : float;
  in_mouseDown : bool;
  in_mousePressed : bool;
  in_mouseReleased : bool;
  in_characters : list Z;
  in_backspace : bool;
  in_tab : bool;
  in_enter : bool;
  in_escape : bool;
}.

Definition no_input : InputState :=
  mkInput f32_zero f32_zero false false false [] false false false false.

Definition endFrame (i : InputState) : InputState :=
  mkInput (in_mouseX i) (in_mouseY i) (in_mouseDown i) false false [] false false false false.

Record Ui := mkUi {
  mInput : InputState;
  mFocused : Z;
  mActive : Z;
  mTextFields : list Z;
  mTabPending : bool;
}.

Definition new_ui : Ui := mkUi no_input 0 0 [] false.

Record Rect := mkRect { rc_x : float; rc_y : float; rc_width : float; rc_height : float }.

Definition setFocus (id : Z) (u : Ui) : Ui :=
  mkUi (mInput u) id (mActive u) (mTextFields u) (mTabPending u).

Definition press (id : Z) (u : Ui) : Ui :=
  mkUi (mInput u) id id (mTextFields u) (mTabPending u).

(** ** A frame *)

Definition ui_begin (input : InputState) (u : Ui) : Ui :=
  mkUi input (mFocused u) (mActive u) [] (in_tab input).

(** The field after [focused], if it is one and not the last. *)
Fixpoint field_after (focused : Z) (fields : list Z) : option Z :=
  match fields with
  | f :: ((g :: _) as rest) => if f =? focused then Some g else field_after focused rest
  | _ => None
  end.

Definition tab_target (focused : Z) (fields : list Z) : Z :=
  match fields with
  | [] => focused
  | first :: _ => default first (field_after focused fields)
  end.

Definition ui_end (u : Ui) : Ui :=
  let focused := if in_mousePressed (mInput u) && (mActive u =? 0) then 0 else mFocused u in
  let active := if in_mouseReleased (mInput u) then 0 else mActive u in
  let focused := if mTabPending u then tab_target focused (mTextFields u) else focused in
  mkUi (mInput u) focused active (mTextFields u) false.

Definition hovered (r : Rect) (u : Ui) : bool :=
  let x := in_mouseX (mInput u) in
  let y := in_mouseY (mInput u) in
  (rc_x r <=? x)%f32 && (x <? rc_x r + rc_width r)%f32 &&
  (rc_y r <=? y)%f32 && (y <? rc_y r + rc_height r)%f32.

(** [Ui::buttonInternal], which [button] and [dangerButton] call with their
    colours. *)
Definition button (id : Z) (r : Rect) (u : Ui) : bool * Ui :=
  let isHovered := hovered r u in
  let u := if isHovered && in_mousePressed (mInput u) then press id u else u in
  ((mActive u =? id) && in_mouseReleased (mInput u) && isHovered, u).

(** ** Text *)

Definition printable (codepoint : Z) : bool := (0x20 <=? codepoint) && (codepoint <=? 0x7E).

Definition char_of (codepoint : Z) : ascii := ascii_of_N (Z.to_N codepoint).

Definition push_back (s : string) (c : ascii) : string := s +:+ String c EmptyString.

(** [std::string::pop_back], for a string that is not empty. *)
Fixpoint pop_back (s : string) : string :=
  match s with
  | EmptyString => EmptyString
  | String _ EmptyString => EmptyString
  | String c s' => String c (pop_back s')
  end.

Definition type_char (maxLength : nat) (value : string) (codepoint : Z) : string :=
  if printable codepoint && (String.length value <? maxLength)%nat
  then push_back value (char_of codepoint) else value.

(** The edits of a focused field: the characters typed, then a backspace. *)
Definition edit (maxLength : nat) (input : InputState) (value : string) : string :=
  let value := foldl (type_char maxLength) value (in_characters input) in
  if in_backspace input then pop_back value else value.

(** [Ui::textField]: whether Enter was pressed, the value and the interface. *)
Definition textField (id : Z) (r : Rect) (maxLength : nat) (value : string) (u : Ui)
    : bool * string * Ui :=
  let u := mkUi (mInput u) (mFocused u) (mActive u) (mTextFields u ++ [id]) (mTabPending u) in
  let u := if hovered r u && in_mousePressed (mInput u) then press id u else u in
  if mFocused u =? id then (in_enter (mInput u), edit maxLength (mInput u) value, u)
  else (false, value, u).

(** ** What a text field holds *)

Definition text_ok (maxLength : nat) (s : string) : Prop :=
  (String.length s <= maxLength)%nat /\
  Forall (fun c => 0x20 <= Z.of_N (N_of_ascii c) <= 0x7E) (list_ascii_of_string s).

Lemma list_ascii_push_back s c :
  list_ascii_of_string (push_back s c) = list_ascii_of_string s ++ [c].
Proof.
  unfold push_back. induction s as [|d s IH]; [done|].
  change (String d s +:+ String c "") with (String d (s +:+ String c "")).
  cbn [list_ascii_of_string app]. by rewrite IH.
Qed.

Lemma length_push_back s c : String.length (push_back s c) = S (String.length s).
Proof.
  unfold push_back. induction s as [|d s IH]; [done|].
  change (String d s +:+ String c "") with (String d (s +:+ String c "")).
  cbn [String.length]. by rewrite IH.
Qed.

Lemma pop_back_ok n s : text_ok n s -> text_ok n (pop_back s).
Proof.
  unfold text_ok. intros [Hl Hf]. split.
  - etrans; [|exact Hl]. clear. induction s as [|c [|d s] IH]; cbn in *; lia.
  - clear Hl. induction s as [|c [|d s] IH]; [constructor..|].
    apply Forall_cons in Hf as [Hc Hf]. constructor; [done|]. by apply IH.
Qed.

Lemma type_char_ok n s codepoint : text_ok n s -> text_ok n (type_char n s codepoint).
Proof.
  intros [Hl Hf]. unfold type_char, printable.
  destruct (Z.leb_spec 0x20 codepoint), (Z.leb_spec codepoint 0x7E); try done.
  cbn [andb]. destruct (Nat.ltb_spec (String.length s) n) as [Hn|]; [|done].
  split; [rewrite length_push_back; lia|]. rewrite list_ascii_push_back.
  apply Forall_app. split; [done|]. constructor; [|done].
  unfold char_of. rewrite N_ascii_embedding; lia.
Qed.

Lemma edit_ok n input s : text_ok n s -> text_ok n (edit n input s).
Proof.
  unfold edit. intros Hs.
  assert (Ht : text_ok n (foldl (type_char n) s (in_characters input))).
  { revert s Hs. induction (in_characters input) as [|c cs IH]; intros s Hs; [done|].
    by apply IH, type_char_ok. }
  case_match; [by apply pop_back_ok|done].
Qed.

Lemma textField_ok id r n value u :
  text_ok n value -> text_ok n (textField id r n value u).1.2.
Proof. intros Hv. unfold textField. case_match; [by apply edit_ok|done]. Qed.

(** ** What the widgets do to the interface *)

Lemma button_input id r u : mInput (button id r u).2 = mInput u.
Proof. unfold button. cbn [snd]. by case_match. Qed.

Lemma textField_input id r n value u : mInput (textField id r n value u).2 = mInput u.
Proof. unfold textField. by repeat case_match. Qed.
