(* ===== verification/Screens.v ===== *)
(** * The login form and the menu ([client/src/screens.{h,cpp}]) *)

From Stdlib Require Import ZArith Lia Strings.Ascii Strings.String Floats.SpecFloat.
From stdpp Require Import base list option strings.
From S2P Require Import Prelude Float32 Widgets.

Open Scope Z_scope.

Inductive AppState := Login | Connecting | InGame | Menu.

Global Instance AppState_eq_dec : EqDecision AppState.
Proof. solve_decision. Defined.

(** What the screens ask of the renderer: its size and the height of a line
    of text, by font size. *)
Record UiRenderer := mkRenderer {
  rn_width : Z;
  rn_height : Z;
  textHeight : Z -> float;
}.

(** [client/src/ui/font.h] *)
Definition kFontSizeSmall : Z := 13.
Definition kFontSizeHeading : Z := 26.
Definition kFontSizeTitle : Z := 34.

Definition kIdUsername : Z := 1.
Definition kIdPassword : Z := 2.
Definition kIdSubmit : Z := 3.
Definition kIdQuit : Z := 4.
Definition kIdResume : Z := 5.
Definition kIdLogout : Z := 6.
Definition kIdMenuQuit : Z := 7.

Definition kFieldHeight : float := f32_of_Z 40.
Definition kButtonHeight : float := f32_of_Z 44.
Definition kRowGap : float := f32_of_Z 16.
Definition kMaxFieldLength : nat := 32.
Definition f32_half : float := lit32 1 2.

Record LoginScreen := mkLoginScreen {
  ls_username : string;
  ls_password : string;
  ls_status : string;
  ls_statusIsError : bool;
  ls_focusInitialised : bool;
}.

Definition new_login_screen : LoginScreen := mkLoginScreen "" "" "" false false.

Definition setStatus (status : string) (error : bool) (l : LoginScreen) : LoginScreen :=
  mkLoginScreen (ls_username l) (ls_password l) status error (ls_focusInitialised l).

Definition clearPassword (l : LoginScreen) : LoginScreen :=
  mkLoginScreen (ls_username l) "" (ls_status l) (ls_statusIsError l) (ls_focusInitialised l).

Definition resetFocus (l : LoginScreen) : LoginScreen :=
  mkLoginScreen (ls_username l) (ls_password l) (ls_status l) (ls_statusIsError l) false.

Inductive LoginAction := LoginNone | LoginSubmit | LoginQuit.
Inductive MenuAction := MenuNone | MenuResume | MenuLogout | MenuQuit.

Global Instance MenuAction_eq_dec : EqDecision MenuAction.
Proof. solve_decision. Defined.

(** Where the widgets of the login form are, from top to bottom. *)
Record LoginLayout := mkLoginLayout {
  ll_username : Rect;
  ll_password : Rect;
  ll_submit : Rect;
  ll_quit : Rect;
}.

Definition login_layout (rn : UiRenderer) : LoginLayout :=
  let panelWidth := f32_of_Z 460 in
  let panelHeight := f32_of_Z 320 in
  let panelX := ((f32_of_Z (rn_width rn) - panelWidth) * f32_half)%f32 in
  let panelY := ((f32_of_Z (rn_height rn) - panelHeight) * f32_half)%f32 in
  let contentX := (panelX + f32_of_Z 32)%f32 in
  let contentWidth := (panelWidth - f32_of_Z 64)%f32 in
  let y := (panelY + f32_of_Z 28)%f32 in
  let y := (y + (textHeight rn kFontSizeTitle + f32_of_Z 24))%f32 in
  let y := (y + (textHeight rn kFontSizeSmall + f32_of_Z 4))%f32 in
  let username := mkRect contentX y contentWidth kFieldHeight in
  let y := (y + (kFieldHeight + kRowGap))%f32 in
  let y := (y + (textHeight rn kFontSizeSmall + f32_of_Z 4))%f32 in
  let password := mkRect contentX y contentWidth kFieldHeight in
  let y := (y + (kFieldHeight + kRowGap + f32_of_Z 4))%f32 in
  let buttonWidth := ((contentWidth - f32_of_Z 12) * f32_half)%f32 in
  mkLoginLayout username password
    (mkRect contentX y buttonWidth kButtonHeight)
    (mkRect (contentX + buttonWidth + f32_of_Z 12)%f32 y buttonWidth kButtonHeight).

(** [LoginScreen::draw]. *)
Definition login_draw (rn : UiRenderer) (state : AppState) (l : LoginScreen) (u : Ui)
    : LoginAction * LoginScreen * Ui :=
  let u := if ls_focusInitialised l then u else setFocus kIdUsername u in
  let layout := login_layout rn in
  let busy := bool_decide (state = Connecting) in
  let '(usernameSubmitted, username, u) :=
    textField kIdUsername (ll_username layout) kMaxFieldLength (ls_username l) u in
  let '(passwordSubmitted, password, u) :=
    textField kIdPassword (ll_password layout) kMaxFieldLength (ls_password l) u in
  let '(submitClicked, u) := button kIdSubmit (ll_submit layout) u in
  let '(quitClicked, u) := button kIdQuit (ll_quit layout) u in
  let l := mkLoginScreen username password (ls_status l) (ls_statusIsError l) true in
  (if quitClicked then LoginQuit
   else if negb busy && (submitClicked || usernameSubmitted || passwordSubmitted)
   then LoginSubmit else LoginNone, l, u).

Record MenuLayout := mkMenuLayout { ml_resume : Rect; ml_logout : Rect; ml_quit : Rect }.

Definition menu_layout (rn : UiRenderer) : MenuLayout :=
  let panelWidth := f32_of_Z 340 in
  let panelHeight := f32_of_Z 260 in
  let panelX := ((f32_of_Z (rn_width rn) - panelWidth) * f32_half)%f32 in
  let panelY := ((f32_of_Z (rn_height rn) - panelHeight) * f32_half)%f32 in
  let y := (panelY + f32_of_Z 26)%f32 in
  let y := (y + (textHeight rn kFontSizeHeading + f32_of_Z 6))%f32 in
  let y := (y + (textHeight rn kFontSizeSmall + f32_of_Z 22))%f32 in
  let contentX := (panelX + f32_of_Z 30)%f32 in
  let contentWidth := (panelWidth - f32_of_Z 60)%f32 in
  let row := (kButtonHeight + f32_of_Z 12)%f32 in
  mkMenuLayout (mkRect contentX y contentWidth kButtonHeight)
    (mkRect contentX (y + row)%f32 contentWidth kButtonHeight)
    (mkRect contentX (y + row + row)%f32 contentWidth kButtonHeight).

(** [MenuScreen::draw]. *)
Definition menu_draw (rn : UiRenderer) (u : Ui) : MenuAction * Ui :=
  let layout := menu_layout rn in
  let '(resume, u) := button kIdResume (ml_resume layout) u in
  let '(logout, u) := button kIdLogout (ml_logout layout) u in
  let '(quit, u) := button kIdMenuQuit (ml_quit layout) u in
  (if resume then MenuResume else if logout then MenuLogout
   else if quit then MenuQuit else MenuNone, u).

(** ** The form *)

Definition form_ok (l : LoginScreen) : Prop :=
  text_ok kMaxFieldLength (ls_username l) /\ text_ok kMaxFieldLength (ls_password l).

Lemma login_draw_ok rn state l u : form_ok l -> form_ok (login_draw rn state l u).1.2.
Proof.
  intros [H1 H2]. unfold login_draw.
  pose proof (textField_ok kIdUsername (ll_username (login_layout rn)) kMaxFieldLength _
    (if ls_focusInitialised l then u else setFocus kIdUsername u) H1) as H3.
  destruct (textField _ _ _ (ls_username l) _) as [[? username] u1].
  pose proof (textField_ok kIdPassword (ll_password (login_layout rn)) kMaxFieldLength _ u1 H2) as H4.
  destruct (textField _ _ _ (ls_password l) _) as [[? password] u2].
  destruct (button kIdSubmit _ _) as [submit u3], (button kIdQuit _ _) as [quit u4]. by split.
Qed.

Lemma login_draw_submit rn state l u :
  (login_draw rn state l u).1.1 = LoginSubmit -> state <> Connecting.
Proof.
  unfold login_draw. destruct (textField _ _ _ (ls_username l) _) as [[? username] u1].
  destruct (textField _ _ _ (ls_password l) _) as [[? password] u2].
  destruct (button kIdSubmit _ _) as [submit u3], (button kIdQuit _ _) as [quit u4].
  cbn [fst]. destruct quit; [done|]. case_bool_decide; done.
Qed.

(** ** Clicks on the menu *)

Definition over (r : Rect) (i : InputState) : Prop := hovered r (mkUi i 0 0 [] false) = true.

Definition menu_frame (rn : UiRenderer) (u : Ui) (i : InputState) : Ui :=
  ui_end (menu_draw rn (ui_begin i u)).2.

(** The last of these inputs that pressed the mouse on [r] was followed by no
    release. *)
Definition held_on (r : Rect) (inputs : list InputState) : Prop :=
  exists before i after, inputs = before ++ i :: after /\
    in_mousePressed i = true /\ over r i /\
    Forall (fun i => in_mouseReleased i = false) (i :: after).

Definition menu_rect (rn : UiRenderer) (id : Z) : option Rect :=
  if id =? kIdResume then Some (ml_resume (menu_layout rn))
  else if id =? kIdLogout then Some (ml_logout (menu_layout rn))
  else if id =? kIdMenuQuit then Some (ml_quit (menu_layout rn))
  else None.

Lemma button_active id r u :
  (mActive (button id r u).2 = mActive u \/
   (mActive (button id r u).2 = id /\ in_mousePressed (mInput u) = true /\ over r (mInput u))) /\
  ((button id r u).1 = true ->
   mActive (button id r u).2 = id /\ in_mouseReleased (mInput u) = true /\ over r (mInput u)).
Proof.
  unfold button, over. change (hovered r (mkUi (mInput u) 0 0 [] false)) with (hovered r u).
  destruct (hovered r u), (in_mousePressed (mInput u)) eqn:Ep; cbn;
    rewrite ?andb_false_r, ?andb_true_r, ?andb_true_iff, ?Z.eqb_eq; naive_solver.
Qed.

(** The button held down after a frame's widgets: the one held before, or one
    pressed in this frame. *)
Definition pressed_now (rn : UiRenderer) (i : InputState) (id : Z) : Prop :=
  exists r, menu_rect rn id = Some r /\ in_mousePressed i = true /\ over r i.

Lemma menu_draw_active rn i u :
  let '(action, u') := menu_draw rn (ui_begin i u) in
  mInput u' = i /\
  (mActive u' = mActive u \/ pressed_now rn i (mActive u')) /\
  (forall id, (action, id) ∈ [(MenuResume, kIdResume); (MenuLogout, kIdLogout); (MenuQuit, kIdMenuQuit)] ->
     in_mouseReleased i = true /\ (exists r, menu_rect rn id = Some r /\ over r i) /\
     (mActive u = id \/ pressed_now rn i id)).
Proof.
  unfold menu_draw. pose proof (button_active kIdResume (ml_resume (menu_layout rn)) (ui_begin i u)) as [A1 B1].
  pose proof (button_input kIdResume (ml_resume (menu_layout rn)) (ui_begin i u)) as I1.
  destruct (button kIdResume _ _) as [resume u1]. cbn [fst snd mActive mInput ui_begin] in *.
  pose proof (button_active kIdLogout (ml_logout (menu_layout rn)) u1) as [A2 B2].
  pose proof (button_input kIdLogout (ml_logout (menu_layout rn)) u1) as I2.
  destruct (button kIdLogout _ _) as [logout u2]. cbn [fst snd] in *.
  pose proof (button_active kIdMenuQuit (ml_quit (menu_layout rn)) u2) as [A3 B3].
  pose proof (button_input kIdMenuQuit (ml_quit (menu_layout rn)) u2) as I3.
  destruct (button kIdMenuQuit _ _) as [quit u3]. cbn [fst snd] in *.
  rewrite I2, I1 in *.
  assert (P1 : mActive u1 = mActive u \/ pressed_now rn i (mActive u1)).
  { destruct A1 as [->|(-> & ? & ?)]; [by left|right]. by eexists. }
  assert (P2 : mActive u2 = mActive u \/ pressed_now rn i (mActive u2)).
  { destruct A2 as [->|(-> & ? & ?)]; [done|right]. by eexists. }
  assert (P3 : mActive u3 = mActive u \/ pressed_now rn i (mActive u3)).
  { destruct A3 as [->|(-> & ? & ?)]; [done|right]. by eexists. }
  split_and!; [by rewrite I3|done|]. intros id Hid.
  assert (Hdone : forall u' r, mActive u' = id -> menu_rect rn id = Some r ->
    (mActive u' = mActive u \/ pressed_now rn i (mActive u')) ->
    in_mouseReleased i = true -> over r i ->
    in_mouseReleased i = true /\ (exists r, menu_rect rn id = Some r /\ over r i) /\
    (mActive u = id \/ pressed_now rn i id)).
  { intros u' r E Hr P Hi Ho. rewrite E in P. split; [done|]. split; [by exists r|].
    destruct P as [P|P]; [left; by rewrite P|by right]. }
  rewrite !elem_of_cons in Hid. destruct Hid as [H|[H|[H|[]%not_elem_of_nil]]].
  - destruct resume, logout, quit; try discriminate H; injection H as ->;
      destruct (B1 eq_refl) as (E & ? & ?); by apply (Hdone u1 (ml_resume (menu_layout rn))).
  - destruct resume, logout, quit; try discriminate H; injection H as ->;
      destruct (B2 eq_refl) as (E & ? & ?); by apply (Hdone u2 (ml_logout (menu_layout rn))).
  - destruct resume, logout, quit; try discriminate H; injection H as ->;
      destruct (B3 eq_refl) as (E & ? & ?); by apply (Hdone u3 (ml_quit (menu_layout rn))).
Qed.

Lemma held_on_now r before i :
  in_mousePressed i = true -> over r i -> in_mouseReleased i = false -> held_on r (before ++ [i]).
Proof. intros. exists before, i, []. split_and!; [done..|]. by constructor. Qed.

Lemma menu_frames_active rn inputs id :
  let u := foldl (menu_frame rn) new_ui inputs in
  mActive u = id -> id <> 0 -> exists r, menu_rect rn id = Some r /\ held_on r inputs.
Proof.
  cbv zeta. revert id. induction inputs as [|i inputs IH] using rev_ind; intros id; [by intros <-|].
  rewrite foldl_app. cbn [foldl]. unfold menu_frame at 1.
  pose proof (menu_draw_active rn i (foldl (menu_frame rn) new_ui inputs)) as H.
  destruct (menu_draw _ _) as [action u']. cbn [snd]. destruct H as (Hi & Ha & _).
  unfold ui_end. rewrite Hi. cbn [mActive].
  destruct (in_mouseReleased i) eqn:Er; [intros <-; done|]. intros <- Hne.
  destruct Ha as [Ha|(r & Hr & Hp & Ho)].
  - destruct (IH _ eq_refl) as (r & Hr & before & j & after & -> & Hj & Ho & Hf); [by rewrite <- Ha|].
    exists r. rewrite Ha. split; [done|]. exists before, j, (after ++ [i]).
    rewrite <- app_assoc. split_and!; [done..|].
    rewrite app_comm_cons. apply Forall_app. split; [done|]. by constructor.
  - exists r. split; [done|]. by apply held_on_now.
Qed.

(** A button of the menu acts on a click, and a click is a press and a release
    over that button: when a frame of the menu asks to resume, log out or
    quit, the mouse is released over that button in this frame, and was
    pressed over it in this frame or in an earlier one with no release since. A press
    that began elsewhere does nothing. *)
Theorem menu_click (rn : UiRenderer) (inputs : list InputState) (i : InputState) (id : Z)
    (Hid : ((menu_draw rn (ui_begin i (foldl (menu_frame rn) new_ui inputs))).1, id) ∈
      [(MenuResume, kIdResume); (MenuLogout, kIdLogout); (MenuQuit, kIdMenuQuit)]) :
  in_mouseReleased i = true /\
  exists r, menu_rect rn id = Some r /\ over r i /\
    ((in_mousePressed i = true /\ over r i) \/ held_on r inputs).
Proof.
  pose proof (menu_draw_active rn i (foldl (menu_frame rn) new_ui inputs)) as H.
  destruct (menu_draw _ _) as [action u']. cbn [fst] in Hid.
  destruct H as (_ & _ & H). destruct (H id Hid) as (Hr & (r & Er & Ho) & Ha).
  split; [done|]. exists r. split_and!; [done..|].
  destruct Ha as [Ha|(r' & Er' & Hp & Ho')].
  - right. destruct (menu_frames_active rn inputs id Ha) as (r' & Er' & Hh); [|congruence].
    intros ->. rewrite !elem_of_cons in Hid.
    destruct Hid as [E|[E|[E|[]%not_elem_of_nil]]]; discriminate E.
  - left. split; [done|congruence].
Qed.

(** A press on LOGOUT, a drag, and a release back over it; and a press outside. *)
Definition flat_renderer : UiRenderer := mkRenderer 1280 720 (fun _ => f32_of_Z 20).

Definition mouse_at (y : Z) (pressed released : bool) : InputState :=
  mkInput (f32_of_Z 640) (f32_of_Z y) false pressed released [] false false false false.

Lemma menu_click_witness :
  in_mouseReleased (mouse_at 390 false true) = true /\
  exists r, menu_rect flat_renderer kIdLogout = Some r /\ over r (mouse_at 390 false true) /\
    ((in_mousePressed (mouse_at 390 false true) = true /\ over r (mouse_at 390 false true)) \/
     held_on r [mouse_at 390 true false; mouse_at 10 false false]).
Proof.
  apply (menu_click flat_renderer [mouse_at 390 true false; mouse_at 10 false false]
    (mouse_at 390 false true) kIdLogout).
  apply list_elem_of_In. vm_compute. auto.
Defined.

Example press_elsewhere :
  (menu_draw flat_renderer (ui_begin (mouse_at 390 false true)
     (foldl (menu_frame flat_renderer) new_ui [mouse_at 10 true false]))).1 = MenuNone.
Proof. vm_compute. reflexivity. Qed.
