(* ===== verification/Font.v ===== *)
(** * The font atlas ([client/src/ui/font.{h,cpp}])

    [Font::build] rasterises every printable character at every size into one
    texture, packing them on shelves; the renderer then draws each character
    from its place there. The rasteriser, stb_truetype, is the class
    [TrueType]. A write past the end of the pixels is [Undefined], so that a
    theorem can say it does not happen. *)

From Stdlib Require Import ZArith Lia Strings.Ascii Strings.String Floats.SpecFloat.
From stdpp Require Import base numbers list option gmap sorting strings.
From S2P Require Import Prelude Float32.

Open Scope Z_scope.

(** ** The rasteriser

    A codepoint's measures at a scale, and the coverage it is drawn with: a
    byte for each index of the bitmap. *)
Class TrueType := {
  stbtt_InitFont : bool;
  stbtt_ScaleForPixelHeight : float -> float;
  stbtt_GetFontVMetrics : Z * Z * Z;
  stbtt_GetCodepointHMetrics : Z -> Z;
  stbtt_GetCodepointBitmapBox : Z -> float -> Z * Z * Z * Z;
  stbtt_MakeCodepointBitmap : Z -> float -> Z -> Z -> Z -> Z;
}.

(** ** Data *)

Definition kFontSizeSmall : Z := 13.
Definition kFontSizeBody : Z := 17.
Definition kFontSizeHeading : Z := 26.
Definition kFontSizeTitle : Z := 34.

Definition kFirstGlyph : Z := 0x20.
Definition kLastGlyph : Z := 0x7E.
Definition kAtlasSize : Z := 1024.
Definition kPadding : Z := 1.

Record Glyph := mkGlyph {
  gl_u0 : float; gl_v0 : float; gl_u1 : float; gl_v1 : float;
  gl_offsetX : float;
  gl_offsetY : float;
  gl_advance : float;
  gl_width : float;
  gl_height : float;
}.

Record SizedFont := mkSized {
  sf_glyphs : gmap Z Glyph;
  sf_ascent : float;
  sf_lineHeight : float;
}.

(** [mPixels]: the bytes written since [assign] made them all zero. *)
Abbreviation Pixels := (gmap Z Z).

Record Font := mkFont {
  mSizes : gmap Z SizedFont;
  mPixels : Pixels;
  mAtlasWidth : Z;
  mAtlasHeight : Z;
  mWhiteU : float;
  mWhiteV : float;
}.

Definition new_font : Font := mkFont ∅ ∅ 0 0 f32_zero f32_zero.

(** ** Pixels *)

Definition kPixelBytes : Z := kAtlasSize * kAtlasSize * 4.

(** [mPixels[i] = v], where [i] is in range. *)
Definition put (i v : Z) (p : Pixels) : option Pixels :=
  if (0 <=? i) && (i <? kPixelBytes) then Some (<[i := v]> p) else None.

Definition put_texel (x y alpha : Z) (p : Pixels) : option Pixels :=
  let i := (y * kAtlasSize + x) * 4 in
  p ← put i 255 p; p ← put (i + 1) 255 p; p ← put (i + 2) 255 p; put (i + 3) alpha p.

(** A loop whose body may be undefined. *)
Fixpoint for_each {A S} (body : A -> S -> option S) (l : list A) (s : S) : option S :=
  match l with
  | [] => Some s
  | a :: l' => s ← body a s; for_each body l' s
  end.

(** The copy of a glyph's coverage to its place. *)
Definition blit_row (penX y width row : Z) (coverage : Z -> Z) : Pixels -> option Pixels :=
  for_each (fun x => put_texel (penX + x) y (coverage (row * width + x))) (seqZ 0 width).

Definition blit (penX penY width height : Z) (coverage : Z -> Z) : Pixels -> option Pixels :=
  for_each (fun y => blit_row penX (penY + y) width y coverage) (seqZ 0 height).

(** ** Building *)

Record Pen := mkPen { penX : Z; penY : Z; rowHeight : Z }.

Record Packer := mkPacker {
  pk_font : Font;
  pk_pen : Pen;
  pk_glyphs : gmap Z Glyph;
}.

(** How a part of [build] ends. *)
Inductive Flow :=
| Undefined
| Return (ok : bool) (f : Font)
| Continue (s : Packer).

Definition flow_bind (m : Flow) (k : Packer -> Flow) : Flow :=
  match m with Continue s => k s | _ => m end.

Fixpoint flow_each {A} (body : A -> Packer -> Flow) (l : list A) (s : Packer) : Flow :=
  match l with
  | [] => Continue s
  | a :: l' => flow_bind (body a s) (flow_each body l')
  end.

Definition set_pixels (p : Pixels) (f : Font) : Font :=
  mkFont (mSizes f) p (mAtlasWidth f) (mAtlasHeight f) (mWhiteU f) (mWhiteV f).

Definition set_sizes (m : gmap Z SizedFont) (f : Font) : Font :=
  mkFont m (mPixels f) (mAtlasWidth f) (mAtlasHeight f) (mWhiteU f) (mWhiteV f).

(** The next shelf, when the glyph does not fit on this one. *)
Definition next_row (width : Z) (pen : Pen) : Pen :=
  if kAtlasSize <? penX pen + width + kPadding
  then mkPen kPadding (penY pen + rowHeight pen + kPadding * 2) 0
  else pen.

Definition printable_codes : list Z := seqZ kFirstGlyph (kLastGlyph - kFirstGlyph + 1).

Definition to_atlas (v : Z) : float := (f32_of_Z v / f32_of_Z kAtlasSize)%f32.

Section Build.
Context `{HTT : TrueType}.

(** The size of a codepoint's bitmap. *)
Definition box_size (scale : float) (c : Z) : Z * Z :=
  let '(x0, y0, x1, y1) := stbtt_GetCodepointBitmapBox c scale in (x1 - x0, y1 - y0).

(** The glyph before it has a place. *)
Definition glyph_metrics (scale : float) (c : Z) : Glyph :=
  let '(x0, y0, _, _) := stbtt_GetCodepointBitmapBox c scale in
  let '(width, height) := box_size scale c in
  mkGlyph f32_zero f32_zero f32_zero f32_zero (f32_of_Z x0) (f32_of_Z y0)
    (f32_of_Z (stbtt_GetCodepointHMetrics c) * scale)%f32 (f32_of_Z width) (f32_of_Z height).

Definition at_pen (pen : Pen) (width height : Z) (g : Glyph) : Glyph :=
  mkGlyph (to_atlas (penX pen)) (to_atlas (penY pen))
    (to_atlas (penX pen + width)) (to_atlas (penY pen + height))
    (gl_offsetX g) (gl_offsetY g) (gl_advance g) (gl_width g) (gl_height g).

(** The body of the loop over the characters. *)
Definition bake_glyph (scale : float) (c : Z) (s : Packer) : Flow :=
  let g := glyph_metrics scale c in
  let '(width, height) := box_size scale c in
  if (0 <? width) && (0 <? height) then
    let pen := next_row width (pk_pen s) in
    if kAtlasSize <? penY pen + height + kPadding then Return false (pk_font s)
    else
      let coverage := stbtt_MakeCodepointBitmap c scale width height in
      match blit (penX pen) (penY pen) width height coverage (mPixels (pk_font s)) with
      | None => Undefined
      | Some p =>
          Continue (mkPacker (set_pixels p (pk_font s))
            (mkPen (penX pen + (width + kPadding * 2)) (penY pen) (Z.max (rowHeight pen) height))
            (<[c := at_pen pen width height g]> (pk_glyphs s)))
      end
  else Continue (mkPacker (pk_font s) (pk_pen s) (<[c := g]> (pk_glyphs s))).

(** The body of the loop over the sizes. *)
Definition bake_size (pixelSize : Z) (s : Packer) : Flow :=
  let scale := stbtt_ScaleForPixelHeight (f32_of_Z pixelSize) in
  let '(ascent, descent, lineGap) := stbtt_GetFontVMetrics in
  flow_bind (flow_each (bake_glyph scale) printable_codes (mkPacker (pk_font s) (pk_pen s) ∅))
    (fun s =>
       let sized := mkSized (pk_glyphs s) (f32_of_Z ascent * scale)%f32
                      (f32_of_Z (ascent - descent + lineGap) * scale)%f32 in
       Continue (mkPacker (set_sizes (<[pixelSize := sized]> (mSizes (pk_font s))) (pk_font s))
                   (pk_pen s) ∅)).

(** The atlas with the one opaque texel of solid rectangles. *)
Definition start_atlas (f : Font) : Flow :=
  match put_texel kPadding kPadding 255 ∅ with
  | None => Undefined
  | Some p =>
      Continue (mkPacker
        (mkFont (mSizes f) p kAtlasSize kAtlasSize
           ((f32_of_Z kPadding + lit32 1 2) / f32_of_Z kAtlasSize)%f32
           ((f32_of_Z kPadding + lit32 1 2) / f32_of_Z kAtlasSize)%f32)
        (mkPen (kPadding + (1 + kPadding * 2)) kPadding 1) ∅)
  end.

(** [Font::build]; [None] where it is undefined. *)
Definition build (pixelSizes : list Z) (f : Font) : option (bool * Font) :=
  if negb stbtt_InitFont then Some (false, f)
  else
    match flow_bind (start_atlas f) (flow_each bake_size pixelSizes) with
    | Undefined => None
    | Return ok f' => Some (ok, f')
    | Continue s => Some (true, pk_font s)
    end.

End Build.

(** ** Asking *)

(** One turn of the loop of [nearestSize]: the best size and its distance. *)
Definition nearer (requested : Z) (best : Z * Z) (size : Z) : Z * Z :=
  let distance := Z.abs (size - requested) in
  if distance <? best.2 then (size, distance) else best.

Definition nearestSize (requested : Z) (f : Font) : Z :=
  (foldl (nearer requested) (0, 2 ^ 30) (map_keys (mSizes f))).1.

Definition question_mark : Z := 0x3F.

Definition glyph (pixelSize c : Z) (f : Font) : option Glyph :=
  match mSizes f !! pixelSize with
  | None => None
  | Some sized =>
      match sf_glyphs sized !! c with
      | Some g => Some g
      | None => sf_glyphs sized !! question_mark
      end
  end.

(** A [char] as the key of a glyph: bytes above 127 are negative, and no key. *)
Definition char_key (c : ascii) : Z :=
  let n := Z.of_N (N_of_ascii c) in if n <? 128 then n else n - 256.

Definition add_advance (size : Z) (f : Font) (width : float) (c : ascii) : float :=
  match glyph size (char_key c) f with
  | Some g => (width + gl_advance g)%f32
  | None => width
  end.

Definition textWidth (pixelSize : Z) (text : string) (f : Font) : float :=
  foldl (add_advance (nearestSize pixelSize f) f) f32_zero (list_ascii_of_string text).

Definition ascent (pixelSize : Z) (f : Font) : float :=
  match mSizes f !! nearestSize pixelSize f with
  | Some sized => sf_ascent sized
  | None => f32_zero
  end.

Definition lineHeight (pixelSize : Z) (f : Font) : float :=
  match mSizes f !! nearestSize pixelSize f with
  | Some sized => sf_lineHeight sized
  | None => f32_zero
  end.

(** ** Texels *)

Definition pixel (p : Pixels) (i : Z) : Z := default 0 (p !! i).

Definition rgba (p : Pixels) (x y : Z) : Z * Z * Z * Z :=
  let i := (y * kAtlasSize + x) * 4 in
  (pixel p i, pixel p (i + 1), pixel p (i + 2), pixel p (i + 3)).

Definition in_atlas (x y : Z) : Prop := 0 <= x < kAtlasSize /\ 0 <= y < kAtlasSize.

Lemma put_in_range i v p : 0 <= i < kPixelBytes -> put i v p = Some (<[i := v]> p).
Proof.
  intros Hi. unfold put. by rewrite (proj2 (Z.leb_le 0 i)), (proj2 (Z.ltb_lt i _)) by lia.
Qed.

Lemma pixel_insert p i v : pixel (<[i := v]> p) i = v.
Proof. unfold pixel. by rewrite lookup_insert, decide_True. Qed.

Lemma pixel_insert_ne p i j v : i <> j -> pixel (<[i := v]> p) j = pixel p j.
Proof. intros H. unfold pixel. by rewrite lookup_insert_ne. Qed.

Lemma put_texel_spec x y a p :
  in_atlas x y ->
  exists p', put_texel x y a p = Some p' /\
    forall x' y', in_atlas x' y' ->
      rgba p' x' y' = if decide (x' = x /\ y' = y) then (255, 255, 255, a) else rgba p x' y'.
Proof.
  unfold in_atlas, kAtlasSize. intros Hxy. unfold put_texel, kAtlasSize. cbn zeta.
  repeat (rewrite put_in_range by (unfold kPixelBytes, kAtlasSize; lia); cbn [mbind option_bind]).
  eexists. split; [done|]. intros x' y' Hxy'. unfold rgba, kAtlasSize. cbn zeta.
  destruct (decide (x' = x /\ y' = y)) as [[-> ->]|Hne].
  - by repeat first [rewrite pixel_insert | rewrite pixel_insert_ne by lia].
  - by rewrite !pixel_insert_ne by lia.
Qed.

(** ** Copying a bitmap *)

Lemma put_row_spec (penX y width row : Z) coverage (xs : list Z) p :
  Forall (fun x => in_atlas (penX + x) y) xs ->
  exists p', for_each (fun x => put_texel (penX + x) y (coverage (row * width + x))) xs p
      = Some p' /\
    forall x' y', in_atlas x' y' ->
      rgba p' x' y' = if decide ((x' - penX) ∈ xs /\ y' = y)
                      then (255, 255, 255, coverage (row * width + (x' - penX)))
                      else rgba p x' y'.
Proof.
  revert p. induction xs as [|x xs IH]; intros p Hin; cbn [for_each].
  - exists p. split; [done|]. intros x' y' _. rewrite decide_False; [done|].
    intros [Hx _]. by inversion Hx.
  - apply Forall_cons_1 in Hin as [Hx Hin].
    destruct (put_texel_spec (penX + x) y (coverage (row * width + x)) p Hx) as (p1 & -> & Hp1).
    cbn [mbind option_bind]. destruct (IH p1 Hin) as (p2 & -> & Hp2).
    exists p2. split; [done|]. intros x' y' Hxy. rewrite Hp2, Hp1 by done.
    destruct (decide ((x' - penX) ∈ xs /\ y' = y)) as [[H1 H2]|Hn].
    + rewrite decide_True; [done|]. rewrite elem_of_cons. auto.
    + destruct (decide (x' = penX + x /\ y' = y)) as [[-> ->]|Hn'].
      * rewrite decide_True; [|split; [rewrite elem_of_cons; left; lia|done]].
        do 2 f_equal. lia.
      * rewrite decide_False; [done|]. rewrite elem_of_cons.
        intros [[Hx'|Hx'] Hy]; [apply Hn'; lia|by apply Hn].
Qed.

Lemma blit_row_spec px y w row coverage p :
  0 <= px -> px + w <= kAtlasSize -> 0 <= y < kAtlasSize ->
  exists p', blit_row px y w row coverage p = Some p' /\
    forall x' y', in_atlas x' y' ->
      rgba p' x' y' = if decide (px <= x' < px + w /\ y' = y)
                      then (255, 255, 255, coverage (row * w + (x' - px)))
                      else rgba p x' y'.
Proof.
  intros Hpx Hpw Hy. unfold blit_row.
  destruct (put_row_spec px y w row coverage (seqZ 0 w) p) as (p' & -> & Hp').
  { apply Forall_forall. intros x Hx%elem_of_seqZ. unfold in_atlas. lia. }
  exists p'. split; [done|]. intros x' y' Hxy. rewrite Hp' by done.
  repeat case_decide; rewrite ?elem_of_seqZ in *; (done || lia).
Qed.

(** A bitmap within the atlas is copied whole, and nothing else is touched. *)
Definition covers (px py w h x y : Z) : Prop := px <= x < px + w /\ py <= y < py + h.

#[global] Instance covers_dec px py w h x y : Decision (covers px py w h x y).
Proof. unfold covers. apply _. Defined.

Lemma blit_rows_spec px py w (h : Z) coverage (ys : list Z) p :
  0 <= px -> px + w <= kAtlasSize -> Forall (fun y => 0 <= py + y < kAtlasSize) ys ->
  exists p', for_each (fun y => blit_row px (py + y) w y coverage) ys p = Some p' /\
    forall x' y', in_atlas x' y' ->
      rgba p' x' y' = if decide ((y' - py) ∈ ys /\ px <= x' < px + w)
                      then (255, 255, 255, coverage ((y' - py) * w + (x' - px)))
                      else rgba p x' y'.
Proof.
  intros Hpx Hpw. revert p. induction ys as [|y ys IH]; intros p Hin; cbn [for_each].
  - exists p. split; [done|]. intros x' y' _. rewrite decide_False; [done|].
    intros [Hy _]. by inversion Hy.
  - apply Forall_cons_1 in Hin as [Hy Hin].
    destruct (blit_row_spec px (py + y) w y coverage p Hpx Hpw Hy) as (p1 & -> & Hp1).
    cbn [mbind option_bind]. destruct (IH p1 Hin) as (p2 & -> & Hp2).
    exists p2. split; [done|]. intros x' y' Hxy. rewrite Hp2, Hp1 by done.
    destruct (decide ((y' - py) ∈ ys /\ px <= x' < px + w)) as [[H1 H2]|Hn].
    + rewrite decide_True; [done|]. rewrite elem_of_cons. auto.
    + destruct (decide (px <= x' < px + w /\ y' = py + y)) as [[Hx ->]|Hn'].
      * rewrite decide_True; [|split; [rewrite elem_of_cons; left|]; lia].
        do 3 f_equal. lia.
      * rewrite decide_False; [done|]. rewrite elem_of_cons.
        intros [[Hy'|Hy'] Hx]; [|by apply Hn]. apply Hn'. lia.
Qed.

Lemma blit_spec px py w h coverage p :
  0 <= px -> px + w <= kAtlasSize -> 0 <= py -> py + h <= kAtlasSize ->
  exists p', blit px py w h coverage p = Some p' /\
    forall x y, in_atlas x y ->
      rgba p' x y = if decide (covers px py w h x y)
                    then (255, 255, 255, coverage ((y - py) * w + (x - px)))
                    else rgba p x y.
Proof.
  intros Hpx Hpw Hpy Hph. unfold blit.
  destruct (blit_rows_spec px py w h coverage (seqZ 0 h) p Hpx Hpw) as (p' & -> & Hp').
  { apply Forall_forall. intros y Hy%elem_of_seqZ. lia. }
  exists p'. split; [done|]. intros x y Hxy. rewrite Hp' by done. unfold covers.
  repeat case_decide; rewrite ?elem_of_seqZ in *; (done || lia).
Qed.

(** ** Where a glyph is drawn from

    Its texture coordinates, counted in texels again. *)

Record Region := mkRegion { rg_x : Z; rg_y : Z; rg_w : Z; rg_h : Z }.

Definition texels_of (v : float) : Z := default 0 (trunc_Z (v * f32_of_Z kAtlasSize)%f32).

Definition region_of (g : Glyph) : Region :=
  let x := texels_of (gl_u0 g) in
  let y := texels_of (gl_v0 g) in
  mkRegion x y (texels_of (gl_u1 g) - x) (texels_of (gl_v1 g) - y).

(** The texel of solid rectangles. *)
Definition white_region : Region := mkRegion kPadding kPadding 1 1.

(** A glyph that leaves something on the screen. *)
Definition drawn (g : Glyph) : bool :=
  (f32_zero <? gl_width g)%f32 && (f32_zero <? gl_height g)%f32.

(** At least a border of [kPadding] around each lies between two regions. *)
Definition apart (a b : Region) : Prop :=
  rg_x a + rg_w a + 2 * kPadding <= rg_x b \/ rg_x b + rg_w b + 2 * kPadding <= rg_x a \/
  rg_y a + rg_h a + 2 * kPadding <= rg_y b \/ rg_y b + rg_h b + 2 * kPadding <= rg_y a.

(** A region with its border inside the atlas. *)
Definition inside (r : Region) : Prop :=
  kPadding <= rg_x r /\ rg_x r + rg_w r + kPadding <= kAtlasSize /\
  kPadding <= rg_y r /\ rg_y r + rg_h r + kPadding <= kAtlasSize.

Definition shows (p : Pixels) (r : Region) (coverage : Z -> Z) : Prop :=
  forall x y, covers (rg_x r) (rg_y r) (rg_w r) (rg_h r) x y ->
    rgba p x y = (255, 255, 255, coverage ((y - rg_y r) * rg_w r + (x - rg_x r))).

Lemma apart_comm a b : apart a b -> apart b a.
Proof. unfold apart. tauto. Qed.

Lemma texels_of_to_atlas v : 0 <= v <= kAtlasSize -> texels_of (to_atlas v) = v.
Proof.
  intros Hv.
  assert (Hall : forallb (fun v => texels_of (to_atlas v) =? v) (seqZ 0 (kAtlasSize + 1)) = true)
    by (vm_compute; reflexivity).
  rewrite forallb_forall in Hall. apply Z.eqb_eq, Hall, list_elem_of_In, elem_of_seqZ.
  unfold kAtlasSize in *. lia.
Qed.

Lemma f32_of_Z_positive v : v <= kAtlasSize -> (f32_zero <? f32_of_Z v)%f32 = (0 <? v).
Proof.
  intros Hv. destruct (Z.ltb_spec 0 v) as [Hp|Hn].
  - assert (Hall : forallb (fun v => (f32_zero <? f32_of_Z v)%f32) (seqZ 1 kAtlasSize) = true)
      by (vm_compute; reflexivity).
    rewrite forallb_forall in Hall. apply Hall, list_elem_of_In, elem_of_seqZ. lia.
  - destruct v as [|v|v]; [done|lia|].
    unfold f32_of_Z, binary_normalize, binary_round, binary_round_aux.
    by repeat case_match.
Qed.

(** ** The packing *)

Definition settled (pen : Pen) (r : Region) : Prop :=
  rg_y r + rg_h r + 2 * kPadding <= penY pen \/
  (rg_y r = penY pen /\ rg_x r + rg_w r + 2 * kPadding <= penX pen /\ rg_h r <= rowHeight pen).

Definition pen_ok (pen : Pen) : Prop :=
  kPadding <= penX pen /\ kPadding <= penY pen /\ 0 <= rowHeight pen.

Lemma next_row_ok width pen : pen_ok pen -> pen_ok (next_row width pen).
Proof.
  unfold pen_ok, next_row, kPadding. intros H. case_match; cbn; lia.
Qed.

Lemma next_row_settled width pen r :
  pen_ok pen -> settled pen r -> settled (next_row width pen) r.
Proof.
  unfold pen_ok, settled, next_row, kPadding. intros Hp H. case_match; [|done]. left. cbn. lia.
Qed.

Lemma settled_apart pen r w h :
  settled pen r -> apart r (mkRegion (penX pen) (penY pen) w h).
Proof. unfold settled, apart. cbn. tauto. Qed.

(** The pen after a glyph: what was settled still is, and so is the glyph. *)
Definition advance_pen (w h : Z) (pen : Pen) : Pen :=
  mkPen (penX pen + (w + kPadding * 2)) (penY pen) (Z.max (rowHeight pen) h).

Lemma advance_pen_ok w h pen : 0 < w -> pen_ok pen -> pen_ok (advance_pen w h pen).
Proof. unfold pen_ok, advance_pen, kPadding. cbn. lia. Qed.

Lemma advance_pen_settled w h pen r : 0 < w -> settled pen r -> settled (advance_pen w h pen) r.
Proof. unfold settled, advance_pen, kPadding. cbn. lia. Qed.

Lemma advance_pen_new w h pen :
  0 < w -> settled (advance_pen w h pen) (mkRegion (penX pen) (penY pen) w h).
Proof. unfold settled, advance_pen, kPadding. cbn. lia. Qed.

Section Packing.
Context `{HTT : TrueType}.

(** What a glyph baked at [scale] is: as large as its bitmap, and, if it is
    drawn, read from a place that holds the bitmap. *)
Definition glyph_ok (p : Pixels) (scale : float) (c : Z) (g : Glyph) : Prop :=
  let '(w, h) := box_size scale c in
  drawn g = (0 <? w) && (0 <? h) /\
  (drawn g = true ->
     rg_w (region_of g) = w /\ rg_h (region_of g) = h /\ inside (region_of g) /\
     shows p (region_of g) (stbtt_MakeCodepointBitmap c scale w h)).

Definition scale_of (size : Z) : float := stbtt_ScaleForPixelHeight (f32_of_Z size).

(** The glyphs so far, by size and character: those of the sizes done, and
    those of the size being baked ([None]). *)
Definition entry (s : Packer) (k : option Z * Z) (g : Glyph) : Prop :=
  match k.1 with
  | Some size =>
      exists sized, mSizes (pk_font s) !! size = Some sized /\ sf_glyphs sized !! k.2 = Some g
  | None => pk_glyphs s !! k.2 = Some g
  end.

Definition entry_scale (scale : float) (k : option Z * Z) : float :=
  match k.1 with Some size => scale_of size | None => scale end.

Record packed (scale : float) (s : Packer) : Prop := {
  packed_pen : pen_ok (pk_pen s);
  packed_white : settled (pk_pen s) white_region;
  packed_whiteUV : texels_of (mWhiteU (pk_font s)) = kPadding /\
    texels_of (mWhiteV (pk_font s)) = kPadding;
  packed_opaque : rgba (mPixels (pk_font s)) kPadding kPadding = (255, 255, 255, 255);
  packed_glyphs : forall k g, entry s k g ->
    glyph_ok (mPixels (pk_font s)) (entry_scale scale k) k.2 g /\
    (drawn g = true ->
       settled (pk_pen s) (region_of g) /\ apart white_region (region_of g));
  packed_apart : forall k k' g g', entry s k g -> entry s k' g' -> k <> k' ->
    drawn g = true -> drawn g' = true -> apart (region_of g) (region_of g');
}.

Lemma shows_blit p p' r w h px py coverage coverage' :
  (forall x y, in_atlas x y ->
     rgba p' x y = if decide (covers px py w h x y)
                   then (255, 255, 255, coverage' ((y - py) * w + (x - px))) else rgba p x y) ->
  inside r -> apart r (mkRegion px py w h) -> shows p r coverage -> shows p' r coverage.
Proof.
  unfold inside, apart, shows, covers, in_atlas, kPadding. cbn. intros Hp' Hr Ha Hs x y Hxy.
  rewrite Hp' by lia. rewrite decide_False by lia. by apply Hs.
Qed.

Lemma drawn_metrics scale c :
  (box_size scale c).1 <= kAtlasSize - 2 * kPadding ->
  (box_size scale c).2 <= kAtlasSize \/ (box_size scale c).1 <= 0 ->
  drawn (glyph_metrics scale c) = (0 <? (box_size scale c).1) && (0 <? (box_size scale c).2).
Proof.
  unfold drawn, glyph_metrics, kPadding, kAtlasSize. intros Hw Hh.
  destruct (stbtt_GetCodepointBitmapBox c scale) as [[[x0 y0] x1] y1].
  destruct (box_size scale c) as [w h]. cbn [gl_width gl_height fst snd] in *.
  rewrite f32_of_Z_positive by (unfold kAtlasSize; lia).
  destruct (Z.ltb_spec 0 w) as [Hp|]; [|done]. cbn [andb].
  apply f32_of_Z_positive. unfold kAtlasSize. lia.
Qed.

(** Pixels that still show whatever was settled. *)
Definition keeps (pen : Pen) (p p' : Pixels) : Prop :=
  forall r, inside r -> settled pen r ->
    forall coverage, shows p r coverage -> shows p' r coverage.

Lemma glyph_ok_keeps pen p p' scale c g :
  keeps pen p p' -> (drawn g = true -> settled pen (region_of g)) ->
  glyph_ok p scale c g -> glyph_ok p' scale c g.
Proof.
  unfold glyph_ok. intros Hk Hs. destruct (box_size scale c) as [w h].
  intros [Hd Hg]. split; [done|]. intros Hdr. destruct (Hg Hdr) as (H1 & H2 & H3 & H4).
  split_and!; [done..|]. by apply Hk, H4; [|apply Hs].
Qed.

Lemma entry_insert s p pen c g k g' :
  entry (mkPacker (set_pixels p (pk_font s)) pen (<[c := g]> (pk_glyphs s))) k g' ->
  (k = (None, c) /\ g' = g) \/ (k <> (None, c) /\ entry s k g').
Proof.
  destruct k as [[size|] c']; unfold entry; cbn [pk_glyphs pk_font set_pixels mSizes fst snd].
  - auto.
  - intros H. destruct (decide (c' = c)) as [->|Hne].
    + left. rewrite lookup_insert, decide_True in H by done. by simplify_eq.
    + right. rewrite lookup_insert_ne in H by done. split; [congruence|done].
Qed.

(** A glyph is added: the pen moves on, what was drawn stays, and the new one
    is apart from all of it. *)
Lemma packed_insert scale s p pen c g :
  packed scale s -> pen_ok pen ->
  (forall r, settled (pk_pen s) r -> settled pen r) ->
  keeps (pk_pen s) (mPixels (pk_font s)) p ->
  rgba p kPadding kPadding = (255, 255, 255, 255) ->
  glyph_ok p scale c g ->
  (drawn g = true -> settled pen (region_of g) /\
     forall r, settled (pk_pen s) r -> apart r (region_of g)) ->
  packed scale (mkPacker (set_pixels p (pk_font s)) pen (<[c := g]> (pk_glyphs s))).
Proof.
  intros Hs Hpen Hset Hk Ho Hg Hd. destruct Hs as [Hp Hw Huv _ Hgl Hap].
  split; cbn [pk_pen pk_font set_pixels mPixels]; [done|by apply Hset|done|done| |].
  - intros k g' [[-> ->]|[Hne He]]%entry_insert.
    + split; [done|]. intros Hdr. destruct (Hd Hdr). auto.
    + destruct (Hgl k g' He) as [Hok Hst]. split.
      * by eapply glyph_ok_keeps; [done|apply Hst|].
      * intros Hdr. destruct (Hst Hdr). auto.
  - intros k k' g1 g2 [[-> ->]|[Hn1 He1]]%entry_insert [[-> ->]|[Hn2 He2]]%entry_insert Hne H1 H2;
      [done| | |by eapply Hap].
    + apply apart_comm, Hd; [done|]. by apply (Hgl _ _ He2).
    + apply Hd; [done|]. by apply (Hgl _ _ He1).
Qed.

Lemma keeps_refl pen p : keeps pen p p.
Proof. by unfold keeps. Qed.

Lemma set_pixels_id f : set_pixels (mPixels f) f = f.
Proof. by destruct f. Qed.

(** Where a glyph that fits is put. *)
Lemma at_pen_region pen w h g :
  pen_ok pen -> 0 < w -> 0 < h -> penX pen + w + kPadding <= kAtlasSize ->
  penY pen + h + kPadding <= kAtlasSize ->
  region_of (at_pen pen w h g) = mkRegion (penX pen) (penY pen) w h.
Proof.
  unfold pen_ok, region_of, at_pen, kPadding. intros Hp Hw Hh Hx Hy.
  cbn [gl_u0 gl_u1 gl_v0 gl_v1]. rewrite !texels_of_to_atlas by lia. f_equal; lia.
Qed.

Lemma next_row_fits w pen :
  w <= kAtlasSize - 2 * kPadding -> penX (next_row w pen) + w + kPadding <= kAtlasSize.
Proof. unfold next_row, kPadding. intros Hw. case_match; bool_to_prop; cbn; lia. Qed.

Lemma blit_keeps pen w h coverage p p' :
  (forall x y, in_atlas x y ->
     rgba p' x y = if decide (covers (penX pen) (penY pen) w h x y)
                   then (255, 255, 255, coverage ((y - penY pen) * w + (x - penX pen)))
                   else rgba p x y) ->
  keeps pen p p' /\
  (settled pen white_region -> rgba p' kPadding kPadding = rgba p kPadding kPadding).
Proof.
  intros Hp'. split.
  - intros r Hr Hs cov. by eapply shows_blit, settled_apart.
  - intros [H|H]; rewrite Hp' by (unfold in_atlas, kPadding, kAtlasSize; lia);
      rewrite decide_False; try done; unfold covers, white_region, kPadding in *; cbn in *; lia.
Qed.

Lemma glyph_at_pen_ok scale c pen w h p :
  pen_ok pen -> box_size scale c = (w, h) -> 0 < w -> 0 < h ->
  penX pen + w + kPadding <= kAtlasSize -> penY pen + h + kPadding <= kAtlasSize ->
  shows p (mkRegion (penX pen) (penY pen) w h) (stbtt_MakeCodepointBitmap c scale w h) ->
  drawn (glyph_metrics scale c) = true ->
  glyph_ok p scale c (at_pen pen w h (glyph_metrics scale c)).
Proof.
  intros Hp Hb Hw Hh Hx Hy Hs Hd. unfold glyph_ok. rewrite Hb.
  rewrite (proj2 (Z.ltb_lt 0 w)), (proj2 (Z.ltb_lt 0 h)) by done. split; [done|]. intros _.
  rewrite at_pen_region by done. cbn [rg_w rg_h]. split_and!; [done..| |done].
  unfold inside, pen_ok, kPadding in *. cbn. lia.
Qed.

(** One character. *)
Lemma bake_glyph_packed scale c s :
  packed scale s -> (box_size scale c).1 <= kAtlasSize - 2 * kPadding ->
  match bake_glyph scale c s with
  | Undefined => False
  | Return ok _ => ok = false
  | Continue s' =>
      packed scale s' /\ mSizes (pk_font s') = mSizes (pk_font s) /\
      exists g, pk_glyphs s' = <[c := g]> (pk_glyphs s)
  end.
Proof.
  intros Hs Hfit. pose proof (drawn_metrics scale c Hfit) as Hd.
  pose proof (packed_pen _ _ Hs) as Hpen. pose proof (packed_white _ _ Hs) as Hwhite.
  pose proof (packed_opaque _ _ Hs) as Ho.
  unfold bake_glyph. destruct (box_size scale c) as [w h] eqn:Hb. cbn [fst snd] in *.
  destruct ((0 <? w) && (0 <? h)) eqn:Ewh.
  - set (pen := next_row w (pk_pen s)) in *.
    destruct (kAtlasSize <? _) eqn:Eh; [done|]. bool_to_prop.
    assert (Hx : penX pen + w + kPadding <= kAtlasSize) by by apply next_row_fits.
    assert (Hpen' : pen_ok pen) by by apply next_row_ok.
    assert (Hset : forall r, settled (pk_pen s) r -> settled pen r)
      by (intros r; by apply next_row_settled).
    destruct (blit_spec (penX pen) (penY pen) w h (stbtt_MakeCodepointBitmap c scale w h)
      (mPixels (pk_font s))) as (p & -> & Hp).
    1-4: unfold pen_ok, kPadding in *; lia.
    destruct (blit_keeps _ _ _ _ _ _ Hp) as [Hk Hw].
    split; [|split; [done|by eexists]].
    change (mkPen _ _ _) with (advance_pen w h pen).
    apply packed_insert; [done|by apply advance_pen_ok| | | | |].
    + intros r Hr. by apply advance_pen_settled, Hset.
    + intros r Hr Hr'. by apply Hk, Hset.
    + rewrite Hw by (by apply Hset). done.
    + apply glyph_at_pen_ok; [done..| |rewrite Hd; [done|unfold pen_ok, kPadding in *; lia]].
      intros x y Hxy. cbn [rg_x rg_y rg_w rg_h] in *. rewrite Hp, decide_True; [done|done|].
      unfold covers, in_atlas, pen_ok, kPadding in *. lia.
    + intros _. rewrite at_pen_region by done. split; [by apply advance_pen_new|].
      intros r Hr. by apply settled_apart, Hset.
  - assert (Hnd : drawn (glyph_metrics scale c) = false).
    { pose proof Ewh as Hwh. apply andb_false_iff in Hwh. rewrite !Z.ltb_ge in Hwh.
      apply Hd. unfold kAtlasSize. lia. }
    rewrite <- (set_pixels_id (pk_font s)) at 1.
    split; [|split; [done|by eexists]].
    apply packed_insert; [done|done|done|apply keeps_refl|done| |by rewrite Hnd].
    unfold glyph_ok. by rewrite Hb, Hnd, Ewh.
Qed.

(** The loops. [P] holds of the elements done and the state. *)
Lemma flow_each_spec {A} (body : A -> Packer -> Flow) (P : list A -> Packer -> Prop) l :
  (forall a done s, a ∈ l -> P done s ->
     match body a s with
     | Undefined => False | Return ok _ => ok = false | Continue s' => P (done ++ [a]) s'
     end) ->
  forall s, P [] s ->
  match flow_each body l s with
  | Undefined => False | Return ok _ => ok = false | Continue s' => P l s'
  end.
Proof.
  intros Hstep.
  assert (Hgen : forall l2 l1 s, l = l1 ++ l2 -> P l1 s ->
    match flow_each body l2 s with
    | Undefined => False | Return ok _ => ok = false | Continue s' => P l s'
    end).
  { induction l2 as [|a l2 IH]; intros l1 s Hl HP; cbn [flow_each].
    - rewrite app_nil_r in Hl. by subst.
    - assert (Ha : a ∈ l) by (subst; rewrite elem_of_app, elem_of_cons; auto).
      pose proof (Hstep a l1 s Ha HP) as Hs. destruct (body a s) as [| |s']; cbn [flow_bind];
        [done|done|]. apply (IH (l1 ++ [a])); [|done]. by rewrite <- app_assoc. }
  intros s HP. by apply (Hgen l []).
Qed.

(** A glyph of the finished font. *)
Definition baked (f : Font) (size c : Z) (g : Glyph) : Prop :=
  exists sized, mSizes f !! size = Some sized /\ sf_glyphs sized !! c = Some g.

Definition complete (f : Font) (size : Z) : Prop :=
  forall c, c ∈ printable_codes -> exists g, baked f size c g.

Lemma packed_next_size scale scale' s :
  packed scale s -> packed scale' (mkPacker (pk_font s) (pk_pen s) ∅).
Proof.
  intros [Hp Hw Huv Ho Hg Ha]. split; [done..| |].
  - intros [[size|] c] g He; [|done]. by apply (Hg (Some size, c)).
  - intros [[size|] c] [[size'|] c'] g g' He He'; try done.
    by apply (Ha (Some size, c) (Some size', c')).
Qed.

(** The glyphs of a size become its entry. *)
Lemma packed_finish_size size s a b scale' :
  packed (scale_of size) s ->
  packed scale' (mkPacker
    (set_sizes (<[size := mkSized (pk_glyphs s) a b]> (mSizes (pk_font s))) (pk_font s))
    (pk_pen s) ∅).
Proof.
  set (s' := mkPacker _ _ _). intros [Hp Hw Huv Ho Hg Ha].
  assert (He : forall k g, entry s' k g -> exists k0, entry s k0 g /\ k0.2 = k.2 /\
    entry_scale (scale_of size) k0 = entry_scale scale' k /\
    k = (match k0.1 with None => Some size | z => z end, k0.2)).
  { intros [[z|] c] g; unfold entry; cbn; [|done]. intros (sized & Hz & Hc).
    destruct (decide (z = size)) as [->|Hne].
    - rewrite lookup_insert, decide_True in Hz by done. simplify_eq/=. by exists (None, c).
    - rewrite lookup_insert_ne in Hz by done. exists (Some z, c). cbn. eauto 6. }
  split; [done..| |].
  - intros k g (k0 & H0 & <- & <- & _)%He. by apply Hg.
  - intros k k' g g' (k0 & H0 & _ & _ & ->)%He (k1 & H1 & _ & _ & ->)%He Hne.
    apply (Ha k0 k1); [done..|]. by intros ->.
Qed.

Lemma complete_insert f size sized c0 :
  (forall c, c ∈ printable_codes -> is_Some (sf_glyphs sized !! c)) ->
  complete f c0 \/ c0 = size ->
  complete (set_sizes (<[size := sized]> (mSizes f)) f) c0.
Proof.
  intros Hs Hc c Hin. unfold baked. cbn. destruct (decide (size = c0)) as [->|Hne].
  - destruct (Hs c Hin) as [g Hg]. exists g, sized. by rewrite lookup_insert, decide_True.
  - destruct Hc as [Hc|]; [|done]. destruct (Hc c Hin) as (g & sz & Hg). exists g, sz.
    by rewrite lookup_insert_ne.
Qed.

Definition small_boxes (sizes : list Z) : Prop :=
  forall size c, size ∈ sizes -> c ∈ printable_codes ->
    (box_size (scale_of size) c).1 <= kAtlasSize - 2 * kPadding.

(** The characters of one size. *)
Lemma bake_glyphs_packed scale font pen :
  (forall c, c ∈ printable_codes -> (box_size scale c).1 <= kAtlasSize - 2 * kPadding) ->
  packed scale (mkPacker font pen ∅) ->
  match flow_each (bake_glyph scale) printable_codes (mkPacker font pen ∅) with
  | Undefined => False
  | Return ok _ => ok = false
  | Continue s' =>
      packed scale s' /\ mSizes (pk_font s') = mSizes font /\
      forall c, c ∈ printable_codes -> is_Some (pk_glyphs s' !! c)
  end.
Proof.
  intros Hfit Hs.
  apply (flow_each_spec _ (fun done s' => packed scale s' /\ mSizes (pk_font s') = mSizes font /\
    forall c, c ∈ done -> is_Some (pk_glyphs s' !! c))).
  - intros c d s c0 (H1 & H2 & H3).
    pose proof (bake_glyph_packed scale c s H1 (Hfit c c0)) as Hb.
    destruct (bake_glyph _ c s) as [| |s2]; [done|done|].
    destruct Hb as (Hb1 & Hb2 & g & Hb3). split; [done|]. split; [congruence|].
    intros c'. rewrite Hb3, elem_of_app, list_elem_of_singleton, lookup_insert_is_Some'. naive_solver.
  - split; [done|]. split; [done|]. intros c Hc. by inversion Hc.
Qed.

Lemma bake_size_packed sizes size scale s :
  small_boxes sizes -> size ∈ sizes -> packed scale s ->
  match bake_size size s with
  | Undefined => False
  | Return ok _ => ok = false
  | Continue s' =>
      packed scale s' /\
      forall z, complete (pk_font s) z \/ z = size -> complete (pk_font s') z
  end.
Proof.
  intros Hfit Hin Hs. unfold bake_size. destruct stbtt_GetFontVMetrics as [[asc desc] gap].
  fold (scale_of size).
  pose proof (bake_glyphs_packed (scale_of size) (pk_font s) (pk_pen s)
    (fun c => Hfit size c Hin) (packed_next_size _ _ _ Hs)) as Hl.
  destruct (flow_each _ _ _) as [| |s1]; cbn [flow_bind]; [done|done|].
  destruct Hl as (H1 & H2 & H3). split; [by apply packed_finish_size|].
  intros z Hz. cbn [pk_font]. apply complete_insert; [done|].
  destruct Hz as [Hz|]; [left|auto]. unfold complete, baked in *. by rewrite H2.
Qed.

Lemma start_atlas_packed scale f :
  mSizes f = ∅ -> exists s, start_atlas f = Continue s /\ packed scale s.
Proof.
  intros Hf. unfold start_atlas.
  destruct (put_texel_spec kPadding kPadding 255 ∅) as (p & -> & Hp); [done|].
  eexists. split; [done|].
  split; cbn [pk_pen pk_font pk_glyphs mPixels mSizes mWhiteU mWhiteV].
  - done.
  - right. done.
  - by split; vm_compute.
  - by rewrite Hp, decide_True.
  - intros [[z|] c] g; [|done]. unfold entry. cbn. rewrite Hf. by intros (? & ? & _).
  - intros [[z|] c] k' g g'; [|done]. unfold entry at 1. cbn. rewrite Hf. by intros (? & ? & _).
Qed.

(** Sizes. *)
Lemma bake_sizes_packed sizes scale s :
  small_boxes sizes -> packed scale s ->
  match flow_each bake_size sizes s with
  | Undefined => False
  | Return ok _ => ok = false
  | Continue s' => packed scale s' /\ forall z, z ∈ sizes -> complete (pk_font s') z
  end.
Proof.
  intros Hfit Hs.
  apply (flow_each_spec _ (fun done s' => packed scale s' /\
    forall z, z ∈ done -> complete (pk_font s') z)).
  - intros z d s1 Hz (H1 & H2).
    pose proof (bake_size_packed sizes z scale s1 Hfit Hz H1) as Hb.
    destruct (bake_size z s1) as [| |s2]; [done|done|]. destruct Hb as [Hb1 Hb2].
    split; [done|]. intros z'. rewrite elem_of_app, list_elem_of_singleton. naive_solver.
  - split; [done|]. intros z Hz. by inversion Hz.
Qed.
End Packing.

(** ** What [build] guarantees *)

(** C35: the atlas is sound. When no glyph is wider than a row of the atlas,
    [build] writes only inside the pixels, and if it succeeds then every
    printable character has a glyph at every size asked for; each glyph that
    leaves a mark is read from a region inside the atlas, of its bitmap's size,
    whose texels are white with the bitmap's coverage; no two regions, nor a
    region and the solid texel, come within two texels of each other, so that
    none overwrites or bleeds into another; and the solid texel is opaque where
    [whiteU] and [whiteV] say. *)
Theorem build_atlas `{HTT : TrueType} (sizes : list Z) (Hfit : small_boxes sizes) :
  exists ok f, build sizes new_font = Some (ok, f) /\
  (ok = true -> 
     (forall size, size ∈ sizes -> complete f size) /\
     (forall size c g, baked f size c g ->
        glyph_ok (mPixels f) (scale_of size) c g /\
        (drawn g = true -> apart white_region (region_of g))) /\
     (forall size c g size' c' g', baked f size c g -> baked f size' c' g' ->
        (size, c) <> (size', c') -> drawn g = true -> drawn g' = true ->
        apart (region_of g) (region_of g')) /\
     rgba (mPixels f) kPadding kPadding = (255, 255, 255, 255) /\
     texels_of (mWhiteU f) = kPadding /\ texels_of (mWhiteV f) = kPadding).
Proof.
  unfold build. destruct stbtt_InitFont; cbn [negb]; [|by exists false, new_font].
  destruct (start_atlas_packed f32_zero new_font) as (s0 & -> & Hs0); [done|].
  cbn [flow_bind]. pose proof (bake_sizes_packed sizes f32_zero s0 Hfit Hs0) as Hl.
  destruct (flow_each _ _ _) as [|ok f|s]; [done|exists ok, f; by subst|].
  exists true, (pk_font s). split; [done|]. intros _. destruct Hl as [[Hp Hw Huv Ho Hg Ha] Hc].
  split; [done|]. split; [|split; [|done]].
  - intros size c g Hb. destruct (Hg (Some size, c) g Hb) as [H1 H2]. split; [done|]. naive_solver.
  - intros size c g size' c' g' H1 H2 Hne. apply (Ha (Some size, c) (Some size', c')); [done..|].
    congruence.
Qed.

(** A small font: every bitmap is six by nine texels, half covered. *)
Definition toy_font : TrueType := {|
  stbtt_InitFont := true;
  stbtt_ScaleForPixelHeight := fun h => (h / f32_of_Z 2048)%f32;
  stbtt_GetFontVMetrics := (1900, -500, 0);
  stbtt_GetCodepointHMetrics := fun _ => 1000;
  stbtt_GetCodepointBitmapBox := fun _ _ => (0, -9, 6, 0);
  stbtt_MakeCodepointBitmap := fun _ _ _ _ _ => 128;
|}.

(** Two sizes of the small font fit, and the theorem speaks of them. *)
Lemma build_atlas_witness :
  exists f, build (HTT := toy_font) [kFontSizeSmall; kFontSizeBody] new_font = Some (true, f) /\
    complete f kFontSizeSmall /\ complete f kFontSizeBody.
Proof.
  destruct (build_atlas (HTT := toy_font) [kFontSizeSmall; kFontSizeBody]) as (ok & f & Hb & Hf).
  { intros size c _ _. vm_compute. discriminate. }
  assert (Hok : (match build (HTT := toy_font) [kFontSizeSmall; kFontSizeBody] new_font with
                 | Some (b, _) => b | None => false end) = true) by (vm_compute; reflexivity).
  rewrite Hb in Hok. subst ok. exists f. destruct (Hf eq_refl) as (Hc & _).
  split; [exact Hb|]. split; apply Hc; repeat constructor.
Defined.

(** ** Choosing a size *)

Lemma nearer_fold requested l best :
  let r := foldl (nearer requested) best l in
  r.2 <= best.2 /\ (forall size, size ∈ l -> r.2 <= Z.abs (size - requested)) /\
  (r = best \/
   (r.1 ∈ l /\ r.2 = Z.abs (r.1 - requested) /\ r.2 < best.2 /\
    (StronglySorted Z.le l ->
     forall size, size ∈ l -> Z.abs (size - requested) = r.2 -> r.1 <= size))).
Proof.
  revert best. induction l as [|z l IH]; intros best; cbn [foldl].
  - split; [lia|]. split; [|by left]. intros size Hs. by inversion Hs.
  - destruct (IH (nearer requested best z)) as (H1 & H2 & H3).
    set (r := foldl _ _ l) in *. unfold nearer in H1, H3.
    destruct (Z.ltb_spec (Z.abs (z - requested)) best.2) as [Hlt|Hge]; cbn [fst snd] in H1, H3.
    + split; [lia|]. split.
      { intros size [->|Hs]%elem_of_cons; [lia|by apply H2]. }
      right. destruct H3 as [->|(Hin & Hd & Hlt' & Hs)]; cbn [fst snd].
      * split; [by apply elem_of_cons; left|]. split; [done|]. split; [done|].
        intros Hs size [->|Hsz]%elem_of_cons _; [done|].
        apply StronglySorted_inv in Hs as [_ Hs]. rewrite Forall_forall in Hs. by apply Hs.
      * split; [by apply elem_of_cons; right|]. split; [done|]. split; [lia|].
        intros Hss size [->|Hsz]%elem_of_cons Heq; [lia|].
        apply StronglySorted_inv in Hss as [Hss _]. by apply Hs.
    + split; [lia|]. split.
      { intros size [->|Hs]%elem_of_cons; [lia|by apply H2]. }
      destruct H3 as [->|(Hin & Hd & Hlt' & Hs)]; [by left|right].
      split; [by apply elem_of_cons; right|]. split; [done|]. split; [done|].
      intros Hss size [->|Hsz]%elem_of_cons Heq; [lia|].
      apply StronglySorted_inv in Hss as [Hss _]. by apply Hs.
Qed.

(** The size drawn is the closest baked one: for any request, [nearestSize]
    answers a size of the font, none is closer, and of two as close it is the
    smaller. The sizes are those of a screen: within 2^30 of the request, the
    distance the search starts from. *)
Theorem nearestSize_closest (requested : Z) (f : Font) (Hne : mSizes f <> ∅)
    (Hd : forall size, is_Some (mSizes f !! size) -> Z.abs (size - requested) < 2 ^ 30) :
  let best := nearestSize requested f in
  is_Some (mSizes f !! best) /\
  forall size, is_Some (mSizes f !! size) ->
    Z.abs (best - requested) <= Z.abs (size - requested) /\
    (Z.abs (best - requested) = Z.abs (size - requested) -> best <= size).
Proof.
  intros best. unfold best, nearestSize.
  pose proof (nearer_fold requested (map_keys (mSizes f)) (0, 2 ^ 30)) as (H1 & H2 & H3).
  set (r := foldl _ _ _) in *. destruct H3 as [Hr|(Hin & Hr & Hlt & Hs)].
  - exfalso. destruct (map_choose _ Hne) as (size & sized & Hz).
    specialize (H2 size ltac:(rewrite elem_of_map_keys; by eexists)).
    specialize (Hd size ltac:(by eexists)). rewrite Hr in H2. cbn in H2. lia.
  - split; [by apply elem_of_map_keys|]. intros size Hz%elem_of_map_keys.
    rewrite <- Hr. split; [by apply H2|]. intros Heq. apply Hs; [apply Sorted_map_keys|done..].
Qed.

Lemma nearestSize_closest_witness :
  is_Some (mSizes (mkFont {[13 := mkSized ∅ f32_zero f32_zero]} ∅ 0 0 f32_zero f32_zero)
    !! nearestSize 20 (mkFont {[13 := mkSized ∅ f32_zero f32_zero]} ∅ 0 0 f32_zero f32_zero)).
Proof.
  apply (nearestSize_closest 20
    (mkFont {[13 := mkSized ∅ f32_zero f32_zero]} ∅ 0 0 f32_zero f32_zero)).
  - discriminate.
  - intros size [sized Hs]. cbn [mSizes] in Hs. apply lookup_singleton_Some in Hs as [<- _]. lia.
Defined.

(** Every [char] is drawn as something: a font with all the printable
    characters at a size has a glyph for each byte there, the question mark for
    those it does not know. *)
Lemma glyph_total f size c :
  complete f size -> exists g, glyph size c f = Some g /\
    (c ∈ printable_codes -> baked f size c g) /\
    (~ (exists g', baked f size c g') -> baked f size question_mark g).
Proof.
  intros Hc. destruct (Hc question_mark) as (q & sized & Hs & Hq).
  { apply elem_of_seqZ. unfold question_mark, kFirstGlyph, kLastGlyph. lia. }
  unfold glyph. rewrite Hs. destruct (sf_glyphs sized !! c) as [g|] eqn:Eg.
  - exists g. split; [done|]. split; [by exists sized|]. intros Hn. destruct Hn. by exists g, sized.
  - exists q. split; [done|]. split; [|by exists sized].
    intros Hp. destruct (Hc c Hp) as (g & sized' & Hs' & Hg). congruence.
Qed.
