(* ===== verification/Renderer.v ===== *)
(** * The interface's batch of quads ([client/src/ui/ui_renderer.{h,cpp}])

    Everything the interface draws in a frame is gathered into one list of
    vertices and one of indices, and handed to the engine at its end. The calls
    to the engine are recorded; what the engine holds after them is [Gpu]. *)

From Stdlib Require Import ZArith Lia Strings.Ascii Strings.String Floats.SpecFloat.
From stdpp Require Import base numbers list option gmap sorting strings.
From S2P Require Import Prelude Float32 Font.

Open Scope Z_scope.

(** ** Data *)

Record Color := mkColor { co_r : Z; co_g : Z; co_b : Z; co_a : Z }.

Record Vertex := mkVertex {
  vx_x : float; vx_y : float;
  vx_u : float; vx_v : float;
  vx_color : Color;
}.

Definition kMaxQuads : Z := 8192.
Definition kMaxVertices : Z := kMaxQuads * 4.
Definition kMaxIndices : Z := kMaxQuads * 6.
Definition kIndexBucket : Z := 384.

Definition SIZE_MAX : Z := 2 ^ 64 - 1.

(** The calls to the engine. *)
Inductive GpuCall :=
| SetGeometryAt (count : Z)
| SetVertices (vertices : list Vertex)
| SetIndices (indices : list Z).

Record UiRenderer := mkUiRenderer {
  mFont : Font;
  mVertices : list Vertex;
  mIndices : list Z;
  mWidth : Z;
  mHeight : Z;
  mLastDrawCount : Z;
}.

(** After [init], with the font built. *)
Definition new_renderer (font : Font) : UiRenderer := mkUiRenderer font [] [] 0 0 SIZE_MAX.

Definition set_batch (vertices : list Vertex) (indices : list Z) (r : UiRenderer) : UiRenderer :=
  mkUiRenderer (mFont r) vertices indices (mWidth r) (mHeight r) (mLastDrawCount r).

Definition set_lastDrawCount (n : Z) (r : UiRenderer) : UiRenderer :=
  mkUiRenderer (mFont r) (mVertices r) (mIndices r) (mWidth r) (mHeight r) n.

Definition setViewport (width height : Z) (r : UiRenderer) : UiRenderer :=
  if (width <=? 0) || (height <=? 0) then r
  else mkUiRenderer (mFont r) (mVertices r) (mIndices r) width height (mLastDrawCount r).

Definition begin_frame (r : UiRenderer) : UiRenderer := set_batch [] [] r.

(** ** Drawing *)

(** The vertices of a quad, top left first and clockwise. *)
Definition quad_vertices (x y width height u0 v0 u1 v1 : float) (color : Color) : list Vertex :=
  let v0 := (f32_one - v0)%f32 in
  let v1 := (f32_one - v1)%f32 in
  [mkVertex x y u0 v0 color; mkVertex (x + width)%f32 y u1 v0 color;
   mkVertex (x + width)%f32 (y + height)%f32 u1 v1 color;
   mkVertex x (y + height)%f32 u0 v1 color].

Definition quad_indices (base : Z) : list Z :=
  (fun offset => u16 (base + offset)) <$> [0; 1; 2; 2; 3; 0].

Definition quad (x y width height u0 v0 u1 v1 : float) (color : Color) (r : UiRenderer)
    : UiRenderer :=
  if kMaxVertices <? Z.of_nat (length (mVertices r)) + 4 then r
  else
    let base := u16 (Z.of_nat (length (mVertices r))) in
    set_batch (mVertices r ++ quad_vertices x y width height u0 v0 u1 v1 color)
      (mIndices r ++ quad_indices base) r.

Definition rect (x y width height : float) (color : Color) (r : UiRenderer) : UiRenderer :=
  let u := mWhiteU (mFont r) in
  let v := mWhiteV (mFont r) in
  quad x y width height u v u v color r.

Definition rectOutline (x y width height thickness : float) (color : Color) (r : UiRenderer)
    : UiRenderer :=
  let r := rect x y width thickness color r in
  let r := rect x (y + height - thickness)%f32 width thickness color r in
  let r := rect x y thickness height color r in
  rect (x + width - thickness)%f32 y thickness height color r.

(** One turn of the loop of [text]: the pen and the batch. *)
Definition text_char (size : Z) (baseline : float) (color : Color)
    (s : float * UiRenderer) (c : ascii) : float * UiRenderer :=
  let '(penX, r) := s in
  match glyph size (char_key c) (mFont r) with
  | None => (penX, r)
  | Some g =>
      let r := if drawn g
               then quad (penX + gl_offsetX g)%f32 (baseline + gl_offsetY g)%f32
                      (gl_width g) (gl_height g) (gl_u0 g) (gl_v0 g) (gl_u1 g) (gl_v1 g) color r
               else r in
      ((penX + gl_advance g)%f32, r)
  end.

Definition text (x y : float) (value : string) (color : Color) (pixelSize : Z) (r : UiRenderer)
    : UiRenderer :=
  let size := nearestSize pixelSize (mFont r) in
  let baseline := (y + ascent size (mFont r))%f32 in
  (foldl (text_char size baseline color) (x, r) (list_ascii_of_string value)).2.

(** ** The end of a frame *)

(** [std::vector::resize] with zeros. *)
Definition resize (n : Z) (l : list Z) : list Z :=
  take (Z.to_nat n) l ++ replicate (Z.to_nat n - length l) 0.

Definition bucketed (count : Z) : Z :=
  let drawCount := (count + kIndexBucket - 1) / kIndexBucket * kIndexBucket in
  if kMaxIndices <? drawCount then kMaxIndices else drawCount.

Definition end_frame (r : UiRenderer) : list GpuCall * UiRenderer :=
  match mIndices r with
  | [] =>
      if mLastDrawCount r =? 0 then ([], r)
      else ([SetGeometryAt 0], set_lastDrawCount 0 r)
  | _ =>
      let drawCount := bucketed (Z.of_nat (length (mIndices r))) in
      let r := set_batch (mVertices r) (resize drawCount (mIndices r)) r in
      let uploads := [SetVertices (mVertices r); SetIndices (mIndices r)] in
      if drawCount =? mLastDrawCount r then (uploads, r)
      else (uploads ++ [SetGeometryAt drawCount], set_lastDrawCount drawCount r)
  end.

(** What the engine holds: its buffers and how many indices it draws. *)
Record Gpu := mkGpu { gpu_vertices : list Vertex; gpu_indices : list Z; gpu_count : Z }.

Definition gpu_call (g : Gpu) (c : GpuCall) : Gpu :=
  match c with
  | SetGeometryAt n => mkGpu (gpu_vertices g) (gpu_indices g) n
  | SetVertices vs => mkGpu vs (gpu_indices g) (gpu_count g)
  | SetIndices ixs => mkGpu (gpu_vertices g) ixs (gpu_count g)
  end.

(** The renderable is built with an empty range. *)
Definition new_gpu : Gpu := mkGpu [] [] 0.

(** ** A frame's drawing *)

Inductive DrawCall :=
| DrawRect (x y width height : float) (color : Color)
| DrawOutline (x y width height thickness : float) (color : Color)
| DrawText (x y : float) (value : string) (color : Color) (pixelSize : Z).

Definition draw (r : UiRenderer) (c : DrawCall) : UiRenderer :=
  match c with
  | DrawRect x y w h color => rect x y w h color r
  | DrawOutline x y w h t color => rectOutline x y w h t color r
  | DrawText x y value color size => text x y value color size r
  end.

Definition frame (calls : list DrawCall) (s : UiRenderer * Gpu) : UiRenderer * Gpu :=
  let '(r, g) := s in
  let '(out, r) := end_frame (foldl draw (begin_frame r) calls) in
  (r, foldl gpu_call g out).

(** ** The quads of a frame, without the batch *)

Record Quad := mkQuad {
  qd_x : float; qd_y : float; qd_width : float; qd_height : float;
  qd_u0 : float; qd_v0 : float; qd_u1 : float; qd_v1 : float;
  qd_color : Color;
}.

Definition vertices_of (q : Quad) : list Vertex :=
  quad_vertices (qd_x q) (qd_y q) (qd_width q) (qd_height q)
    (qd_u0 q) (qd_v0 q) (qd_u1 q) (qd_v1 q) (qd_color q).

Section Quads.
Variable font : Font.

Definition rect_quad (x y width height : float) (color : Color) : Quad :=
  mkQuad x y width height (mWhiteU font) (mWhiteV font) (mWhiteU font) (mWhiteV font) color.

(** The text from the pen on: each glyph that leaves a mark, and the pen moved
    by the advances before it. *)
Fixpoint text_quads (size : Z) (baseline : float) (color : Color) (pen : float)
    (cs : list ascii) : list Quad :=
  match cs with
  | [] => []
  | c :: cs' =>
      match glyph size (char_key c) font with
      | None => text_quads size baseline color pen cs'
      | Some g =>
          (if drawn g
           then [mkQuad (pen + gl_offsetX g)%f32 (baseline + gl_offsetY g)%f32
                   (gl_width g) (gl_height g) (gl_u0 g) (gl_v0 g) (gl_u1 g) (gl_v1 g) color]
           else [])
          ++ text_quads size baseline color (pen + gl_advance g)%f32 cs'
      end
  end.

Definition quads_of (c : DrawCall) : list Quad :=
  match c with
  | DrawRect x y w h color => [rect_quad x y w h color]
  | DrawOutline x y w h t color =>
      [rect_quad x y w t color; rect_quad x (y + h - t)%f32 w t color;
       rect_quad x y t h color; rect_quad (x + w - t)%f32 y t h color]
  | DrawText x y value color pixelSize =>
      let size := nearestSize pixelSize font in
      text_quads size (y + ascent size font)%f32 color x (list_ascii_of_string value)
  end.
End Quads.

(** ** The batch holds the first quads *)

Definition indices_of (n : nat) : list Z :=
  mjoin ((fun i => quad_indices (4 * Z.of_nat i)) <$> seq 0 n).

Record batch (font : Font) (qs : list Quad) (r : UiRenderer) : Prop := {
  batch_font : mFont r = font;
  batch_vertices : mVertices r = mjoin (vertices_of <$> take (Z.to_nat kMaxQuads) qs);
  batch_indices : mIndices r = indices_of (length (take (Z.to_nat kMaxQuads) qs));
}.

Lemma join_cons {A} (l : list A) ls : mjoin (l :: ls) = l ++ mjoin ls.
Proof. done. Qed.

Lemma length_join_vertices qs : length (mjoin (vertices_of <$> qs)) = (4 * length qs)%nat.
Proof.
  induction qs as [|q qs IH]; [done|]. rewrite fmap_cons, join_cons, length_app, IH.
  change (length (vertices_of q)) with 4%nat. cbn [length]. lia.
Qed.

Lemma length_indices_of n : length (indices_of n) = (6 * n)%nat.
Proof.
  unfold indices_of.
  enough (forall s, length (mjoin ((fun i => quad_indices (4 * Z.of_nat i)) <$> seq s n))
    = (6 * n)%nat) as H by apply H.
  induction n as [|n IH]; intros s; [done|].
  cbn [seq]. rewrite fmap_cons, join_cons, length_app, IH.
  change (length (quad_indices _)) with 6%nat. lia.
Qed.

Lemma indices_of_S n : indices_of (S n) = indices_of n ++ quad_indices (4 * Z.of_nat n).
Proof.
  unfold indices_of. rewrite seq_S, fmap_app, join_app. cbn [fmap list_fmap mjoin list_join].
  by rewrite app_nil_r, Nat.add_0_l.
Qed.

(** The indices of [n] quads are those of their vertices. *)
Lemma indices_of_bound n :
  Z.of_nat n <= kMaxQuads -> Forall (fun i => 0 <= i < 4 * Z.of_nat n) (indices_of n).
Proof.
  unfold kMaxQuads. induction n as [|n IH]; intros Hn; [constructor|].
  rewrite indices_of_S. apply Forall_app. split.
  - eapply Forall_impl; [apply IH; lia|]. cbn beta. lia.
  - unfold quad_indices. apply Forall_fmap.
    assert (Hi : forall o, 0 <= o < 4 -> 0 <= u16 (4 * Z.of_nat n + o) < 4 * Z.of_nat (S n)).
    { intros o Ho. rewrite wrap_id by (unfold fits; lia). lia. }
    repeat constructor; cbn; apply Hi; lia.
Qed.

(** A quad is appended, or dropped when the batch is full. *)
Lemma quad_batch font qs q r :
  batch font qs r ->
  batch font (qs ++ [q])
    (quad (qd_x q) (qd_y q) (qd_width q) (qd_height q) (qd_u0 q) (qd_v0 q) (qd_u1 q) (qd_v1 q)
       (qd_color q) r).
Proof.
  intros [Hf Hv Hi]. unfold quad. rewrite Hv, length_join_vertices, length_take.
  destruct (Z.ltb_spec kMaxVertices
    (Z.of_nat (4 * (Z.to_nat kMaxQuads `min` length qs)) + 4)) as [Hfull|Hroom];
    unfold kMaxVertices in *.
  - assert (Hl : (Z.to_nat kMaxQuads <= length qs)%nat) by lia.
    split; [done|rewrite Hv|rewrite Hi]; by rewrite take_app_le by done.
  - assert (Hl : (length qs < Z.to_nat kMaxQuads)%nat) by lia.
    rewrite take_ge in Hv, Hi by lia.
    split; cbn [mFont mVertices mIndices set_batch]; [done| |];
      rewrite (take_ge (qs ++ [q])) by (rewrite length_app; cbn; lia).
    + by rewrite take_ge, fmap_app, join_app, fmap_cons, join_cons, app_nil_r by lia.
    + rewrite Hi, length_app, Nat.add_1_r, indices_of_S. f_equal. f_equal.
      replace (Z.of_nat (4 * (Z.to_nat kMaxQuads `min` length qs))) with (4 * Z.of_nat (length qs))
        by lia.
      by rewrite wrap_id by (unfold fits, kMaxQuads in *; lia).
Qed.

Lemma rect_batch font qs x y w h color r :
  batch font qs r -> batch font (qs ++ [rect_quad font x y w h color]) (rect x y w h color r).
Proof.
  intros Hb. unfold rect. rewrite (batch_font _ _ _ Hb).
  by apply (quad_batch font qs (rect_quad font x y w h color) r).
Qed.

Lemma text_batch font size baseline color cs : forall pen qs r,
  batch font qs r ->
  batch font (qs ++ text_quads font size baseline color pen cs)
    (foldl (text_char size baseline color) (pen, r) cs).2.
Proof.
  induction cs as [|c cs IH]; intros pen qs r Hb; cbn [foldl text_quads].
  - by rewrite app_nil_r.
  - unfold text_char at 2. rewrite (batch_font _ _ _ Hb).
    destruct (glyph size (char_key c) font) as [g|]; [|by apply IH].
    destruct (drawn g); [|by apply IH].
    rewrite app_assoc. apply IH. by apply (quad_batch font qs
      (mkQuad (pen + gl_offsetX g)%f32 (baseline + gl_offsetY g)%f32 (gl_width g) (gl_height g)
         (gl_u0 g) (gl_v0 g) (gl_u1 g) (gl_v1 g) color) r).
Qed.

Lemma draw_batch font qs r c :
  batch font qs r -> batch font (qs ++ quads_of font c) (draw r c).
Proof.
  intros Hb. destruct c as [x y w h color|x y w h t color|x y value color size]; cbn [draw quads_of].
  - by apply rect_batch.
  - unfold rectOutline. do 3 rewrite cons_middle, app_assoc. by repeat apply rect_batch.
  - unfold text. rewrite (batch_font _ _ _ Hb). by apply text_batch.
Qed.

Lemma frame_batch font calls : forall qs r,
  batch font qs r -> batch font (qs ++ mjoin (quads_of font <$> calls)) (foldl draw r calls).
Proof.
  induction calls as [|c calls IH]; intros qs r Hb.
  - by rewrite app_nil_r.
  - rewrite fmap_cons, join_cons, app_assoc. by apply IH, draw_batch.
Qed.

Lemma begin_batch r : batch (mFont r) [] (begin_frame r).
Proof. by split. Qed.

Lemma draw_lastDrawCount calls : forall r,
  mLastDrawCount (foldl draw r calls) = mLastDrawCount r.
Proof.
  assert (Hq : forall x y w h u0 v0 u1 v1 color r,
    mLastDrawCount (quad x y w h u0 v0 u1 v1 color r) = mLastDrawCount r)
    by (intros; unfold quad; by case_match).
  assert (Ht : forall size baseline color cs s,
    mLastDrawCount (foldl (text_char size baseline color) s cs).2 = mLastDrawCount s.2).
  { induction cs as [|c cs IH]; intros s; [done|]. cbn [foldl]. rewrite IH.
    destruct s as [pen r]. unfold text_char. case_match; [|done]. case_match; [apply Hq|done]. }
  induction calls as [|c calls IH]; intros r; [done|]. cbn [foldl]. rewrite IH.
  destruct c; cbn [draw]; unfold rect, rectOutline, rect, text; rewrite ?Hq; [done..|apply Ht].
Qed.

(** ** The buckets *)

Lemma bucketed_spec n :
  Z.of_nat n <= kMaxQuads ->
  let d := bucketed (6 * Z.of_nat n) in
  6 * Z.of_nat n <= d <= kMaxIndices /\ d mod kIndexBucket = 0 /\
  (n <> 0%nat -> d < 6 * Z.of_nat n + kIndexBucket).
Proof.
  unfold kMaxQuads. intros Hn. unfold bucketed, kMaxIndices, kIndexBucket, kMaxQuads.
  assert (Hdm := Z.div_mod (6 * Z.of_nat n + 384 - 1) 384 ltac:(lia)).
  assert (Hr := Z.mod_pos_bound (6 * Z.of_nat n + 384 - 1) 384 ltac:(lia)).
  set (q := (6 * Z.of_nat n + 384 - 1) / 384) in *.
  destruct (Z.ltb_spec (8192 * 6) (q * 384)); cbn zeta; [done || lia|].
  split; [lia|]. split; [by rewrite Z.mod_mul|lia].
Qed.

Lemma resize_grow n l :
  Z.of_nat (length l) <= n ->
  resize n l = l ++ replicate (Z.to_nat n - length l) 0 /\
  Z.of_nat (length (resize n l)) = n.
Proof.
  intros Hl. unfold resize. rewrite take_ge by lia. split; [done|].
  rewrite length_app, length_replicate. lia.
Qed.

(** ** What reaches the screen *)

(** The engine draws the quads of a frame: as many as there are, or the first
    8192. *)
Definition shown (font : Font) (calls : list DrawCall) : list Quad :=
  take (Z.to_nat kMaxQuads) (mjoin (quads_of font <$> calls)).

Record on_screen (font : Font) (calls : list DrawCall) (g : Gpu) : Prop := {
  (** nothing, or whole buckets of the index buffer, which is that long *)
  screen_count : gpu_count g = if decide (shown font calls = []) then 0
                               else Z.of_nat (length (gpu_indices g));
  screen_bucket : gpu_count g mod kIndexBucket = 0 /\ 0 <= gpu_count g <= kMaxIndices;
  (** the vertices of the quads, within the vertex buffer *)
  screen_vertices : shown font calls <> [] ->
    gpu_vertices g = mjoin (vertices_of <$> shown font calls) /\
    Z.of_nat (length (gpu_vertices g)) <= kMaxVertices;
  (** the triangles of the quads, then triangles of one point *)
  screen_indices : shown font calls <> [] ->
    (exists pad, gpu_indices g = indices_of (length (shown font calls)) ++ replicate pad 0 /\
       Z.of_nat pad < kIndexBucket) /\
    Forall (fun i => 0 <= i < Z.of_nat (length (gpu_vertices g))) (gpu_indices g);
}.

(** The range the engine was last told, or none yet. *)
Definition in_step (r : UiRenderer) (g : Gpu) : Prop :=
  mLastDrawCount r = gpu_count g \/ mLastDrawCount r = SIZE_MAX.

(** The padded batch of a frame is what the frame shows. *)
Lemma batch_on_screen font calls d :
  let qs := shown font calls in
  qs <> [] -> d = bucketed (6 * Z.of_nat (length qs)) ->
  on_screen font calls (mkGpu (mjoin (vertices_of <$> qs)) (resize d (indices_of (length qs))) d).
Proof.
  cbv zeta. set (qs := shown font calls). intros Hqs ->. set (d := bucketed _).
  assert (Hn : Z.of_nat (length qs) <= kMaxQuads).
  { unfold qs, shown. rewrite length_take. unfold kMaxQuads. lia. }
  pose proof (bucketed_spec (length qs) Hn) as (Hd1 & Hd2 & Hd3). fold d in Hd1, Hd2, Hd3.
  pose proof (length_indices_of (length qs)) as Hlen.
  destruct (resize_grow d (indices_of (length qs))) as [Hr1 Hr2]; [lia|].
  assert (Hn0 : length qs <> 0%nat) by (destruct qs; done).
  split; cbn [gpu_count gpu_vertices gpu_indices]; fold qs; rewrite ?decide_False by done;
    [done|lia| |].
  - intros _. split; [done|]. rewrite length_join_vertices. unfold kMaxVertices. lia.
  - intros _. split.
    + exists (Z.to_nat d - length (indices_of (length qs)))%nat. rewrite Hr1. split; [done|].
      specialize (Hd3 Hn0). lia.
    + rewrite Hr1, length_join_vertices. apply Forall_app. split.
      * eapply Forall_impl; [by apply indices_of_bound|]. cbn beta. lia.
      * apply Forall_replicate. lia.
Qed.

Lemma frame_on_screen calls r g :
  in_step r g ->
  let s := frame calls (r, g) in
  mFont s.1 = mFont r /\ mLastDrawCount s.1 = gpu_count s.2 /\
  on_screen (mFont r) calls s.2.
Proof.
  intros Hstep. unfold frame.
  pose proof (frame_batch (mFont r) calls [] (begin_frame r) (begin_batch r)) as Hb.
  rewrite app_nil_l in Hb. pose proof (draw_lastDrawCount calls (begin_frame r)) as Hl.
  set (r1 := foldl draw (begin_frame r) calls) in *. cbn [begin_frame set_batch mLastDrawCount] in Hl.
  destruct Hb as [Hf Hv Hi]. fold (shown (mFont r) calls) in Hv, Hi.
  set (qs := shown (mFont r) calls) in *.
  assert (Hn : Z.of_nat (length qs) <= kMaxQuads).
  { unfold qs, shown. rewrite length_take. unfold kMaxQuads. lia. }
  pose proof (bucketed_spec (length qs) Hn) as (Hd1 & Hd2 & Hd3).
  assert (Hlen : Z.of_nat (length (mIndices r1)) = 6 * Z.of_nat (length qs))
    by (rewrite Hi, length_indices_of; lia).
  unfold end_frame. destruct (mIndices r1) as [|i0 is0] eqn:Ei.
  - assert (Hqs : qs = []) by (cbn in Hlen; destruct qs; [done|cbn in Hlen; lia]).
    assert (Hscreen : forall vs ixs, on_screen (mFont r) calls (mkGpu vs ixs 0)).
    { intros vs ixs. split; cbn [gpu_count]; fold qs; rewrite ?Hqs, ?decide_True; try done. }
    destruct (Z.eqb_spec (mLastDrawCount r1) 0) as [H0|H0]; cbn [foldl gpu_call fst snd].
    + rewrite Hl in H0. assert (Hg : gpu_count g = 0) by (destruct Hstep as [H|H]; [lia|];
        rewrite H in H0; discriminate).
      split; [done|]. split; [by rewrite Hl, Hg|]. destruct g as [vs ixs n]. cbn in Hg. by subst n.
    + split; [done|]. split; [done|apply Hscreen].
  - rewrite <- Ei in Hi, Hlen |- *. rewrite Hlen. set (d := bucketed _) in *.
    assert (Hqs : qs <> []) by (intros E; rewrite E, Ei in Hlen; cbn in Hlen; lia).
    assert (Hn0 : length qs <> 0%nat) by (destruct qs; done).
    assert (Hscreen : on_screen (mFont r) calls (mkGpu (mVertices r1) (resize d (mIndices r1)) d)).
    { rewrite Hv, Hi. apply batch_on_screen; [exact Hqs|done]. }
    cbn [set_batch mLastDrawCount].
    destruct (Z.eqb_spec d (mLastDrawCount r1)) as [Hd|Hd]; cbn [foldl app gpu_call fst snd
      set_batch set_lastDrawCount mFont mLastDrawCount mVertices mIndices gpu_vertices gpu_indices
      gpu_count].
    + assert (Hg : gpu_count g = d).
      { destruct Hstep as [H|H]; [congruence|]. exfalso. rewrite Hl, H in Hd.
        unfold kMaxIndices, kMaxQuads, SIZE_MAX in *. lia. }
      split; [done|]. rewrite Hg. split; [by symmetry|done].
    + split; [done|]. split; [done|exact Hscreen].
Qed.

(** C36: what the interface draws is what reaches the screen. After any number of
    frames, the engine holds exactly the quads of the last one's
    rectangles, outlines and text, in order (the first 8192 when there are
    more): four vertices each, the triangles of the quads and then triangles of
    one point up to a whole bucket, every index within the vertices uploaded
    and both within their buffers. It draws the buffer uploaded in this frame, or
    nothing when there is nothing to draw; and the renderer's memory of
    the range, by which it skips telling the engine, is never out of date. *)
Theorem frames_on_screen (font : Font) (frames : list (list DrawCall)) (last : list DrawCall) :
  let s := foldl (fun s calls => frame calls s) (new_renderer font, new_gpu) (frames ++ [last]) in
  mLastDrawCount s.1 = gpu_count s.2 /\ on_screen font last s.2.
Proof.
  assert (Hinv : forall frames s, mFont s.1 = font -> in_step s.1 s.2 ->
    let s' := foldl (fun s calls => frame calls s) s frames in
    mFont s'.1 = font /\ in_step s'.1 s'.2).
  { induction frames0 as [|calls frames0 IH]; intros [r g] Hf Hs; [done|]. cbn [foldl].
    destruct (frame_on_screen calls r g Hs) as (H1 & H2 & _).
    apply IH; [by rewrite H1|by left]. }
  rewrite foldl_app. cbn [foldl].
  destruct (Hinv frames (new_renderer font, new_gpu)) as [Hf Hs]; [done|by right|].
  destruct (foldl _ _ frames) as [r g]. cbn [fst snd] in *.
  destruct (frame_on_screen last r g Hs) as (_ & H2 & H3). rewrite Hf in H3. by split.
Qed.

(** ** Measures

    [textWidth] is where the pen of [text] ends when it starts at zero, so that
    text placed by its width is centred as it is drawn. *)

Definition renderer_textWidth (value : string) (pixelSize : Z) (r : UiRenderer) : float :=
  textWidth pixelSize value (mFont r).

Definition renderer_textHeight (pixelSize : Z) (r : UiRenderer) : float :=
  lineHeight pixelSize (mFont r).

Lemma text_char_pen size baseline color s c :
  (text_char size baseline color s c).1 = add_advance size (mFont s.2) s.1 c /\
  mFont (text_char size baseline color s c).2 = mFont s.2.
Proof.
  assert (Hq : forall x y w h u0 v0 u1 v1 col r,
    mFont (quad x y w h u0 v0 u1 v1 col r) = mFont r) by (intros; unfold quad; by case_match).
  destruct s as [pen r]. unfold text_char, add_advance. cbn [fst snd].
  destruct (glyph size (char_key c) (mFont r)) as [g|]; [|done].
  destruct (drawn g); cbn [fst snd]; by rewrite ?Hq.
Qed.

Lemma text_pen size baseline color cs : forall s,
  (foldl (text_char size baseline color) s cs).1 = foldl (add_advance size (mFont s.2)) s.1 cs.
Proof.
  induction cs as [|c cs IH]; intros s; [done|]. cbn [foldl].
  destruct (text_char_pen size baseline color s c) as [H1 H2]. by rewrite IH, H1, H2.
Qed.

Lemma text_width_pen value pixelSize baseline color r :
  (foldl (text_char (nearestSize pixelSize (mFont r)) baseline color) (f32_zero, r)
     (list_ascii_of_string value)).1 = renderer_textWidth value pixelSize r.
Proof. by rewrite text_pen. Qed.
