(* ===== verification/Painting.v ===== *)
(** * What the screens draw ([ui/widgets.cpp], [screens.cpp])

    The calls each widget makes to the renderer, and those of the login form
    and the menu, together with what [Widgets] and [Screens] say they do. The
    colours are those of the theme in [widgets.h]. *)

From Stdlib Require Import ZArith Lia Strings.Ascii Strings.String Floats.SpecFloat.
From stdpp Require Import base list option gmap strings.
From S2P Require Import Prelude Float32 Font Renderer Widgets Screens.

Open Scope Z_scope.

(** ** The theme *)

Definition theme_background : Color := mkColor 14 16 22 235.
Definition theme_panel : Color := mkColor 26 30 40 245.
Definition theme_border : Color := mkColor 70 80 100 255.
Definition theme_borderFocused : Color := mkColor 120 170 240 255.
Definition theme_field : Color := mkColor 18 20 27 255.
Definition theme_text : Color := mkColor 226 232 240 255.
Definition theme_textDim : Color := mkColor 130 142 160 255.
Definition theme_accent : Color := mkColor 58 110 200 255.
Definition theme_accentHover : Color := mkColor 78 138 235 255.
Definition theme_accentPressed : Color := mkColor 42 86 165 255.
Definition theme_danger : Color := mkColor 190 70 62 255.
Definition theme_dangerHover : Color := mkColor 215 88 80 255.

Definition kBorder : float := f32_of_Z 2.
Definition kTextPadding : float := f32_of_Z 10.
Definition kCaretBlinkSeconds : double := lit64 53 100.

Section Painting.
Context `{HLibm : Libm}.

(** The renderer asked for sizes and widths, and [mCaretTimer]. *)
Variable rn : Renderer.UiRenderer.
Variable caretTimer : double.

Definition text_width (text : string) (size : Z) : float := renderer_textWidth text size rn.
Definition text_height (size : Z) : float := renderer_textHeight size rn.

(** What [Screens] asks of it. *)
Definition screen_view : Screens.UiRenderer :=
  mkRenderer (mWidth rn) (mHeight rn) text_height.

Definition half : float := lit32 1 2.

Definition centreTextY (y height : float) (size : Z) : float :=
  (y + (height - text_height size) * half)%f32.

(** ** Widgets *)

Definition panel (x y width height : float) : list DrawCall :=
  [DrawRect x y width height theme_panel; DrawOutline x y width height kBorder theme_border].

Definition label (x y : float) (text : string) (size : Z) : list DrawCall :=
  [DrawText x y text theme_text size].

Definition labelDim (x y : float) (text : string) (size : Z) : list DrawCall :=
  [DrawText x y text theme_textDim size].

Definition labelCentred (centreX y : float) (text : string) (size : Z) : list DrawCall :=
  [DrawText (centreX - text_width text size * half)%f32 y text theme_text size].

(** The drawing of [buttonInternal], once it has seen the mouse. *)
Definition paint_button (id : Z) (r : Rect) (text : string) (base hover pressed : Color) (u : Ui)
    : list DrawCall :=
  let isHovered := hovered r u in
  let fill := if (mActive u =? id) && isHovered then pressed
              else if isHovered then hover else base in
  [DrawRect (rc_x r) (rc_y r) (rc_width r) (rc_height r) fill]
  ++ (if mFocused u =? id
      then [DrawOutline (rc_x r) (rc_y r) (rc_width r) (rc_height r) kBorder theme_borderFocused]
      else [])
  ++ [DrawText (rc_x r + (rc_width r - text_width text kFontSizeBody) * half)%f32
        (centreTextY (rc_y r) (rc_height r) kFontSizeBody) text theme_text kFontSizeBody].

Definition button_calls (id : Z) (r : Rect) (text : string) (base hover pressed : Color) (u : Ui)
    : bool * Ui * list DrawCall :=
  let '(clicked, u) := button id r u in
  (clicked, u, paint_button id r text base hover pressed u).

Definition accent_button (id : Z) (r : Rect) (text : string) (u : Ui) :=
  button_calls id r text theme_accent theme_accentHover theme_accentPressed u.

Definition danger_button (id : Z) (r : Rect) (text : string) (u : Ui) :=
  button_calls id r text theme_danger theme_dangerHover theme_danger u.

(** [std::string(value.size(), '*')] *)
Fixpoint stars (n : nat) : string :=
  match n with O => EmptyString | S n => String "*" (stars n) end.

(** [static_cast<int>(mCaretTimer / kCaretBlinkSeconds) % 2 == 0] *)
Definition caret_visible : bool :=
  Z.rem (int32_of_f32 (caretTimer / kCaretBlinkSeconds)%f64) 2 =? 0.

(** The drawing of [textField], with the value as edited. *)
Definition paint_textField (id : Z) (r : Rect) (value placeholder : string) (password : bool)
    (u : Ui) : list DrawCall :=
  let isFocused := mFocused u =? id in
  let textX := (rc_x r + kTextPadding)%f32 in
  let textY := centreTextY (rc_y r) (rc_height r) kFontSizeBody in
  let shown := if password then stars (String.length value) else value in
  [DrawRect (rc_x r) (rc_y r) (rc_width r) (rc_height r) theme_field;
   DrawOutline (rc_x r) (rc_y r) (rc_width r) (rc_height r) kBorder
     (if isFocused then theme_borderFocused else theme_border)]
  ++ (if (String.length value =? 0)%nat && negb isFocused
      then [DrawText textX textY placeholder theme_textDim kFontSizeBody]
      else [DrawText textX textY shown theme_text kFontSizeBody])
  ++ (if isFocused && caret_visible
      then
        let caretX := (textX + text_width shown kFontSizeBody)%f32 in
        let caretHeight := (text_height kFontSizeBody * lit32 8 10)%f32 in
        [DrawRect (caretX + f32_one)%f32 (textY + caretHeight * lit32 15 100)%f32 (f32_of_Z 2)
           caretHeight theme_text]
      else []).

Definition textField_calls (id : Z) (r : Rect) (maxLength : nat) (value placeholder : string)
    (password : bool) (u : Ui) : bool * string * Ui * list DrawCall :=
  let '(submitted, value, u) := textField id r maxLength value u in
  (submitted, value, u, paint_textField id r value placeholder password u).

(** ** The login form *)

Definition status_error_color : Color := mkColor 230 110 100 255.

(** [LoginScreen::draw], with the calls it makes. *)
Definition login_paint (state : AppState) (l : LoginScreen) (u : Ui)
    : LoginAction * LoginScreen * Ui * list DrawCall :=
  let u := if ls_focusInitialised l then u else setFocus kIdUsername u in
  let screenWidth := f32_of_Z (mWidth rn) in
  let screenHeight := f32_of_Z (mHeight rn) in
  let background := [DrawRect f32_zero f32_zero screenWidth screenHeight theme_background] in
  let panelWidth := f32_of_Z 460 in
  let panelHeight := f32_of_Z 320 in
  let panelX := ((screenWidth - panelWidth) * half)%f32 in
  let panelY := ((screenHeight - panelHeight) * half)%f32 in
  let contentX := (panelX + f32_of_Z 32)%f32 in
  let contentWidth := (panelWidth - f32_of_Z 64)%f32 in
  let y := (panelY + f32_of_Z 28)%f32 in
  let title := labelCentred (panelX + panelWidth * half)%f32 y "UNTITLED" Font.kFontSizeTitle in
  let y := (y + (text_height Font.kFontSizeTitle + f32_of_Z 24))%f32 in
  let busy := bool_decide (state = Connecting) in
  let usernameLabel := labelDim contentX y "USERNAME" Font.kFontSizeSmall in
  let y := (y + (text_height Font.kFontSizeSmall + f32_of_Z 4))%f32 in
  let '(usernameSubmitted, username, u, usernameCalls) :=
    textField_calls kIdUsername (mkRect contentX y contentWidth kFieldHeight) kMaxFieldLength
      (ls_username l) "enter username" false u in
  let y := (y + (kFieldHeight + kRowGap))%f32 in
  let passwordLabel := labelDim contentX y "PASSWORD" Font.kFontSizeSmall in
  let y := (y + (text_height Font.kFontSizeSmall + f32_of_Z 4))%f32 in
  let '(passwordSubmitted, password, u, passwordCalls) :=
    textField_calls kIdPassword (mkRect contentX y contentWidth kFieldHeight) kMaxFieldLength
      (ls_password l) "enter password" true u in
  let y := (y + (kFieldHeight + kRowGap + f32_of_Z 4))%f32 in
  let buttonWidth := ((contentWidth - f32_of_Z 12) * half)%f32 in
  let '(submitClicked, u, submitCalls) :=
    accent_button kIdSubmit (mkRect contentX y buttonWidth kButtonHeight)
      (if busy then "..." else "LOGIN") u in
  let '(quitClicked, u, quitCalls) :=
    accent_button kIdQuit
      (mkRect (contentX + buttonWidth + f32_of_Z 12)%f32 y buttonWidth kButtonHeight) "QUIT" u in
  let y := (y + (kButtonHeight + f32_of_Z 14))%f32 in
  let status :=
    if (String.length (ls_status l) =? 0)%nat then []
    else
      [DrawText (panelX + (panelWidth - text_width (ls_status l) Font.kFontSizeSmall) * half)%f32 y
         (ls_status l) (if ls_statusIsError l then status_error_color else theme_textDim)
         Font.kFontSizeSmall] in
  let l := mkLoginScreen username password (ls_status l) (ls_statusIsError l) true in
  (if quitClicked then LoginQuit
   else if negb busy && (submitClicked || usernameSubmitted || passwordSubmitted)
   then LoginSubmit else LoginNone, l, u,
   background ++ panel panelX panelY panelWidth panelHeight ++ title ++ usernameLabel
   ++ usernameCalls ++ passwordLabel ++ passwordCalls ++ submitCalls ++ quitCalls ++ status).

(** ** The menu *)

(** [MenuScreen::draw], with the calls it makes. *)
Definition menu_paint (username : string) (u : Ui) : MenuAction * Ui * list DrawCall :=
  let screenWidth := f32_of_Z (mWidth rn) in
  let screenHeight := f32_of_Z (mHeight rn) in
  let background := [DrawRect f32_zero f32_zero screenWidth screenHeight (mkColor 8 10 14 150)] in
  let panelWidth := f32_of_Z 340 in
  let panelHeight := f32_of_Z 260 in
  let panelX := ((screenWidth - panelWidth) * half)%f32 in
  let panelY := ((screenHeight - panelHeight) * half)%f32 in
  let y := (panelY + f32_of_Z 26)%f32 in
  let heading := labelCentred (panelX + panelWidth * half)%f32 y "PAUSED" Font.kFontSizeHeading in
  let y := (y + (text_height Font.kFontSizeHeading + f32_of_Z 6))%f32 in
  let subtitle := ("logged in as " +:+ username)%string in
  let subtitleCalls :=
    [DrawText (panelX + (panelWidth - text_width subtitle Font.kFontSizeSmall) * half)%f32 y subtitle
       theme_textDim Font.kFontSizeSmall] in
  let y := (y + (text_height Font.kFontSizeSmall + f32_of_Z 22))%f32 in
  let contentX := (panelX + f32_of_Z 30)%f32 in
  let contentWidth := (panelWidth - f32_of_Z 60)%f32 in
  let row := (kButtonHeight + f32_of_Z 12)%f32 in
  let '(resume, u, resumeCalls) :=
    accent_button kIdResume (mkRect contentX y contentWidth kButtonHeight) "RESUME" u in
  let y := (y + row)%f32 in
  let '(logout, u, logoutCalls) :=
    danger_button kIdLogout (mkRect contentX y contentWidth kButtonHeight) "LOGOUT" u in
  let y := (y + row)%f32 in
  let '(quit, u, quitCalls) :=
    accent_button kIdMenuQuit (mkRect contentX y contentWidth kButtonHeight) "QUIT" u in
  (if resume then MenuResume else if logout then MenuLogout
   else if quit then MenuQuit else MenuNone, u,
   background ++ panel panelX panelY panelWidth panelHeight ++ heading ++ subtitleCalls
   ++ resumeCalls ++ logoutCalls ++ quitCalls).

(** ** Drawing changes nothing else *)

Lemma login_paint_draw state l u :
  (login_paint state l u).1 = login_draw screen_view state l u.
Proof.
  unfold login_paint, login_draw, textField_calls, accent_button, button_calls.
  cbn [login_layout ll_username ll_password ll_submit ll_quit screen_view rn_width rn_height
    Screens.textHeight].
  destruct (textField kIdUsername _ _ _ _) as [[s1 username] u1].
  destruct (textField kIdPassword _ _ _ _) as [[s2 password] u2].
  destruct (button kIdSubmit _ _) as [s3 u3]. by destruct (button kIdQuit _ _) as [s4 u4].
Qed.

Lemma menu_paint_draw username u : (menu_paint username u).1 = menu_draw screen_view u.
Proof.
  unfold menu_paint, menu_draw, accent_button, danger_button, button_calls.
  cbn [menu_layout ml_resume ml_logout ml_quit screen_view rn_width rn_height Screens.textHeight].
  destruct (button kIdResume _ _) as [b1 u1], (button kIdLogout _ _) as [b2 u2].
  by destruct (button kIdMenuQuit _ _) as [b3 u3].
Qed.

End Painting.

(** ** The password is not drawn

    Two runs of the form that differ only in what is typed for the password,
    character by character. *)

Definition with_characters (cs : list Z) (i : InputState) : InputState :=
  mkInput (in_mouseX i) (in_mouseY i) (in_mouseDown i) (in_mousePressed i) (in_mouseReleased i)
    cs (in_backspace i) (in_tab i) (in_enter i) (in_escape i).

Definition same_class (c1 c2 : Z) : Prop := printable c1 = printable c2.

(** The same input but for the characters, printable in the same places. *)
Definition masked (i1 i2 : InputState) : Prop :=
  i2 = with_characters (in_characters i2) i1 /\
  Forall2 same_class (in_characters i1) (in_characters i2).

Definition alike (u1 u2 : Ui) : Prop :=
  masked (mInput u1) (mInput u2) /\
  mFocused u1 = mFocused u2 /\ mActive u1 = mActive u2 /\
  mTextFields u1 = mTextFields u2 /\ mTabPending u1 = mTabPending u2.

Definition same_but_password (l1 l2 : LoginScreen) : Prop :=
  ls_username l1 = ls_username l2 /\
  String.length (ls_password l1) = String.length (ls_password l2) /\
  ls_status l1 = ls_status l2 /\ ls_statusIsError l1 = ls_statusIsError l2 /\
  ls_focusInitialised l1 = ls_focusInitialised l2.

Lemma with_characters_fields cs i :
  in_mouseX (with_characters cs i) = in_mouseX i /\ in_mouseY (with_characters cs i) = in_mouseY i /\
  in_mousePressed (with_characters cs i) = in_mousePressed i /\
  in_mouseReleased (with_characters cs i) = in_mouseReleased i /\
  in_backspace (with_characters cs i) = in_backspace i /\
  in_tab (with_characters cs i) = in_tab i /\
  in_enter (with_characters cs i) = in_enter i.
Proof. done. Qed.

Lemma masked_fields i1 i2 :
  masked i1 i2 ->
  in_mouseX i2 = in_mouseX i1 /\ in_mouseY i2 = in_mouseY i1 /\
  in_mousePressed i2 = in_mousePressed i1 /\ in_mouseReleased i2 = in_mouseReleased i1 /\
  in_backspace i2 = in_backspace i1 /\ in_tab i2 = in_tab i1 /\ in_enter i2 = in_enter i1.
Proof. intros [-> _]. apply with_characters_fields. Qed.

Lemma length_pop_back s : String.length (pop_back s) = (String.length s - 1)%nat.
Proof. induction s as [|c [|d s] IH]; cbn in *; lia. Qed.

Lemma type_char_length n s1 s2 c1 c2 :
  same_class c1 c2 -> String.length s1 = String.length s2 ->
  String.length (type_char n s1 c1) = String.length (type_char n s2 c2).
Proof.
  unfold type_char. intros -> Hl. rewrite Hl. case_match; [|done].
  by rewrite !length_push_back, Hl.
Qed.

Lemma edit_length n i1 i2 s1 s2 :
  masked i1 i2 -> String.length s1 = String.length s2 ->
  String.length (edit n i1 s1) = String.length (edit n i2 s2).
Proof.
  intros Hm Hl. destruct (masked_fields _ _ Hm) as (_ & _ & _ & _ & Hb & _).
  destruct Hm as [_ Hc]. unfold edit. rewrite Hb.
  assert (Hf : String.length (foldl (type_char n) s1 (in_characters i1))
    = String.length (foldl (type_char n) s2 (in_characters i2))).
  { revert s1 s2 Hl. induction Hc as [|c1 c2 cs1 cs2 Hc _ IH]; intros s1 s2 Hl; [done|].
    cbn [foldl]. apply IH. by apply type_char_length. }
  case_match; [by rewrite !length_pop_back, Hf|done].
Qed.

Lemma hovered_alike r u1 u2 : alike u1 u2 -> hovered r u2 = hovered r u1.
Proof.
  intros [Hm _]. destruct (masked_fields _ _ Hm) as (Hx & Hy & _).
  unfold hovered. by rewrite Hx, Hy.
Qed.

Lemma press_alike id u1 u2 : alike u1 u2 -> alike (press id u1) (press id u2).
Proof. unfold alike. cbn. naive_solver. Qed.

(** [pressed_on id r u]: the widget takes the press, if the mouse is on it. *)
Definition pressed_on (id : Z) (r : Rect) (u : Ui) : Ui :=
  if hovered r u && in_mousePressed (mInput u) then press id u else u.

Lemma pressed_on_alike id r u1 u2 :
  alike u1 u2 -> alike (pressed_on id r u1) (pressed_on id r u2).
Proof.
  intros H. unfold pressed_on. rewrite (hovered_alike r u1 u2 H).
  destruct (masked_fields _ _ (proj1 H)) as (_ & _ & Hp & _). rewrite Hp.
  case_match; [by apply press_alike|done].
Qed.

Section Hidden.
Context `{HLibm : Libm}.
Variable rn : Renderer.UiRenderer.
Variable caretTimer : double.

Lemma paint_button_alike id r text a b c u1 u2 :
  alike u1 u2 -> paint_button rn id r text a b c u1 = paint_button rn id r text a b c u2.
Proof.
  intros H. unfold paint_button. rewrite (hovered_alike r u1 u2 H).
  destruct H as (_ & -> & -> & _). done.
Qed.

Lemma button_calls_alike id r text a b c u1 u2 :
  alike u1 u2 ->
  let '(k1, u1', d1) := button_calls rn id r text a b c u1 in
  let '(k2, u2', d2) := button_calls rn id r text a b c u2 in
  k1 = k2 /\ alike u1' u2' /\ d1 = d2.
Proof.
  intros H. unfold button_calls, button.
  change (if hovered r u1 && in_mousePressed (mInput u1) then press id u1 else u1)
    with (pressed_on id r u1).
  change (if hovered r u2 && in_mousePressed (mInput u2) then press id u2 else u2)
    with (pressed_on id r u2).
  pose proof (pressed_on_alike id r u1 u2 H) as H'. rewrite (hovered_alike r u1 u2 H).
  destruct (masked_fields _ _ (proj1 H')) as (_ & _ & _ & Hr & _).
  split; [|split; [done|by apply paint_button_alike]].
  destruct H' as (_ & _ & -> & _). by rewrite Hr.
Qed.

(** The focus the username field sees. *)
Definition enlist (id : Z) (u : Ui) : Ui :=
  mkUi (mInput u) (mFocused u) (mActive u) (mTextFields u ++ [id]) (mTabPending u).

Lemma enlist_alike id u1 u2 : alike u1 u2 -> alike (enlist id u1) (enlist id u2).
Proof. intros (H1 & H2 & H3 & H4 & H5). unfold alike. cbn. by rewrite H4. Qed.

Lemma textField_eq id r n value u :
  textField id r n value u =
  let u := pressed_on id r (enlist id u) in
  if mFocused u =? id then (in_enter (mInput u), edit n (mInput u) value, u) else (false, value, u).
Proof. done. Qed.

(** A field that shows its text, typed into alike. *)
Lemma open_field_alike id r n value placeholder u1 u2 :
  alike u1 u2 ->
  (mFocused (pressed_on id r (enlist id u1)) = id -> mInput u1 = mInput u2) ->
  let '(k1, v1, u1', d1) := textField_calls rn caretTimer id r n value placeholder false u1 in
  let '(k2, v2, u2', d2) := textField_calls rn caretTimer id r n value placeholder false u2 in
  k1 = k2 /\ v1 = v2 /\ alike u1' u2' /\ d1 = d2.
Proof.
  intros H Hin. unfold textField_calls. rewrite !textField_eq. cbn zeta.
  pose proof (pressed_on_alike id r _ _ (enlist_alike id _ _ H)) as H'.
  set (w1 := pressed_on id r (enlist id u1)) in *.
  set (w2 := pressed_on id r (enlist id u2)) in *.
  assert (Hi : forall u, mInput (pressed_on id r (enlist id u)) = mInput u)
    by (intros u; unfold pressed_on; by case_match).
  pose proof (Hi u1) as Hi1. pose proof (Hi u2) as Hi2. fold w1 in Hi1. fold w2 in Hi2.
  assert (Hf : mFocused w2 = mFocused w1) by (symmetry; apply H').
  unfold paint_textField. rewrite Hf. destruct (Z.eqb_spec (mFocused w1) id) as [Hid|Hid].
  - rewrite Hi1, Hi2, <- (Hin Hid). rewrite Hf, (proj2 (Z.eqb_eq _ _) Hid). done.
  - rewrite Hf, (proj2 (Z.eqb_neq _ _) Hid). done.
Qed.

(** A field that hides its text: only its length matters. *)
Lemma password_field_alike id r n value1 value2 placeholder u1 u2 :
  alike u1 u2 -> String.length value1 = String.length value2 ->
  let '(k1, v1, u1', d1) := textField_calls rn caretTimer id r n value1 placeholder true u1 in
  let '(k2, v2, u2', d2) := textField_calls rn caretTimer id r n value2 placeholder true u2 in
  k1 = k2 /\ String.length v1 = String.length v2 /\ alike u1' u2' /\ d1 = d2.
Proof.
  intros H Hl. unfold textField_calls. rewrite !textField_eq. cbn zeta.
  pose proof (pressed_on_alike id r _ _ (enlist_alike id _ _ H)) as H'.
  set (w1 := pressed_on id r (enlist id u1)) in *.
  set (w2 := pressed_on id r (enlist id u2)) in *.
  assert (Hf : mFocused w2 = mFocused w1) by (symmetry; apply H').
  destruct (masked_fields _ _ (proj1 H')) as (_ & _ & _ & _ & _ & _ & He).
  pose proof (edit_length n _ _ _ _ (proj1 H') Hl) as Hed.
  rewrite Hf. destruct (mFocused w1 =? id) eqn:Ef.
  - rewrite He. split; [done|]. split; [done|]. split; [done|].
    unfold paint_textField. by rewrite Hed, Hf, Ef.
  - split; [done|]. split; [done|]. split; [done|].
    unfold paint_textField. by rewrite Hl, Hf, Ef.
Qed.

(** The field of the form that has the focus while the username is drawn. *)
Definition username_rect : Rect := ll_username (login_layout (screen_view rn)).

Definition arrive (l : LoginScreen) (u : Ui) : Ui :=
  if ls_focusInitialised l then u else setFocus kIdUsername u.

Definition focus_on_username (l : LoginScreen) (u : Ui) : Prop :=
  mFocused (pressed_on kIdUsername username_rect (enlist kIdUsername (arrive l u)))
  = kIdUsername.

Lemma login_paint_alike state l1 l2 u1 u2 :
  same_but_password l1 l2 -> alike u1 u2 ->
  (focus_on_username l1 u1 -> mInput u1 = mInput u2) ->
  let '(a1, l1', u1', d1) := login_paint rn caretTimer state l1 u1 in
  let '(a2, l2', u2', d2) := login_paint rn caretTimer state l2 u2 in
  a1 = a2 /\ d1 = d2 /\ same_but_password l1' l2' /\ alike u1' u2'.
Proof.
  intros (Hu & Hp & Hs & He & Hf) H Hin. unfold login_paint.
  rewrite <- Hu, <- Hs, <- He, <- Hf.
  assert (H0 : alike (arrive l1 u1) (if ls_focusInitialised l1 then u2 else setFocus kIdUsername u2)).
  { unfold arrive. case_match; [done|]. unfold alike in *. cbn. naive_solver. }
  assert (Hin' : mInput (arrive l1 u1) = mInput u1) by (unfold arrive; by case_match).
  assert (Hin2 : mInput (if ls_focusInitialised l1 then u2 else setFocus kIdUsername u2) = mInput u2)
    by by case_match.
  fold (arrive l1 u1). set (w2 := if ls_focusInitialised l1 then u2 else _) in *.
  pose proof (open_field_alike kIdUsername username_rect kMaxFieldLength (ls_username l1)
    "enter username" (arrive l1 u1) w2 H0) as Ha.
  rewrite Hin', Hin2 in Ha. specialize (Ha Hin). unfold username_rect in Ha.
  cbn [login_layout ll_username screen_view rn_width rn_height Screens.textHeight] in Ha.
  destruct (textField_calls _ _ _ _ _ (ls_username l1) _ _ (arrive l1 u1)) as [[[k1 v1] a1] d1].
  destruct (textField_calls _ _ _ _ _ (ls_username l1) _ _ w2) as [[[k2 v2] a2] d2].
  destruct Ha as (<- & <- & Ha & <-).
  match goal with |- context [textField_calls rn caretTimer kIdPassword ?r ?n _ ?p true a1] =>
    pose proof (password_field_alike kIdPassword r n (ls_password l1) (ls_password l2) p a1 a2 Ha Hp)
      as Hb end.
  destruct (textField_calls _ _ kIdPassword _ _ (ls_password l1) _ _ a1) as [[[k3 v3] a3] d3].
  destruct (textField_calls _ _ kIdPassword _ _ (ls_password l2) _ _ a2) as [[[k4 v4] a4] d4].
  destruct Hb as (<- & Hv & Hb & <-). unfold accent_button.
  match goal with |- context [button_calls rn kIdSubmit ?r ?t ?x ?y ?z a3] =>
    pose proof (button_calls_alike kIdSubmit r t x y z a3 a4 Hb) as Hc end.
  destruct (button_calls rn kIdSubmit _ _ _ _ _ a3) as [[k5 a5] d5].
  destruct (button_calls rn kIdSubmit _ _ _ _ _ a4) as [[k6 a6] d6].
  destruct Hc as (<- & Hc & <-).
  match goal with |- context [button_calls rn kIdQuit ?r ?t ?x ?y ?z a5] =>
    pose proof (button_calls_alike kIdQuit r t x y z a5 a6 Hc) as Hd end.
  destruct (button_calls rn kIdQuit _ _ _ _ _ a5) as [[k7 a7] d7].
  destruct (button_calls rn kIdQuit _ _ _ _ _ a6) as [[k8 a8] d8].
  destruct Hd as (<- & Hd & <-). done.
Qed.
End Hidden.

(** What happens to the form: a frame, or the application's calls. *)
Inductive FormEvent :=
| FrameDrawn (state : AppState) (input : InputState) (caretTimer : double)
| StatusSet (status : string) (error : bool)
| PasswordCleared
| FocusReset.

Section Runs.
Context `{HLibm : Libm}.
Variable rn : Renderer.UiRenderer.

(** The form and the interface after an event, and what the frame shows. *)
Definition form_event (s : LoginScreen * Ui) (e : FormEvent)
    : list (LoginAction * list DrawCall) * (LoginScreen * Ui) :=
  match e with
  | FrameDrawn state i caret =>
      let '(action, l, u, calls) := login_paint rn caret state s.1 (ui_begin i s.2) in
      ([(action, calls)], (l, ui_end u))
  | StatusSet status error => ([], (setStatus status error s.1, s.2))
  | PasswordCleared => ([], (clearPassword s.1, s.2))
  | FocusReset => ([], (resetFocus s.1, s.2))
  end.

Fixpoint form_run (s : LoginScreen * Ui) (es : list FormEvent) : list (LoginAction * list DrawCall) :=
  match es with
  | [] => []
  | e :: es' => let '(shown, s') := form_event s e in shown ++ form_run s' es'
  end.

(** The second run types other characters, in the same places, while the
    username does not have the focus in the first. *)
Inductive typed_alike : LoginScreen * Ui -> list FormEvent -> list FormEvent -> Prop :=
| alike_nil s : typed_alike s [] []
| alike_frame s state i1 i2 caret es1 es2 :
    masked i1 i2 ->
    (focus_on_username rn s.1 (ui_begin i1 s.2) -> i1 = i2) ->
    typed_alike (form_event s (FrameDrawn state i1 caret)).2 es1 es2 ->
    typed_alike s (FrameDrawn state i1 caret :: es1) (FrameDrawn state i2 caret :: es2)
| alike_other s e es1 es2 :
    (forall state i caret, e <> FrameDrawn state i caret) ->
    typed_alike (form_event s e).2 es1 es2 ->
    typed_alike s (e :: es1) (e :: es2).

Definition form_alike (s1 s2 : LoginScreen * Ui) : Prop :=
  same_but_password s1.1 s2.1 /\ alike s1.2 s2.2.

Lemma ui_begin_alike i1 i2 u1 u2 :
  masked i1 i2 -> alike u1 u2 -> alike (ui_begin i1 u1) (ui_begin i2 u2).
Proof.
  intros Hm (_ & H2 & H3 & _). destruct (masked_fields _ _ Hm) as (_ & _ & _ & _ & _ & Ht & _).
  split; [done|]. cbn. by rewrite H2, H3, Ht.
Qed.

Lemma ui_end_alike u1 u2 : alike u1 u2 -> alike (ui_end u1) (ui_end u2).
Proof.
  intros (Hm & H2 & H3 & H4 & H5). destruct (masked_fields _ _ Hm) as (_ & _ & Hp & Hr & _).
  split; [done|]. unfold ui_end. cbn. by rewrite Hp, Hr, H2, H3, H4, H5.
Qed.

Lemma form_frame_alike s1 s2 state i1 i2 caret :
  form_alike s1 s2 -> masked i1 i2 ->
  (focus_on_username rn s1.1 (ui_begin i1 s1.2) -> i1 = i2) ->
  let '(d1, s1') := form_event s1 (FrameDrawn state i1 caret) in
  let '(d2, s2') := form_event s2 (FrameDrawn state i2 caret) in
  d1 = d2 /\ form_alike s1' s2'.
Proof.
  intros [Hl Hu] Hm Hin. cbn [form_event].
  pose proof (login_paint_alike rn caret state s1.1 s2.1 (ui_begin i1 s1.2) (ui_begin i2 s2.2) Hl
    (ui_begin_alike _ _ _ _ Hm Hu) Hin) as H.
  destruct (login_paint _ _ _ s1.1 _) as [[[a1 l1] u1] d1].
  destruct (login_paint _ _ _ s2.1 _) as [[[a2 l2] u2] d2].
  destruct H as (<- & <- & H1 & H2). split; [done|]. split; [done|]. by apply ui_end_alike.
Qed.

Lemma form_other_alike s1 s2 e :
  form_alike s1 s2 -> (forall state i caret, e <> FrameDrawn state i caret) ->
  (form_event s1 e).1 = [] /\ (form_event s2 e).1 = [] /\
  form_alike (form_event s1 e).2 (form_event s2 e).2.
Proof.
  unfold form_alike, same_but_password. intros [H1 H2] He.
  destruct e as [state i caret| | |]; [by destruct (He state i caret)|cbn; naive_solver..].
Qed.

Lemma form_run_alike s1 es1 es2 :
  typed_alike s1 es1 es2 -> forall s2, form_alike s1 s2 -> form_run s1 es1 = form_run s2 es2.
Proof.
  induction 1 as [s|s state i1 i2 caret es1 es2 Hm Hin _ IH|s e es1 es2 He _ IH];
    intros s2 Hs; cbn [form_run]; [done| |].
  - pose proof (form_frame_alike s s2 state i1 i2 caret Hs Hm Hin) as H.
    destruct (form_event s _) as [d1 s1'], (form_event s2 _) as [d2 s2'].
    destruct H as [<- H]. f_equal. by apply IH.
  - destruct (form_other_alike s s2 e Hs He) as (H1 & H2 & H3).
    destruct (form_event s e) as [d1 s1'], (form_event s2 e) as [d2 s2']. cbn [fst snd] in *.
    subst. f_equal. by apply IH.
Qed.

Lemma masked_refl i : masked i i.
Proof. split; [by destruct i|]. by apply Forall_Forall2_diag, Forall_forall. Qed.

Lemma alike_refl u : alike u u.
Proof. split; [apply masked_refl|done]. Qed.

(** C37: the screen does not give the password away. Take two runs of the login form
    whose forms agree but for passwords of the same length, and whose inputs
    agree but for the characters typed while the username does not have the
    focus, printable in the same places. They ask the renderer for the same
    drawing in every frame, and answer the application the same: what can be
    seen of the password is how many characters it has. *)
Theorem password_hidden (l1 l2 : LoginScreen) (u : Ui) (es1 es2 : list FormEvent)
    (Hl : same_but_password l1 l2) (He : typed_alike (l1, u) es1 es2) :
  form_run (l1, u) es1 = form_run (l2, u) es2.
Proof. apply form_run_alike; [done|]. split; [done|apply alike_refl]. Qed.
End Runs.

(** Two passwords typed after a [Tab] from the username: three frames. *)
Definition typing (cs : list Z) (tab : bool) : InputState :=
  mkInput f32_zero f32_zero false false false cs false tab false false.

Definition typed_password (cs : list Z) : list FormEvent :=
  [FrameDrawn Login (typing [0x61; 0x62] true) f64_zero;
   FrameDrawn Login (typing cs false) f64_zero;
   FrameDrawn Login (typing [] false) f64_zero].

Definition flat_libm : Libm :=
  Build_Libm (fun x => x) (fun x => x) (fun x => x) (fun x => x) (fun x => x) (fun x => x) (fun _ => 0).

Lemma password_hidden_witness :
  form_run (HLibm := flat_libm) (new_renderer new_font) (new_login_screen, new_ui)
    (typed_password [0x31; 0x32; 0x33])
  = form_run (HLibm := flat_libm) (new_renderer new_font) (new_login_screen, new_ui)
    (typed_password [0x78; 0x79; 0x7A]).
Proof.
  apply (password_hidden (HLibm := flat_libm)).
  - repeat split.
  - apply alike_frame; [apply masked_refl|done|].
    apply alike_frame.
    + split; [reflexivity|]. repeat constructor.
    + intros H. vm_compute in H. discriminate H.
    + apply alike_frame; [apply masked_refl|done|constructor].
Defined.
