(* ===== verification/Camera.v ===== *)
(** * The camera controller ([client/src/camera_controller.{h,cpp}])

    What the player asks for each frame, and where the camera is put. The
    operations of Filament's math library and GLFW's cursor and keys are
    parameters. *)

From Stdlib Require Import ZArith Lia Floats.SpecFloat.
From stdpp Require Import base list option.
From S2P Require Import Prelude Float32 Snapshot.

Open Scope Z_scope.

(** Filament's math library, as far as the client uses it. *)
Class FilamentMath := {
  fm_clamp : float -> float -> float -> float;
  DEG_TO_RAD : float;
  fm_length : Vec3 -> float;
  fm_normalize : Vec3 -> Vec3;
  fm_cross : Vec3 -> Vec3 -> Vec3;
  (** [axis / speed], [v * s] and the sums of [float3] *)
  fm_scale_down : Vec3 -> float -> Vec3;
  fm_scale : Vec3 -> float -> Vec3;
  fm_add : Vec3 -> Vec3 -> Vec3;
  fm_sub : Vec3 -> Vec3 -> Vec3;
  fm_fromAxisAngle : Vec3 -> float -> Quat;
  fm_quat_mul : Quat -> Quat -> Quat;
}.

Inductive Key := KeyW | KeyS | KeyD | KeyA | KeySpace | KeyLeftShift.

(** GLFW's cursor position and the keys held. *)
Record Devices := mkDevices { cursorX : double; cursorY : double; key_held : Key -> bool }.

Record MovementIntent := mkIntent {
  mi_moveForward : float;
  mi_moveRight : float;
  mi_yaw : float;
  mi_jump : bool;
  mi_sprint : bool;
}.

Definition kMouseSensitivity : float := lit32 12 100.
Definition kMaxPitch : float := f32_of_Z 75.
Definition kMinPitch : float := f32_of_Z (-35).
Definition kCameraDistance : float := f32_of_Z 4.
Definition kCameraHeight : float := lit32 11 10.
Definition kShoulderOffset : float := lit32 75 100.
Definition kLookAtHeight : float := lit32 9 10.

Record CameraController := mkCamera {
  mYaw : float;
  mPitch : float;
  mEnabled : bool;
  mHasLastCursor : bool;
  mLastCursorX : double;
  mLastCursorY : double;
}.

Definition new_camera : CameraController :=
  mkCamera f32_zero f32_zero false false f64_zero f64_zero.

Definition camera_reset (yawDegrees pitchDegrees : float) (c : CameraController)
    : CameraController :=
  mkCamera yawDegrees pitchDegrees (mEnabled c) false (mLastCursorX c) (mLastCursorY c).

(** [setEnabled], less the cursor modes it sets in GLFW. *)
Definition setEnabled (enabled : bool) (c : CameraController) : CameraController :=
  mkCamera (mYaw c) (mPitch c) enabled false (mLastCursorX c) (mLastCursorY c).

Section Camera.
Context `{HLibm : Libm} `{HMath : FilamentMath}.

Definition yawRadians (c : CameraController) : float := (mYaw c * DEG_TO_RAD)%f32.

Definition turn (d : Devices) (c : CameraController) : CameraController :=
  if mHasLastCursor c then
    mkCamera
      (mYaw c + f32_of_f64 (cursorX d - mLastCursorX c)%f64 * kMouseSensitivity)%f32
      (fm_clamp (mPitch c - f32_of_f64 (cursorY d - mLastCursorY c)%f64 * kMouseSensitivity)%f32
         kMinPitch kMaxPitch)
      (mEnabled c) (mHasLastCursor c) (mLastCursorX c) (mLastCursorY c)
  else c.

(** A pair of opposite keys, as [+= 1] and [-= 1] from 0. *)
Definition axis (plus minus : bool) : float :=
  let v := if plus then (f32_zero + f32_one)%f32 else f32_zero in
  if minus then (v - f32_one)%f32 else v.

Definition sample (d : Devices) (c : CameraController) : MovementIntent * CameraController :=
  if negb (mEnabled c) then (mkIntent f32_zero f32_zero (yawRadians c) false false, c)
  else
    let c := turn d c in
    let c := mkCamera (mYaw c) (mPitch c) (mEnabled c) true (cursorX d) (cursorY d) in
    (mkIntent (axis (key_held d KeyW) (key_held d KeyS)) (axis (key_held d KeyD) (key_held d KeyA))
       (yawRadians c) (key_held d KeySpace) (key_held d KeyLeftShift), c).

Definition directionFromAngles (yawDegrees pitchDegrees : float) : Vec3 :=
  let yaw := (yawDegrees * DEG_TO_RAD)%f32 in
  let pitch := (pitchDegrees * DEG_TO_RAD)%f32 in
  fm_normalize (mkVec3 (f32_sin yaw * f32_cos pitch)%f32 (f32_sin pitch)
                  (- f32_cos yaw * f32_cos pitch)%f32).

(** [updateCamera]: the eye and the focus given to [lookAt]. *)
Definition updateCamera (target : Vec3) (c : CameraController) : Vec3 * Vec3 :=
  let forward := directionFromAngles (mYaw c) (mPitch c) in
  let worldUp := mkVec3 f32_zero f32_one f32_zero in
  let right := fm_normalize (fm_cross forward worldUp) in
  let focus := fm_add target (mkVec3 f32_zero kLookAtHeight f32_zero) in
  let eye := fm_add (fm_add (fm_sub focus (fm_scale forward kCameraDistance))
                       (mkVec3 f32_zero kCameraHeight f32_zero))
               (fm_scale right kShoulderOffset) in
  (eye, focus).

Lemma sample_disabled d c :
  mEnabled c = false ->
  sample d c = (mkIntent f32_zero f32_zero (yawRadians c) false false, c).
Proof. intros H. unfold sample. by rewrite H. Qed.

Lemma sample_enabled d c : mEnabled (sample d c).2 = mEnabled c.
Proof. unfold sample, turn. by repeat case_match. Qed.

(** The keys give each axis -1, 0 or 1. *)
Lemma axis_values plus minus :
  axis plus minus = f32_zero \/ axis plus minus = f32_one \/ axis plus minus = (- f32_one)%f32.
Proof. destruct plus, minus; vm_compute; auto. Qed.

End Camera.

(** A library to run examples with. *)
Definition toy_math : FilamentMath :=
  {| fm_clamp := clamp; DEG_TO_RAD := lit32 1745 100000; fm_length _ := f32_zero;
     fm_normalize v := v; fm_cross _ _ := vec3_default; fm_scale_down v _ := v;
     fm_scale v _ := v; fm_add v _ := v; fm_sub v _ := v; fm_fromAxisAngle _ _ := quat_default;
     fm_quat_mul _ q := q |}.
