(* ===== verification/Engine.v ===== *)
(** * The objects of the rendering engine

    The client draws through Filament, which is not part of the repository: an
    engine creates objects, hands out pointers to them and is told to destroy
    them. This file has the calls the client makes, as a trace, and the rules
    of that interface as a ledger over the trace: what is used is alive, nothing
    is created twice, and nothing is destroyed that is dead or that another
    object still uses. The last section is what makes the ledger usable: calls
    on one part of it leave the rest alone. *)

From Stdlib Require Import ZArith Lia Strings.String Floats.SpecFloat.
From stdpp Require Import base list option gmap strings.
From S2P Require Import Prelude Float32 Snapshot.

Open Scope Z_scope.

(** ** Calls *)

(** Filament's 4x4 matrices. *)
Class FilamentMatrix := {
  Mat4 : Type;
  translation : Vec3 -> Mat4;
  mat_of_quat : Quat -> Mat4;
  mat_mul : Mat4 -> Mat4 -> Mat4;
}.

(** What a vertex buffer is filled with ([Vertex] of [mesh.cpp]). *)
Record Vertex := mkVertex { position : Vec3; tangents : Quat; uv : float * float }.

(** The kinds of objects. *)
Inductive Kind := KVertexBuffer | KIndexBuffer | KMaterial | KInstance | KEntity | KIndirectLight.

#[global] Instance kind_eq_dec : EqDecision Kind.
Proof. solve_decision. Defined.

(** A pointer the engine returned, or an entity. *)
Abbreviation Handle := nat.

Inductive Value := Float3 (v : Vec3) | Float1 (x : float).

(** [LightManager::ShadowOptions]; the cascades' splits are computed by Filament
    from their number, the near and far planes and lambda. *)
Record ShadowOptions := mkShadowOptions {
  mapSize : Z;
  shadowCascades : Z;
  practicalSplits : Z * float * float * float;
  stable : bool;
  lispsm : bool;
  shadowFar : float;
  normalBias : float;
  constantBias : float;
  screenSpaceContactShadows : bool;
  stepCount : Z;
  maxShadowDistance : float;
}.

Section Calls.
Context `{FilamentMatrix}.

Inductive Call :=
| CreateVertexBuffer (h : Handle) (vertices : list Vertex)
| CreateIndexBuffer (h : Handle) (wide : bool) (indices : list Z)
| CreateMaterial (h : Handle) (package : string)
| CreateInstance (h material : Handle)
| CreateEntity (h : Handle)
| CreateIndirectLight (h : Handle) (irradiance : list Vec3) (intensity : float)
| BuildRenderable (entity : Handle) (box : Vec3 * Vec3) (material vertexBuffer indexBuffer : Handle)
    (receiveShadows castShadows : bool)
| BuildLight (entity : Handle) (sRGB : Vec3) (intensity : float) (direction : Vec3)
    (castShadows : bool) (options : ShadowOptions)
| SetParameter (instance : Handle) (name : string) (value : Value)
| SetTransform (entity : Handle) (transform : Mat4)
| SetLight (entity : Handle) (direction color : Vec3) (intensity : float)
| SetIntensity (light : Handle) (intensity : float)
| SetIndirectLight (light : option Handle)
| AddEntity (entity : Handle)
| RemoveEntity (entity : Handle)
| DestroyObject (h : Handle)
| DestroyComponents (entity : Handle)
| DestroyEntity (entity : Handle).

(** ** The ledger *)

(** A live object: what it uses, whether the scene shows it, and where it is
    placed. *)
Record Object := mkObject {
  ob_kind : Kind;
  ob_uses : list Handle;
  ob_shown : bool;
  ob_transform : option Mat4;
}.

Abbreviation Ledger := (gmap Handle Object).

Definition is_live (k : Kind) (h : Handle) (L : Ledger) : bool :=
  match L !! h with Some o => bool_decide (ob_kind o = k) | None => false end.

Definition created (k : Kind) (h : Handle) (uses : list (Kind * Handle)) (L : Ledger)
    : option Ledger :=
  if bool_decide (L !! h = None) && forallb (fun '(k, u) => is_live k u L) uses
  then Some (<[h := mkObject k uses.*2 false None]> L)
  else None.

Definition changed (k : Kind) (h : Handle) (uses : list (Kind * Handle)) (f : Object -> Object)
    (L : Ledger) : option Ledger :=
  if is_live k h L && forallb (fun '(k, u) => is_live k u L) uses
  then Some (alter f h L)
  else None.

Definition use (uses : list Handle) (o : Object) : Object :=
  mkObject (ob_kind o) uses (ob_shown o) (ob_transform o).
Definition show (shown : bool) (o : Object) : Object :=
  mkObject (ob_kind o) (ob_uses o) shown (ob_transform o).
Definition place (m : Mat4) (o : Object) : Object :=
  mkObject (ob_kind o) (ob_uses o) (ob_shown o) (Some m).

(** Nothing that is destroyed is shown or used. *)
Definition unused (h : Handle) (L : Ledger) : bool :=
  forallb (fun ho => negb (bool_decide (h ∈ ob_uses ho.2))) (map_to_list L).

Definition destroyed (k : Kind) (h : Handle) (L : Ledger) : option Ledger :=
  match L !! h with
  | Some o =>
      if bool_decide (ob_kind o = k) && bool_decide (ob_uses o = [] \/ k <> KEntity)
         && negb (ob_shown o) && unused h L
      then Some (delete h L) else None
  | None => None
  end.

(** Showing another indirect light, or none, hides the one shown. *)
Definition hide_indirect (o : Object) : Object :=
  if bool_decide (ob_kind o = KIndirectLight) then show false o else o.

Definition ledger_step (c : Call) (L : Ledger) : option Ledger :=
  match c with
  | CreateVertexBuffer h _ => created KVertexBuffer h [] L
  | CreateIndexBuffer h _ _ => created KIndexBuffer h [] L
  | CreateMaterial h _ => created KMaterial h [] L
  | CreateInstance h material => created KInstance h [(KMaterial, material)] L
  | CreateEntity h => created KEntity h [] L
  | CreateIndirectLight h _ _ => created KIndirectLight h [] L
  | BuildRenderable e _ material vertices indices _ _ =>
      changed KEntity e [(KInstance, material); (KVertexBuffer, vertices); (KIndexBuffer, indices)]
        (use [material; vertices; indices]) L
  | BuildLight e _ _ _ _ _ => changed KEntity e [] id L
  | SetParameter i _ _ => changed KInstance i [] id L
  | SetTransform e m => changed KEntity e [] (place m) L
  | SetLight e _ _ _ => changed KEntity e [] id L
  | SetIntensity l _ => changed KIndirectLight l [] id L
  | SetIndirectLight None => Some (hide_indirect <$> L)
  | SetIndirectLight (Some l) => changed KIndirectLight l [] (show true) (hide_indirect <$> L)
  | AddEntity e => changed KEntity e [] (show true) L
  | RemoveEntity e => changed KEntity e [] (show false) L
  | DestroyObject h =>
      match L !! h with Some o => if bool_decide (ob_kind o = KEntity) then None
                                  else destroyed (ob_kind o) h L
                   | None => None end
  | DestroyComponents e => changed KEntity e [] (use []) L
  | DestroyEntity e => destroyed KEntity e L
  end.

Fixpoint ledger (cs : list Call) (L : Ledger) : option Ledger :=
  match cs with
  | [] => Some L
  | c :: cs => match ledger_step c L with Some L' => ledger cs L' | None => None end
  end.
End Calls.

(** ** Calls on a part of the ledger *)

Section Frame.
Context `{FilamentMatrix}.
Implicit Types (L F : gmap Handle Object) (c : Call) (cs : list Call) (k : Kind) (h : Handle).

Lemma ledger_app cs cs' L :
  ledger (cs ++ cs') L = match ledger cs L with Some L' => ledger cs' L' | None => None end.
Proof.
  revert L. induction cs as [|c cs IH]; intros L; [done|]. cbn [ledger app].
  by destruct (ledger_step c L).
Qed.

Lemma ledger_app_Some cs cs' L L' :
  ledger cs L = Some L' -> ledger (cs ++ cs') L = ledger cs' L'.
Proof. intros H'. by rewrite ledger_app, H'. Qed.

(** What a call brings to life or ends. *)
Definition touched (c : Call) : list Handle :=
  match c with
  | CreateVertexBuffer h _ | CreateIndexBuffer h _ _ | CreateMaterial h _ | CreateInstance h _
  | CreateEntity h | CreateIndirectLight h _ _ | DestroyObject h | DestroyEntity h => [h]
  | _ => []
  end.

(** The objects of [F] are none of [hs] and use none of them. *)
Definition apart (hs : list Handle) F : Prop :=
  forall h o, F !! h = Some o -> (h ∉ hs) /\ (forall u, u ∈ ob_uses o -> u ∉ hs).

(** The one call that concerns objects it does not name: of indirect lights, the
    scene shows one. *)
Definition sets_indirect (c : Call) : bool := match c with SetIndirectLight _ => true | _ => false end.
Definition no_indirect F : Prop := forall h o, F !! h = Some o -> ob_kind o <> KIndirectLight.

Lemma apart_weaken hs hs' F : (forall h, h ∈ hs -> h ∈ hs') -> apart hs' F -> apart hs F.
Proof. intros Hs HF h o Ho. destruct (HF h o Ho) as (H1 & H2). split; naive_solver. Qed.

Lemma apart_lookup hs F h : apart hs F -> h ∈ hs -> F !! h = None.
Proof. intros HF Hh. apply eq_None_not_Some. intros [o Ho]. by destruct (HF h o Ho). Qed.

Lemma apart_empty hs : apart hs ∅.
Proof. intros h o Ho. by rewrite lookup_empty in Ho. Qed.

Lemma apart_union hs F F' : apart hs F -> apart hs F' -> apart hs (F ∪ F').
Proof.
  intros HF HF' h o Ho. apply lookup_union_Some_raw in Ho as [Ho|[_ Ho]]; [by apply HF|by apply HF'].
Qed.

Lemma is_live_union k h L F : is_live k h L = true -> is_live k h (L ∪ F) = true.
Proof.
  unfold is_live. destruct (L !! h) eqn:E; [|done]. by rewrite (lookup_union_Some_l _ _ _ _ E).
Qed.

Lemma uses_union (uses : list (Kind * Handle)) L F :
  forallb (fun '(k, u) => is_live k u L) uses = true ->
  forallb (fun '(k, u) => is_live k u (L ∪ F)) uses = true.
Proof.
  rewrite !forallb_forall. intros Hl [k u] Hin. specialize (Hl _ Hin). by apply is_live_union.
Qed.

Lemma unused_spec h L :
  unused h L = true <-> forall h' o, L !! h' = Some o -> h ∉ ob_uses o.
Proof.
  unfold unused. rewrite forallb_forall. split.
  - intros Hu h' o Ho. apply elem_of_map_to_list, list_elem_of_In, Hu in Ho. cbn [snd] in Ho.
    by apply negb_true_iff, bool_decide_eq_false in Ho.
  - intros Hu [h' o] Hin. apply list_elem_of_In, elem_of_map_to_list, Hu in Hin.
    by apply negb_true_iff, bool_decide_eq_false.
Qed.

Lemma created_frame k h uses L L' F :
  created k h uses L = Some L' -> L ##ₘ F -> F !! h = None ->
  created k h uses (L ∪ F) = Some (L' ∪ F) /\ L' ##ₘ F.
Proof.
  unfold created. intros Hc Hd HF. case_match eqn:E; [|done]. injection Hc as <-.
  apply andb_true_iff in E as [E1%bool_decide_eq_true E2].
  rewrite bool_decide_eq_true_2 by (by apply lookup_union_None).
  rewrite uses_union by done. cbn [andb]. split; [by rewrite insert_union_l|].
  by apply map_disjoint_insert_l_2.
Qed.

Lemma changed_frame k h uses f L L' F :
  changed k h uses f L = Some L' -> L ##ₘ F ->
  changed k h uses f (L ∪ F) = Some (L' ∪ F) /\ L' ##ₘ F.
Proof.
  unfold changed. intros Hc Hd. case_match eqn:E; [|done]. injection Hc as <-.
  apply andb_true_iff in E as [E1 E2]. rewrite is_live_union, uses_union by done. cbn [andb].
  unfold is_live in E1. destruct (L !! h) as [o|] eqn:Eo; [|done].
  assert (Ha : alter f h (L ∪ F) = alter f h L ∪ F).
  { apply map_eq. intros i. rewrite lookup_union. destruct (decide (i = h)) as [->|Hi].
    - rewrite !lookup_alter, !decide_True by done. rewrite lookup_union, Eo.
      by destruct (F !! h) eqn:EF; rewrite ?EF.
    - by rewrite !lookup_alter_ne, lookup_union by done. }
  rewrite Ha. split; [done|]. apply map_disjoint_dom. rewrite dom_alter_L. by apply map_disjoint_dom.
Qed.

Lemma destroyed_frame k h L L' F :
  destroyed k h L = Some L' -> L ##ₘ F -> apart [h] F ->
  destroyed k h (L ∪ F) = Some (L' ∪ F) /\ L' ##ₘ F.
Proof.
  unfold destroyed. intros Hc Hd HF. destruct (L !! h) as [o|] eqn:Eo; [|done].
  rewrite (lookup_union_Some_l _ _ _ _ Eo). case_match eqn:E; [|done]. injection Hc as <-.
  rewrite !andb_true_iff in E. destruct E as [[[E1 E2] E3] E4]. rewrite E1, E2, E3. cbn [andb].
  assert (Hu : unused h (L ∪ F) = true).
  { apply unused_spec. intros h' o' Ho'. apply lookup_union_Some_raw in Ho' as [Ho'|[_ Ho']].
    - by eapply unused_spec.
    - intros Hin. destruct (HF h' o' Ho') as (_ & Hns). apply (Hns h Hin). set_solver. }
  rewrite Hu, delete_union, (delete_id F) by (apply (apart_lookup [h]); [done|set_solver]).
  split; [done|]. by apply map_disjoint_delete_l.
Qed.

Lemma hide_none F : no_indirect F -> hide_indirect <$> F = F.
Proof.
  intros HF. apply map_eq. intros h. rewrite lookup_fmap. destruct (F !! h) as [o|] eqn:E; [|done].
  cbn. unfold hide_indirect. rewrite bool_decide_eq_false_2; [done|]. by apply (HF h o E).
Qed.

Lemma step_frame c L L' F :
  ledger_step c L = Some L' -> L ##ₘ F -> apart (touched c) F ->
  (sets_indirect c = true -> no_indirect F) ->
  ledger_step c (L ∪ F) = Some (L' ∪ F) /\ L' ##ₘ F.
Proof.
  intros Hs Hd HF Hi.
  destruct c as [h ?|h ? ?|h ?|h m|h|h ? ?|e ? ? ? ? ? ?|e ? ? ? ? ?|i ? ?|e t|e ? ? ?|l ?|[l|]|e|e|h|e|e];
    cbn [ledger_step] in *;
    try (by apply created_frame; [done|done|apply (apart_lookup [h]); [done|set_solver]]);
    try (by apply changed_frame).
  - rewrite map_fmap_union, (hide_none F (Hi eq_refl)). apply changed_frame; [done|].
    apply map_disjoint_dom. rewrite dom_fmap_L. by apply map_disjoint_dom.
  - injection Hs as <-. rewrite map_fmap_union, (hide_none F (Hi eq_refl)). split; [done|].
    apply map_disjoint_dom. rewrite dom_fmap_L. by apply map_disjoint_dom.
  - destruct (L !! h) as [o|] eqn:E; [|done]. rewrite (lookup_union_Some_l _ _ _ _ E).
    destruct (bool_decide (ob_kind o = KEntity)); [done|]. by apply destroyed_frame.
  - by apply destroyed_frame.
Qed.

Lemma ledger_frame cs L L' F :
  ledger cs L = Some L' -> L ##ₘ F -> apart (mjoin (touched <$> cs)) F ->
  (existsb sets_indirect cs = true -> no_indirect F) ->
  ledger cs (L ∪ F) = Some (L' ∪ F) /\ L' ##ₘ F.
Proof.
  revert L. induction cs as [|c cs IH]; intros L Hs Hd HF Hi; cbn [ledger existsb] in *.
  - by injection Hs as <-.
  - destruct (ledger_step c L) as [L1|] eqn:E; [|done].
    destruct (step_frame c L L1 F) as [-> Hd1]; [done|done| | |].
    + eapply apart_weaken; [|done]. intros h Hh. cbn. by apply elem_of_app; left.
    + intros Hc. apply Hi. by rewrite Hc.
    + apply IH; [done|done| |].
      * eapply apart_weaken; [|done]. intros h Hh. cbn. by apply elem_of_app; right.
      * intros Hcs. apply Hi. rewrite Hcs. apply orb_true_r.
Qed.

(** ** Calls on the object created last *)

Lemma created_spec k h uses L :
  L !! h = None -> forallb (fun '(k, u) => is_live k u L) uses = true ->
  created k h uses L = Some (<[h := mkObject k uses.*2 false None]> L).
Proof. intros Hh Hu. unfold created. by rewrite bool_decide_eq_true_2, Hu. Qed.

Lemma is_live_top k h o L : ob_kind o = k -> is_live k h (<[h := o]> L) = true.
Proof. intros Ho. unfold is_live. rewrite lookup_insert, decide_True by done.
  by apply bool_decide_eq_true. Qed.

Lemma is_live_ne k h h' o L : h <> h' -> is_live k h (<[h' := o]> L) = is_live k h L.
Proof. intros Hne. unfold is_live. by rewrite lookup_insert_ne. Qed.

Lemma changed_top k h uses f o L :
  ob_kind o = k -> forallb (fun '(k, u) => is_live k u (<[h := o]> L)) uses = true ->
  changed k h uses f (<[h := o]> L) = Some (<[h := f o]> L).
Proof.
  intros Ho Hu. unfold changed. rewrite is_live_top, Hu by done. cbn [andb]. f_equal.
  apply map_eq. intros i. destruct (decide (i = h)) as [->|Hi].
  - by rewrite lookup_alter, !lookup_insert, !decide_True by done.
  - by rewrite lookup_alter_ne, !lookup_insert_ne by done.
Qed.

Lemma changed_ne k h h' f o L L' :
  h <> h' -> changed k h [] f L = Some L' -> changed k h [] f (<[h' := o]> L) = Some (<[h' := o]> L').
Proof.
  unfold changed. intros Hne. rewrite is_live_ne by done. cbn [forallb].
  case_match; [|done]. intros [= <-]. by rewrite alter_insert_ne.
Qed.

Lemma destroyed_top k h o L :
  L !! h = None -> ob_kind o = k -> (ob_uses o = [] \/ k <> KEntity) -> ob_shown o = false ->
  h ∉ ob_uses o -> unused h L = true -> destroyed k h (<[h := o]> L) = Some L.
Proof.
  intros Hh Ho Hu Hs Hself HL. unfold destroyed. rewrite lookup_insert, decide_True by done.
  rewrite !bool_decide_eq_true_2, Hs by done. cbn [andb negb].
  assert (Hun : unused h (<[h := o]> L) = true).
  { apply unused_spec. intros h' o' [[<- <-]|[Hne Ho']]%lookup_insert_Some; [done|].
    by eapply unused_spec. }
  rewrite Hun. by rewrite delete_insert_id.
Qed.

Lemma destroy_object_top h o L :
  L !! h = None -> ob_kind o <> KEntity -> ob_shown o = false -> h ∉ ob_uses o ->
  unused h L = true -> ledger [DestroyObject h] (<[h := o]> L) = Some L.
Proof.
  intros. cbn [ledger ledger_step]. rewrite lookup_insert, decide_True by done.
  rewrite bool_decide_eq_false_2 by done. rewrite destroyed_top; try done. by right.
Qed.

(** The three calls that end an entity. *)
Lemma end_entity_top h o L :
  L !! h = None -> ob_kind o = KEntity -> unused h L = true ->
  ledger [RemoveEntity h; DestroyComponents h; DestroyEntity h] (<[h := o]> L) = Some L.
Proof.
  intros Hh Ho HL. cbn [ledger ledger_step]. rewrite changed_top by done.
  rewrite changed_top by done. rewrite destroyed_top; try done; [by left|set_solver].
Qed.
End Frame.
