(* ===== verification/Mesh.v ===== *)
(** * The meshes ([client/src/mesh.{h,cpp}])

    The shapes the client draws, as the vertices and indices handed to the
    engine. The tangent frames are computed by Filament and are a parameter, as
    are its vector functions and the arithmetic with its constant for pi. *)

From Stdlib Require Import ZArith Lia Floats.SpecFloat.
From stdpp Require Import base numbers list option sorting.
From S2P Require Import Prelude Float32 Snapshot Terrain Character Camera Engine.

Open Scope Z_scope.

(** Filament's geometry library, and its constant F_PI, whose type decides in
    which width these products are computed. *)
Class FilamentGeometry := {
  surface_quats : list Vec3 -> list Quat;
  f3_min : Vec3 -> Vec3 -> Vec3;
  f3_max : Vec3 -> Vec3 -> Vec3;
  (** [(F_PI * 0.5f) * x] *)
  half_pi_times : float -> float;
  (** [kForwardOffset + 2.0f * F_PI * segment / segments] *)
  longitude_of : float -> float -> float;
}.

(** What [build] uploads: vertices, indices of 16 or 32 bits, and the corners
    of the bounding box. *)
Record MeshData := mkMeshData {
  md_vertices : list Vertex;
  md_wide : bool;
  md_indices : list Z;
  md_box : Vec3 * Vec3;
}.

(** Four arrays filled together. *)
Record Arrays := mkArrays {
  ar_positions : list Vec3;
  ar_normals : list Vec3;
  ar_uvs : list (float * float);
}.

Definition push (p n : Vec3) (uv : float * float) (a : Arrays) : Arrays :=
  mkArrays (ar_positions a ++ [p]) (ar_normals a ++ [n]) (ar_uvs a ++ [uv]).

Definition no_arrays : Arrays := mkArrays [] [] [].

(** [for (int i = 0; i < n; ++i)]. *)
Definition loop {A} (n : Z) (body : Z -> A -> A) (a : A) : A := foldl (fun a i => body i a) a (seqZ 0 n).

Section Mesh.
Context `{HLibm : Libm} `{HMath : FilamentMath} `{HGeo : FilamentGeometry}.

(** ** Building *)

(** The corners start at [positions[0]]; every caller has a vertex. *)
Definition corners (positions : list Vec3) : Vec3 * Vec3 :=
  let first := hd vec3_default positions in
  foldl (fun '(lo, hi) p => (f3_min lo p, f3_max hi p)) (first, first) positions.

Definition build_vertices (a : Arrays) : list Vertex :=
  zip_with (fun '(p, q) uv => mkVertex p q uv)
    (zip (ar_positions a) (surface_quats (ar_normals a))) (ar_uvs a).

Definition build (a : Arrays) (indices : list Z) : MeshData :=
  mkMeshData (build_vertices a) false indices (corners (ar_positions a)).

Definition buildWide (a : Arrays) (indices : list Z) : MeshData :=
  mkMeshData (build_vertices a) true indices (corners (ar_positions a)).

(** ** The cube *)

Definition faceNormals : list Vec3 :=
  let v x y z := mkVec3 (f32_of_Z x) (f32_of_Z y) (f32_of_Z z) in
  [v 0 0 1; v 0 0 (-1); v 1 0 0; v (-1) 0 0; v 0 1 0; v 0 (-1) 0].

Definition faceCorners (h : float) : list (list Vec3) :=
  let n := (- h)%f32 in
  let v := mkVec3 in
  [[v n n h; v h n h; v h h h; v n h h];
   [v h n n; v n n n; v n h n; v h h n];
   [v h n h; v h n n; v h h n; v h h h];
   [v n n n; v n n h; v n h h; v n h n];
   [v n h h; v h h h; v h h n; v n h n];
   [v n n n; v h n n; v h n h; v n n h]].

Definition cornerUvs : list (float * float) :=
  [(f32_zero, f32_one); (f32_one, f32_one); (f32_one, f32_zero); (f32_zero, f32_zero)].

Definition cube_arrays (h : float) : Arrays :=
  loop 6 (fun face =>
    loop 4 (fun corner =>
      push (nth (Z.to_nat corner) (nth (Z.to_nat face) (faceCorners h) []) vec3_default)
        (nth (Z.to_nat face) faceNormals vec3_default)
        (nth (Z.to_nat corner) cornerUvs (f32_zero, f32_zero)))) no_arrays.

Definition cube_indices : list Z :=
  loop 6 (fun face indices =>
    let base := u16 (face * 4) in
    indices ++ ((fun offset => u16 (base + offset)) <$> [0; 1; 2; 2; 3; 0])) [].

Definition createCube (size : float) : MeshData :=
  build (cube_arrays (size * lit32 1 2)%f32) cube_indices.

(** ** The capsule *)

Definition totalRings (rings : Z) : Z := rings * 2 + 2.

Definition ring_latitude (rings ring : Z) : float :=
  let topHalf := ring <=? rings in
  let ringInHalf := if topHalf then ring else ring - rings - 1 in
  let t := (f32_of_Z ringInHalf / f32_of_Z rings)%f32 in
  if topHalf then half_pi_times (f32_one - t)%f32 else (- half_pi_times t)%f32.

Definition capsule_vertex (radius halfHeight : float) (segments rings ring segment : Z)
    : Arrays -> Arrays :=
  let topHalf := ring <=? rings in
  let latitude := ring_latitude rings ring in
  let ringRadius := (f32_cos latitude * radius)%f32 in
  let ringY := (f32_sin latitude * radius + (if topHalf then halfHeight else (- halfHeight)))%f32 in
  let longitude := longitude_of (f32_of_Z segment) (f32_of_Z segments) in
  let x := f32_cos longitude in
  let z := f32_sin longitude in
  push (mkVec3 (x * ringRadius)%f32 ringY (z * ringRadius)%f32)
    (fm_normalize (mkVec3 (x * f32_cos latitude)%f32 (f32_sin latitude) (z * f32_cos latitude)%f32))
    ((f32_of_Z segment / f32_of_Z segments)%f32,
     (f32_of_Z ring / f32_of_Z (totalRings rings - 1))%f32).

Definition capsule_arrays (radius halfHeight : float) (segments rings : Z) : Arrays :=
  loop (totalRings rings) (fun ring =>
    loop (segments + 1) (capsule_vertex radius halfHeight segments rings ring)) no_arrays.

Definition capsule_cell (columns ring segment : Z) : list Z :=
  let a := u16 (ring * columns + segment) in
  let b := u16 (a + 1) in
  let c := u16 ((ring + 1) * columns + segment) in
  let d := u16 (c + 1) in
  [a; b; c; b; d; c].

Definition capsule_indices (segments rings : Z) : list Z :=
  let columns := segments + 1 in
  loop (totalRings rings - 1) (fun ring =>
    loop segments (fun segment indices => indices ++ capsule_cell columns ring segment)) [].

Definition createCapsule (radius halfHeight : float) (segments rings : Z) : MeshData :=
  build (capsule_arrays radius halfHeight segments rings) (capsule_indices segments rings).

Definition createSphere (radius : float) (segments rings : Z) : MeshData :=
  createCapsule radius f32_zero segments rings.

(** ** The terrain *)

Definition terrain_columns : Z := kMeshResolution + 1.

Definition terrain_step : float := (kWorldSize / f32_of_Z kMeshResolution)%f32.

Definition grid_coordinate (i : Z) : float := (- kHalfWorld + f32_of_Z i * terrain_step)%f32.

Definition terrain_vertex (row column : Z) : Arrays -> Arrays :=
  let x := grid_coordinate column in
  let z := grid_coordinate row in
  let '(nx, ny, nz) := normalAt x z in
  push (mkVec3 x (heightAt x z) z) (mkVec3 nx ny nz) (x, z).

Definition terrain_arrays : Arrays :=
  loop terrain_columns (fun row => loop terrain_columns (terrain_vertex row)) no_arrays.

Definition terrain_cell (row column : Z) : list Z :=
  let topLeft := u32 (row * terrain_columns + column) in
  let topRight := u32 (topLeft + 1) in
  let bottomLeft := u32 (topLeft + terrain_columns) in
  let bottomRight := u32 (bottomLeft + 1) in
  [topLeft; bottomLeft; topRight; topRight; bottomLeft; bottomRight].

Definition terrain_indices : list Z :=
  loop kMeshResolution (fun row =>
    loop kMeshResolution (fun column indices => indices ++ terrain_cell row column)) [].

Definition createTerrain : MeshData := buildWide terrain_arrays terrain_indices.

(** ** The plane *)

Definition createPlane (size : float) : MeshData :=
  let h := (size * lit32 1 2)%f32 in
  let n := (- h)%f32 in
  let o := f32_zero in
  build
    (mkArrays [mkVec3 n o n; mkVec3 n o h; mkVec3 h o h; mkVec3 h o n]
       (replicate 4 (mkVec3 o f32_one o))
       [(o, o); (o, f32_one); (f32_one, f32_one); (f32_one, o)])
    [0; 1; 2; 2; 3; 0].
End Mesh.

(** ** Loops *)

Lemma foldl_append {B} (f : Z -> list B) (ks : list Z) : forall acc : list B,
  foldl (fun acc i => acc ++ f i) acc ks = acc ++ (ks ≫= f).
Proof.
  induction ks as [|i ks IH]; intros acc; cbn; [by rewrite app_nil_r|].
  by rewrite IH, <- app_assoc.
Qed.

Lemma loop_append {B} (f : Z -> list B) n (body : Z -> list B -> list B) acc :
  (forall i acc, body i acc = acc ++ f i) -> loop n body acc = acc ++ (seqZ 0 n ≫= f).
Proof.
  intros Hb. unfold loop. rewrite <- foldl_append.
  generalize (seqZ 0 n) as ks. intros ks. revert acc.
  induction ks as [|i ks IH]; intros acc; cbn; [done|]. by rewrite Hb, IH.
Qed.

(** A piece of a loop that appends to each of the arrays. *)
Definition appends (f : Arrays -> Arrays) (ps ns : list Vec3) (us : list (float * float)) : Prop :=
  forall a, f a = mkArrays (ar_positions a ++ ps) (ar_normals a ++ ns) (ar_uvs a ++ us).

Lemma appends_push p n uv : appends (push p n uv) [p] [n] [uv].
Proof. done. Qed.

Lemma appends_loop n body ps ns us :
  (forall i, appends (body i) (ps i) (ns i) (us i)) ->
  appends (loop n body) (seqZ 0 n ≫= ps) (seqZ 0 n ≫= ns) (seqZ 0 n ≫= us).
Proof.
  intros Hb a. unfold loop. generalize (seqZ 0 n) as ks. intros ks. revert a.
  induction ks as [|i ks IH]; intros a; cbn.
  - destruct a. by rewrite !app_nil_r.
  - rewrite (Hb i a), IH. cbn. by rewrite <- !app_assoc.
Qed.

Lemma length_bind {A B} (f : A -> list B) (c : nat) (l : list A) :
  (forall x, length (f x) = c) -> length (l ≫= f) = (length l * c)%nat.
Proof.
  intros Hc. induction l as [|x l IH]; [done|]. cbn. rewrite length_app, Hc, IH. lia.
Qed.

(** A row of [c], then the next. *)
Lemma lookup_bind_row {A B} (f : A -> list B) (c : nat) (l : list A) (i j : nat) (x : A) :
  (forall x, length (f x) = c) -> (j < c)%nat -> l !! i = Some x ->
  (l ≫= f) !! (i * c + j)%nat = f x !! j.
Proof.
  intros Hc Hj. revert i. induction l as [|y l IH]; intros i Hi; [done|]. cbn.
  destruct i as [|i]; cbn in Hi |- *.
  - injection Hi as ->. apply lookup_app_l. by rewrite Hc.
  - rewrite lookup_app_r; rewrite Hc; [|lia]. rewrite <- (IH i) by done. f_equal. lia.
Qed.

(** ** Surfaces *)

(** The directed edges of a list of triangles. *)
Fixpoint edges (indices : list Z) : list (Z * Z) :=
  match indices with
  | a :: b :: c :: rest => (a, b) :: (b, c) :: (c, a) :: edges rest
  | _ => []
  end.

(** Every index names a vertex and fits its width; the indices make whole
    triangles; and no directed edge belongs to two of them: where two
    triangles meet they are wound the same way, and no triangle is drawn
    twice. *)
Definition surface (m : MeshData) : Prop :=
  let n := Z.of_nat (length (md_vertices m)) in
  Forall (fun i => 0 <= i < n /\ i < (if md_wide m then 2 ^ 32 else 2 ^ 16)) (md_indices m) /\
  (length (md_indices m) mod 3 = 0)%nat /\ NoDup (edges (md_indices m)).

(** A cell of a grid: two triangles, as six steps from its first corner. *)
Definition cell_at (offsets : list Z) (a : Z) : list Z := (Z.add a) <$> offsets.

Lemma edges_app3 (l rest : list Z) (k : nat) :
  length l = (k * 3)%nat -> edges (l ++ rest) = edges l ++ edges rest.
Proof.
  revert l. induction k as [|k IH]; intros l Hl; [by apply nil_length_inv in Hl as ->|].
  destruct l as [|a [|b [|c l]]]; try done. cbn [edges app].
  rewrite IH; [done|]. cbn in Hl. lia.
Qed.

Lemma edges_bind {A} (f : A -> list Z) (k : nat) (l : list A) :
  (forall x, length (f x) = (k * 3)%nat) -> edges (l ≫= f) = l ≫= (fun x => edges (f x)).
Proof.
  intros Hk. induction l as [|x l IH]; [done|]. cbn. by rewrite (edges_app3 _ _ k), IH.
Qed.

(** The steps along the edges of a cell. *)
Definition steps (offsets : list Z) : list Z := (fun e => e.2 - e.1) <$> edges offsets.

Lemma edges_cell offsets a :
  (exists k, length offsets = (k * 3)%nat) ->
  edges (cell_at offsets a) = (fun e => (a + e.1, a + e.2)) <$> edges offsets.
Proof.
  intros [k Hk]. revert offsets Hk. induction k as [|k IH]; intros l Hl;
    [by apply nil_length_inv in Hl as ->|].
  destruct l as [|x [|y [|z l]]]; try done. cbn [cell_at fmap list_fmap edges].
  unfold cell_at in IH. rewrite IH; [done|]. cbn in Hl. lia.
Qed.

(** Cells at different corners share no directed edge if no two edges of a
    cell are the same step. *)
Lemma cells_NoDup offsets (corners : list Z) :
  (exists k, length offsets = (k * 3)%nat) -> NoDup (steps offsets) -> NoDup corners ->
  NoDup (edges (corners ≫= cell_at offsets)).
Proof.
  intros [k Hk] Hs Hc.
  rewrite (edges_bind _ k) by (intros; unfold cell_at; by rewrite length_fmap).
  pose proof (NoDup_fmap_1 _ _ Hs) as He.
  apply NoDup_bind; [| |done].
  - intros a a' [i j] _ _ Ha Ha'. rewrite edges_cell in Ha, Ha' by by eexists.
    apply list_elem_of_fmap in Ha as ([x y] & [= -> ->] & Hxy).
    apply list_elem_of_fmap in Ha' as ([x' y'] & [= H1 H2] & Hxy'). cbn in *.
    apply list_elem_of_lookup in Hxy as [p Hp], Hxy' as [q Hq].
    assert (p = q) as ->.
    { eapply (NoDup_lookup (steps offsets)); [done| |]; unfold steps; rewrite list_lookup_fmap.
      - by rewrite Hp.
      - rewrite Hq. cbn. f_equal. lia. }
    rewrite Hp in Hq. injection Hq as -> ->. lia.
  - intros a _. rewrite edges_cell by by eexists. apply NoDup_fmap_2_strong; [|done].
    intros [x y] [x' y'] _ _ [= H1 H2]. f_equal; lia.
Qed.

(** ** Grids *)

(** The first corners of the cells of [rows] rows, in a grid of [columns]
    vertices a row. *)
Definition grid_corners (rows columns : Z) : list Z :=
  seqZ 0 rows ≫= fun r => (fun s => r * columns + s) <$> seqZ 0 (columns - 1).

Lemma elem_of_grid_corners rows columns a :
  a ∈ grid_corners rows columns <->
  exists r s, a = r * columns + s /\ 0 <= r < rows /\ 0 <= s < columns - 1.
Proof.
  unfold grid_corners. rewrite list_elem_of_bind. split.
  - intros (r & Ha & Hr%elem_of_seqZ). apply list_elem_of_fmap in Ha as (s & -> & Hs%elem_of_seqZ).
    exists r, s. lia.
  - intros (r & s & -> & Hr & Hs). exists r. split; [|apply elem_of_seqZ; lia].
    apply list_elem_of_fmap. exists s. split; [done|]. apply elem_of_seqZ. lia.
Qed.

Lemma grid_corners_NoDup rows columns : NoDup (grid_corners rows columns).
Proof.
  apply NoDup_bind; [| |apply NoDup_seqZ].
  - intros r r' a _ _ Ha Ha'. apply list_elem_of_fmap in Ha as (s & -> & Hs%elem_of_seqZ).
    apply list_elem_of_fmap in Ha' as (s' & Hs' & Hs2%elem_of_seqZ). nia.
  - intros r _. apply NoDup_fmap_2_strong; [|apply NoDup_seqZ]. intros; lia.
Qed.

Lemma bind_ext_in {A B} (f g : A -> list B) (l : list A) :
  (forall x, x ∈ l -> f x = g x) -> l ≫= f = l ≫= g.
Proof.
  induction l as [|x l IH]; intros Hfg; [done|]. cbn.
  rewrite Hfg, IH; [done| |by left]. intros y Hy. apply Hfg. by right.
Qed.

Lemma bind_bind {A B C} (f : A -> list B) (g : B -> list C) (l : list A) :
  (l ≫= f) ≫= g = l ≫= fun x => f x ≫= g.
Proof.
  induction l as [|x l IH]; [done|]. cbn. by rewrite bind_app, IH.
Qed.

Lemma bind_fmap {A B C} (f : A -> B) (g : B -> list C) (l : list A) :
  (f <$> l) ≫= g = l ≫= fun x => g (f x).
Proof. induction l as [|x l IH]; [done|]. cbn. by rewrite IH. Qed.

(** Indices filled cell by cell. *)
Lemma grid_indices rows columns (offsets : list Z) (cell : Z -> Z -> list Z) :
  (forall r s, 0 <= r < rows -> 0 <= s < columns - 1 ->
     cell r s = cell_at offsets (r * columns + s)) ->
  loop rows (fun r => loop (columns - 1) (fun s indices => indices ++ cell r s)) [] =
  grid_corners rows columns ≫= cell_at offsets.
Proof.
  intros Hc.
  rewrite (loop_append (fun r => seqZ 0 (columns - 1) ≫= cell r)) by
    (intros; by apply loop_append).
  cbn [app]. unfold grid_corners. rewrite bind_bind. apply bind_ext_in. intros r Hr%elem_of_seqZ.
  rewrite bind_fmap. apply bind_ext_in. intros s Hs%elem_of_seqZ. apply Hc; lia.
Qed.

Lemma grid_bounds rows columns offsets :
  Forall (fun o => 0 <= o <= columns + 1) offsets ->
  Forall (fun i => 0 <= i < (rows + 1) * columns) (grid_corners rows columns ≫= cell_at offsets).
Proof.
  rewrite !Forall_forall. intros Ho i Hi.
  apply list_elem_of_bind in Hi as (a & Hi & (r & s & -> & Hr & Hs)%elem_of_grid_corners).
  apply list_elem_of_fmap in Hi as (o & -> & Hin%Ho). nia.
Qed.

(** A grid is a surface. *)
Lemma grid_surface m rows columns offsets k :
  md_indices m = grid_corners rows columns ≫= cell_at offsets ->
  length offsets = (k * 3)%nat -> NoDup (steps offsets) ->
  Forall (fun o => 0 <= o <= columns + 1) offsets ->
  Z.of_nat (length (md_vertices m)) = (rows + 1) * columns ->
  (rows + 1) * columns <= (if md_wide m then 2 ^ 32 else 2 ^ 16) -> surface m.
Proof.
  intros Hi Hk Hs Ho Hv Hw. split_and!.
  - rewrite Hi, Hv. eapply Forall_impl; [by apply grid_bounds|]. cbn. lia.
  - rewrite Hi, (length_bind _ (k * 3)) by (intros; unfold cell_at; by rewrite length_fmap).
    by rewrite Nat.mul_assoc, Nat.Div0.mod_mul.
  - rewrite Hi. apply cells_NoDup; [by eexists|done|apply grid_corners_NoDup].
Qed.

(** ** The meshes of the client *)

Section Surfaces.
Context `{HLibm : Libm} `{HMath : FilamentMath} `{HGeo : FilamentGeometry}.

(** [SurfaceOrientation] has a frame for each of the normals it is given. *)
Hypothesis Hquats : forall ns, length (surface_quats ns) = length ns.

Lemma length_build_vertices f ps ns us :
  appends f ps ns us -> length ns = length ps -> length us = length ps ->
  length (build_vertices (f no_arrays)) = length ps.
Proof.
  intros Hf Hn Hu. rewrite Hf. unfold build_vertices. cbn.
  rewrite length_zip_with, length_zip_with, Hquats. lia.
Qed.

Lemma build_vertex f ps ns us i p uv :
  appends f ps ns us -> length ns = length ps -> length us = length ps ->
  ps !! i = Some p -> us !! i = Some uv ->
  exists q, build_vertices (f no_arrays) !! i = Some (mkVertex p q uv).
Proof.
  intros Hf Hn Hu Hp Huv. rewrite Hf. unfold build_vertices. cbn.
  destruct (lookup_lt_is_Some_2 (surface_quats ns) i) as [q Hq].
  { rewrite Hquats, Hn. by eapply lookup_lt_Some. }
  exists q. by rewrite !lookup_zip_with, Hp, Hq, Huv.
Qed.

Lemma length_rows {B} (f : Z -> Z -> list B) rows columns :
  (forall r s, length (f r s) = 1%nat) -> 0 <= rows -> 0 <= columns ->
  Z.of_nat (length (seqZ 0 rows ≫= fun r => seqZ 0 columns ≫= f r)) = rows * columns.
Proof.
  intros Hf Hr Hc. rewrite (length_bind _ (Z.to_nat columns)).
  - rewrite length_seqZ. lia.
  - intros r. rewrite (length_bind _ 1) by done. rewrite length_seqZ. lia.
Qed.

Lemma capsule_appends radius halfHeight segments rings :
  exists p n u, appends (fun a => loop (totalRings rings) (fun ring =>
      loop (segments + 1) (capsule_vertex radius halfHeight segments rings ring)) a)
    (seqZ 0 (totalRings rings) ≫= fun r => seqZ 0 (segments + 1) ≫= fun s => [p r s])
    (seqZ 0 (totalRings rings) ≫= fun r => seqZ 0 (segments + 1) ≫= fun s => [n r s])
    (seqZ 0 (totalRings rings) ≫= fun r => seqZ 0 (segments + 1) ≫= fun s => [u r s]).
Proof.
  eexists _, _, _. apply appends_loop. intros r. apply appends_loop. intros s. apply appends_push.
Qed.

Lemma capsule_surface radius halfHeight segments rings :
  2 <= segments -> 1 <= rings -> (2 * rings + 2) * (segments + 1) <= 65536 ->
  surface (createCapsule radius halfHeight segments rings).
Proof.
  intros Hs Hr Hb. set (C := segments + 1).
  apply (grid_surface _ (totalRings rings - 1) C [0; 1; C; 1; C + 1; C] 2).
  - cbn [createCapsule build md_indices]. unfold capsule_indices. fold C.
    pose proof (grid_indices (totalRings rings - 1) C [0; 1; C; 1; C + 1; C] (capsule_cell C)) as G.
    replace (C - 1) with segments in G by (unfold C; lia). apply G. unfold totalRings. intros r s Hr' Hs'.
    assert (HC : 3 <= C /\ s < C - 1 /\ (2 * rings + 2) * C <= 65536) by (unfold C; lia).
    clearbody C. destruct HC as (HC & Hs2 & Hb2).
    assert (0 <= r * C) by nia. assert ((r + 1) * C <= (2 * rings + 1) * C) by nia.
    unfold capsule_cell, cell_at, u16, wrap. cbn [fmap list_fmap].
    rewrite (Z.mod_small (r * C + s)), (Z.mod_small ((r + 1) * C + s)) by lia.
    rewrite !Z.mod_small by lia. repeat (apply (f_equal2 cons); [lia|]). done.
  - done.
  - unfold steps. cbn. repeat constructor; rewrite ?elem_of_cons, ?elem_of_nil; unfold C in *; lia.
  - repeat constructor; unfold C in *; lia.
  - destruct (capsule_appends radius halfHeight segments rings) as (p & n & u & Ha).
    cbn [createCapsule build md_vertices]. unfold capsule_arrays.
    pose proof (length_rows (fun r s => [p r s]) (totalRings rings) (segments + 1)) as Lp.
    pose proof (length_rows (fun r s => [n r s]) (totalRings rings) (segments + 1)) as Ln.
    pose proof (length_rows (fun r s => [u r s]) (totalRings rings) (segments + 1)) as Lu.
    unfold totalRings in Lp, Ln, Lu at 1.
    rewrite (length_build_vertices _ _ _ _ Ha); unfold totalRings in *;
      [rewrite Lp by (done || lia); unfold C; lia|..];
      apply (inj Z.of_nat); rewrite ?Ln, ?Lu, Lp by (done || lia); done.
  - cbn [createCapsule build md_wide]. unfold totalRings, C. lia.
Qed.

Lemma terrain_appends :
  appends (fun a => loop terrain_columns (fun row => loop terrain_columns (terrain_vertex row)) a)
    (seqZ 0 terrain_columns ≫= fun r => seqZ 0 terrain_columns ≫= fun c =>
       [mkVec3 (grid_coordinate c) (heightAt (grid_coordinate c) (grid_coordinate r))
          (grid_coordinate r)])
    (seqZ 0 terrain_columns ≫= fun r => seqZ 0 terrain_columns ≫= fun c =>
       let '(nx, ny, nz) := normalAt (grid_coordinate c) (grid_coordinate r) in [mkVec3 nx ny nz])
    (seqZ 0 terrain_columns ≫= fun r => seqZ 0 terrain_columns ≫= fun c =>
       [(grid_coordinate c, grid_coordinate r)]).
Proof.
  apply appends_loop. intros r. apply appends_loop. intros c a. unfold terrain_vertex.
  by destruct (normalAt _ _) as [[nx ny] nz].
Qed.

Lemma terrain_rows {B} (f : Z -> Z -> list B) :
  (forall r c, length (f r c) = 1%nat) ->
  Z.of_nat (length (seqZ 0 terrain_columns ≫= fun r => seqZ 0 terrain_columns ≫= f r)) =
  terrain_columns * terrain_columns.
Proof. intros Hf. apply length_rows; done. Qed.

Lemma terrain_lengths :
  let ns := seqZ 0 terrain_columns ≫= fun r => seqZ 0 terrain_columns ≫= fun c =>
    let '(nx, ny, nz) := normalAt (grid_coordinate c) (grid_coordinate r) in [mkVec3 nx ny nz] in
  Z.of_nat (length ns) = terrain_columns * terrain_columns.
Proof. apply terrain_rows. intros r c. by destruct (normalAt _ _) as [[nx ny] nz]. Qed.

Lemma terrain_surface : surface createTerrain.
Proof.
  set (C := terrain_columns).
  apply (grid_surface _ kMeshResolution C [0; C; 1; 1; C; C + 1] 2).
  - cbn [createTerrain buildWide md_indices]. unfold terrain_indices.
    change kMeshResolution with (C - 1) at 2. apply grid_indices.
    change kMeshResolution with 512. change C with 513. intros r s Hr Hs.
    unfold terrain_cell, cell_at. change terrain_columns with 513. unfold u32, wrap.
    cbn [fmap list_fmap]. rewrite (Z.mod_small (r * 513 + s)) by lia.
    rewrite (Z.mod_small (r * 513 + s + 513)) by lia.
    rewrite !Z.mod_small by lia. repeat (apply (f_equal2 cons); [lia|]). done.
  - done.
  - unfold steps. change C with 513. apply (bool_decide_eq_true_1 (NoDup _)). vm_compute. done.
  - change C with 513. repeat constructor; lia.
  - cbn [createTerrain buildWide md_vertices]. unfold terrain_arrays.
    rewrite (length_build_vertices _ _ _ _ terrain_appends).
    + by rewrite terrain_rows.
    + apply (inj Z.of_nat). rewrite terrain_lengths. by rewrite terrain_rows.
    + apply (inj Z.of_nat). by rewrite !terrain_rows.
  - done.
Qed.

Lemma cube_surface size : surface (createCube size).
Proof.
  unfold surface. assert (Hv : length (md_vertices (createCube size)) = 24%nat).
  { cbn [createCube build md_vertices]. unfold build_vertices.
    rewrite !length_zip_with, Hquats. done. }
  rewrite Hv. cbn [createCube build md_indices md_wide]. split_and!.
  - apply Forall_forall. intros i Hi.
    assert (Hall : forallb (fun i => (0 <=? i) && (i <? 24)) cube_indices = true) by done.
    rewrite forallb_forall in Hall. apply list_elem_of_In, Hall in Hi. lia.
  - done.
  - apply (bool_decide_eq_true_1 (NoDup _)). vm_compute. done.
Qed.

Lemma plane_surface size : surface (createPlane size).
Proof.
  unfold surface. assert (Hv : length (md_vertices (createPlane size)) = 4%nat).
  { cbn [createPlane build md_vertices]. unfold build_vertices.
    rewrite !length_zip_with, Hquats. done. }
  rewrite Hv. cbn [createPlane build md_indices md_wide]. split_and!.
  - repeat constructor; lia.
  - done.
  - apply (bool_decide_eq_true_1 (NoDup _)). vm_compute. done.
Qed.

(** The samples of the grid are the even metres of the world. *)
Lemma grid_coordinates i : 0 <= i < terrain_columns -> grid_coordinate i = f32_of_Z (2 * i - 512).
Proof.
  intros Hi.
  assert (Hall : forallb (fun i => bool_decide (grid_coordinate i = f32_of_Z (2 * i - 512)))
    (seqZ 0 terrain_columns) = true) by (vm_compute; done).
  rewrite forallb_forall in Hall. eapply bool_decide_eq_true_1. apply Hall.
  apply list_elem_of_In, elem_of_seqZ. lia.
Qed.

(** C39: the meshes handed to the engine are whole surfaces, whatever their size: every
    index names one of the vertices and fits the width it is uploaded with,
    the indices make triangles, and no directed edge belongs to two of
    them, so that neighbours are wound alike and back-face culling never opens
    a hole. A capsule may have any number of segments and rings that 16 bits
    can index; the terrain needs 32. *)
Theorem meshes_are_surfaces (size radius halfHeight : float) (segments rings : Z)
    (Hsegments : 2 <= segments) (Hrings : 1 <= rings)
    (Hindexed : (2 * rings + 2) * (segments + 1) <= 65536) :
  surface (createCube size) /\ surface (createPlane size) /\ surface createTerrain /\
  surface (createCapsule radius halfHeight segments rings) /\
  surface (createSphere radius segments rings).
Proof.
  split_and!; [apply cube_surface|apply plane_surface|apply terrain_surface|..];
    by apply capsule_surface.
Qed.

(** C40: the ground that is drawn is the ground that is stood on: the vertex of the
    terrain in any row and column of its grid, two metres apart over the whole
    world, is at the height the movement rule of client and server asks for at
    that place. *)
Theorem terrain_is_ground (row column : Z)
    (Hrow : 0 <= row < terrain_columns) (Hcolumn : 0 <= column < terrain_columns) :
  let x := f32_of_Z (2 * column - 512) in
  let z := f32_of_Z (2 * row - 512) in
  exists q, md_vertices createTerrain !! Z.to_nat (row * terrain_columns + column) =
    Some (mkVertex (mkVec3 x (heightAt x z) z) q (x, z)).
Proof.
  cbv zeta. rewrite <- !grid_coordinates by done.
  assert (Hi : forall B (f : Z -> Z -> list B), (forall r c, length (f r c) = 1%nat) ->
    (seqZ 0 terrain_columns ≫= fun r => seqZ 0 terrain_columns ≫= f r)
      !! Z.to_nat (row * terrain_columns + column) = f row column !! 0%nat).
  { intros B f Hf. replace (Z.to_nat (row * terrain_columns + column))
      with (Z.to_nat row * Z.to_nat terrain_columns + Z.to_nat column)%nat by lia.
    rewrite (lookup_bind_row _ _ _ _ _ row).
    - replace (Z.to_nat column) with (Z.to_nat column * 1 + 0)%nat by lia.
      rewrite (lookup_bind_row _ 1 _ _ _ column); [done|by intros|lia|].
      rewrite lookup_seqZ_lt by lia. f_equal. lia.
    - intros r. rewrite (length_bind _ 1) by by intros. rewrite length_seqZ. lia.
    - lia.
    - rewrite lookup_seqZ_lt by lia. f_equal. lia. }
  apply (build_vertex _ _ _ _ _ _ _ terrain_appends).
  - apply (inj Z.of_nat). rewrite terrain_lengths. by rewrite terrain_rows.
  - apply (inj Z.of_nat). by rewrite !terrain_rows.
  - by rewrite Hi.
  - by rewrite Hi.
Qed.

End Surfaces.

#[local] Existing Instances axis_libm toy_math.

(** A geometry library to run the meshes with. *)
Definition toy_geometry : FilamentGeometry :=
  {| surface_quats ns := (fun _ => mkQuat f32_zero f32_zero f32_zero f32_one) <$> ns;
     f3_min a b := mkVec3 (fmin (vx a) (vx b)) (fmin (vy a) (vy b)) (fmin (vz a) (vz b));
     f3_max a b := mkVec3 (fmax (vx a) (vx b)) (fmax (vy a) (vy b)) (fmax (vz a) (vz b));
     half_pi_times x := (lit32 157 100 * x)%f32;
     longitude_of s n := (lit32 157 100 + lit32 628 100 * s / n)%f32 |}.

Lemma toy_quats ns : length (surface_quats (FilamentGeometry := toy_geometry) ns) = length ns.
Proof. apply length_fmap. Qed.

#[local] Existing Instance toy_geometry.

Lemma meshes_are_surfaces_witness :
  surface (createCube f32_one) /\ surface (createPlane f32_one) /\ surface createTerrain /\
  surface (createCapsule (lit32 35 100) (lit32 1 2) 16 6) /\
  surface (createSphere (lit32 35 100) 16 6).
Proof. apply (meshes_are_surfaces toy_quats f32_one (lit32 35 100) (lit32 1 2) 16 6); lia. Defined.

Lemma terrain_is_ground_witness :
  exists q, md_vertices createTerrain !! 5140%nat =
    Some (mkVertex (mkVec3 (f32_of_Z (-492)) (heightAt (f32_of_Z (-492)) (f32_of_Z (-492)))
      (f32_of_Z (-492))) q (f32_of_Z (-492), f32_of_Z (-492))).
Proof. apply (terrain_is_ground toy_quats 10 10); unfold terrain_columns, kMeshResolution; lia. Defined.

(** The default capsule: 416 triangles, of which the 32 at the poles have no
    area. *)
Example capsule_triangles : length (capsule_indices 16 6) = (416 * 3)%nat.
Proof. reflexivity. Qed.
