(* ===== verification/Sky.v ===== *)
(** * The sky ([client/src/sky.{h,cpp}])

    The light of one moment of the day, from the time the server sends: where
    sun and moon stand, which of them lights the scene, and how bright and of
    what colour everything is. *)

From Stdlib Require Import ZArith Lia Floats.SpecFloat.
From stdpp Require Import base list option.
From S2P Require Import Prelude Float32 Snapshot Character Camera.

Open Scope Z_scope.

(** What else the sky takes from Filament's math library. *)
Class FilamentSky := {
  pi_f32 : float;
  mix : Vec3 -> Vec3 -> float -> Vec3;
  fm_neg : Vec3 -> Vec3;
}.

Record SkyState := mkSky {
  sunDirection : Vec3;
  moonDirection : Vec3;
  lightDirection : Vec3;
  lightColor : Vec3;
  lightIntensity : float;
  skyColor : Vec3;
  ambientIntensity : float;
  sunColor : Vec3;
  moonColor : Vec3;
  sunVisible : bool;
  moonVisible : bool;
  fogColor : Vec3;
  fogDensity : float;
}.

Definition kArcAzimuth : float := lit32 6 10.
Definition kSunIntensity : float := f32_of_Z 100000.
Definition kMoonIntensity : float := f32_of_Z 9000.
Definition kDayAmbient : float := f32_of_Z 42000.
Definition kNightAmbient : float := f32_of_Z 15000.
Definition kTwilightAmbientBoost : float := f32_of_Z 14000.

(** A colour in hundredths. *)
Definition colour (r g b : Z) : Vec3 := mkVec3 (lit32 r 100) (lit32 g 100) (lit32 b 100).

Definition kNoonLight : Vec3 := colour 100 96 90.
Definition kHorizonLight : Vec3 := colour 100 52 26.
Definition kMoonLight : Vec3 := colour 55 68 100.
Definition kDaySky : Vec3 := colour 10 22 45.
Definition kNightSky : Vec3 := mkVec3 (lit32 20 1000) (lit32 28 1000) (lit32 55 1000).
Definition kTwilightSky : Vec3 := colour 30 12 7.
Definition kSunDisc : Vec3 := colour 100 95 75.
Definition kMoonDisc : Vec3 := colour 80 85 95.

Section Sky.
Context `{HLibm : Libm} `{HMath : FilamentMath} `{HSky : FilamentSky}.

Definition smoothstep (edge0 edge1 x : float) : float :=
  let t := fm_clamp ((x - edge0) / (edge1 - edge0))%f32 f32_zero f32_one in
  (t * t * (f32_of_Z 3 - f32_of_Z 2 * t))%f32.

Definition sun_direction (timeOfDay : float) : Vec3 :=
  let angle := (f32_of_Z 2 * pi_f32 * (timeOfDay - lit32 1 4))%f32 in
  let elevation := f32_sin angle in
  let horizontal := f32_cos angle in
  fm_normalize (mkVec3 (horizontal * f32_cos kArcAzimuth)%f32 elevation
                  (horizontal * f32_sin kArcAzimuth)%f32).

(** Direction, colour and intensity of the light: the sun's by day, the
    moon's by night. *)
Definition light (sun moon : Vec3) : Vec3 * Vec3 * float :=
  let sunHeight := vy sun in
  let moonHeight := vy moon in
  if (f32_zero <? sunHeight)%f32 then
    (fm_neg sun, mix kHorizonLight kNoonLight (smoothstep f32_zero (lit32 35 100) sunHeight),
     (kSunIntensity * smoothstep (- lit32 2 100) (lit32 25 100) sunHeight)%f32)
  else
    (fm_neg moon, kMoonLight,
     (kMoonIntensity * smoothstep (- lit32 2 100) (lit32 25 100) moonHeight)%f32).

Definition ambient (dayAmount horizonCloseness : float) : float :=
  let a := (kNightAmbient + (kDayAmbient - kNightAmbient) * dayAmount
            + kTwilightAmbientBoost * horizonCloseness)%f32 in
  if (a <? kNightAmbient)%f32 then kNightAmbient else a.

Definition evaluateSky (timeOfDay : float) : SkyState :=
  let sun := sun_direction timeOfDay in
  let moon := fm_neg sun in
  let sunHeight := vy sun in
  let moonHeight := vy moon in
  let dayAmount := smoothstep (- lit32 10 100)%f32 (lit32 28 100) sunHeight in
  let horizonCloseness :=
    f32_exp (- (sunHeight * sunHeight) / (lit32 16 100 * lit32 16 100))%f32 in
  let '(direction, color, intensity) := light sun moon in
  let sky := mix kNightSky kDaySky dayAmount in
  let sky := mix sky kTwilightSky (horizonCloseness * lit32 75 100)%f32 in
  mkSky sun moon direction color intensity sky (ambient dayAmount horizonCloseness)
    kSunDisc kMoonDisc
    (- lit32 12 100 <? sunHeight)%f32 (- lit32 12 100 <? moonHeight)%f32
    (mix (fm_add (fm_scale sky (lit32 115 100)) (colour 3 5 8)) kTwilightSky
       (horizonCloseness * lit32 1 2)%f32)
    (lit32 6 10000 + lit32 4 10000 * (f32_one - dayAmount))%f32.

(** ** One body is always up *)

(** [-v] of a [float3]. *)
Hypothesis Hneg : forall v, fm_neg v = mkVec3 (- vx v)%f32 (- vy v)%f32 (- vz v)%f32.

Lemma one_side_up (x : float) :
  is_nan x = false ->
  (- lit32 12 100 <? x)%f32 || (- lit32 12 100 <? - x)%f32 = true.
Proof.
  intros Hn. destruct x as [[]|[]| |[] m e]; try done. apply orb_true_r.
Qed.
Lemma above_horizon (x : float) :
  (f32_zero <? x)%f32 = true -> (- lit32 12 100 <? x)%f32 = true.
Proof. by destruct x as [[]|[]| |[] m e]. Qed.

(** The ambient light has a floor: nothing the curve computes is below it. *)
Lemma ambient_floor day horizon : (ambient day horizon <? kNightAmbient)%f32 = false.
Proof. unfold ambient. case_match eqn:E; [apply SFltb_irrefl|done]. Qed.

(** At any time of day the sky has something to light it. Sun and moon stand
    opposite each other, so that one of them is always shown, unless the
    time is not a number; the light falls from the sun exactly while the sun is above the
    horizon, and from the moon otherwise; and the ambient light never falls
    below its level at night. *)
Theorem sky_always_lit (timeOfDay : float) :
  let sky := evaluateSky timeOfDay in
  let sun := sunDirection sky in
  (is_nan (vy sun) = false -> sunVisible sky || moonVisible sky = true) /\
  ((f32_zero <? vy sun)%f32 = true -> lightDirection sky = fm_neg sun /\ sunVisible sky = true) /\
  ((f32_zero <? vy sun)%f32 = false -> lightDirection sky = fm_neg (moonDirection sky)) /\
  moonDirection sky = fm_neg sun /\
  (ambientIntensity sky <? kNightAmbient)%f32 = false.
Proof.
  cbv zeta. unfold evaluateSky. destruct (light _ _) as [[direction color] intensity] eqn:El.
  unfold light in El. cbn. split_and!.
  - intros Hn. rewrite Hneg. cbn [vy]. by apply one_side_up.
  - intros Hs. rewrite Hs in El. injection El as <- <- <-. split; [done|]. by apply above_horizon.
  - intros Hs. rewrite Hs in El. by injection El as <- <- <-.
  - done.
  - apply ambient_floor.
Qed.

End Sky.

(** ** A concrete sky *)

Definition toy_sky : FilamentSky :=
  {| pi_f32 := lit32 314 100; mix a b t := if (lit32 1 2 <? t)%f32 then b else a;
     fm_neg v := mkVec3 (- vx v)%f32 (- vy v)%f32 (- vz v)%f32 |}.

#[local] Existing Instances axis_libm toy_math toy_sky.

Lemma sky_always_lit_witness :
  let sky := evaluateSky (lit32 1 2) in
  (is_nan (vy (sunDirection sky)) = false -> sunVisible sky || moonVisible sky = true) /\
  is_nan (vy (sunDirection sky)) = false.
Proof.
  split; [|vm_compute; reflexivity].
  exact (proj1 (sky_always_lit (fun _ => eq_refl) (lit32 1 2))).
Defined.
