(* ===== verification/Scene.v ===== *)
(** * The scene ([client/src/scene.{h,cpp}])

    Everything the client puts on the screen of the world: the terrain, the
    cube, the lights of the sky and the players' bodies, as the calls made of
    the rendering engine. *)

From Stdlib Require Import ZArith Lia Strings.String Floats.SpecFloat.
From stdpp Require Import base list option gmap strings.
From S2P Require Import Prelude Float32 Snapshot Terrain Character Camera Engine Mesh Sky.

Open Scope Z_scope.

Definition kCubeSize : float := f32_one.
Definition kPlayerRadius : float := lit32 35 100.
Definition kPlayerHalfHeight : float := lit32 1 2.
Definition kShadowDistance : float := f32_of_Z 120.
Definition kNearPlaneForShadows : float := lit32 1 2.
Definition kCelestialDistance : float := f32_of_Z 260.
Definition kCelestialRadius : float := f32_of_Z 9.
Definition kMarkerRadius : float := lit32 11 100.
Definition kMarkerForward : float := (- (kPlayerRadius + kMarkerRadius * lit32 6 10))%f32.
Definition kMarkerHeight : float := lit32 22 100.

(** A mesh as the engine holds it. *)
Record Mesh := mkMesh {
  vertexBuffer : Handle;
  indexBuffer : Handle;
  boundingBox : Vec3 * Vec3;
}.

Record PlayerVisual := mkVisual {
  pv_entity : Handle;
  pv_material : Handle;
  pv_marker : Handle;
  pv_markerMaterial : Handle;
}.

(** What [build] creates. *)
Record Things := mkThings {
  mMaterial : Handle;
  mPlaneMaterial : Handle;
  mCubeMaterial : Handle;
  mPlaneMesh : Mesh;
  mCubeMesh : Mesh;
  mCapsuleMesh : Mesh;
  mPlane : Handle;
  mCube : Handle;
  mSun : Handle;
  mIndirectLight : Handle;
  mCharacterBase : Handle;
  mUnlitBase : Handle;
  mDiscMesh : Mesh;
  mMarkerMesh : Mesh;
  mSunMaterial : Handle;
  mMoonMaterial : Handle;
  mSunDisc : Handle;
  mMoonDisc : Handle;
}.

(** [mLoaded] is whether there are things. *)
Record DemoScene := mkScene {
  sc_things : option Things;
  mSunDiscInScene : bool;
  mMoonDiscInScene : bool;
  mPlayers : gmap Z PlayerVisual;
}.

Definition new_scene : DemoScene := mkScene None false false ∅.

Definition mLoaded (s : DemoScene) : bool :=
  match sc_things s with Some _ => true | None => false end.

Section Scene.
Context `{HLibm : Libm} `{HMath : FilamentMath} `{HGeo : FilamentGeometry} `{HMat : FilamentMatrix}.
Local Open Scope sm_scope.

(** ** Talking to the engine *)

(** The calls made, and the name of the next object: its number since the
    scene was last built. *)
Record Engine := mkEngine { en_calls : list Call; en_next : Handle }.

Definition new_engine : Engine := mkEngine [] 0.

Definition emit (c : Call) : SM Engine () :=
  sm_modify (fun e => mkEngine (en_calls e ++ [c]) (en_next e)).

Definition create (c : Handle -> Call) : SM Engine Handle := fun e =>
  (en_next e, mkEngine (en_calls e ++ [c (en_next e)]) (S (en_next e))).

Definition restart : SM Engine () := sm_modify (fun e => mkEngine (en_calls e) 0).

Definition upload (m : MeshData) : SM Engine Mesh :=
  let! vb := create (fun h => CreateVertexBuffer h (md_vertices m)) in
  let! ib := create (fun h => CreateIndexBuffer h (md_wide m) (md_indices m)) in
  sm_ret (mkMesh vb ib (md_box m)).

Definition destroy_mesh (m : Mesh) : SM Engine () :=
  emit (DestroyObject (vertexBuffer m));; emit (DestroyObject (indexBuffer m)).

Definition renderable (m : Mesh) (material : Handle) (receive cast : bool) : SM Engine Handle :=
  let! e := create CreateEntity in
  emit (BuildRenderable e (boundingBox m) material (vertexBuffer m) (indexBuffer m) receive cast);;
  sm_ret e.

Definition lit_instance (base : Handle) (color : Vec3) (roughness : float) : SM Engine Handle :=
  let! m := create (fun h => CreateInstance h base) in
  emit (SetParameter m "baseColor" (Float3 color));;
  emit (SetParameter m "roughness" (Float1 roughness));;
  emit (SetParameter m "metallic" (Float1 f32_zero));;
  sm_ret m.

(** The three calls that end an entity. *)
Definition end_entity (e : Handle) : SM Engine () :=
  emit (RemoveEntity e);; emit (DestroyComponents e);; emit (DestroyEntity e).

(** ** Building *)

Definition shadow_options : ShadowOptions :=
  {| mapSize := 2048; shadowCascades := 4;
     practicalSplits := (4, kNearPlaneForShadows, kShadowDistance, lit32 9 10);
     stable := false; lispsm := true; shadowFar := kShadowDistance; normalBias := f32_one;
     constantBias := lit32 1 1000; screenSpaceContactShadows := true; stepCount := 8;
     maxShadowDistance := lit32 4 10 |}.

(** Everything at its place: [build]. *)
Definition build_things : SM Engine Things :=
  restart;;
  let! material := create (fun h => CreateMaterial h "CLIENTMATERIALS_LIT") in
  let! planeMaterial := lit_instance material (colour 16 20 12) (lit32 95 100) in
  let! cubeMaterial := lit_instance material (colour 80 22 18) (lit32 4 10) in
  let! planeMesh := upload createTerrain in
  let! cubeMesh := upload (createCube kCubeSize) in
  let! capsuleMesh := upload (createCapsule kPlayerRadius kPlayerHalfHeight 16 6) in
  let! plane := renderable planeMesh planeMaterial true true in
  emit (AddEntity plane);;
  let! cube := renderable cubeMesh cubeMaterial true true in
  emit (AddEntity cube);;
  emit (SetTransform cube
          (translation (mkVec3 f32_zero (kCubeSize * lit32 1 2)%f32 f32_zero)));;
  let! sun := create CreateEntity in
  emit (BuildLight sun (colour 100 96 90) (f32_of_Z 90000)
          (mkVec3 (lit32 6 10) (- f32_one)%f32 (- lit32 8 10)%f32) true shadow_options);;
  emit (AddEntity sun);;
  let! indirect := create (fun h => CreateIndirectLight h [colour 10 13 19] (f32_of_Z 30000)) in
  emit (SetIndirectLight (Some indirect));;
  let! characterBase := create (fun h => CreateMaterial h "CLIENTMATERIALS_CHARACTER") in
  let! unlitBase := create (fun h => CreateMaterial h "CLIENTMATERIALS_UNLIT") in
  let! discMesh := upload (createSphere kCelestialRadius 24 12) in
  let! markerMesh := upload (createSphere kMarkerRadius 24 12) in
  let! sunMaterial := create (fun h => CreateInstance h unlitBase) in
  let! moonMaterial := create (fun h => CreateInstance h unlitBase) in
  let! sunDisc := renderable discMesh sunMaterial false false in
  let! moonDisc := renderable discMesh moonMaterial false false in
  sm_ret (mkThings material planeMaterial cubeMaterial planeMesh cubeMesh capsuleMesh plane cube
            sun indirect characterBase unlitBase discMesh markerMesh sunMaterial moonMaterial
            sunDisc moonDisc).

Definition build (s : DemoScene) : SM Engine DemoScene :=
  match sc_things s with
  | Some _ => sm_ret s
  | None =>
      let! t := build_things in
      sm_ret (mkScene (Some t) (mSunDiscInScene s) (mMoonDiscInScene s) (mPlayers s))
  end.

(** ** What the server says *)

Definition body_transform (position : Vec3) (rotation : Quat) : Mat4 :=
  mat_mul (translation position) (mat_of_quat rotation).

Definition marker_transform (body : Mat4) : Mat4 :=
  mat_mul body (translation (mkVec3 f32_zero kMarkerHeight kMarkerForward)).

Definition setEntityTransform (entityId : Z) (position : Vec3) (rotation : Quat) (s : DemoScene)
    : SM Engine () :=
  match sc_things s with
  | None => sm_ret tt
  | Some t =>
      if negb (entityId =? 1) then sm_ret tt
      else emit (SetTransform (mCube t) (body_transform position rotation))
  end.

Definition new_visual (t : Things) (isLocalPlayer : bool) : SM Engine PlayerVisual :=
  let! material := create (fun h => CreateInstance h (mCharacterBase t)) in
  let light := if isLocalPlayer then colour 30 55 85 else colour 85 72 25 in
  emit (SetParameter material "colorA" (Float3 light));;
  emit (SetParameter material "colorB" (Float3 (fm_scale light (lit32 35 100))));;
  let! markerMaterial := create (fun h => CreateInstance h (mUnlitBase t)) in
  emit (SetParameter markerMaterial "baseColor" (Float3 (colour 85 20 95)));;
  let! marker := renderable (mMarkerMesh t) markerMaterial false false in
  emit (AddEntity marker);;
  let! entity := renderable (mCapsuleMesh t) material true true in
  emit (AddEntity entity);;
  sm_ret (mkVisual entity material marker markerMaterial).

Definition setPlayerTransform (entityId : Z) (isLocalPlayer : bool) (position : Vec3)
    (rotation : Quat) (s : DemoScene) : SM Engine DemoScene :=
  match sc_things s with
  | None => sm_ret s
  | Some t =>
      let! visual :=
        match mPlayers s !! entityId with
        | Some visual => sm_ret visual
        | None => new_visual t isLocalPlayer
        end in
      let body := body_transform position rotation in
      emit (SetTransform (pv_entity visual) body);;
      emit (SetTransform (pv_marker visual) (marker_transform body));;
      sm_ret (mkScene (sc_things s) (mSunDiscInScene s) (mMoonDiscInScene s)
                (<[entityId := visual]> (mPlayers s)))
  end.

Definition remove_visual (v : PlayerVisual) : SM Engine () :=
  end_entity (pv_entity v);;
  emit (DestroyObject (pv_material v));;
  end_entity (pv_marker v);;
  emit (DestroyObject (pv_markerMaterial v)).

(** The loop over [mPlayers], in the order of the ids. *)
Fixpoint remove_absent (present : gset Z) (ids : list Z) (players : gmap Z PlayerVisual)
    : SM Engine (gmap Z PlayerVisual) :=
  match ids with
  | [] => sm_ret players
  | id :: ids =>
      match players !! id with
      | Some v =>
          if bool_decide (id ∈ present) then remove_absent present ids players
          else remove_visual v;; remove_absent present ids (delete id players)
      | None => remove_absent present ids players
      end
  end.

Definition removeAbsentPlayers (present : gset Z) (s : DemoScene) : SM Engine DemoScene :=
  let! players := remove_absent present (map_keys (mPlayers s)) (mPlayers s) in
  sm_ret (mkScene (sc_things s) (mSunDiscInScene s) (mMoonDiscInScene s) players).

(** ** The light of the day *)

Definition place_disc (e : Handle) (direction : Vec3) : SM Engine () :=
  emit (SetTransform e (translation (fm_scale direction kCelestialDistance))).

(** Adds or removes a body when its state changes. *)
Definition show_disc (e : Handle) (visible shown : bool) : SM Engine bool :=
  if Bool.eqb visible shown then sm_ret shown
  else emit (if visible then AddEntity e else RemoveEntity e);; sm_ret visible.

Definition applySky (sky : SkyState) (s : DemoScene) : SM Engine DemoScene :=
  match sc_things s with
  | None => sm_ret s
  | Some t =>
      emit (SetLight (mSun t) (lightDirection sky) (lightColor sky) (lightIntensity sky));;
      emit (SetIntensity (mIndirectLight t) (ambientIntensity sky));;
      place_disc (mSunDisc t) (sunDirection sky);;
      place_disc (mMoonDisc t) (moonDirection sky);;
      emit (SetParameter (mSunMaterial t) "baseColor" (Float3 (sunColor sky)));;
      emit (SetParameter (mMoonMaterial t) "baseColor" (Float3 (moonColor sky)));;
      let! sun := show_disc (mSunDisc t) (sunVisible sky) (mSunDiscInScene s) in
      let! moon := show_disc (mMoonDisc t) (moonVisible sky) (mMoonDiscInScene s) in
      sm_ret (mkScene (sc_things s) sun moon (mPlayers s))
  end.

(** ** Teardown *)

Definition destroy (s : DemoScene) : SM Engine DemoScene :=
  match sc_things s with
  | None => sm_ret s
  | Some t =>
      end_entity (mPlane t);; end_entity (mCube t);; end_entity (mSun t);;
      end_entity (mSunDisc t);; end_entity (mMoonDisc t);;
      emit (SetIndirectLight None);;
      emit (DestroyObject (mIndirectLight t));;
      let! s := removeAbsentPlayers ∅ s in
      destroy_mesh (mPlaneMesh t);; destroy_mesh (mCubeMesh t);; destroy_mesh (mCapsuleMesh t);;
      destroy_mesh (mMarkerMesh t);; destroy_mesh (mDiscMesh t);;
      emit (DestroyObject (mPlaneMaterial t));; emit (DestroyObject (mCubeMaterial t));;
      emit (DestroyObject (mSunMaterial t));; emit (DestroyObject (mMoonMaterial t));;
      emit (DestroyObject (mMaterial t));; emit (DestroyObject (mUnlitBase t));;
      emit (DestroyObject (mCharacterBase t));;
      sm_ret (mkScene None false false (mPlayers s))
  end.

(** ** Histories *)

Inductive SceneOp :=
| Build
| Destroy
| SetEntity (id : Z) (position : Vec3) (rotation : Quat)
| SetPlayer (id : Z) (isLocalPlayer : bool) (position : Vec3) (rotation : Quat)
| RemoveAbsent (present : gset Z)
| ApplySky (sky : SkyState).

Definition scene_op (o : SceneOp) (s : DemoScene) : SM Engine DemoScene :=
  match o with
  | Build => build s
  | Destroy => destroy s
  | SetEntity id p q => setEntityTransform id p q s;; sm_ret s
  | SetPlayer id local p q => setPlayerTransform id local p q s
  | RemoveAbsent present => removeAbsentPlayers present s
  | ApplySky sky => applySky sky s
  end.

Fixpoint scene_ops (os : list SceneOp) (s : DemoScene) : SM Engine DemoScene :=
  match os with
  | [] => sm_ret s
  | o :: os => let! s := scene_op o s in scene_ops os s
  end.
End Scene.
