(* ===== verification/Lifecycle.v ===== *)
(** * The life of the client's program
    ([client/src/main.cpp], [application.cpp], [ui/ui_renderer.cpp], [native_window.cpp])

    The window, the engine and the objects the application and the
    interface's renderer create of it: made by [Application::init] and
    [UiRenderer::init], the swap chain remade by every [resize], used by every frame
    of [run], destroyed by [~Application]. The pointers are a map from the
    members of the source to what they point to, a null pointer being absent; the
    calls are a trace, and the rules of GLFW and of Filament are a ledger
    over it, as for the world's scene in [Engine]. What GLFW, the engine and the
    clock answer is given: which steps of the start succeed, and the turns of
    the loop. *)

From Stdlib Require Import ZArith Lia Strings.String Floats.SpecFloat.
From stdpp Require Import base list option gmap strings.
From S2P Require Import Prelude Float32 Snapshot Camera Sky.

Open Scope Z_scope.

(** ** Calls *)

Inductive Kind :=
| KSwapChain | KRenderer | KScene | KView | KEntity | KCamera
| KMaterial | KInstance | KTexture | KVertexBuffer | KIndexBuffer.

#[global] Instance kind_eq_dec : EqDecision Kind.
Proof. solve_decision. Defined.

Abbreviation Handle := nat.

(** [View::FogOptions]. *)
Record FogOptions := mkFog {
  fog_color : Vec3;
  fog_density : float;
  fog_distance : float;
  fog_inScatteringSize : float;
  fog_height : float;
  fog_heightFalloff : float;
  fog_maximumOpacity : float;
}.

(** What methods are given besides objects. *)
Inductive Setting :=
| Plain
| Viewport (width height : Z)
| Perspective (fov aspect near far : double)
| Ortho (left right bottom top near far : double)
| Clear (color : Vec3)
| Fog (fog : FogOptions).

Inductive Call :=
| GlfwInit | GlfwTerminate | WindowCreate | WindowDestroy
| EngineCreate | EngineDestroy | FlushAndWait
| Create (k : Kind) (h : Handle) (uses : list Handle)
| Method (h : Handle) (name : string) (args : list Handle) (setting : Setting)
(** binding what a renderable is drawn with, and releasing it *)
| Bind (h : Handle) (uses : list Handle)
| Destroy (h : Handle)
(** a method called on a null pointer *)
| NullCall
(** [update] was given this time *)
| Updated (elapsed : double).

(** ** The ledger *)

Record Object := mkObject { ob_kind : Kind; ob_uses : list Handle }.

Record Ledger := mkLedger {
  lg_glfw : bool;
  lg_window : bool;
  lg_engine : bool;
  lg_live : gmap Handle Object;
}.

Definition no_ledger : Ledger := mkLedger false false false ∅.

Definition alive (h : Handle) (L : Ledger) : bool :=
  lg_engine L && bool_decide (is_Some (lg_live L !! h)).

Definition with_live (live : gmap Handle Object) (L : Ledger) : Ledger :=
  mkLedger (lg_glfw L) (lg_window L) (lg_engine L) live.

Definition unused (h : Handle) (live : gmap Handle Object) : bool :=
  forallb (fun ho => negb (bool_decide (h ∈ ob_uses ho.2))) (map_to_list live).

(** What the interfaces ask: windows between [glfwInit] and [glfwTerminate], the
    engine after its window and gone before it, with no object left; an object is
    used while it lives, and destroyed once and when nothing uses it. *)
Definition ledger_step (c : Call) (L : Ledger) : option Ledger :=
  match c with
  | GlfwInit => Some (mkLedger true (lg_window L) (lg_engine L) (lg_live L))
  | GlfwTerminate =>
      if lg_window L then None else Some (mkLedger false false (lg_engine L) (lg_live L))
  | WindowCreate =>
      if lg_glfw L && negb (lg_window L) then Some (mkLedger true true (lg_engine L) (lg_live L))
      else None
  | WindowDestroy =>
      if lg_window L && negb (lg_engine L) then Some (mkLedger (lg_glfw L) false false (lg_live L))
      else None
  | EngineCreate =>
      if lg_window L && negb (lg_engine L) then Some (mkLedger (lg_glfw L) true true (lg_live L))
      else None
  | EngineDestroy =>
      if lg_engine L && bool_decide (lg_live L = ∅)
      then Some (mkLedger (lg_glfw L) (lg_window L) false ∅) else None
  | FlushAndWait => if lg_engine L then Some L else None
  | Create k h uses =>
      if lg_engine L && bool_decide (lg_live L !! h = None) && forallb (fun u => alive u L) uses
      then Some (with_live (<[h := mkObject k uses]> (lg_live L)) L) else None
  | Method h _ args _ =>
      if alive h L && forallb (fun u => alive u L) args then Some L else None
  | Bind h uses =>
      if alive h L && forallb (fun u => alive u L) uses
      then Some (with_live (alter (fun o => mkObject (ob_kind o) uses) h (lg_live L)) L) else None
  | Destroy h =>
      if alive h L && unused h (lg_live L)
      then Some (with_live (delete h (lg_live L)) L) else None
  | NullCall => None
  | Updated _ => Some L
  end.

Fixpoint ledger (cs : list Call) (L : Ledger) : option Ledger :=
  match cs with
  | [] => Some L
  | c :: cs => match ledger_step c L with Some L' => ledger cs L' | None => None end
  end.

(** ** The program *)

(** The members that are pointers or entities: those of the application, and those
    of its [mUi]. *)
Inductive Member :=
| mSwapChain | mRenderer | mScene | mView | mCameraEntity | mCamera
| mUi_mMaterial | mUi_mMaterialInstance | mUi_mAtlas | mUi_mVertexBuffer | mUi_mIndexBuffer
| mUi_mScene | mUi_mView | mUi_mCameraEntity | mUi_mCamera | mUi_mRenderable.

#[global] Instance member_eq_dec : EqDecision Member.
Proof. solve_decision. Defined.

(** A null pointer is [None]. *)
Definition Pointers : Type := Member -> option Handle.

Definition no_pointers : Pointers := fun _ => None.
Definition point (m : Member) (h : Handle) (ps : Pointers) : Pointers :=
  fun m' => if decide (m' = m) then Some h else ps m'.

Record Program := mkProgram {
  pg_window : bool;
  pg_engine : bool;
  pg_members : Pointers;
  pg_width : Z;
  pg_height : Z;
  (** [mDemoScene.loaded()] *)
  pg_loaded : bool;
  pg_next : Handle;
  pg_trace : list Call;
}.

Definition new_program : Program := mkProgram false false no_pointers 0 0 false 0 [].

(** What the start meets. *)
Record Start := mkStart {
  st_glfw : bool;
  st_window : bool;
  st_size : Z * Z;
  st_engine : bool;
  (** [glfwGetPlatform() == GLFW_PLATFORM_WAYLAND] *)
  st_wayland : bool;
  st_net : bool;
  st_font : bool;
}.

(** A turn of the loop: the sizes the window was given while its events were
    polled; the time; in [update], whether the world was entered or left, the time
    of its day and whether the prediction is active; in [drawUi], whether the
    player logged out, whether there is anything to draw and whether the range to
    draw changed; and whether the renderer is ready for a frame. *)
Record Turn := mkTurn {
  tn_resizes : list (Z * Z);
  tn_now : double;
  tn_world : option bool;
  tn_timeOfDay : float;
  tn_predicting : bool;
  tn_logout : bool;
  tn_quads : bool;
  tn_changed : bool;
  tn_begin : bool;
}.

Section Program.
Context `{HLibm : Libm} `{HMath : FilamentMath} `{HSky : FilamentSky}.
Local Open Scope sm_scope.

Abbreviation M := (SM Program).

Definition trace (c : Call) : M () := sm_modify (fun p =>
  mkProgram (pg_window p) (pg_engine p) (pg_members p) (pg_width p) (pg_height p) (pg_loaded p) (pg_next p)
    (pg_trace p ++ [c])).

Definition member (m : Member) : M (option Handle) := sm_gets (fun p => pg_members p m).

Definition set_size (width height : Z) : M () := sm_modify (fun p =>
  mkProgram (pg_window p) (pg_engine p) (pg_members p) width height (pg_loaded p) (pg_next p) (pg_trace p)).
Definition set_window (b : bool) : M () := sm_modify (fun p =>
  mkProgram b (pg_engine p) (pg_members p) (pg_width p) (pg_height p) (pg_loaded p) (pg_next p) (pg_trace p)).
Definition set_engine (b : bool) : M () := sm_modify (fun p =>
  mkProgram (pg_window p) b (pg_members p) (pg_width p) (pg_height p) (pg_loaded p) (pg_next p) (pg_trace p)).

Definition set_loaded (b : bool) : M () := sm_modify (fun p =>
  mkProgram (pg_window p) (pg_engine p) (pg_members p) (pg_width p) (pg_height p) b (pg_next p)
    (pg_trace p)).

(** The objects members point to. *)
Definition pointees (ms : list Member) : M (list Handle) := sm_gets (fun p =>
  omap (fun m => pg_members p m) ms).

(** [m = mEngine->create...], of the objects of [uses]. *)
Definition create (m : Member) (k : Kind) (uses : list Member) : M () :=
  let! handles := pointees uses in
  let! h := sm_gets pg_next in
  trace (Create k h handles);;
  sm_modify (fun p => mkProgram (pg_window p) (pg_engine p) (point m h (pg_members p))
    (pg_width p) (pg_height p) (pg_loaded p) (S (pg_next p)) (pg_trace p)).

(** [m->name(args, setting)]. *)
Definition method (m : Member) (name : string) (args : list Member) (setting : Setting) : M () :=
  let! this := member m in
  match this with
  | None => trace NullCall
  | Some h => let! handles := pointees args in trace (Method h name handles setting)
  end.

(** [mEngine->destroy(m)] and the like, which take a null pointer or a null
    entity for nothing. *)
Definition destroy (m : Member) : M () :=
  let! this := member m in
  match this with None => sm_ret tt | Some h => trace (Destroy h) end.

Definition bind_renderable (m : Member) (uses : list Member) : M () :=
  let! this := member m in
  match this with
  | None => sm_ret tt
  | Some h => let! handles := pointees uses in trace (Bind h handles)
  end.

(** *** The interface's renderer *)

(** [UiRenderer::init]; the members of the renderer have their owner's name
    before them. *)
Definition ui_init (font : bool) : M bool :=
  create mUi_mMaterial KMaterial [];;
  create mUi_mMaterialInstance KInstance [mUi_mMaterial];;
  if negb font then sm_ret false
  else
    create mUi_mAtlas KTexture [];;
    method mUi_mAtlas "setImage" [] Plain;;
    method mUi_mMaterialInstance "setParameter" [mUi_mAtlas] Plain;;
    create mUi_mVertexBuffer KVertexBuffer [];;
    create mUi_mIndexBuffer KIndexBuffer [];;
    create mUi_mScene KScene [];;
    create mUi_mView KView [];;
    method mUi_mView "setScene" [mUi_mScene] Plain;;
    method mUi_mView "setBlendMode" [] Plain;;
    method mUi_mView "setPostProcessingEnabled" [] Plain;;
    method mUi_mView "setShadowingEnabled" [] Plain;;
    create mUi_mCameraEntity KEntity [];;
    create mUi_mCamera KCamera [mUi_mCameraEntity];;
    method mUi_mView "setCamera" [mUi_mCamera] Plain;;
    create mUi_mRenderable KEntity [];;
    bind_renderable mUi_mRenderable
      [mUi_mMaterialInstance; mUi_mVertexBuffer; mUi_mIndexBuffer];;
    method mUi_mScene "addEntity" [mUi_mRenderable] Plain;;
    sm_ret true.

(** [UiRenderer::setViewport]. *)
Definition ui_setViewport (width height : Z) : M () :=
  if (width <=? 0) || (height <=? 0) then sm_ret tt
  else
    method mUi_mView "setViewport" [] (Viewport width height);;
    method mUi_mCamera "setProjection" []
      (Ortho f64_zero (f64_of_Z width) (f64_of_Z height) f64_zero f64_zero (f64_of_Z 1)).

(** [UiRenderer::end], as the objects it uploads to and draws from: [quads] when
    the frame has any, [changed] when the range to draw is not the last one. *)
Definition ui_end (quads changed : bool) : M () :=
  (if quads then
     method mUi_mVertexBuffer "setBufferAt" [] Plain;;
     method mUi_mIndexBuffer "setBuffer" [] Plain
   else sm_ret tt);;
  if changed then
    method mUi_mRenderable "setGeometryAt" [mUi_mVertexBuffer; mUi_mIndexBuffer] Plain
  else sm_ret tt.

(** [UiRenderer::destroy]; [engine->destroy] of an entity releases what it is
    drawn with. *)
Definition ui_destroy : M () :=
  method mUi_mScene "remove" [mUi_mRenderable] Plain;;
  bind_renderable mUi_mRenderable [];;
  destroy mUi_mRenderable;;
  destroy mUi_mCamera;;
  destroy mUi_mCameraEntity;;
  destroy mUi_mView;;
  destroy mUi_mScene;;
  destroy mUi_mVertexBuffer;;
  destroy mUi_mIndexBuffer;;
  destroy mUi_mAtlas;;
  destroy mUi_mMaterialInstance;;
  destroy mUi_mMaterial.

(** *** The application *)

Definition kNearPlane : double := lit64 1 10.
Definition kFarPlane : double := f64_of_Z 1000.
Definition kVerticalFovDegrees : double := f64_of_Z 60.

(** [Application::resize] on Linux. The swap chain is made anew of the window. *)
Definition resize (width height : Z) : M () :=
  if (width <=? 0) || (height <=? 0) then sm_ret tt
  else
    set_size width height;;
    method mView "setViewport" [] (Viewport width height);;
    ui_setViewport width height;;
    method mCamera "setProjection" []
      (Perspective kVerticalFovDegrees (f64_of_Z width / f64_of_Z height)%f64 kNearPlane kFarPlane);;
    trace FlushAndWait;;
    destroy mSwapChain;;
    create mSwapChain KSwapChain [].

(** [getNativeWindow] on Linux: only Wayland windows have a handle. *)
Definition getNativeWindow (wayland : bool) : M bool := sm_ret wayland.

Definition startColor : Vec3 := mkVec3 (lit32 5 100) (lit32 6 100) (lit32 9 100).

(** The part of [Application::init] that makes everything. *)
Definition create_all (s : Start) : M bool :=
  trace GlfwInit;;
  if negb (st_glfw s) then sm_ret false
  else if negb (st_window s) then trace GlfwTerminate;; sm_ret false
  else
    trace WindowCreate;;
    set_window true;;
    set_size (st_size s).1 (st_size s).2;;
    if negb (st_engine s) then sm_ret false
    else
      trace EngineCreate;;
      set_engine true;;
      let! native := getNativeWindow (st_wayland s) in
      if negb native then sm_ret false
      else
        create mSwapChain KSwapChain [];;
        create mRenderer KRenderer [];;
        create mScene KScene [];;
        create mView KView [];;
        create mCameraEntity KEntity [];;
        create mCamera KCamera [mCameraEntity];;
        method mView "setScene" [mScene] Plain;;
        method mView "setCamera" [mCamera] Plain;;
        method mView "setShadowType" [] Plain;;
        if negb (st_net s) then sm_ret false
        else
          let! ui := ui_init (st_font s) in
          if negb ui then sm_ret false
          else
            method mRenderer "setClearOptions" [] (Clear startColor);;
            sm_ret true.

(** [Application::init] up to the change of state that ends it. *)
Definition app_init (s : Start) : M bool :=
  let! ok := create_all s in
  if negb ok then sm_ret false
  else
    let! width := sm_gets pg_width in
    let! height := sm_gets pg_height in
    resize width height;;
    sm_ret true.

(** The fog of a sky. *)
Definition fog_of (sky : SkyState) : FogOptions :=
  mkFog (fogColor sky) (fogDensity sky) (f32_of_Z 25) (f32_of_Z (-1)) f32_zero f32_zero
    (lit32 70 100).

(** [DemoScene::build] and [DemoScene::destroy], which put what they show on
    [mScene] and take it off. *)
Definition world_build : M () :=
  let! loaded := sm_gets pg_loaded in
  if loaded : bool then sm_ret tt
  else method mScene "addEntity" [] Plain;; set_loaded true.

Definition world_destroy : M () :=
  let! loaded := sm_gets pg_loaded in
  if negb loaded then sm_ret tt
  else method mScene "remove" [] Plain;; set_loaded false.

(** The calls of [update] on the engine: entering or leaving the world, the sky,
    the world's scene and the camera that follows the player. *)
Definition update_view (world : option bool) (predicting : bool) (timeOfDay : float) : M () :=
  match world with
  | None => sm_ret tt
  | Some true => world_build
  | Some false => world_destroy
  end;;
  let! loaded := sm_gets pg_loaded in
  if negb loaded then sm_ret tt
  else
    let sky := evaluateSky timeOfDay in
    method mScene "applySky" [] Plain;;
    method mView "setFogOptions" [] (Fog (fog_of sky));;
    method mRenderer "setClearOptions" [] (Clear (skyColor sky));;
    method mScene "applyReplication" [] Plain;;
    if predicting then method mCamera "lookAt" [] Plain else sm_ret tt.

(** [Application::drawUi], as far as the engine sees it. *)
Definition draw_ui (logout quads changed : bool) : M () :=
  (if logout then world_destroy else sm_ret tt);;
  ui_end quads changed.

(** Drawing a frame. *)
Definition render (ready : bool) : M () :=
  method mRenderer "beginFrame" [mSwapChain] Plain;;
  if negb ready then sm_ret tt
  else
    method mRenderer "render" [mView] Plain;;
    method mRenderer "render" [mUi_mView] Plain;;
    method mRenderer "endFrame" [] Plain.

Fixpoint resizes (sizes : list (Z * Z)) : M () :=
  match sizes with
  | [] => sm_ret tt
  | (width, height) :: sizes => resize width height;; resizes sizes
  end.

(** The refresh rate of the primary monitor, 60 when it is not known. *)
Definition frame_interval (refresh : option Z) : double :=
  let rate := match refresh with Some r => if 0 <? r then f64_of_Z r else f64_of_Z 60
                            | None => f64_of_Z 60 end in
  (f64_of_Z 1 / rate)%f64.

(** The loop of [Application::run] over the turns until the window closes. *)
Fixpoint run (interval previous : double) (turns : list Turn) : M () :=
  match turns with
  | [] => sm_ret tt
  | t :: turns =>
      resizes (tn_resizes t);;
      let elapsed := (tn_now t - previous)%f64 in
      if (elapsed <? interval)%f64 then run interval previous turns
      else
        trace (Updated elapsed);;
        update_view (tn_world t) (tn_predicting t) (tn_timeOfDay t);;
        draw_ui (tn_logout t) (tn_quads t) (tn_changed t);;
        render (tn_begin t);;
        run interval (tn_now t) turns
  end.

(** [~Application]. *)
Definition app_destroy : M () :=
  let! engine := sm_gets pg_engine in
  (if negb engine then sm_ret tt
   else
     trace FlushAndWait;;
     ui_destroy;;
     world_destroy;;
     destroy mView;;
     destroy mScene;;
     destroy mRenderer;;
     destroy mCamera;;
     destroy mCameraEntity;;
     destroy mSwapChain;;
     trace EngineDestroy;;
     set_engine false);;
  let! window := sm_gets pg_window in
  (if window : bool then trace WindowDestroy else sm_ret tt);;
  trace GlfwTerminate.

(** [main]: the exit code; the trace is in the program. *)
Definition main (s : Start) (refresh : option Z) (start : double) (turns : list Turn) : M Z :=
  let! ok := app_init s in
  (if ok : bool then run (frame_interval refresh) start turns else sm_ret tt);;
  app_destroy;;
  sm_ret (if ok : bool then 0 else 1).

End Program.

(** ** The rules are kept *)

Section Steady.
Context `{HLibm : Libm} `{HMath : FilamentMath} `{HSky : FilamentSky}.
Local Open Scope sm_scope.

(** What the members of a started program point to, its swap chain being [sc],
    and the objects but for that. *)
Definition pointee (sc : Handle) (m : Member) : Handle :=
  (match m with
   | mSwapChain => sc | mRenderer => 1 | mScene => 2 | mView => 3 | mCameraEntity => 4
   | mCamera => 5 | mUi_mMaterial => 6 | mUi_mMaterialInstance => 7 | mUi_mAtlas => 8
   | mUi_mVertexBuffer => 9 | mUi_mIndexBuffer => 10 | mUi_mScene => 11 | mUi_mView => 12
   | mUi_mCameraEntity => 13 | mUi_mCamera => 14 | mUi_mRenderable => 15
   end)%nat.

Lemma pointee_ne sc sc' m : m <> mSwapChain -> pointee sc m = pointee sc' m.
Proof. by destruct m. Qed.

Definition base_live : gmap Handle Object :=
  list_to_map [(1, mkObject KRenderer []); (2, mkObject KScene []); (3, mkObject KView []);
    (4, mkObject KEntity []); (5, mkObject KCamera [4]); (6, mkObject KMaterial []);
    (7, mkObject KInstance [6]); (8, mkObject KTexture []); (9, mkObject KVertexBuffer []);
    (10, mkObject KIndexBuffer []); (11, mkObject KScene []); (12, mkObject KView []);
    (13, mkObject KEntity []); (14, mkObject KCamera [13]); (15, mkObject KEntity [7; 9; 10])]%nat.

Definition swap_chain : Object := mkObject KSwapChain [].

Definition started (live : gmap Handle Object) : Ledger := mkLedger true true true live.

(** A started program between two operations. *)
Record steady (interval : double) (p : Program) : Prop := {
  sd_window : pg_window p = true;
  sd_engine : pg_engine p = true;
  sd_chain : exists sc, (sc = 0 \/ 16 <= sc)%nat /\ (sc < pg_next p)%nat /\ (16 <= pg_next p)%nat /\
    (forall m, pg_members p m = Some (pointee sc m)) /\
    ledger (pg_trace p) no_ledger = Some (started (<[sc := swap_chain]> base_live));
  sd_paced : Forall (fun c => match c with Updated e => (e <? interval)%f64 = false | _ => True end)
    (pg_trace p);
}.

Definition keeps (interval : double) {A} (m : SM Program A) : Prop :=
  forall p, steady interval p -> steady interval (m p).2.

Lemma steady_ret interval {A} (a : A) : keeps interval (sm_ret a).
Proof. by intros p. Qed.

Lemma steady_bind interval {A B} (m : SM Program A) (k : A -> SM Program B) :
  keeps interval m -> (forall a, keeps interval (k a)) -> keeps interval (sm_bind m k).
Proof.
  intros Hm Hk p Hp. unfold sm_bind. specialize (Hm p Hp). destruct (m p) as [a p1].
  by apply Hk.
Qed.

Lemma calls_app cs cs' L L' : ledger cs L = Some L' -> ledger (cs ++ cs') L = ledger cs' L'.
Proof.
  revert L. induction cs as [|c cs IH]; intros L; cbn [ledger app]; [by intros [= ->]|].
  destruct (ledger_step c L); [apply IH|done].
Qed.

Lemma base_above h : (h = 0 \/ 16 <= h)%nat -> base_live !! h = None.
Proof.
  intros Hh. unfold base_live. apply not_elem_of_list_to_map_1. cbn [fmap list_fmap fst].
  rewrite !elem_of_cons. rewrite elem_of_nil. lia.
Qed.

(** The members that can be used. *)
Definition names : list Member :=
  [mSwapChain; mRenderer; mScene; mView; mCamera; mUi_mVertexBuffer; mUi_mIndexBuffer;
   mUi_mView; mUi_mCamera; mUi_mRenderable].

Lemma named_alive sc m :
  (sc = 0 \/ 16 <= sc)%nat -> m ∈ names ->
  alive (pointee sc m) (started (<[sc := swap_chain]> base_live)) = true.
Proof.
  intros Hsc Hm. unfold alive. cbn [lg_engine lg_live started andb]. apply bool_decide_eq_true_2.
  destruct (decide (m = mSwapChain)) as [->|Hne]; [by rewrite lookup_insert_eq|].
  assert (Hb : is_Some (base_live !! pointee sc m)).
  { unfold names in Hm. rewrite !elem_of_cons, elem_of_nil in Hm.
    destruct_or? Hm; subst m; try done; by eexists. }
  rewrite lookup_insert_ne; [done|]. intros Heq. rewrite <- Heq, base_above in Hb by done. by destruct Hb.
Qed.

(** A call that leaves the ledger as it is. *)
Lemma steady_trace interval c p :
  steady interval p ->
  (forall sc, (sc = 0 \/ 16 <= sc)%nat -> (forall m, pg_members p m = Some (pointee sc m)) ->
     ledger_step c (started (<[sc := swap_chain]> base_live)) =
       Some (started (<[sc := swap_chain]> base_live))) ->
  match c with Updated e => (e <? interval)%f64 = false | _ => True end ->
  steady interval (trace c p).2.
Proof.
  intros [H1 H2 (sc & H3 & H4 & H5 & H6 & H7) H8] Hc Hpaced. split; cbn; try done.
  - exists sc. split_and!; try done. rewrite (calls_app _ _ _ _ H7). cbn [ledger].
    by rewrite (Hc sc H3 H6).
  - apply Forall_app. split; [done|]. by apply Forall_singleton.
Qed.

Lemma pointees_named sc live (p : Program) ms :
  (forall m, pg_members p m = Some (pointee sc m)) ->
  Forall (fun m => alive (pointee sc m) (started live) = true) ms ->
  forallb (fun u => alive u (started live)) (omap (fun m => pg_members p m) ms) = true.
Proof.
  intros Hp. induction 1 as [|m ms Hm _ IH]; [done|]. cbn [omap list_omap]. rewrite Hp.
  cbn [forallb]. by rewrite Hm, IH.
Qed.

Lemma keeps_method interval m name args setting :
  m ∈ names -> Forall (fun a => a ∈ names) args -> keeps interval (method m name args setting).
Proof.
  intros Hm Hargs p Hp. unfold method, member, pointees, sm_bind, sm_gets.
  pose proof Hp as [_ _ (sc & H3 & _ & _ & H6 & _) _]. rewrite H6.
  apply steady_trace; [done| |done]. intros sc' H3' H6'. cbn [ledger_step].
  assert (sc' = sc) as ->.
  { specialize (H6' mSwapChain). rewrite H6 in H6'. cbn in H6'. congruence. }
  rewrite named_alive by done. cbn [andb].
  rewrite (pointees_named sc); [done|done|]. eapply Forall_impl; [exact Hargs|].
  intros a Ha. by apply named_alive.
Qed.

Lemma steady_call interval c :
  (c = FlushAndWait \/ exists e, c = Updated e /\ (e <? interval)%f64 = false) ->
  keeps interval (trace c).
Proof. intros [->|(e & -> & He)] p Hp; apply steady_trace; done. Qed.

Lemma unused_objects h live :
  unused h live = true <-> forall h' o, live !! h' = Some o -> h ∉ ob_uses o.
Proof.
  unfold unused. rewrite forallb_forall. split.
  - intros Hu h' o Ho. apply elem_of_map_to_list, list_elem_of_In, Hu in Ho. cbn [snd] in Ho.
    by apply negb_true_iff, bool_decide_eq_false in Ho.
  - intros Hu [h' o] Hin. apply list_elem_of_In, elem_of_map_to_list, Hu in Hin.
    by apply negb_true_iff, bool_decide_eq_false.
Qed.

Lemma unused_chain h sc live :
  live !! sc = None -> unused h (<[sc := swap_chain]> live) = unused h live.
Proof.
  intros Hsc. apply eq_true_iff_eq. rewrite !unused_objects. split.
  - intros Hu h' o Ho. apply (Hu h'). rewrite lookup_insert_ne; [done|]. intros <-. congruence.
  - intros Hu h' o [[<- <-]|[_ Ho]]%lookup_insert_Some; [by intros ?%elem_of_nil|by apply (Hu h')].
Qed.

(** Destroying the swap chain and creating another. *)
Lemma keeps_swap interval : keeps interval (destroy mSwapChain;; create mSwapChain KSwapChain []).
Proof.
  intros p [H1 H2 (sc & H3 & H4 & H5 & H6 & H7) H8].
  unfold destroy, create, member, pointees, trace, sm_bind, sm_gets, sm_modify, sm_ret.
  rewrite H6. cbn [pointee omap list_omap pg_members pg_window pg_engine pg_width pg_height
    pg_loaded pg_next pg_trace snd].
  split; cbn [pg_members pg_window pg_engine pg_next pg_trace]; try done.
  - exists (pg_next p). split_and!; [lia|lia|lia| |].
    { intros m. unfold point. destruct (decide (m = mSwapChain)) as [->|Hne]; [done|].
      rewrite H6. by rewrite (pointee_ne sc (pg_next p)). }
    rewrite <- app_assoc, (calls_app _ _ _ _ H7). cbn [app ledger ledger_step].
    unfold alive at 1. cbn [lg_engine lg_live started andb].
    rewrite lookup_insert_eq, bool_decide_eq_true_2 by done. cbn [andb].
    rewrite unused_chain by by apply base_above.
    assert (Hu : unused sc base_live = true).
    { assert (Hall : forallb (fun ho => forallb (fun u => negb (u =? 0)%nat && (u <? 16)%nat) (ob_uses ho.2))
        (map_to_list base_live) = true) by (vm_compute; reflexivity).
      unfold unused. rewrite forallb_forall in Hall |- *. intros x Hx. specialize (Hall x Hx).
      rewrite forallb_forall in Hall. apply negb_true_iff, bool_decide_eq_false_2.
      intros Hin. apply list_elem_of_In in Hin. specialize (Hall sc Hin).
      apply andb_true_iff in Hall as [Ha%negb_true_iff%Nat.eqb_neq Hb%Nat.ltb_lt]. lia. }
    rewrite Hu. cbn [with_live lg_live lg_glfw lg_window lg_engine].
    rewrite delete_insert_id by by apply base_above. cbn [forallb].
    rewrite bool_decide_eq_true_2 by (apply base_above; lia). done.
  - repeat (apply Forall_app; split); [done|by apply Forall_singleton..].
Qed.

Lemma keeps_set_size interval w h : keeps interval (set_size w h).
Proof. intros p [H1 H2 H3 H4]. by split. Qed.

Lemma keeps_set_loaded interval b : keeps interval (set_loaded b).
Proof. intros p [H1 H2 H3 H4]. by split. Qed.

Lemma keeps_gets interval {A} (f : Program -> A) : keeps interval (sm_gets f).
Proof. by intros p. Qed.

Ltac solve_names := repeat constructor; unfold names; rewrite ?elem_of_cons; tauto.

Ltac solve_keeps :=
  repeat match goal with
  | |- keeps _ (sm_ret _) => apply steady_ret
  | |- keeps _ (method _ _ _ _) => apply keeps_method; [solve_names|solve_names]
  | |- keeps _ (trace FlushAndWait) => apply steady_call; by left
  | |- keeps _ (destroy _;; create _ _ _) => apply keeps_swap
  | |- keeps _ (set_size _ _) => apply keeps_set_size
  | |- keeps _ (set_loaded _) => apply keeps_set_loaded
  | |- keeps _ (sm_gets _) => apply keeps_gets
  | |- keeps _ (sm_bind _ _) => apply steady_bind; [|intros ?]
  | |- keeps _ (match ?b with _ => _ end) => destruct b
  end.

Lemma keeps_resize interval w h : keeps interval (resize w h).
Proof. unfold resize, ui_setViewport. solve_keeps. Qed.

Lemma keeps_resizes interval sizes : keeps interval (resizes sizes).
Proof.
  induction sizes as [|[w h] sizes IH]; cbn [resizes]; [apply steady_ret|].
  apply steady_bind; [apply keeps_resize|done].
Qed.

Lemma keeps_run interval turns : forall previous, keeps interval (run interval previous turns).
Proof.
  induction turns as [|t turns IH]; intros previous; cbn [run]; [apply steady_ret|].
  apply steady_bind; [apply keeps_resizes|intros _].
  destruct (_ <? interval)%f64 eqn:Ei; [apply IH|].
  apply steady_bind; [apply steady_call; right; by eexists|intros _].
  apply steady_bind; [unfold update_view, world_build, world_destroy; solve_keeps|intros _].
  apply steady_bind; [unfold draw_ui, world_destroy, ui_end; solve_keeps|intros _].
  apply steady_bind; [unfold render; solve_keeps|intros _]. apply IH.
Qed.

(** *** The start *)

Lemma create_all_steady interval s :
  st_glfw s = true -> st_window s = true -> st_engine s = true -> st_wayland s = true ->
  st_net s = true -> st_font s = true ->
  (create_all s new_program).1 = true /\ steady interval (create_all s new_program).2.
Proof.
  destruct s as [g w [width height] e wl n f]. cbn. intros -> -> -> -> -> ->.
  split; [vm_compute; reflexivity|]. split.
  - vm_compute. reflexivity.
  - vm_compute. reflexivity.
  - exists 0%nat. split_and!; [by left|vm_compute; lia|vm_compute; lia| |].
    + intros []; vm_compute; reflexivity.
    + vm_compute. reflexivity.
  - vm_compute. repeat constructor.
Qed.

Lemma app_init_steady interval s :
  st_glfw s = true -> st_window s = true -> st_engine s = true -> st_wayland s = true ->
  st_net s = true -> st_font s = true ->
  (app_init s new_program).1 = true /\ steady interval (app_init s new_program).2.
Proof.
  intros H1 H2 H3 H4 H5 H6.
  destruct (create_all_steady interval s H1 H2 H3 H4 H5 H6) as [Hok Hp].
  unfold app_init, sm_bind, sm_gets. destruct (create_all s new_program) as [ok p].
  cbn [fst snd] in Hok, Hp. subst ok. cbn [negb].
  pose proof (keeps_resize interval (pg_width p) (pg_height p) p Hp) as Hr.
  by destruct (resize (pg_width p) (pg_height p) p) as [[] p'].
Qed.

(** *** The end *)

(** A program that is being taken down, with [live] left besides the swap
    chain. *)
Definition closing (sc : Handle) (live : gmap Handle Object) (p : Program) : Prop :=
  pg_window p = true /\ (forall m, pg_members p m = Some (pointee sc m)) /\
  ledger (pg_trace p) no_ledger = Some (started (<[sc := swap_chain]> live)).

Definition closes (sc : Handle) (live live' : gmap Handle Object) {A} (m : SM Program A) : Prop :=
  forall p, closing sc live p -> closing sc live' (m p).2.

Lemma closes_bind sc live1 live2 live3 {A B} (m : SM Program A) (k : A -> SM Program B) :
  closes sc live1 live2 m -> (forall a, closes sc live2 live3 (k a)) ->
  closes sc live1 live3 (sm_bind m k).
Proof.
  intros Hm Hk p Hp. unfold sm_bind. specialize (Hm p Hp). destruct (m p) as [a p']. by apply Hk.
Qed.

Lemma closes_trace sc live live' c :
  ledger_step c (started (<[sc := swap_chain]> live)) = Some (started (<[sc := swap_chain]> live')) ->
  closes sc live live' (trace c).
Proof.
  intros Hc p (H1 & H2 & H3). split_and!; [done|done|]. cbn.
  rewrite (calls_app _ _ _ _ H3). cbn [ledger]. by rewrite Hc.
Qed.

Lemma alive_base sc h live :
  is_Some (live !! h) -> alive h (started (<[sc := swap_chain]> live)) = true.
Proof.
  intros Hh. unfold alive. cbn [lg_engine lg_live started andb]. apply bool_decide_eq_true_2.
  destruct (decide (sc = h)) as [->|Hne]; [by rewrite lookup_insert_eq|by rewrite lookup_insert_ne].
Qed.

(** A member of the base that points to an object of [live]. *)
Definition points_to_live (live : gmap Handle Object) (m : Member) : Prop :=
  m <> mSwapChain /\ is_Some (live !! pointee 0 m).

Lemma points_alive sc live m :
  points_to_live live m -> alive (pointee sc m) (started (<[sc := swap_chain]> live)) = true.
Proof. intros [Hne Hl]. apply alive_base. by rewrite (pointee_ne sc 0). Qed.

Lemma closes_method sc live m name args :
  points_to_live live m -> Forall (points_to_live live) args ->
  closes sc live live (method m name args Plain).
Proof.
  intros Hm Hargs p Hp. pose proof Hp as (_ & H2 & _).
  unfold method, member, pointees, sm_bind, sm_gets. rewrite H2.
  apply (closes_trace sc live live); [|done]. cbn [ledger_step].
  rewrite points_alive by done. cbn [andb]. rewrite (pointees_named sc); [done|done|].
  eapply Forall_impl; [exact Hargs|]. intros a Ha. by apply points_alive.
Qed.

Lemma live_not_chain sc (live : gmap Handle Object) h : is_Some (live !! h) -> live !! sc = None -> h <> sc.
Proof. intros Hh Hsc ->. rewrite Hsc in Hh. by destruct Hh. Qed.

Lemma closes_destroy sc live m :
  points_to_live live m -> live !! sc = None -> unused (pointee 0 m) live = true ->
  closes sc live (delete (pointee 0 m) live) (destroy m).
Proof.
  intros [Hne Hh] Hsc Hu p Hp. pose proof Hp as (_ & H2 & _).
  unfold destroy, member, sm_bind, sm_gets. rewrite H2, (pointee_ne sc 0) by done.
  apply (closes_trace sc live); [|done]. cbn [ledger_step].
  rewrite alive_base by done. cbn [lg_live started]. rewrite unused_chain, Hu by done. cbn [andb].
  unfold with_live, started. cbn [lg_glfw lg_window lg_engine].
  by rewrite delete_insert_ne by (by apply (live_not_chain sc live)).
Qed.

Lemma closes_flush sc live : closes sc live live (trace FlushAndWait).
Proof. by apply closes_trace. Qed.

Lemma closes_ret sc live {A} (a : A) : closes sc live live (sm_ret a).
Proof. by intros p. Qed.

Lemma closes_unbind sc live m :
  points_to_live live m -> live !! sc = None ->
  closes sc live (alter (fun o => mkObject (ob_kind o) []) (pointee 0 m) live) (bind_renderable m []).
Proof.
  intros [Hne Hh] Hsc p Hp. pose proof Hp as (_ & H2 & _).
  unfold bind_renderable, member, pointees, sm_bind, sm_gets.
  rewrite H2, (pointee_ne sc 0) by done. cbn [omap list_omap].
  eapply (closes_trace sc live); [|done]. cbn [ledger_step forallb].
  rewrite alive_base by done. cbn [andb lg_live started]. unfold with_live, started.
  cbn [lg_glfw lg_window lg_engine].
  by rewrite alter_insert_ne by (by apply (live_not_chain sc live)).
Qed.

Lemma closing_bind sc live live' {A B} (m : SM Program A) (k : A -> SM Program B)
    (Q : Program -> Prop) p :
  closing sc live p -> closes sc live live' m ->
  (forall a p', closing sc live' p' -> Q (k a p').2) -> Q (sm_bind m k p).2.
Proof.
  intros Hp Hm HQ. unfold sm_bind. specialize (Hm p Hp). destruct (m p) as [a p']. by apply HQ.
Qed.

(** What is left of the base after the handles [hs] are gone. *)
Definition without (hs : list Handle) : gmap Handle Object :=
  foldr delete (alter (fun o => mkObject (ob_kind o) []) 15%nat base_live) hs.

Lemma without_above hs sc : base_live !! sc = None -> without hs !! sc = None.
Proof.
  intros Hsc. induction hs as [|h hs IH]; cbn.
  - by rewrite lookup_alter_None.
  - apply lookup_delete_None. by right.
Qed.

Lemma closes_next sc hs m :
  base_live !! sc = None -> points_to_live (without hs) m ->
  unused (pointee 0 m) (without hs) = true ->
  closes sc (without hs) (without (pointee 0 m :: hs)) (destroy m).
Proof. intros. apply closes_destroy; [done|by apply without_above|done]. Qed.

Ltac solve_points := split; [discriminate|vm_compute; by eexists].
Ltac solve_next := eapply closes_next; [eassumption|solve_points|vm_compute; reflexivity].

Lemma closes_ui sc :
  base_live !! sc = None ->
  closes sc base_live (without [6; 7; 8; 10; 9; 11; 12; 13; 14; 15]%nat) ui_destroy.
Proof.
  intros Hsc p Hp. unfold ui_destroy.
  eapply closing_bind; [exact Hp|apply closes_method;
    [solve_points|apply Forall_singleton; solve_points]|]. intros _ p1 Hp1.
  eapply (closing_bind sc base_live (without []));
    [exact Hp1|apply (closes_unbind sc base_live mUi_mRenderable); [solve_points|done]|].
  clear p Hp p1 Hp1. intros _ p Hp.
  do 9 (eapply closing_bind; [exact Hp|solve_next|]; clear p Hp; intros _ p Hp).
  revert p Hp. apply (closes_next sc [7; 8; 10; 9; 11; 12; 13; 14; 15]%nat mUi_mMaterial); [done
    |solve_points|vm_compute; reflexivity].
Qed.

Lemma closes_world sc live :
  points_to_live live mScene -> closes sc live live world_destroy.
Proof.
  intros Hs. apply (closes_bind sc live live); [by intros p|]. intros b.
  destruct b; [|apply closes_ret].
  apply (closes_bind sc live live); [by apply closes_method|by intros _ p].
Qed.

Lemma bind_assoc {A B C} (m : SM Program A) (k : A -> SM Program B) (k' : B -> SM Program C) p :
  sm_bind (sm_bind m k) k' p = sm_bind m (fun a => sm_bind (k a) k') p.
Proof. unfold sm_bind. by destruct (m p) as [a p']. Qed.

(** After a start, everything is destroyed: what the engine made before the
    engine, the engine before its window, and the window before GLFW ends. *)
Lemma app_destroy_clean interval p :
  steady interval p -> ledger (pg_trace (app_destroy p).2) no_ledger = Some no_ledger.
Proof.
  intros [H1 H2 (sc & H3 & H4 & H5 & H6 & H7) _].
  assert (Hp : closing sc base_live p) by done.
  assert (Hsc : base_live !! sc = None) by by apply base_above.
  unfold app_destroy. change (sm_bind (sm_gets pg_engine) ?k p) with (k (pg_engine p) p).
  cbv beta. rewrite H2. cbn [negb].
  rewrite bind_assoc. eapply closing_bind; [exact Hp|apply closes_flush|]. clear p H1 H2 H4 H5 H6 H7 Hp.
  intros _ p Hp. rewrite bind_assoc. eapply closing_bind; [exact Hp|by apply closes_ui|].
  clear p Hp. intros _ p Hp. rewrite bind_assoc.
  eapply closing_bind; [exact Hp|apply closes_world; solve_points|]. clear p Hp. intros _ p Hp.
  do 5 (rewrite bind_assoc; eapply closing_bind; [exact Hp|solve_next|]; clear p Hp; intros _ p Hp).
  destruct Hp as (H1 & H2 & H4).
  unfold destroy, member, trace, set_engine, sm_bind, sm_gets, sm_modify, sm_ret.
  rewrite H2. cbn [pointee]. cbn [pg_window pg_trace]. rewrite H1. cbn [snd pg_trace].
  rewrite <- !app_assoc, (calls_app _ _ _ _ H4). cbn [app ledger ledger_step].
  unfold alive. cbn [lg_engine lg_live started andb].
  rewrite lookup_insert_eq, bool_decide_eq_true_2 by by eexists. cbn [andb].
  rewrite unused_chain by by apply without_above.
  match goal with |- context [unused sc ?l] => replace l with (∅ : gmap Handle Object) by (vm_compute; reflexivity) end.
  cbn [with_live lg_glfw lg_window lg_engine lg_live]. unfold swap_chain.
  rewrite delete_insert_eq. done.
Qed.

(** *** The pace *)

(** Operations whose calls all satisfy [P]. *)
Definition only (P : Call -> Prop) {A} (m : SM Program A) : Prop :=
  forall p, Forall P (pg_trace p) -> Forall P (pg_trace (m p).2).

Lemma only_bind P {A B} (m : SM Program A) (k : A -> SM Program B) :
  only P m -> (forall a, only P (k a)) -> only P (sm_bind m k).
Proof.
  intros Hm Hk p Hp. unfold sm_bind. specialize (Hm p Hp). destruct (m p) as [a p'].
  by apply Hk.
Qed.

Lemma only_trace (P : Call -> Prop) c : P c -> only P (trace c).
Proof. intros Hc p Hp. apply Forall_app. split; [done|]. by apply Forall_singleton. Qed.

Definition paced (interval : double) (c : Call) : Prop :=
  match c with Updated e => (e <? interval)%f64 = false | _ => True end.

Ltac solve_only :=
  repeat match goal with
  | |- only _ (sm_bind _ _) => apply only_bind; [|intros ?]
  | |- only _ (trace _) => by apply only_trace
  | |- only _ (sm_ret _) => by intros ?
  | |- only _ (sm_gets _) => by intros ?
  | |- only _ (set_engine _) => by intros ?
  | |- only _ (set_loaded _) => by intros ?
  | |- only _ (match ?x with _ => _ end) => destruct x
  end.

Lemma destroy_paced interval m : only (paced interval) (destroy m).
Proof. unfold destroy, member. solve_only. Qed.
Lemma method_paced interval m name args setting : only (paced interval) (method m name args setting).
Proof. unfold method, member, pointees. solve_only. Qed.
Lemma bind_paced interval m uses : only (paced interval) (bind_renderable m uses).
Proof. unfold bind_renderable, member, pointees. solve_only. Qed.

Lemma app_destroy_paced interval : only (paced interval) app_destroy.
Proof.
  unfold app_destroy, ui_destroy, world_destroy.
  repeat match goal with
  | |- only _ (destroy _) => apply destroy_paced
  | |- only _ (method _ _ _ _) => apply method_paced
  | |- only _ (bind_renderable _ _) => apply bind_paced
  | |- _ => progress solve_only
  end.
Qed.

(** *** The program *)

(** C24: the life of the client. Whatever the start meets and whatever happens in
    the loop (any sizes, times and frames): when the window or the engine cannot be
    had, the program ends with code 1 and has left nothing; when everything
    succeeds it ends with code 0, every rule of GLFW and the engine was kept,
    through every resize, and everything made was destroyed, the engine's
    objects before the engine and the engine before its window, and [update] was
    only ever given at least the time of a frame. But when a later step of the start
    fails (a session that is not Wayland, the sockets, the font), the destructor
    calls a method of the interface's scene, which does not exist. *)
Theorem client_lifecycle (s : Start) (refresh : option Z) (start : double) (turns : list Turn) :
  let '(code, p) := main s refresh start turns new_program in
  if negb (st_glfw s && st_window s && st_engine s) then
    code = 1 /\ ledger (pg_trace p) no_ledger = Some no_ledger
  else if st_wayland s && st_net s && st_font s then
    code = 0 /\ ledger (pg_trace p) no_ledger = Some no_ledger /\
    Forall (fun c => match c with Updated e => (e <? frame_interval refresh)%f64 = false | _ => True end)
      (pg_trace p)
  else NullCall ∈ pg_trace p.
Proof.
  destruct (st_glfw s && st_window s && st_engine s && (st_wayland s && st_net s && st_font s)) eqn:Hall.
  - rewrite !andb_true_iff in Hall. destruct Hall as [[[H1 H2] H3] [[H4 H5] H6]].
    destruct (app_init_steady (frame_interval refresh) s H1 H2 H3 H4 H5 H6) as [Hok Hp].
    rewrite H1, H2, H3, H4, H5, H6. cbn [andb negb].
    unfold main, sm_bind. destruct (app_init s new_program) as [ok p].
    cbn [fst snd] in Hok, Hp. subst ok.
    pose proof (keeps_run (frame_interval refresh) turns start p Hp) as Hrun.
    destruct (run (frame_interval refresh) start turns p) as [[] p']. cbn [snd] in Hrun.
    pose proof (app_destroy_clean _ _ Hrun) as Hclean.
    pose proof (app_destroy_paced (frame_interval refresh) p' (sd_paced _ _ Hrun)) as Hpace.
    destruct (app_destroy p') as [[] p'']. done.
  - destruct s as [g w [width height] e wl n f].
    cbn [st_glfw st_window st_engine st_wayland st_net st_font] in *.
    destruct g; [destruct w; [destruct e; [destruct wl; [destruct n; [destruct f|]|]|]|]|];
      cbn [andb negb] in *; try discriminate Hall; vm_compute; tauto || apply list_elem_of_In; cbn; tauto.
Qed.

End Steady.
