(* ===== verification/Application.v ===== *)
(** * The client application ([client/src/application.{h,cpp}], [scene.cpp])

    The state machine that ties the client's parts together: the screens, the
    network, the prediction and what is shown of the world, one frame at a
    time. Filament, GLFW and the sky, which is only drawn, are left out: of the
    scene, this keeps whether it is built, the players that have a body in
    it and where they and the cube are placed. *)

From Stdlib Require Import ZArith Lia Strings.Byte Strings.Ascii Strings.String.
From Stdlib Require Import Floats.SpecFloat.
From stdpp Require Import base list option gmap strings.
From S2P Require Import Prelude Float32 Platform Config Snapshot Protocol Terrain Character Ticks.
From S2P Require Import Prediction Sockets NetClient Widgets Screens Camera.

Open Scope Z_scope.

(** ** The scene *)

(** A player's body: whether it was made as the local player's, its position
    and its rotation. *)
Record PlayerVisual := mkVisual {
  pv_local : bool;
  pv_position : Vec3;
  pv_rotation : Quat;
}.

Record DemoScene := mkScene {
  mLoaded : bool;
  mPlayers : gmap Z PlayerVisual;
  sc_cube : option (Vec3 * Quat);
}.

Definition new_scene : DemoScene := mkScene false ∅ None.

Definition build (s : DemoScene) : DemoScene :=
  if mLoaded s then s else mkScene true (mPlayers s) None.

Definition removeAbsentPlayers (present : gset Z) (s : DemoScene) : DemoScene :=
  mkScene (mLoaded s) (filter (fun p => p.1 ∈ present) (mPlayers s)) (sc_cube s).

Definition destroy (s : DemoScene) : DemoScene :=
  if negb (mLoaded s) then s
  else mkScene false (mPlayers (removeAbsentPlayers ∅ s)) None.

Definition setEntityTransform (id : Z) (position : Vec3) (rotation : Quat) (s : DemoScene)
    : DemoScene :=
  if negb (mLoaded s) || negb (id =? 1) then s
  else mkScene (mLoaded s) (mPlayers s) (Some (position, rotation)).

Definition setPlayerTransform (id : Z) (isLocalPlayer : bool) (position : Vec3) (rotation : Quat)
    (s : DemoScene) : DemoScene :=
  if negb (mLoaded s) then s
  else
    let local := match mPlayers s !! id with
                 | Some visual => pv_local visual
                 | None => isLocalPlayer
                 end in
    mkScene (mLoaded s) (<[id := mkVisual local position rotation]> (mPlayers s)) (sc_cube s).

(** ** State *)

Definition kMaxExtrapolationSeconds : double := lit64 25 100.

(** What is played: the prediction, the scene and [mLastReconciledSnapshot]. *)
Record Play := mkPlay {
  mPrediction : Prediction;
  mDemoScene : DemoScene;
  mLastReconciledSnapshot : Z;
}.

(** What is on the screen; [mClosing] is the window's close flag. *)
Record Screen := mkScreen {
  mState : AppState;
  mUsername : string;
  mLoginScreen : LoginScreen;
  mWidgets : Ui;
  mInput : InputState;
  mCameraController : CameraController;
  mClosing : bool;
}.

Record Timing := mkTiming {
  mTickAccumulator : double;
  mElapsedSeconds : double;
  mConnectingSince : double;
}.

Record Application (E : Type) := mkApplication {
  mNet : NetClient E;
  ap_play : Play;
  ap_screen : Screen;
  ap_timing : Timing;
}.
Arguments mkApplication {E}.
Arguments mNet {E}.
Arguments ap_play {E}.
Arguments ap_screen {E}.
Arguments ap_timing {E}.

Definition new_application {E} (e : E) : Application E :=
  mkApplication (new_net_client e) (mkPlay new_prediction new_scene 0)
    (mkScreen Login "" new_login_screen new_ui no_input new_camera false)
    (mkTiming f64_zero f64_zero f64_zero).

(** ** Input *)

(** GLFW's keys, as far as [keyCallback] tells them apart. *)
Inductive UiKey := KeyBackspace | KeyTab | KeyEnter | KeyKpEnter | KeyEscape | KeyOther.
Inductive KeyAction := ActionPress | ActionRepeat | ActionRelease.

Definition char_input (codepoint : Z) (i : InputState) : InputState :=
  mkInput (in_mouseX i) (in_mouseY i) (in_mouseDown i) (in_mousePressed i) (in_mouseReleased i)
    (in_characters i ++ [codepoint]) (in_backspace i) (in_tab i) (in_enter i) (in_escape i).

Definition key_input (key : UiKey) (action : KeyAction) (i : InputState) : InputState :=
  let pressed := match action with ActionPress | ActionRepeat => true | ActionRelease => false end in
  let keys backspace tab enter escape :=
    mkInput (in_mouseX i) (in_mouseY i) (in_mouseDown i) (in_mousePressed i) (in_mouseReleased i)
      (in_characters i) backspace tab enter escape in
  match key with
  | KeyBackspace => keys pressed (in_tab i) (in_enter i) (in_escape i)
  | KeyTab => keys (in_backspace i) pressed (in_enter i) (in_escape i)
  | KeyEnter | KeyKpEnter => keys (in_backspace i) (in_tab i) pressed (in_escape i)
  | KeyEscape =>
      match action with
      | ActionPress => keys (in_backspace i) (in_tab i) (in_enter i) true
      | _ => i
      end
  | KeyOther => i
  end.

Definition mouse_input (left_button : bool) (action : KeyAction) (i : InputState) : InputState :=
  if negb left_button then i
  else
    let mouse down pressed released :=
      mkInput (in_mouseX i) (in_mouseY i) down pressed released (in_characters i) (in_backspace i)
        (in_tab i) (in_enter i) (in_escape i) in
    match action with
    | ActionPress => mouse true true (in_mouseReleased i)
    | ActionRelease => mouse false (in_mousePressed i) true
    | ActionRepeat => i
    end.

Definition move_mouse (x y : double) (i : InputState) : InputState :=
  mkInput (f32_of_f64 x) (f32_of_f64 y) (in_mouseDown i) (in_mousePressed i) (in_mouseReleased i)
    (in_characters i) (in_backspace i) (in_tab i) (in_enter i) (in_escape i).

Section Setters.
Context {E : Type}.

Definition set_net (n : NetClient E) (a : Application E) : Application E :=
  mkApplication n (ap_play a) (ap_screen a) (ap_timing a).
Definition set_play (p : Play) (a : Application E) : Application E :=
  mkApplication (mNet a) p (ap_screen a) (ap_timing a).
Definition set_screen (s : Screen) (a : Application E) : Application E :=
  mkApplication (mNet a) (ap_play a) s (ap_timing a).
Definition set_timing (t : Timing) (a : Application E) : Application E :=
  mkApplication (mNet a) (ap_play a) (ap_screen a) t.

Definition on_login (f : LoginScreen -> LoginScreen) (a : Application E) : Application E :=
  let s := ap_screen a in
  set_screen (mkScreen (mState s) (mUsername s) (f (mLoginScreen s)) (mWidgets s) (mInput s)
    (mCameraController s) (mClosing s)) a.

Definition on_camera (f : CameraController -> CameraController) (a : Application E)
    : Application E :=
  let s := ap_screen a in
  set_screen (mkScreen (mState s) (mUsername s) (mLoginScreen s) (mWidgets s) (mInput s)
    (f (mCameraController s)) (mClosing s)) a.

Definition on_input (f : InputState -> InputState) (a : Application E) : Application E :=
  let s := ap_screen a in
  set_screen (mkScreen (mState s) (mUsername s) (mLoginScreen s) (mWidgets s) (f (mInput s))
    (mCameraController s) (mClosing s)) a.

Definition on_widgets (f : Ui -> Ui) (a : Application E) : Application E :=
  let s := ap_screen a in
  set_screen (mkScreen (mState s) (mUsername s) (mLoginScreen s) (f (mWidgets s)) (mInput s)
    (mCameraController s) (mClosing s)) a.

Definition with_username (username : string) (a : Application E) : Application E :=
  let s := ap_screen a in
  set_screen (mkScreen (mState s) username (mLoginScreen s) (mWidgets s) (mInput s)
    (mCameraController s) (mClosing s)) a.

Definition close_window (a : Application E) : Application E :=
  let s := ap_screen a in
  set_screen (mkScreen (mState s) (mUsername s) (mLoginScreen s) (mWidgets s) (mInput s)
    (mCameraController s) true) a.

Definition on_scene (f : DemoScene -> DemoScene) (a : Application E) : Application E :=
  let p := ap_play a in
  set_play (mkPlay (mPrediction p) (f (mDemoScene p)) (mLastReconciledSnapshot p)) a.

Definition on_prediction (f : Prediction -> Prediction) (a : Application E) : Application E :=
  let p := ap_play a in
  set_play (mkPlay (f (mPrediction p)) (mDemoScene p) (mLastReconciledSnapshot p)) a.

Definition with_accumulator (accumulator : double) (a : Application E) : Application E :=
  let t := ap_timing a in
  set_timing (mkTiming accumulator (mElapsedSeconds t) (mConnectingSince t)) a.

Definition app_state (a : Application E) : AppState := mState (ap_screen a).

End Setters.

(** What [AUTH_HOST] and [AUTH_SERVER_PORT] say. *)
Definition authHost (getenv : string -> option string) : string :=
  envString getenv "AUTH_HOST" "127.0.0.1".

Definition authPort (getenv : string -> option string) : Z :=
  match getenv "AUTH_SERVER_PORT"%string with
  | Some value => if decide (c_str value = EmptyString) then 7001 else u16 (atoi (c_str value))
  | None => 7001
  end.

Section Application.
Context {E : Type} `{HApi : SocketApi E} `{HRand : Rand E} `{HAtof : Atof}.
Context `{HLibm : Libm} `{HMath : FilamentMath}.
Variable getenv : string -> option string.

Abbreviation St := (Application E).

(** ** State changes *)

Definition enterState (state : AppState) (a : St) : St :=
  let s := ap_screen a in
  set_screen (mkScreen state (mUsername s) (mLoginScreen s) (mWidgets s) (mInput s)
    (setEnabled (bool_decide (state = InGame)) (mCameraController s)) (mClosing s)) a.

(** [init], less the window and the renderer. *)
Definition app_init (a : St) : St :=
  enterState Login (set_net (NetClient.init getenv (mNet a)).2 a).

Definition beginLogin (a : St) : St :=
  let l := mLoginScreen (ap_screen a) in
  if bool_decide (ls_username l = EmptyString) || bool_decide (ls_password l = EmptyString) then
    on_login (setStatus "username and password are required" true) a
  else
    let a := on_login (setStatus "connecting..." false) a in
    let t := ap_timing a in
    let a := set_timing (mkTiming (mTickAccumulator t) (mElapsedSeconds t) (mElapsedSeconds t)) a in
    let a := set_net (login (authHost getenv) (authPort getenv) (ls_username l) (ls_password l)
                        (mNet a)) a in
    enterState Connecting a.

Definition loadWorld (a : St) : St :=
  on_camera (camera_reset f32_zero (f32_of_Z (-10))) (on_scene build a).

Definition unloadWorld (a : St) : St :=
  on_scene destroy (on_prediction Prediction.shutdown a).

Definition app_logout (a : St) : St :=
  let a := unloadWorld (set_net (logout (mNet a)) a) in
  let a := with_username "" a in
  let a := on_login (fun l => setStatus "logged out" false (resetFocus (clearPassword l))) a in
  enterState Login a.

(** ** Replication *)

Definition extrapolate (age : double) (e : EntityState) : Vec3 :=
  let t := f32_of_f64 age in
  mkVec3 (vx (es_position e) + vx (es_velocity e) * t)%f32
         (vy (es_position e) + vy (es_velocity e) * t)%f32
         (vz (es_position e) + vz (es_velocity e) * t)%f32.

(** [1e-6f] *)
Definition kMinTurn : float := lit32 1 1000000.

Definition extrapolate_rotation (age : double) (e : EntityState) : Quat :=
  let speed := fm_length (es_angularVelocity e) in
  if (kMinTurn <? speed)%f32
  then fm_quat_mul
         (fm_fromAxisAngle (fm_scale_down (es_angularVelocity e) speed) (speed * f32_of_f64 age)%f32)
         (es_rotation e)
  else es_rotation e.

(** The local player's character, from the first state seen of it and each new
    snapshot after. *)
Definition reconcile_own (snapshots : Z) (e : EntityState) (p : Play) : Play :=
  if negb (pr_active (mPrediction p)) then
    mkPlay (Prediction.init (vec_of_net (es_position e)) (mPrediction p)) (mDemoScene p)
      (mLastReconciledSnapshot p)
  else if negb (snapshots =? mLastReconciledSnapshot p) then
    mkPlay (reconcile e (mPrediction p)) (mDemoScene p) snapshots
  else p.

Definition facing_rotation (facing : float) : Quat :=
  mkQuat f32_zero (f32_sin (- facing * f32_half)%f32) f32_zero (f32_cos (facing * f32_half)%f32).

Definition with_scene (s : DemoScene) (p : Play) : Play :=
  mkPlay (mPrediction p) s (mLastReconciledSnapshot p).

Definition replicate (net : NetClient E) (now : double) (acc : Play * gset Z) (id : Z)
    : Play * gset Z :=
  let '(p, present) := acc in
  match mEntities (nc_view net) !! id with
  | None => acc
  | Some replicated =>
      let age := fmin (now - rp_receivedAt replicated)%f64 kMaxExtrapolationSeconds in
      let e := rp_state replicated in
      let position := extrapolate age e in
      let rotation := extrapolate_rotation age e in
      if es_type e =? entity_type_code PlayerEntity then
        if id =? mOwnEntityId (nc_session net) then
          let p := reconcile_own (mSnapshotsReceived (nc_view net)) e p in
          let predicted := renderPosition (mPrediction p) in
          let facing := ch_facingYaw (pr_character (mPrediction p)) in
          (with_scene
             (setPlayerTransform id true
                (mkVec3 (vec_x predicted) (vec_y predicted) (vec_z predicted))
                (facing_rotation facing) (mDemoScene p)) p,
           {[ id ]} ∪ present)
        else
          (with_scene (setPlayerTransform id false position rotation (mDemoScene p)) p,
           {[ id ]} ∪ present)
      else (with_scene (setEntityTransform id position rotation (mDemoScene p)) p, present)
  end.

Definition applyReplication (a : St) : St :=
  if negb (mLoaded (mDemoScene (ap_play a))) then a
  else
    let '(p, present) :=
      foldl (replicate (mNet a) (mElapsedSeconds (ap_timing a))) (ap_play a, ∅)
        (map_keys (mEntities (nc_view (mNet a)))) in
    on_scene (removeAbsentPlayers present) (set_play p a).

(** ** A frame *)

(** The screens follow the state of the network. *)
Definition follow_network (a : St) : St :=
  match app_state a with
  | Connecting =>
      match NetClient.mState (mNet a) with
      | InWorld =>
          let a := with_username (NetClient.mUsername (nc_session (mNet a))) a in
          let a := on_login (setStatus "" false) a in
          enterState InGame (loadWorld a)
      | Failed =>
          let error := mError (mNet a) in
          enterState Login (on_login (fun l => clearPassword (setStatus error true l)) a)
      | _ => a
      end
  | InGame | Menu =>
      match NetClient.mState (mNet a) with
      | Failed =>
          let reason := mError (mNet a) in
          let a := with_username "" (unloadWorld a) in
          let a := on_login (fun l => setStatus reason true (clearPassword l)) a in
          enterState Login a
      | _ => a
      end
  | Login => a
  end.

(** One tick of input: predicted, and sent. *)
Definition input_tick (intent : MovementIntent) (a : St) : St :=
  if bool_decide (app_state a <> InGame) then a
  else
    let '(input, prediction) :=
      Prediction.step (mi_moveForward intent) (mi_moveRight intent) (mi_yaw intent)
        (mi_jump intent) (mi_sprint intent) (mPrediction (ap_play a)) in
    let a := on_prediction (fun _ => prediction) a in
    set_net (sendInput (ci_moveForward input) (ci_moveRight input) (ci_yaw input) (ci_jump input)
               (ci_sprint input) (ci_sequence input) (mNet a)) a.

(** [while (mTickAccumulator >= kTickSeconds)]; the cap on the accumulator
    leaves room for fifteen ticks. *)
Fixpoint input_ticks (fuel : nat) (intent : MovementIntent) (a : St) : St :=
  match fuel with
  | O => a
  | S fuel =>
      if (tickSeconds <=? mTickAccumulator (ap_timing a))%f64 then
        let a := with_accumulator (mTickAccumulator (ap_timing a) - tickSeconds)%f64 a in
        input_ticks fuel intent (input_tick intent a)
      else a
  end.

Definition tick_fuel : nat := 16.

Definition accumulate (deltaSeconds : double) (a : St) : St :=
  let accumulator := (mTickAccumulator (ap_timing a) + deltaSeconds)%f64 in
  with_accumulator (if (max_backlog <? accumulator)%f64 then max_backlog else accumulator) a.

(** [update], less the sky and the placing of the camera. *)
Definition update (deltaSeconds : double) (d : Devices) (a : St) : St :=
  let t := ap_timing a in
  let a := set_timing (mkTiming (mTickAccumulator t) (mElapsedSeconds t + deltaSeconds)%f64
                         (mConnectingSince t)) a in
  let a := set_net (poll (mElapsedSeconds (ap_timing a)) (mNet a)) a in
  let a := follow_network a in
  let '(intent, camera) := sample d (mCameraController (ap_screen a)) in
  let a := on_camera (fun _ => camera) a in
  let a := input_ticks tick_fuel intent (accumulate deltaSeconds a) in
  let a := on_prediction (updateSmoothing (f32_of_f64 deltaSeconds)) a in
  applyReplication a.

(** [drawUi], less the drawing. *)
Definition drawUi (rn : UiRenderer) (d : Devices) (a : St) : St :=
  let a := on_input (move_mouse (cursorX d) (cursorY d)) a in
  let a := on_widgets (ui_begin (mInput (ap_screen a))) a in
  let s := ap_screen a in
  let a :=
    match app_state a with
    | Login | Connecting =>
        let '(action, l, u) := login_draw rn (app_state a) (mLoginScreen s) (mWidgets s) in
        let a := on_widgets (fun _ => u) (on_login (fun _ => l) a) in
        match action with
        | LoginSubmit => beginLogin a
        | LoginQuit => close_window a
        | LoginNone => a
        end
    | InGame => if in_escape (mInput s) then enterState Menu a else a
    | Menu =>
        let '(action, u) := menu_draw rn (mWidgets s) in
        let a := on_widgets (fun _ => u) a in
        if bool_decide (action = MenuResume) || in_escape (mInput s) then enterState InGame a
        else match action with
             | MenuLogout => app_logout a
             | MenuQuit => close_window a
             | _ => a
             end
    end in
  on_input endFrame (on_widgets ui_end a).

(** What happens to the application: input from GLFW, or a frame. *)
Inductive AppEvent :=
| EvChar (codepoint : Z)
| EvKey (key : UiKey) (action : KeyAction)
| EvMouse (left_button : bool) (action : KeyAction)
| EvFrame (elapsed : double) (d : Devices) (rn : UiRenderer).

(** [run] between two waits: a callback, or the frame once its time has come. *)
Definition app_step (a : St) (e : AppEvent) : St :=
  match e with
  | EvChar codepoint => on_input (char_input codepoint) a
  | EvKey key action => on_input (key_input key action) a
  | EvMouse left_button action => on_input (mouse_input left_button action) a
  | EvFrame elapsed d rn => drawUi rn d (update elapsed d a)
  end.

End Application.
