(* ===== verification/SceneSpec.v ===== *)
(** * The scene and the engine's objects: theorems

    The scene of [Scene] keeps the rules of the engine's interface in every
    history, leaves nothing behind when it is torn down, and shows what the
    scene of [Application] says it shows. *)

From Stdlib Require Import ZArith Lia Strings.String Floats.SpecFloat.
From stdpp Require Import base list option gmap strings.
From S2P Require Import Prelude Float32 Snapshot Terrain Character Camera Engine Mesh Sky Scene.
From S2P Require Application.

Open Scope Z_scope.

Section SceneSpec.
Context `{HLibm : Libm} `{HMath : FilamentMath} `{HGeo : FilamentGeometry} `{HMat : FilamentMatrix}.
Local Open Scope sm_scope.

(** ** What a piece does *)

(** From any trace and the next name [n], [m] returns [a], makes the calls
    [cs] and leaves the next name [n']. *)
Definition does {A} (m : SM Engine A) (n : Handle) (a : A) (cs : list Call) (n' : Handle) : Prop :=
  forall calls, m (mkEngine calls n) = (a, mkEngine (calls ++ cs) n').

Lemma does_ret {A} (a : A) n : does (sm_ret a) n a [] n.
Proof. intros calls. by rewrite app_nil_r. Qed.

Lemma does_bind {A B} (m : SM Engine A) (f : A -> SM Engine B) n a cs n1 b cs' n' :
  does m n a cs n1 -> does (f a) n1 b cs' n' -> does (sm_bind m f) n b (cs ++ cs') n'.
Proof. intros Hm Hf calls. unfold sm_bind. by rewrite Hm, Hf, <- app_assoc. Qed.

Lemma does_emit c n : does (emit c) n tt [c] n.
Proof. done. Qed.

Lemma does_create c n : does (create c) n n [c n] (S n).
Proof. done. Qed.

Lemma does_restart n : does restart n tt [] 0%nat.
Proof. intros calls. unfold restart, sm_modify. cbn. by rewrite app_nil_r. Qed.

Ltac does :=
  repeat match goal with
  | |- does (sm_bind _ _) _ _ _ _ => eapply does_bind
  | |- does (emit _) _ _ _ _ => apply does_emit
  | |- does (create _) _ _ _ _ => apply does_create
  | |- does (sm_ret _) _ _ _ _ => apply does_ret
  | |- does restart _ _ _ _ => apply does_restart
  end.

#[local] Opaque createTerrain createCube createCapsule createSphere.

(** ** What is built *)

Definition things0 : Things :=
  mkThings 0 1 2 (mkMesh 3 4 (md_box createTerrain)) (mkMesh 5 6 (md_box (createCube kCubeSize)))
    (mkMesh 7 8 (md_box (createCapsule kPlayerRadius kPlayerHalfHeight 16 6))) 9 10 11 12 13 14
    (mkMesh 15 16 (md_box (createSphere kCelestialRadius 24 12)))
    (mkMesh 17 18 (md_box (createSphere kMarkerRadius 24 12))) 19 20 21 22.

Definition entity (uses : list Handle) (shown : bool) (t : option Mat4) : Object :=
  mkObject KEntity uses shown t.
Definition plain (k : Kind) (uses : list Handle) : Object := mkObject k uses false None.

(** The objects a built scene owns, with the places of the cube, the sun and
    the moon, and whether sun and moon are shown. *)
Definition base (cube : Mat4) (sun moon : option Mat4) (s m : bool) : gmap Handle Object :=
  list_to_map
    [(0%nat, plain KMaterial []); (1%nat, plain KInstance [0%nat]); (2%nat, plain KInstance [0%nat]);
     (3%nat, plain KVertexBuffer []); (4%nat, plain KIndexBuffer []);
     (5%nat, plain KVertexBuffer []); (6%nat, plain KIndexBuffer []);
     (7%nat, plain KVertexBuffer []); (8%nat, plain KIndexBuffer []);
     (9%nat, entity [1; 3; 4]%nat true None); (10%nat, entity [2; 5; 6]%nat true (Some cube));
     (11%nat, entity [] true None); (12%nat, mkObject KIndirectLight [] true None);
     (13%nat, plain KMaterial []); (14%nat, plain KMaterial []);
     (15%nat, plain KVertexBuffer []); (16%nat, plain KIndexBuffer []);
     (17%nat, plain KVertexBuffer []); (18%nat, plain KIndexBuffer []);
     (19%nat, plain KInstance [14%nat]); (20%nat, plain KInstance [14%nat]);
     (21%nat, entity [19; 15; 16]%nat s sun); (22%nat, entity [20; 15; 16]%nat m moon)].

Definition cube_rest : Mat4 := translation (mkVec3 f32_zero (kCubeSize * lit32 1 2)%f32 f32_zero).

Lemma build_things_spec n :
  exists cs, does build_things n things0 cs 23%nat /\
    ledger cs ∅ = Some (base cube_rest None None false false).
Proof.
  eexists. split.
  - unfold build_things, lit_instance, upload, renderable. does.
  - reflexivity.
Qed.
(** The base by itself: its names are the first 23, and what it uses is of it. *)
Lemma base_fresh cube sun moon s m h : (23 <= h)%nat -> base cube sun moon s m !! h = None.
Proof.
  intros Hh. apply not_elem_of_list_to_map_1. cbn. rewrite !elem_of_cons, elem_of_nil. lia.
Qed.

Lemma base_uses cube sun moon s m h o u :
  base cube sun moon s m !! h = Some o -> u ∈ ob_uses o -> (u < 23)%nat.
Proof.
  intros Ho%elem_of_list_to_map_2 Hu. revert h o Ho u Hu. cut (Forall (fun ho : Handle * Object =>
    Forall (fun u => (u < 23)%nat) (ob_uses ho.2)) (map_to_list (base cube sun moon s m))).
  - intros Hall h o Ho u Hu. rewrite Forall_forall in Hall.
    assert (Hin : (h, o) ∈ map_to_list (base cube sun moon s m)).
    { apply elem_of_map_to_list, elem_of_list_to_map_1; [|done].
      apply (bool_decide_eq_true_1 (NoDup _)). reflexivity. }
    apply Hall in Hin. rewrite Forall_forall in Hin. by apply Hin.
  - unfold base. rewrite map_to_list_to_map by (apply (bool_decide_eq_true_1 (NoDup _)); reflexivity).
    repeat constructor; cbn; lia.
Qed.

(** ** Players *)

(** The objects of a player's body, with the places of body and marker. *)
Definition shape (v : PlayerVisual) (body marker : option Mat4) (L : gmap Handle Object)
    : gmap Handle Object :=
  <[pv_entity v := entity [pv_material v; 7; 8]%nat true body]>
  (<[pv_material v := plain KInstance [13%nat]]>
  (<[pv_marker v := entity [pv_markerMaterial v; 17; 18]%nat true marker]>
  (<[pv_markerMaterial v := plain KInstance [14%nat]]> L))).

(** Where [Application] has the player. *)
Definition body_of (a : Application.PlayerVisual) : Mat4 :=
  body_transform (Application.pv_position a) (Application.pv_rotation a).

Definition full (v : PlayerVisual) (a : Application.PlayerVisual) : gmap Handle Object ->
    gmap Handle Object := shape v (Some (body_of a)) (Some (marker_transform (body_of a))).

Definition visual_at (n : nat) : PlayerVisual := mkVisual (S (S (S n))) n (S (S n)) (S n).

(** The things the players' objects use. *)
Definition has_base (L : gmap Handle Object) : Prop :=
  forallb (fun '(k, h) => is_live k h L)
    [(KMaterial, 13%nat); (KMaterial, 14%nat); (KVertexBuffer, 7%nat); (KIndexBuffer, 8%nat);
     (KVertexBuffer, 17%nat); (KIndexBuffer, 18%nat)] = true.

Lemma has_base_insert h o L : (23 <= h)%nat -> has_base L -> has_base (<[h := o]> L).
Proof. intros Hh HL. unfold has_base in *. cbn [forallb] in *. by rewrite !is_live_ne by lia. Qed.

Lemma has_base_live L k h :
  has_base L -> (k, h) ∈ [(KMaterial, 13%nat); (KMaterial, 14%nat); (KVertexBuffer, 7%nat);
    (KIndexBuffer, 8%nat); (KVertexBuffer, 17%nat); (KIndexBuffer, 18%nat)] -> is_live k h L = true.
Proof.
  intros HL Hin. unfold has_base in HL. rewrite forallb_forall in HL.
  by apply list_elem_of_In, HL in Hin.
Qed.

Ltac live :=
  cbn [forallb]; repeat first
    [ done
    | apply andb_true_iff; split
    | apply is_live_top; reflexivity
    | rewrite is_live_ne by lia
    | eapply has_base_live; [eassumption|by rewrite !elem_of_cons; auto 10] ].

Lemma new_visual_spec local n L :
  has_base L -> (23 <= n)%nat -> (forall h, (n <= h)%nat -> L !! h = None) ->
  exists cs, does (new_visual things0 local) n (visual_at n) cs (S (S (S (S n)))) /\
    ledger cs L = Some (shape (visual_at n) None None L).
Proof.
  intros HL Hn Hf. eexists. split.
  - unfold new_visual, renderable. does.
  - assert (H0 : L !! n = None) by (apply Hf; lia).
    assert (H1 : L !! S n = None) by (apply Hf; lia).
    assert (H2 : L !! S (S n) = None) by (apply Hf; lia).
    assert (H3 : L !! S (S (S n)) = None) by (apply Hf; lia).
    cbn [app ledger ledger_step things0 mMarkerMesh mCapsuleMesh mCharacterBase mUnlitBase
      vertexBuffer indexBuffer]. rewrite created_spec by (done || live).
    rewrite !changed_top by (done || live).
    rewrite created_spec by (rewrite ?lookup_insert_ne by lia; (done || live)).
    rewrite changed_top by (done || live).
    rewrite created_spec by (rewrite ?lookup_insert_ne by lia; (done || live)).
    rewrite !changed_top by (done || live).
    rewrite created_spec by (rewrite ?lookup_insert_ne by lia; (done || live)).
    rewrite !changed_top by (done || live).
    cbn. unfold shape, visual_at. cbn [pv_entity pv_material pv_marker pv_markerMaterial].
    rewrite (insert_insert_ne _ (S n) n), (insert_insert_ne _ (S (S n)) n) by lia. done.
Qed.

(** Moving a body. *)
Definition move_calls (v : PlayerVisual) (body : Mat4) : list Call :=
  [SetTransform (pv_entity v) body; SetTransform (pv_marker v) (marker_transform body)].

Lemma move_spec n body b m L :
  ledger (move_calls (visual_at n) body) (shape (visual_at n) b m L) =
  Some (shape (visual_at n) (Some body) (Some (marker_transform body)) L).
Proof.
  unfold move_calls, shape, visual_at. cbn [ledger ledger_step pv_entity pv_marker pv_material
    pv_markerMaterial]. rewrite changed_top by done.
  erewrite changed_ne; [|lia|apply changed_ne; [lia|by apply changed_top]]. done.
Qed.

(** Ending a body. *)
Definition remove_calls (v : PlayerVisual) : list Call :=
  [RemoveEntity (pv_entity v); DestroyComponents (pv_entity v); DestroyEntity (pv_entity v)]
  ++ [DestroyObject (pv_material v)]
  ++ [RemoveEntity (pv_marker v); DestroyComponents (pv_marker v); DestroyEntity (pv_marker v)]
  ++ [DestroyObject (pv_markerMaterial v)].

Lemma remove_visual_does v n : does (remove_visual v) n tt (remove_calls v) n.
Proof.
  intros calls. unfold remove_visual, end_entity, emit, sm_bind, sm_modify.
  cbn. by rewrite <- !app_assoc.
Qed.

(** Names from [n] on are those of the body about to end: nothing else has them
    or uses them. *)
Definition apart_from (n : nat) (L : gmap Handle Object) : Prop :=
  apart [n; S n; S (S n); S (S (S n))] L.

Lemma unused_apart hs h L : apart hs L -> h ∈ hs -> unused h L = true.
Proof. intros HL Hh. apply unused_spec. intros h' o Ho Hin. by apply (HL h' o Ho) in Hin. Qed.

Lemma unused_insert h h' o L : h ∉ ob_uses o -> unused h L = true -> unused h (<[h' := o]> L) = true.
Proof.
  intros Ho HL. apply unused_spec. intros k o' [[<- <-]|[Hne Ho']]%lookup_insert_Some; [done|].
  by eapply unused_spec.
Qed.

Lemma remove_spec n b m L :
  (23 <= n)%nat -> apart_from n L ->
  ledger (remove_calls (visual_at n)) (shape (visual_at n) b m L) = Some L.
Proof.
  intros Hn HL.
  assert (Hin : forall h, h ∈ [n; S n; S (S n); S (S (S n))] -> L !! h = None /\ unused h L = true).
  { intros h Hh. split; [by eapply apart_lookup|by eapply unused_apart]. }
  destruct (Hin n) as [A0 B0]; [set_solver|]. destruct (Hin (S n)) as [A1 B1]; [set_solver|].
  destruct (Hin (S (S n))) as [A2 B2]; [set_solver|].
  destruct (Hin (S (S (S n)))) as [A3 B3]; [set_solver|].
  unfold remove_calls, shape, visual_at. cbn [pv_entity pv_marker pv_material pv_markerMaterial].
  erewrite ledger_app_Some; [|apply end_entity_top].
  - erewrite ledger_app_Some; [|apply destroy_object_top].
    + erewrite ledger_app_Some; [|apply end_entity_top].
      * apply destroy_object_top; cbn; try done. set_solver by lia.
      * by rewrite lookup_insert_ne by lia.
      * done.
      * apply unused_insert; [cbn; set_solver by lia|done].
    + by rewrite !lookup_insert_ne by lia.
    + done.
    + done.
    + cbn. set_solver by lia.
    + repeat apply unused_insert; cbn; try done; set_solver by lia.
  - by rewrite !lookup_insert_ne by lia.
  - done.
  - repeat apply unused_insert; cbn; try done; set_solver by lia.
Qed.

(** ** All the players *)

(** The names of the body made at [n]. *)
Definition block (n h : nat) : Prop := (n <= h < n + 4)%nat.

#[global] Instance block_dec n h : Decision (block n h).
Proof. unfold block. apply _. Defined.

Lemma shape_in n b m L h :
  block n h -> shape (visual_at n) b m L !! h = shape (visual_at n) b m ∅ !! h.
Proof.
  unfold block, shape, visual_at. cbn [pv_entity pv_material pv_marker pv_markerMaterial]. intros Hh.
  assert (h = n \/ h = S n \/ h = S (S n) \/ h = S (S (S n))) as [->|[->|[->| ->]]] by lia;
    repeat first [ rewrite lookup_insert_ne by lia | rewrite !lookup_insert_eq ]; done.
Qed.

Lemma shape_out n b m L h : ~ block n h -> shape (visual_at n) b m L !! h = L !! h.
Proof.
  unfold block, shape, visual_at. cbn [pv_entity pv_material pv_marker pv_markerMaterial]. intros Hh.
  by rewrite !lookup_insert_ne by lia.
Qed.

Lemma shape_object n b m h o :
  shape (visual_at n) b m ∅ !! h = Some o ->
  ob_kind o <> KIndirectLight /\
  forall u, u ∈ ob_uses o -> u ∈ [7; 8; 13; 14; 17; 18]%nat \/ block n u.
Proof.
  unfold block, shape, visual_at. cbn [pv_entity pv_material pv_marker pv_markerMaterial].
  intros Ho. repeat (apply lookup_insert_Some in Ho as [[<- <-]|[_ Ho]];
    [split; [done|]; intros u; cbn; rewrite !elem_of_cons, elem_of_nil; lia|]).
  by rewrite lookup_empty in Ho.
Qed.

(** The players' bodies [F]: of each player of [P] one, at names of its own
    before [next], where [A] has the player, and nothing else. *)
Record players (P : gmap Z PlayerVisual) (A : gmap Z Application.PlayerVisual)
    (F : gmap Handle Object) (next : nat) : Prop := {
  pl_body : forall id v, P !! id = Some v -> exists n a,
    v = visual_at n /\ (23 <= n)%nat /\ (n + 4 <= next)%nat /\ A !! id = Some a /\
    forall h, block n h -> F !! h = full (visual_at n) a ∅ !! h;
  pl_none : forall id, P !! id = None -> A !! id = None;
  pl_apart : forall id id' n n' h, P !! id = Some (visual_at n) -> P !! id' = Some (visual_at n') ->
    block n h -> block n' h -> id = id';
  pl_cover : forall h, is_Some (F !! h) ->
    exists id n, P !! id = Some (visual_at n) /\ block n h;
}.

Lemma players_empty next : players ∅ ∅ ∅ next.
Proof.
  split.
  - intros id v Hv. by rewrite lookup_empty in Hv.
  - done.
  - intros id id' n n' h Hv. by rewrite lookup_empty in Hv.
  - intros h [o Ho]. by rewrite lookup_empty in Ho.
Qed.

Lemma visual_at_inj n n' : visual_at n = visual_at n' -> n = n'.
Proof. by injection 1. Qed.

(** A player who comes, or comes back. *)
Lemma players_insert P A F next id n a next' :
  players P A F next -> P !! id = None -> (23 <= n)%nat -> (n + 4 <= next')%nat ->
  (next <= next')%nat -> (forall h, block n h -> F !! h = None) ->
  (forall id' n' h, P !! id' = Some (visual_at n') -> block n h -> ~ block n' h) ->
  players (<[id := visual_at n]> P) (<[id := a]> A) (full (visual_at n) a F) next'.
Proof.
  intros [Hb Hn Ha Hc] Hid Hlow Hhigh Hle HF Hap. split.
  - intros i v [[<- <-]|[Hne Hv]]%lookup_insert_Some.
    + exists n, a. split_and!; [done|done|done| |].
      * by rewrite lookup_insert_eq.
      * intros h Hh. by apply shape_in.
    + destruct (Hb i v Hv) as (n' & a' & -> & H1 & H2 & H3 & H4). exists n', a'.
      split_and!; [done|done|lia|by rewrite lookup_insert_ne|].
      intros h Hh. unfold full. rewrite shape_out; [by apply H4|]. intros Hh'.
      by apply (Hap i n' h Hv Hh').
  - intros i [Hi Hne]%lookup_insert_None. rewrite lookup_insert_ne by done. by apply Hn.
  - intros i i' m m' h [[<- Hm]|[Hi Hv]]%lookup_insert_Some
      [[<- Hm']|[Hi' Hv']]%lookup_insert_Some Hh Hh'; try done.
    + apply visual_at_inj in Hm as ->. by destruct (Hap i' m' h Hv' Hh).
    + apply visual_at_inj in Hm' as ->. by destruct (Hap i m h Hv Hh').
    + by eapply (Ha i i' m m' h).
  - intros h Hh. destruct (decide (block n h)) as [Hin|Hout].
    + exists id, n. by rewrite lookup_insert_eq.
    + unfold full in Hh. rewrite shape_out in Hh by done.
      destruct (Hc h Hh) as (i & m & Hv & Hm). exists i, m. split; [|done].
      rewrite lookup_insert_ne; [done|]. intros ->. congruence.
Qed.

(** A player who goes: the rest, without what goes. *)
Lemma players_extract P A F next id v :
  players P A F next -> P !! id = Some v ->
  exists n a F', v = visual_at n /\ (23 <= n)%nat /\ (n + 4 <= next)%nat /\ A !! id = Some a /\
    F = full v a F' /\ players (delete id P) (delete id A) F' next /\ apart_from n F' /\
    (forall h, block n h -> F' !! h = None) /\
    (forall id' n' h, delete id P !! id' = Some (visual_at n') -> block n h -> ~ block n' h).
Proof.
  intros [Hb Hn Ha Hc] Hv. destruct (Hb id v Hv) as (n & a & -> & H1 & H2 & H3 & H4).
  set (F' := filter (fun ho => ~ block n ho.1) F).
  assert (HF' : forall h, F' !! h = if decide (block n h) then None else F !! h).
  { intros h. unfold F'. rewrite map_lookup_filter. destruct (F !! h) as [o|]; cbn; case_decide as Hh;
      [rewrite option_guard_False|rewrite option_guard_True| |]; try done. by intros K. }
  assert (Hother : forall i m h, delete id P !! i = Some (visual_at m) -> block n h -> ~ block m h).
  { intros i m h [Hne Hi]%lookup_delete_Some Hh Hm. by destruct Hne, (Ha i id m n h). }
  assert (Hin : forall h o, F' !! h = Some o -> exists i m a', delete id P !! i = Some (visual_at m) /\
    A !! i = Some a' /\ block m h /\ (23 <= m)%nat /\ full (visual_at m) a' ∅ !! h = Some o).
  { intros h o Ho. rewrite HF' in Ho. case_decide as Hh; [done|].
    destruct (Hc h ltac:(by eexists)) as (i & m & Hi & Hm). exists i, m.
    destruct (Hb i _ Hi) as (m' & a' & <-%visual_at_inj & K1 & K2 & K3 & K4). exists a'.
    rewrite <- K4, Ho by done. split_and!; try done. rewrite lookup_delete_ne; [done|].
    intros ->. by rewrite Hv in Hi; apply (inj Some), visual_at_inj in Hi as ->. }
  exists n, a, F'. split_and!; try done.
  - apply map_eq. intros h. unfold full. destruct (decide (block n h)) as [Hh|Hh].
    + rewrite shape_in by done. by apply H4.
    + rewrite shape_out, HF' by done. by rewrite decide_False.
  - split.
    + intros i v [Hne Hi]%lookup_delete_Some. destruct (Hb i v Hi) as (m & a' & -> & K1 & K2 & K3 & K4).
      exists m, a'. split_and!; [done|done|done|by rewrite lookup_delete_ne|].
      intros h Hh. rewrite HF', decide_False; [by apply K4|]. intros Hn'.
      apply (Hother i m h); [by apply lookup_delete_Some|done|done].
    + intros i [->|Hi]%lookup_delete_None; [by rewrite lookup_delete_eq|].
      apply lookup_delete_None. right. by apply Hn.
    + intros i i' m m' h [_ Hi]%lookup_delete_Some [_ Hi']%lookup_delete_Some. by apply Ha.
    + intros h [o Ho]. destruct (Hin h o Ho) as (i & m & _ & Hi & _ & Hm & _). by exists i, m.
  - intros h o Ho. destruct (Hin h o Ho) as (i & m & a' & Hi & _ & Hm & K & Hfull).
    assert (Hnot : forall u, u ∈ [n; S n; S (S n); S (S (S n))] -> block n u).
    { intros u Hu. rewrite !elem_of_cons, elem_of_nil in Hu. unfold block. lia. }
    split; [intros Hh%Hnot; by apply (Hother i m h)|].
    intros u Hu Hh%Hnot. destruct (proj2 (shape_object _ _ _ _ _ Hfull) u Hu) as [Hlow|Hm'];
      [|by apply (Hother i m u)].
    rewrite !elem_of_cons, elem_of_nil in Hlow. unfold block in Hh. lia.
  - intros h Hh. by rewrite HF', decide_True.
Qed.

Lemma players_object P A F next h o :
  players P A F next -> F !! h = Some o ->
  (23 <= h < next)%nat /\ ob_kind o <> KIndirectLight /\
  forall u, u ∈ ob_uses o -> u ∈ [7; 8; 13; 14; 17; 18]%nat \/ (23 <= u)%nat.
Proof.
  intros [Hb _ _ Hc] Ho. destruct (Hc h ltac:(by eexists)) as (i & n & Hi & Hn).
  destruct (Hb i _ Hi) as (n' & a & <-%visual_at_inj & K1 & K2 & _ & K4).
  rewrite K4 in Ho by done. apply shape_object in Ho as [Hk Hu]. unfold block in *.
  split_and!; [lia|lia|done|]. intros u [Hl|Hr]%Hu; [by left|right; lia].
Qed.

Lemma players_apart P A F next hs :
  players P A F next -> Forall (fun h => (h < 23)%nat /\ h ∉ [7; 8; 13; 14; 17; 18]%nat) hs ->
  apart hs F.
Proof.
  intros HP Hhs h o Ho. destruct (players_object _ _ _ _ _ _ HP Ho) as (H1 & _ & H2).
  rewrite Forall_forall in Hhs. split.
  - intros Hh%Hhs. lia.
  - intros u [Hu|Hu]%H2 Hin%Hhs; [by apply Hin|lia].
Qed.

Lemma players_no_indirect P A F next : players P A F next -> no_indirect F.
Proof. intros HP h o Ho. by apply (players_object _ _ _ _ _ _ HP Ho). Qed.

(** A part of the ledger below the players' names. *)
Definition low (B : gmap Handle Object) : Prop :=
  forall h o, B !! h = Some o -> (h < 23)%nat /\ forall u, u ∈ ob_uses o -> (u < 23)%nat.

Lemma base_low cube sun moon s m : low (base cube sun moon s m).
Proof.
  intros h o Ho. split; [|intros u Hu; by eapply base_uses].
  destruct (decide (h < 23)%nat); [done|]. rewrite base_fresh in Ho by lia. done.
Qed.

Lemma low_none B h : low B -> (23 <= h)%nat -> B !! h = None.
Proof. intros HB Hh. apply eq_None_not_Some. intros [o [Ho _]%HB]. lia. Qed.

Lemma players_disjoint B P A F next : low B -> players P A F next -> B ##ₘ F.
Proof.
  intros HB HP. apply map_disjoint_spec. intros h o o' [Ho _]%HB Ho'.
  apply (players_object _ _ _ _ _ _ HP) in Ho'. lia.
Qed.

Lemma shape_union B n b m F :
  low B -> (23 <= n)%nat ->
  shape (visual_at n) b m (B ∪ F) = B ∪ shape (visual_at n) b m F.
Proof.
  intros HB Hn. unfold shape, visual_at. cbn [pv_entity pv_material pv_marker pv_markerMaterial].
  by rewrite !insert_union_r by (apply low_none; [done|lia]).
Qed.

Lemma low_apart B n : low B -> (23 <= n)%nat -> apart_from n B.
Proof.
  intros HB Hn h o [Hh Hu]%HB. rewrite !not_elem_of_cons. split; [split_and!; try lia; apply not_elem_of_nil|].
  intros u Hin%Hu. rewrite !not_elem_of_cons. split_and!; try lia. apply not_elem_of_nil.
Qed.

(** Calls on the base leave the players alone. *)
Lemma base_calls cs B B' P A F next :
  ledger cs B = Some B' -> low B -> players P A F next ->
  Forall (fun h => (h < 23)%nat /\ h ∉ [7; 8; 13; 14; 17; 18]%nat) (mjoin (touched <$> cs)) ->
  ledger cs (B ∪ F) = Some (B' ∪ F).
Proof.
  intros Hcs HB HP Ht. eapply ledger_frame; [done|by eapply players_disjoint| |].
  - by eapply players_apart.
  - intros _. by eapply players_no_indirect.
Qed.

(** ** The loop that removes players *)

Lemma remove_absent_spec present B n ids : forall P A F,
  low B -> players P A F n ->
  exists P' A' F' cs, does (remove_absent present ids P) n P' cs n /\
    ledger cs (B ∪ F) = Some (B ∪ F') /\ players P' A' F' n /\
    forall id, A' !! id = if decide (id ∈ ids /\ id ∉ present) then None else A !! id.
Proof.
  induction ids as [|id ids IH]; intros P A F HB HP; cbn [remove_absent].
  { exists P, A, F, []. split_and!; [apply does_ret|done|done|].
    intros i. rewrite decide_False; [done|]. intros [Hi _]. by apply elem_of_nil in Hi. }
  assert (Hskip : (id ∈ present \/ A !! id = None) ->
    exists P' A' F' cs, does (remove_absent present ids P) n P' cs n /\
      ledger cs (B ∪ F) = Some (B ∪ F') /\ players P' A' F' n /\
      forall i, A' !! i = if decide (i ∈ id :: ids /\ i ∉ present) then None else A !! i).
  { intros Hid. destruct (IH P A F HB HP) as (P' & A' & F' & cs & H1 & H2 & H3 & H4).
    exists P', A', F', cs. split_and!; [done..|]. intros i. rewrite H4.
    destruct (decide (i = id)) as [->|Hne]; [|repeat case_decide; set_solver].
    destruct Hid as [Hid|Hid]; [by rewrite !decide_False by set_solver|].
    rewrite Hid. by repeat case_decide. }
  destruct (P !! id) as [v|] eqn:Hv; [|apply Hskip; right; by apply (pl_none _ _ _ _ HP)].
  destruct (bool_decide (id ∈ present)) eqn:Hp;
    [apply Hskip; left; by apply bool_decide_eq_true in Hp|].
  apply bool_decide_eq_false in Hp.
  destruct (players_extract P A F n id v HP Hv)
    as (k & a & F1 & -> & K1 & K2 & K3 & -> & HP1 & Hap & _ & _).
  destruct (IH _ _ _ HB HP1) as (P' & A' & F' & cs & H1 & H2 & H3 & H4).
  exists P', A', F', (remove_calls (visual_at k) ++ cs). split_and!; [| |done|].
  - eapply does_bind; [apply remove_visual_does|done].
  - unfold full. rewrite <- shape_union by done. rewrite ledger_app, remove_spec; [done|done|].
    apply apart_union; [by apply low_apart|done].
  - intros i. rewrite H4. destruct (decide (i = id)) as [->|Hne].
    + rewrite lookup_delete_eq. rewrite (decide_True (P := id ∈ id :: ids /\ _)) by set_solver.
      by case_decide.
    + rewrite lookup_delete_ne by done. repeat case_decide; set_solver.
Qed.

(** ** The scene and what is shown of it *)

Definition cube_at (a : Application.DemoScene) : Mat4 :=
  match Application.sc_cube a with
  | Some (position, rotation) => body_transform position rotation
  | None => cube_rest
  end.

(** The scene [s], the scene [a] as [Application] has it, the engine's live
    objects and the next name. *)
Definition scene_rel (s : DemoScene) (a : Application.DemoScene) (L : gmap Handle Object)
    (next : nat) : Prop :=
  match sc_things s with
  | None =>
      a = Application.new_scene /\ L = ∅ /\ mPlayers s = ∅ /\
      mSunDiscInScene s = false /\ mMoonDiscInScene s = false
  | Some t =>
      t = things0 /\ Application.mLoaded a = true /\ (23 <= next)%nat /\
      exists sun moon F,
        L = base (cube_at a) sun moon (mSunDiscInScene s) (mMoonDiscInScene s) ∪ F /\
        players (mPlayers s) (Application.mPlayers a) F next
  end.

(** What an operation has to do: stay in step with [Application], with calls
    that keep the rules. *)
Definition keeps_rel (m : SM Engine DemoScene) (a' : Application.DemoScene) (L : gmap Handle Object)
    (n : nat) : Prop :=
  exists s' cs n' L', does m n s' cs n' /\ ledger cs L = Some L' /\ scene_rel s' a' L' n'.

Lemma build_keeps s a L n : scene_rel s a L n -> keeps_rel (build s) (Application.build a) L n.
Proof.
  unfold scene_rel, keeps_rel, build. destruct (sc_things s) as [t|] eqn:Et.
  - intros (-> & Hl & Hrel). exists s, [], n, L. split_and!; [apply does_ret|done|].
    unfold scene_rel, Application.build. by rewrite Et, Hl.
  - intros (-> & -> & Hp & Hs & Hm). destruct (build_things_spec n) as (cs & Hd & Hcs).
    do 3 eexists. exists (base cube_rest None None false false). split_and!.
    + eapply does_bind; [done|apply does_ret].
    + by rewrite app_nil_r.
    + unfold scene_rel. cbn. rewrite Hp, Hs, Hm. split_and!; [done|done|lia|].
      exists None, None, ∅. rewrite map_union_empty. split; [done|]. apply players_empty.
Qed.

Lemma entity_keeps id p q s a L n :
  scene_rel s a L n ->
  keeps_rel (setEntityTransform id p q s;; sm_ret s)%sm (Application.setEntityTransform id p q a) L n.
Proof.
  unfold scene_rel, keeps_rel, setEntityTransform, Application.setEntityTransform.
  destruct (sc_things s) as [t|] eqn:Et.
  - intros (-> & Hl & Hn & sun & moon & F & -> & HP). rewrite Hl. cbn [negb orb].
    destruct (negb (id =? 1)).
    + do 4 eexists. split_and!; [eapply does_bind; apply does_ret|done|].
      unfold scene_rel. rewrite Et. split_and!; [done..|]. by exists sun, moon, F.
    + do 4 eexists. split_and!; [eapply does_bind; [apply does_emit|apply does_ret]| |].
      * eapply base_calls; [reflexivity|apply base_low|done|]. constructor.
      * unfold scene_rel. rewrite Et. split_and!; [done..|]. exists sun, moon, F. split; [|done].
        reflexivity.
  - intros (-> & Hrel). do 4 eexists. split_and!; [eapply does_bind; apply does_ret|done|].
    unfold scene_rel. rewrite Et. done.
Qed.

Lemma base_has_base cube sun moon s m F : has_base (base cube sun moon s m ∪ F).
Proof.
  unfold has_base. cbn [forallb]. rewrite !is_live_union by reflexivity. done.
Qed.

Lemma move_does {A} (v : PlayerVisual) (body : Mat4) (x : A) n :
  does (emit (SetTransform (pv_entity v) body);;
        emit (SetTransform (pv_marker v) (marker_transform body));; sm_ret x)%sm n x
    (move_calls v body) n.
Proof.
  intros calls. unfold emit, sm_bind, sm_modify, sm_ret. cbn. by rewrite <- app_assoc.
Qed.

Lemma player_keeps id local p q s a L n :
  scene_rel s a L n ->
  keeps_rel (setPlayerTransform id local p q s) (Application.setPlayerTransform id local p q a) L n.
Proof.
  unfold scene_rel, keeps_rel, setPlayerTransform, Application.setPlayerTransform.
  destruct (sc_things s) as [t|] eqn:Et.
  2: { intros (-> & Hrel). do 4 eexists. split_and!; [apply does_ret|done|].
       unfold scene_rel. rewrite Et. done. }
  intros (-> & Hl & Hn & sun & moon & F & -> & HP). rewrite Hl. cbn [negb].
  set (B := base _ sun moon _ _). assert (HB : low B) by apply base_low.
  destruct (mPlayers s !! id) as [v|] eqn:Hv.
  - destruct (players_extract _ _ _ _ _ _ HP Hv) as (k & b & F1 & -> & K1 & K2 & -> & -> & HP1 & Hap &
      Hf & Ho).
    set (vis := Application.mkVisual _ p q).
    exists (mkScene (Some things0) (mSunDiscInScene s) (mMoonDiscInScene s)
      (<[id := visual_at k]> (mPlayers s))), (move_calls (visual_at k) (body_of vis)), n,
      (B ∪ full (visual_at k) vis F1). split_and!.
    + apply (does_bind _ _ _ (visual_at k) [] n); [apply does_ret|]. apply move_does.
    + unfold full. rewrite <- !shape_union by done. by apply move_spec.
    + split_and!; [done|done|done|]. exists sun, moon, (full (visual_at k) vis F1). split; [done|].
      cbn. rewrite <- (insert_delete_eq (mPlayers s)), <- (insert_delete_eq (Application.mPlayers a)).
      apply (players_insert _ _ _ n); try done. by rewrite lookup_delete_eq.
  - assert (Hfresh : forall h, (n <= h)%nat -> (B ∪ F) !! h = None).
    { intros h Hh. apply lookup_union_None. split; [apply low_none; [done|lia]|].
      apply eq_None_not_Some. intros [o Hh']. apply (players_object _ _ _ _ _ _ HP) in Hh'. lia. }
    destruct (new_visual_spec local n (B ∪ F)) as (cs & Hd & Hcs);
      [apply base_has_base|done|done|].
    rewrite (pl_none _ _ _ _ HP) by done. set (vis := Application.mkVisual _ p q).
    exists (mkScene (Some things0) (mSunDiscInScene s) (mMoonDiscInScene s)
      (<[id := visual_at n]> (mPlayers s))), (cs ++ move_calls (visual_at n) (body_of vis)),
      (S (S (S (S n)))), (B ∪ full (visual_at n) vis F). split_and!.
    + eapply does_bind; [done|]. apply move_does.
    + rewrite ledger_app, Hcs. unfold full. rewrite <- shape_union by done. by apply move_spec.
    + split_and!; [done|done|cbn; lia|]. exists sun, moon, (full (visual_at n) vis F). split; [done|].
      apply (players_insert _ _ _ n); try done; try lia.
      * intros h Hh. unfold block in Hh. eapply lookup_union_None, Hfresh. lia.
      * intros i k h Hi Hh Hk. destruct (pl_body _ _ _ _ HP i _ Hi) as (k' & b & <-%visual_at_inj &
          _ & K & _). unfold block in *. lia.
Qed.

Lemma absent_keeps present s a L n :
  scene_rel s a L n ->
  keeps_rel (removeAbsentPlayers present s) (Application.removeAbsentPlayers present a) L n.
Proof.
  unfold scene_rel, keeps_rel, removeAbsentPlayers. destruct (sc_things s) as [t|] eqn:Et.
  - intros (-> & Hl & Hn & sun & moon & F & -> & HP).
    destruct (remove_absent_spec present _ n (map_keys (mPlayers s)) _ _ _
      (base_low (cube_at a) sun moon (mSunDiscInScene s) (mMoonDiscInScene s)) HP)
      as (P' & A' & F' & cs & Hd & Hcs & HP' & HA).
    do 4 eexists. split_and!; [eapply does_bind; [done|apply does_ret]|by rewrite app_nil_r|].
    unfold scene_rel. cbn. split_and!; [done|done|done|]. exists sun, moon, F'.
    split; [done|].
    replace (filter _ (Application.mPlayers a)) with A'; [done|]. apply map_eq. intros i. rewrite HA.
    rewrite map_lookup_filter. destruct (Application.mPlayers a !! i) as [b|] eqn:Hb;
      [|by case_decide]. cbn.
    assert (Hi : i ∈ map_keys (mPlayers s)).
    { apply elem_of_map_keys. destruct (mPlayers s !! i) eqn:Hi; [by eexists|].
      by rewrite (pl_none _ _ _ _ HP) in Hb. }
    destruct (decide (i ∈ present)).
    + rewrite option_guard_True by done. by rewrite decide_False by naive_solver.
    + rewrite option_guard_False by done. by rewrite decide_True.
  - intros (-> & -> & Hp & Hs & Hm). rewrite Hp. do 4 eexists.
    split_and!; [eapply does_bind; apply does_ret|done|]. unfold scene_rel. cbn.
    split_and!; [|done..]. reflexivity.
Qed.

Lemma show_disc_does e visible shown n :
  does (show_disc e visible shown) n visible
    (if Bool.eqb visible shown then [] else [if visible then AddEntity e else RemoveEntity e]) n.
Proof.
  unfold show_disc. destruct (Bool.eqb visible shown) eqn:E.
  - apply Bool.eqb_prop in E as ->. apply does_ret.
  - apply (does_bind _ _ _ tt [if visible then AddEntity e else RemoveEntity e] n _ []); does.
Qed.

Lemma sky_keeps sky s a L n : scene_rel s a L n -> keeps_rel (applySky sky s) a L n.
Proof.
  unfold scene_rel, keeps_rel, applySky. destruct (sc_things s) as [t|] eqn:Et.
  2: { intros Hrel. do 4 eexists. split_and!; [apply does_ret|done|].
       unfold scene_rel. by rewrite Et. }
  intros (-> & Hl & Hn & sun & moon & F & -> & HP).
  set (at_sky d := Some (translation (fm_scale d kCelestialDistance))).
  do 3 eexists. exists (base (cube_at a) (at_sky (sunDirection sky)) (at_sky (moonDirection sky))
    (sunVisible sky) (moonVisible sky) ∪ F). split_and!.
  - unfold place_disc. does. 1, 2: apply show_disc_does.
  - eapply base_calls; [|apply base_low|done|].
    + destruct (sunVisible sky), (moonVisible sky), (mSunDiscInScene s), (mMoonDiscInScene s);
        reflexivity.
    + destruct (Bool.eqb _ _), (Bool.eqb _ _), (sunVisible sky), (moonVisible sky); constructor.
  - unfold scene_rel. cbn. split_and!; [done..|]. by eexists _, _, F.
Qed.

(** What is left once entities and lights are gone. *)
Definition base_rest : gmap Handle Object :=
  list_to_map
    [(0%nat, plain KMaterial []); (1%nat, plain KInstance [0%nat]); (2%nat, plain KInstance [0%nat]);
     (3%nat, plain KVertexBuffer []); (4%nat, plain KIndexBuffer []);
     (5%nat, plain KVertexBuffer []); (6%nat, plain KIndexBuffer []);
     (7%nat, plain KVertexBuffer []); (8%nat, plain KIndexBuffer []);
     (13%nat, plain KMaterial []); (14%nat, plain KMaterial []);
     (15%nat, plain KVertexBuffer []); (16%nat, plain KIndexBuffer []);
     (17%nat, plain KVertexBuffer []); (18%nat, plain KIndexBuffer []);
     (19%nat, plain KInstance [14%nat]); (20%nat, plain KInstance [14%nat])].

Lemma base_rest_low : low base_rest.
Proof.
  assert (Hall : forallb (fun ho => (ho.1 <? 23)%nat && forallb (fun u => (u <? 23)%nat) (ob_uses ho.2))
    (map_to_list base_rest) = true) by reflexivity.
  rewrite forallb_forall in Hall. intros h o Ho.
  apply elem_of_map_to_list, list_elem_of_In, Hall, andb_true_iff in Ho as [H1 H2].
  split; [by apply Nat.ltb_lt|]. intros u Hu. rewrite forallb_forall in H2.
  by apply list_elem_of_In, H2, Nat.ltb_lt in Hu.
Qed.

Definition end_calls (e : Handle) : list Call := [RemoveEntity e; DestroyComponents e; DestroyEntity e].

Lemma end_entity_does e n : does (end_entity e) n tt (end_calls e) n.
Proof.
  intros calls. unfold end_entity, emit, sm_bind, sm_modify. cbn. by rewrite <- !app_assoc.
Qed.

Lemma does_bind_assoc {A B C} (m : SM Engine A) (f : A -> SM Engine B) (g : B -> SM Engine C) n c cs n' :
  does (sm_bind (sm_bind m f) g) n c cs n' -> does (sm_bind m (fun a => sm_bind (f a) g)) n c cs n'.
Proof. intros Hd calls. rewrite <- Hd. unfold sm_bind. by destruct (m _). Qed.

(** The first half of [destroy], up to the players. *)
Definition unlit_calls : list Call :=
  mjoin (end_calls <$> [9; 10; 11; 21; 22]%nat) ++ [SetIndirectLight None; DestroyObject 12%nat].

Lemma unlit_spec cube sun moon s m :
  ledger unlit_calls (base cube sun moon s m) = Some base_rest.
Proof. destruct s, m; reflexivity. Qed.

(** The second half. *)
Definition bare_calls : list Call :=
  DestroyObject <$> [3; 4; 5; 6; 7; 8; 17; 18; 15; 16; 1; 2; 19; 20; 0; 14; 13]%nat.

Lemma bare_spec : ledger bare_calls base_rest = Some ∅.
Proof. reflexivity. Qed.

Lemma players_none F n A : players ∅ A F n -> F = ∅ /\ A = ∅.
Proof.
  intros HP. split.
  - apply map_eq. intros h. rewrite lookup_empty. apply eq_None_not_Some. intros Hh.
    destruct (pl_cover _ _ _ _ HP h Hh) as (i & k & Hi & _). by rewrite lookup_empty in Hi.
  - apply map_eq. intros i. rewrite lookup_empty. by apply (pl_none _ _ _ _ HP).
Qed.

Lemma destroy_keeps s a L n : scene_rel s a L n -> keeps_rel (destroy s) (Application.destroy a) L n.
Proof.
  unfold scene_rel, keeps_rel, destroy, Application.destroy. destruct (sc_things s) as [t|] eqn:Et.
  2: { intros (-> & Hrel). do 4 eexists. split_and!; [apply does_ret|done|].
       unfold scene_rel. by rewrite Et. }
  intros (-> & Hl & Hn & sun & moon & F & -> & HP). rewrite Hl. cbn [negb].
  pose proof (base_low (cube_at a) sun moon (mSunDiscInScene s) (mMoonDiscInScene s)) as HB.
  destruct (remove_absent_spec ∅ _ n (map_keys (mPlayers s)) _ _ _ base_rest_low HP)
    as (P' & A' & F' & cs & Hd & Hcs & HP' & HA).
  assert (HP0 : P' = ∅).
  { apply map_eq. intros i. rewrite lookup_empty. apply eq_None_not_Some. intros [v Hv].
    destruct (pl_body _ _ _ _ HP' i v Hv) as (k & b & _ & _ & _ & Hb & _). rewrite HA in Hb.
    case_decide as Hi; [done|]. apply Hi. split; [|set_solver]. apply elem_of_map_keys.
    destruct (mPlayers s !! i) eqn:Hs; [by eexists|]. by rewrite (pl_none _ _ _ _ HP) in Hb. }
  subst P'. destruct (players_none _ _ _ HP') as [-> ->].
  exists (mkScene None false false ∅), (unlit_calls ++ cs ++ bare_calls), n, ∅. split_and!.
  - intros calls. unfold end_entity, destroy_mesh, removeAbsentPlayers, emit, sm_bind, sm_modify, sm_ret.
    cbn -[remove_absent map_keys]. rewrite Hd. cbn. by rewrite <- !app_assoc.
  - rewrite ledger_app. erewrite base_calls; [|apply unlit_spec|done|done|].
    + rewrite ledger_app, Hcs, map_union_empty. apply bare_spec.
    + apply (bool_decide_eq_true_1 (Forall _ _)). reflexivity.
  - unfold scene_rel. cbn. split_and!; [|done..].
    unfold Application.new_scene. f_equal. apply map_eq. intros i. rewrite lookup_empty.
    rewrite map_lookup_filter. destruct (Application.mPlayers a !! i); [|done]. cbn.
    by rewrite option_guard_False by set_solver.
Qed.

(** ** Every history *)

Definition app_op (o : SceneOp) (a : Application.DemoScene) : Application.DemoScene :=
  match o with
  | Build => Application.build a
  | Destroy => Application.destroy a
  | SetEntity id p q => Application.setEntityTransform id p q a
  | SetPlayer id local p q => Application.setPlayerTransform id local p q a
  | RemoveAbsent present => Application.removeAbsentPlayers present a
  | ApplySky _ => a
  end.

Lemma op_keeps o s a L n : scene_rel s a L n -> keeps_rel (scene_op o s) (app_op o a) L n.
Proof.
  intros Hrel. destruct o; cbn [scene_op app_op].
  - by apply build_keeps.
  - by apply destroy_keeps.
  - by apply entity_keeps.
  - by apply player_keeps.
  - by apply absent_keeps.
  - by apply sky_keeps.
Qed.

Lemma ops_keep os : forall s a L n, scene_rel s a L n ->
  keeps_rel (scene_ops os s) (foldl (fun a o => app_op o a) a os) L n.
Proof.
  induction os as [|o os IH]; intros s a L n Hrel; cbn [scene_ops foldl].
  - exists s, [], n, L. split_and!; [apply does_ret|done|done].
  - destruct (op_keeps o s a L n Hrel) as (s1 & cs & n1 & L1 & Hd & Hcs & Hrel1).
    destruct (IH _ _ _ _ Hrel1) as (s2 & cs' & n2 & L2 & Hd2 & Hcs2 & Hrel2).
    exists s2, (cs ++ cs'), n2, L2. split_and!; [by eapply does_bind| |done].
    by rewrite ledger_app, Hcs.
Qed.

(** What the engine shows of an entity. *)
Definition shown_at (h : Handle) (m : Mat4) (L : gmap Handle Object) : Prop :=
  exists o, L !! h = Some o /\ ob_shown o = true /\ ob_transform o = Some m.

(** C38: the scene keeps the rules of the rendering engine and shows the world.
    In every history of building, updates, skies, departures and teardowns, every
    object it uses is alive, none is created twice, and none is destroyed that is dead,
    shown or still used by another. Once it is torn down, nothing it created is left. And
    what it shows is what the application placed: the cube and, for exactly
    the players present, a body and a marker at the place and rotation last
    set. *)
Theorem scene_owns_objects (os : list SceneOp) :
  let '(s, e) := scene_ops os new_scene new_engine in
  let a := foldl (fun a o => app_op o a) Application.new_scene os in
  exists L, ledger (en_calls e) ∅ = Some L /\
    mLoaded s = Application.mLoaded a /\
    (mLoaded s = false -> L = ∅) /\
    (forall t p q, sc_things s = Some t -> Application.sc_cube a = Some (p, q) ->
       shown_at (mCube t) (body_transform p q) L) /\
    (forall id, mPlayers s !! id = None <-> Application.mPlayers a !! id = None) /\
    (forall id v b, mPlayers s !! id = Some v -> Application.mPlayers a !! id = Some b ->
       shown_at (pv_entity v) (body_of b) L /\
       shown_at (pv_marker v) (marker_transform (body_of b)) L).
Proof.
  destruct (ops_keep os new_scene Application.new_scene ∅ 0%nat) as (s & cs & n & L & Hd & Hcs & Hrel);
    [done|].
  unfold new_engine. rewrite Hd. cbn [en_calls app]. exists L. split; [done|].
  set (a := foldl _ _ os) in *. unfold scene_rel in Hrel. unfold mLoaded.
  destruct (sc_things s) as [t|] eqn:Et.
  - destruct Hrel as (-> & Hl & Hn & sun & moon & F & -> & HP). split_and!; [done|done| | |].
    + intros t p q [= <-] Hc. unfold cube_at. rewrite Hc.
      eexists. split; [by apply lookup_union_Some_l|done].
    + intros id. split; [by apply (pl_none _ _ _ _ HP)|]. intros Ha. apply eq_None_not_Some.
      intros [v Hv]. destruct (pl_body _ _ _ _ HP id v Hv) as (k & b & _ & _ & _ & Hb & _). congruence.
    + intros id v b Hv Hb. destruct (pl_body _ _ _ _ HP id v Hv) as (k & b' & -> & K1 & K2 & K3 & K4).
      rewrite Hb in K3. injection K3 as <-.
      assert (Hat : forall h, block k h -> (base (cube_at a) sun moon (mSunDiscInScene s)
        (mMoonDiscInScene s) ∪ F) !! h = full (visual_at k) b ∅ !! h).
      { intros h Hh. rewrite <- K4 by done. apply lookup_union_r, base_fresh.
        unfold block in Hh. lia. }
      unfold shown_at, visual_at. cbn [pv_entity pv_marker].
      rewrite !Hat by (unfold block; lia). unfold full, shape, visual_at.
      cbn [pv_entity pv_material pv_marker pv_markerMaterial].
      split; eexists.
      * split; [apply lookup_insert_eq|done].
      * split; [rewrite !lookup_insert_ne by lia; apply lookup_insert_eq|done].
  - destruct Hrel as (-> & -> & Hp & _). split_and!; try done;
      intros id; by rewrite Hp, lookup_empty.
Qed.

End SceneSpec.
