(* ===== verification/ApplicationProperties.v ===== *)
(** * What the client shows

    The screens against the network, the scene and the prediction, for every
    history of frames and input; and the ticks of input of a frame. *)

From Stdlib Require Import ZArith Lia Strings.Byte Strings.Ascii Strings.String.
From Stdlib Require Import Floats.SpecFloat.
From stdpp Require Import base list option gmap strings.
From S2P Require Import Prelude Float32 Platform Config ByteStream Protocol Snapshot Framing.
From S2P Require Import TcpServer DbClient AuthServer ClientServer.
From S2P Require Import Address Terrain Character Ticks Prediction Sockets NetClient NetClientSpec.
From S2P Require Import Widgets Screens Camera Application.

Open Scope Z_scope.

Definition playing (s : AppState) : bool := bool_decide (s = InGame \/ s = Menu).

(** Which states of the network a screen is shown with. *)
Definition network_fits (s : AppState) (n : State) : Prop :=
  match s with
  | Login => at_rest n = true
  | Connecting => n <> Idle /\ n <> InWorld
  | InGame | Menu => n = InWorld
  end.

Record app_ok {E} (a : Application E) : Prop := {
  app_net : client_ok (mNet a);
  app_network : network_fits (app_state a) (NetClient.mState (mNet a));
  app_camera : mEnabled (mCameraController (ap_screen a)) = bool_decide (app_state a = InGame);
  app_loaded : mLoaded (mDemoScene (ap_play a)) = playing (app_state a);
  app_players : playing (app_state a) = false -> mPlayers (mDemoScene (ap_play a)) = ∅;
  app_predicting : pr_active (mPrediction (ap_play a)) = true -> playing (app_state a) = true;
  app_form : form_ok (mLoginScreen (ap_screen a));
}.

Section ApplicationProperties.
Context {E : Type} `{HApi : SocketApi E} `{HRand : Rand E} `{HAtof : Atof}.
Context `{HLibm : Libm} `{HMath : FilamentMath}.
Variable getenv : string -> option string.

Abbreviation St := (Application E).
Implicit Types (a : St) (net : NetClient E).

(** ** Changes that leave the screens as they are *)

(** What may change without a change of screen: the network within its state,
    the players of a loaded scene, and the prediction of a loaded scene. *)
Record calm (a a' : St) : Prop := {
  calm_net : client_ok (mNet a) -> client_ok (mNet a');
  calm_network : NetClient.mState (mNet a') = NetClient.mState (mNet a);
  calm_state : app_state a' = app_state a;
  calm_camera : mEnabled (mCameraController (ap_screen a')) =
                mEnabled (mCameraController (ap_screen a));
  calm_loaded : mLoaded (mDemoScene (ap_play a')) = mLoaded (mDemoScene (ap_play a));
  calm_players : mLoaded (mDemoScene (ap_play a)) = false ->
    mPlayers (mDemoScene (ap_play a')) = mPlayers (mDemoScene (ap_play a));
  calm_predicting : pr_active (mPrediction (ap_play a')) = true ->
    pr_active (mPrediction (ap_play a)) = true \/ mLoaded (mDemoScene (ap_play a)) = true;
  calm_form : form_ok (mLoginScreen (ap_screen a)) -> form_ok (mLoginScreen (ap_screen a'));
}.

Lemma calm_refl a : calm a a.
Proof. split; auto. Qed.

Lemma calm_trans a1 a2 a3 : calm a1 a2 -> calm a2 a3 -> calm a1 a3.
Proof.
  intros [A1 A2 A3 A4 A5 A6 A7 A8] [B1 B2 B3 B4 B5 B6 B7 B8].
  split; try (etrans; eassumption); auto.
  - intros H. rewrite B6, A6; [done..|congruence].
  - intros [H|H]%B7; [auto|]. right. congruence.
Qed.

Lemma calm_ok a a' : calm a a' -> app_ok a -> app_ok a'.
Proof.
  intros [A1 A2 A3 A4 A5 A6 A7 A8] [B1 B2 B3 B4 B5 B6 B7].
  split; rewrite ?A2, ?A3, ?A4, ?A5; auto.
  - intros H. rewrite A6; [auto|congruence].
  - intros [H|H]%A7; [auto|congruence].
Qed.

Lemma calm_input f a : calm a (on_input f a).
Proof. by split; auto. Qed.
Lemma calm_widgets f a : calm a (on_widgets f a).
Proof. by split; auto. Qed.
Lemma calm_close a : calm a (close_window a).
Proof. by split; auto. Qed.
Lemma calm_timing t a : calm a (set_timing t a).
Proof. by split; auto. Qed.
Lemma calm_status status error a : calm a (on_login (setStatus status error) a).
Proof. by split; auto. Qed.

Lemma calm_camera_same f a :
  mEnabled (f (mCameraController (ap_screen a))) = mEnabled (mCameraController (ap_screen a)) ->
  calm a (on_camera f a).
Proof. by split; auto. Qed.

Lemma calm_prediction f a :
  (pr_active (f (mPrediction (ap_play a))) = true -> pr_active (mPrediction (ap_play a)) = true) ->
  calm a (on_prediction f a).
Proof. split; auto. Qed.

Lemma calm_smoothing t a : calm a (on_prediction (updateSmoothing t) a).
Proof. by apply calm_prediction. Qed.

Lemma calm_form_ok l a : form_ok l -> calm a (on_login (fun _ => l) a).
Proof. intros Hl. by split; auto. Qed.

Lemma calm_sendInput forward sideways yaw jump sprint sequence a :
  calm a (set_net (sendInput forward sideways yaw jump sprint sequence (mNet a)) a).
Proof.
  destruct (sendInput_quiet forward sideways yaw jump sprint sequence (mNet a)) as [(Hs & _) _].
  split; auto. intros Hok.
  by apply (run_op_step (OpInput forward sideways yaw jump sprint sequence)).
Qed.

Lemma step_active forward sideways yaw jump sprint p :
  pr_active (Prediction.step forward sideways yaw jump sprint p).2 = pr_active p.
Proof. unfold Prediction.step. by destruct (pr_active p) eqn:Ep. Qed.

Lemma calm_input_tick intent a : calm a (input_tick intent a).
Proof.
  unfold input_tick. case_bool_decide; [apply calm_refl|].
  pose proof (step_active (mi_moveForward intent) (mi_moveRight intent) (mi_yaw intent)
    (mi_jump intent) (mi_sprint intent) (mPrediction (ap_play a))) as Hp.
  destruct (Prediction.step _ _ _ _ _ _) as [input prediction]. cbn [snd] in Hp.
  eapply calm_trans; [|apply calm_sendInput]. apply calm_prediction. by rewrite Hp.
Qed.

Lemma calm_input_ticks fuel intent : forall a, calm a (input_ticks fuel intent a).
Proof.
  induction fuel as [|fuel IH]; intros a; cbn [input_ticks]; [apply calm_refl|].
  destruct (tickSeconds <=? _)%f64; [|apply calm_refl].
  eapply calm_trans; [|apply IH]. eapply calm_trans; [apply calm_timing|apply calm_input_tick].
Qed.

(** ** Replication *)

Lemma reconcile_active e p : pr_active (reconcile e p) = pr_active p.
Proof. unfold reconcile. destruct (pr_active p) eqn:Ep; [|done]. by repeat case_match. Qed.

Lemma replicate_loaded net now p present id :
  mLoaded (mDemoScene (replicate net now (p, present) id).1) = mLoaded (mDemoScene p).
Proof.
  unfold replicate, reconcile_own, setPlayerTransform, setEntityTransform.
  by repeat case_match.
Qed.

Lemma replicates_loaded net now ids : forall acc,
  mLoaded (mDemoScene (foldl (replicate net now) acc ids).1) = mLoaded (mDemoScene acc.1).
Proof.
  induction ids as [|id ids IH]; intros [p present]; [done|]. cbn [foldl].
  rewrite IH. apply replicate_loaded.
Qed.

Lemma calm_replication a : calm a (applyReplication a).
Proof.
  unfold applyReplication. destruct (mLoaded (mDemoScene (ap_play a))) eqn:El; [|apply calm_refl].
  cbn [negb]. pose proof (replicates_loaded (mNet a) (mElapsedSeconds (ap_timing a))
    (map_keys (mEntities (nc_view (mNet a)))) (ap_play a, ∅)) as Hl.
  destruct (foldl _ _ _) as [p present]. cbn [fst] in Hl.
  split; auto; cbn; rewrite El; done.
Qed.

(** ** Changes of screen *)

(** The state at one moment, its loaded scene and players and its camera. *)
Ltac show_app a Hok :=
  destruct a as [net [prediction scene last] [state username login ui input camera closing] timing];
  destruct Hok as [Hnet Hfits Hcam Hload Hplayers Hpred Hform];
  cbn [app_state mState ap_screen mNet ap_play mDemoScene mPrediction mCameraController
       mLoginScreen] in *.

Lemma enter_ok state a :
  client_ok (mNet a) -> network_fits state (NetClient.mState (mNet a)) ->
  mLoaded (mDemoScene (ap_play a)) = playing state ->
  (playing state = false -> mPlayers (mDemoScene (ap_play a)) = ∅) ->
  (pr_active (mPrediction (ap_play a)) = true -> playing state = true) ->
  form_ok (mLoginScreen (ap_screen a)) -> app_ok (enterState state a).
Proof. by split. Qed.

Lemma unload_scene a :
  (mLoaded (mDemoScene (ap_play a)) = false -> mPlayers (mDemoScene (ap_play a)) = ∅) ->
  mLoaded (mDemoScene (ap_play (unloadWorld a))) = false /\
  mPlayers (mDemoScene (ap_play (unloadWorld a))) = ∅ /\
  pr_active (mPrediction (ap_play (unloadWorld a))) = false.
Proof.
  intros Hp. unfold unloadWorld, destroy. cbn.
  destruct (mLoaded (mDemoScene (ap_play a))) eqn:El; cbn; [|auto].
  split_and!; [done| |done]. apply map_empty. intros i. apply map_lookup_filter_None.
  right. intros x _ Hi. by apply not_elem_of_empty in Hi.
Qed.

Lemma clear_ok l : form_ok l -> form_ok (clearPassword l).
Proof. intros [H _]. split; [done|]. split; [cbn; lia|constructor]. Qed.

(** The state between the poll and the screens that follow it. *)
Record polled (a : St) : Prop := {
  polled_net : client_ok (mNet a);
  polled_network : match app_state a with
    | Login => at_rest (NetClient.mState (mNet a)) = true
    | Connecting => NetClient.mState (mNet a) <> Idle
    | InGame | Menu => NetClient.mState (mNet a) = InWorld \/ NetClient.mState (mNet a) = Failed
    end;
  polled_camera : mEnabled (mCameraController (ap_screen a)) = bool_decide (app_state a = InGame);
  polled_loaded : mLoaded (mDemoScene (ap_play a)) = playing (app_state a);
  polled_players : playing (app_state a) = false -> mPlayers (mDemoScene (ap_play a)) = ∅;
  polled_predicting : pr_active (mPrediction (ap_play a)) = true -> playing (app_state a) = true;
  polled_form : form_ok (mLoginScreen (ap_screen a));
}.

Lemma poll_polled now a : app_ok a -> polled (set_net (poll now (mNet a)) a).
Proof.
  intros [Hnet Hfits Hcam Hload Hplayers Hpred Hform].
  destruct (poll_step now (mNet a) Hnet) as [Hok Hedge].
  split; try done. change (mNet (set_net (poll now (mNet a)) a)) with (poll now (mNet a)).
  change (app_state (set_net (poll now (mNet a)) a)) with (app_state a).
  destruct (app_state a); cbn [network_fits] in Hfits.
  - destruct Hedge as [|s' Ha|Hr]; [done| |by rewrite Hfits in Hr].
    destruct Ha; discriminate Hfits.
  - destruct Hfits as [Hi _]. destruct Hedge as [|s' Ha|Hr]; [done|by destruct Ha|done].
  - rewrite Hfits in Hedge. inversion Hedge as [H|s' Ha H|Hr H]; [by left|inversion Ha|by right].
  - rewrite Hfits in Hedge. inversion Hedge as [H|s' Ha H|Hr H]; [by left|inversion Ha|by right].
Qed.

Lemma drop_to_login reason a :
  client_ok (mNet a) -> NetClient.mState (mNet a) = Failed ->
  (mLoaded (mDemoScene (ap_play a)) = false -> mPlayers (mDemoScene (ap_play a)) = ∅) ->
  form_ok (mLoginScreen (ap_screen a)) ->
  app_ok (enterState Login (on_login (fun l => setStatus reason true (clearPassword l))
    (with_username "" (unloadWorld a)))).
Proof.
  intros Hnet Hf Hp Hform. destruct (unload_scene a Hp) as (H1 & H2 & H3).
  apply enter_ok; [done|by cbn; rewrite Hf|done|done| |by apply clear_ok].
  intros H. cbn in H, H3. congruence.
Qed.

Lemma follow_ok a : polled a -> app_ok (follow_network a).
Proof.
  intros [Hnet Hn Hcam Hload Hplayers Hpred Hform]. unfold follow_network.
  destruct (app_state a) eqn:Es.
  - split; rewrite ?Es; done.
  - destruct (NetClient.mState (mNet a)) eqn:En; try (split; rewrite ?Es, ?En; done).
    + apply enter_ok; [done|done| | | |done].
      * cbn. unfold build. by destruct (mLoaded _) eqn:El.
      * done.
      * done.
    + apply enter_ok; [done|cbn; by rewrite En|done|done|done|].
      cbn. by apply (clear_ok (setStatus (mError (mNet a)) true (mLoginScreen (ap_screen a)))).
  - destruct Hn as [En|En]; rewrite En; [split; rewrite ?Es, ?En; done|].
    apply drop_to_login; [done..| |done]. by rewrite Hload.
  - destruct Hn as [En|En]; rewrite En; [split; rewrite ?Es, ?En; done|].
    apply drop_to_login; [done..| |done]. by rewrite Hload.
Qed.

Lemma update_ok delta d a : app_ok a -> app_ok (update delta d a).
Proof.
  intros Hok. unfold update. cbv zeta.
  set (a1 := set_timing _ a). assert (H1 : app_ok a1) by (by eapply calm_ok; [apply calm_timing|]).
  apply (poll_polled (mElapsedSeconds (ap_timing a1))), follow_ok in H1.
  set (a2 := follow_network _) in *.
  pose proof (sample_enabled d (mCameraController (ap_screen a2))) as Hs.
  destruct (sample d _) as [intent camera]. cbn [snd] in Hs.
  eapply calm_ok; [|exact H1].
  eapply calm_trans; [apply (calm_camera_same (fun _ => camera)), Hs|].
  eapply calm_trans; [|apply calm_replication].
  eapply calm_trans; [|apply calm_smoothing].
  eapply calm_trans; [|apply calm_input_ticks]. apply calm_timing.
Qed.

Lemma begin_ok a :
  app_ok a -> app_state a = Login -> app_ok (beginLogin getenv a).
Proof.
  intros [Hnet Hfits Hcam Hload Hplayers Hpred Hform] Es. unfold beginLogin. cbv zeta.
  destruct (_ || _); [by split|].
  rewrite Es in *. apply enter_ok; try done.
  - apply login_ok.
  - cbn [network_fits mNet set_net]. 
    destruct (login_edge (authHost getenv) (authPort getenv)
      (ls_username (mLoginScreen (ap_screen a))) (ls_password (mLoginScreen (ap_screen a)))
      (mNet a)) as [H|H]; cbn in H |- *; rewrite H; done.
Qed.

Lemma logout_ok a : app_ok a -> app_ok (app_logout a).
Proof.
  intros [Hnet Hfits Hcam Hload Hplayers Hpred Hform]. unfold app_logout. cbv zeta.
  destruct (unload_scene (set_net (logout (mNet a)) a)) as (H1 & H2 & H3).
  { cbn. rewrite Hload. apply Hplayers. }
  apply enter_ok; [by apply disconnect_ok|done|done|done| |by apply clear_ok].
  intros H. cbn in H, H3. congruence.
Qed.

Lemma enter_playing state a :
  app_ok a -> playing (app_state a) = true -> playing state = true -> app_ok (enterState state a).
Proof.
  intros [Hnet Hfits Hcam Hload Hplayers Hpred Hform] Hp Hs.
  apply enter_ok; try done; try congruence.
  unfold playing in *. apply bool_decide_eq_true in Hp, Hs.
  destruct Hp as [Hp|Hp]; rewrite Hp in Hfits; by destruct Hs as [->| ->].
Qed.

Lemma draw_ok rn d a : app_ok a -> app_ok (drawUi getenv rn d a).
Proof.
  intros Hok. unfold drawUi. cbv zeta.
  set (a1 := on_widgets (ui_begin _) _).
  assert (H1 : app_ok a1).
  { eapply calm_ok; [|exact Hok]. eapply calm_trans; [apply calm_input|apply calm_widgets]. }
  eapply calm_ok; [eapply calm_trans; [apply (calm_widgets ui_end)|apply calm_input]|].
  assert (Hscreen : app_state a1 = Login \/ app_state a1 = Connecting -> app_ok
    (let '(action, l, u) := login_draw rn (app_state a1) (mLoginScreen (ap_screen a1))
                              (mWidgets (ap_screen a1)) in
     let a := on_widgets (fun _ => u) (on_login (fun _ => l) a1) in
     match action with
     | LoginSubmit => beginLogin getenv a | LoginQuit => close_window a | LoginNone => a
     end)).
  { intros Hs.
    pose proof (login_draw_ok rn (app_state a1) _ (mWidgets (ap_screen a1)) (app_form _ H1)) as Hl.
    pose proof (login_draw_submit rn (app_state a1) (mLoginScreen (ap_screen a1))
      (mWidgets (ap_screen a1))) as Hsubmit.
    destruct (login_draw _ _ _ _) as [[action l] u]. cbn [fst snd] in *.
    assert (H2 : app_ok (on_widgets (fun _ => u) (on_login (fun _ => l) a1))).
    { eapply calm_ok; [|exact H1]. eapply calm_trans; [by apply calm_form_ok|apply calm_widgets]. }
    destruct action; [done| |by eapply calm_ok; [apply calm_close|]].
    apply begin_ok; [done|]. specialize (Hsubmit eq_refl). by destruct Hs. }
  destruct (app_state a1) eqn:Es; [by apply Hscreen; left|by apply Hscreen; right| |].
  - destruct (in_escape _); [|done]. apply enter_playing; [done|by rewrite Es|done].
  - destruct (menu_draw rn (mWidgets (ap_screen a1))) as [action u].
    assert (H2 : app_ok (on_widgets (fun _ => u) a1)) by (by eapply calm_ok; [apply calm_widgets|]).
    destruct (_ || _); [apply enter_playing; [done| |done]|];
      [change (playing (app_state a1) = true); by rewrite Es|].
    destruct action; try done; [by apply logout_ok|by eapply calm_ok; [apply calm_close|]].
Qed.

Lemma app_step_ok a e : app_ok a -> app_ok (app_step getenv a e).
Proof.
  intros Hok. destruct e; cbn [app_step];
    [by eapply calm_ok; [apply calm_input|]..|by apply draw_ok, update_ok].
Qed.

Lemma app_start_ok (e : E) : app_ok (app_init getenv (new_application e)).
Proof.
  apply enter_ok; try done. split; split; try (cbn; lia); constructor.
Qed.

Lemma app_steps_ok events : forall a, app_ok a -> app_ok (foldl (app_step getenv) a events).
Proof.
  induction events as [|ev events IH]; intros a Hok; [done|]. by apply IH, app_step_ok.
Qed.

(** C7: Whatever the player does and whatever the network answers, what is shown
    matches what there is: the world is loaded exactly while playing, when the
    client is in the world, and no player has a body otherwise;
    the cursor is captured exactly in the game; the prediction runs only while
    playing; nothing is connected at the login screen; and the login form
    holds at most 32 printable characters in each field. *)
Theorem screens_match_network (e : E) (events : list AppEvent) :
  app_ok (foldl (app_step getenv) (app_init getenv (new_application e)) events).
Proof. apply app_steps_ok, app_start_ok. Qed.

(** The login form never holds what the wire would cut: the auth server reads the
    credentials as they were typed. *)
Lemma typed_credentials_arrive (e : E) (events : list AppEvent) :
  let l := mLoginScreen (ap_screen
    (foldl (app_step getenv) (app_init getenv (new_application e)) events)) in
  login_fields (NetClient.login_payload (ls_username l) (ls_password l)) =
  Some (ls_username l, ls_password l).
Proof.
  cbv zeta. destruct (app_form _ (app_steps_ok events _ (app_start_ok e))) as [[H1 _] [H2 _]].
  unfold kMaxFieldLength in *.
  apply login_request_read; unfold wire_ok, kMaxStringLength;
    [revert H1|revert H2]; clear; lia.
Qed.

(** ** The ticks of a frame *)

Definition predict (intent : MovementIntent) (p : Prediction) : Prediction :=
  (Prediction.step (mi_moveForward intent) (mi_moveRight intent) (mi_yaw intent) (mi_jump intent)
     (mi_sprint intent) p).2.

(** The packet of one input, as [sendInput] makes it. *)
Definition intent_packet (intent : MovementIntent) (playerId sequence : Z) : list byte :=
  input_packet playerId sequence (mi_moveForward intent) (mi_moveRight intent) (mi_yaw intent)
    (input_buttons (mi_jump intent) (mi_sprint intent)).

Definition one_input_tick (intent : MovementIntent) (a : St) : St :=
  input_tick intent (with_accumulator (mTickAccumulator (ap_timing a) - tickSeconds)%f64 a).

Lemma one_input_tick_accumulator intent a :
  mTickAccumulator (ap_timing (one_input_tick intent a)) =
  (mTickAccumulator (ap_timing a) - tickSeconds)%f64.
Proof.
  unfold one_input_tick, input_tick. case_bool_decide; [done|].
  by destruct (Prediction.step _ _ _ _ _ _).
Qed.

(** A client whose packets go out at once. *)
Definition sends_at_once (c : NetClient E) : Prop :=
  NetClient.mState c = InWorld /\ is_Some (mUdp (nc_links c)) /\ no_latency c /\
  (f64_zero <? mFakeLoss (nc_latency c))%f64 = false.

Lemma sendInput_at_once forward sideways yaw jump sprint sequence (c : NetClient E) :
  sends_at_once c ->
  sendInput forward sideways yaw jump sprint sequence c =
  sendTo (input_packet (mPlayerId (nc_session c)) sequence forward sideways yaw
            (input_buttons jump sprint)) (mUdpTarget (nc_session c)) c.
Proof.
  intros (Hs & [u Hu] & Hlat & Hloss). unfold sendInput, lose_packet.
  rewrite !bool_decide_false by (rewrite ?Hs, ?Hu; naive_solver). cbn [orb].
  by rewrite Hloss, Hlat.
Qed.

Lemma one_input_tick_spec intent a :
  app_state a = InGame -> sends_at_once (mNet a) ->
  let a' := one_input_tick intent a in
  app_state a' = InGame /\ sends_at_once (mNet a') /\
  nc_session (mNet a') = nc_session (mNet a) /\
  mPrediction (ap_play a') = predict intent (mPrediction (ap_play a)) /\
  nc_sent (mNet a') = nc_sent (mNet a) ++
    [(mUdpTarget (nc_session (mNet a)),
      intent_packet intent (mPlayerId (nc_session (mNet a))) (pr_nextSequence (mPrediction (ap_play a))))].
Proof.
  intros Hs Hnow. cbv zeta. unfold one_input_tick, input_tick.
  rewrite bool_decide_false by (change (app_state a <> InGame -> False); naive_solver).
  change (mPrediction (ap_play (with_accumulator _ a))) with (mPrediction (ap_play a)).
  unfold predict, Prediction.step.
  destruct (pr_active (mPrediction (ap_play a))); cbn [negb];
    change (mNet (on_prediction _ (with_accumulator _ a))) with (mNet a);
    rewrite sendInput_at_once, sendTo_eq by done; destruct Hnow as (? & [u Hu] & ? & ?);
    (split_and!; [done| |done|done|cbn [mNet set_net nc_sent]; by rewrite Hu]);
    (split_and!; [done|by exists u|done|done]).
Qed.

Lemma predict_sequence intent p : pr_nextSequence (predict intent p) = u32 (pr_nextSequence p + 1).
Proof. unfold predict, Prediction.step. by destruct (pr_active p). Qed.

Lemma iter_input_ticks intent k a :
  app_state a = InGame -> sends_at_once (mNet a) -> fits 32 (pr_nextSequence (mPrediction (ap_play a))) ->
  let a' := Nat.iter k (one_input_tick intent) a in
  app_state a' = InGame /\ sends_at_once (mNet a') /\
  nc_session (mNet a') = nc_session (mNet a) /\
  mPrediction (ap_play a') = Nat.iter k (predict intent) (mPrediction (ap_play a)) /\
  pr_nextSequence (mPrediction (ap_play a')) =
    u32 (pr_nextSequence (mPrediction (ap_play a)) + Z.of_nat k) /\
  nc_sent (mNet a') = nc_sent (mNet a) ++
    ((fun n => (mUdpTarget (nc_session (mNet a)),
        intent_packet intent (mPlayerId (nc_session (mNet a)))
          (u32 (pr_nextSequence (mPrediction (ap_play a)) + Z.of_nat n)))) <$> seq 0 k).
Proof.
  intros Hs Hnow Hfit. cbv zeta. induction k as [|k (I1 & I2 & I3 & I4 & I5 & I6)].
  - split_and!; try done.
    + cbn [Nat.iter]. rewrite Z.add_0_r. symmetry. by apply wrap_id.
    + cbn. by rewrite app_nil_r.
  - rewrite !Nat.iter_succ. destruct (one_input_tick_spec intent _ I1 I2) as (J1 & J2 & J3 & J4 & J5).
    split_and!; [done|done|by rewrite J3|by rewrite J4, I4| |].
    + rewrite J4, predict_sequence, I5. unfold wrap. rewrite Zplus_mod_idemp_l. f_equal. lia.
    + rewrite J5, I6, I3, I5, seq_S, fmap_app, <- app_assoc. done.
Qed.

(** C26: The input of a frame in the game. However long the frame took, at most
    fifteen ticks of input are made and less than a tick's time is left; each
    is predicted once and sent once, under consecutive sequence numbers that
    are the prediction's own. *)
Theorem frame_inputs (delta : double) (intent : MovementIntent) (a : St)
    (Hgame : app_state a = InGame) (Hnow : sends_at_once (mNet a))
    (Hsequence : fits 32 (pr_nextSequence (mPrediction (ap_play a))))
    (Hdouble : valid_binary 53 1024 (mTickAccumulator (ap_timing a) + delta)%f64 = true) :
  let a' := input_ticks tick_fuel intent (accumulate delta a) in
  (tickSeconds <=? mTickAccumulator (ap_timing a'))%f64 = false /\
  exists k, (k <= 15)%nat /\
    mPrediction (ap_play a') = Nat.iter k (predict intent) (mPrediction (ap_play a)) /\
    nc_sent (mNet a') = nc_sent (mNet a) ++
      ((fun n => (mUdpTarget (nc_session (mNet a)),
          intent_packet intent (mPlayerId (nc_session (mNet a)))
            (u32 (pr_nextSequence (mPrediction (ap_play a)) + Z.of_nat n)))) <$> seq 0 k).
Proof.
  cbv zeta.
  destruct (catch_up_capped (fun a => mTickAccumulator (ap_timing a)) (one_input_tick intent)
    (fun fuel => input_ticks fuel intent) (one_input_tick_accumulator intent)
    (fun fuel a => eq_refl) _ (accumulate delta a) Hdouble eq_refl) as (k & Hk & Heq & Hend).
  unfold tick_fuel. split; [exact Hend|]. exists k. split; [done|]. rewrite Heq.
  destruct (iter_input_ticks intent k (accumulate delta a)) as (_ & _ & _ & H4 & _ & H6); done.
Qed.

(** ** Players who left *)

Definition keeps_entities (c c' : NetClient E) : Prop :=
  dom (mEntities (nc_view c)) ⊆ dom (mEntities (nc_view c')).

Lemma store_entities_dom now es : forall entities,
  dom entities ⊆ dom (foldl (store_entity now) entities es).
Proof.
  induction es as [|e es IH]; intros entities; [done|]. cbn [foldl].
  etrans; [|apply IH]. unfold store_entity. set_solver.
Qed.

Lemma apply_view_dom data sequence now v :
  dom (mEntities v) ⊆ dom (mEntities (apply_view data sequence now v)).
Proof.
  unfold apply_view. destruct (decodeSnapshot _ _) as [[] s]; [|done]. apply store_entities_dom.
Qed.

Lemma keeps_trans c1 c2 c3 : keeps_entities c1 c2 -> keeps_entities c2 c3 -> keeps_entities c1 c3.
Proof. unfold keeps_entities. set_solver. Qed.

Lemma keeps_view c c' :
  mEntities (nc_view c') = mEntities (nc_view c) -> keeps_entities c c'.
Proof. unfold keeps_entities. by intros ->. Qed.

Ltac same_view := solve [by apply keeps_view].

Lemma keeps_sendTo data to c : keeps_entities c (sendTo data to c).
Proof. rewrite sendTo_eq. same_view. Qed.

Lemma keeps_call {A} (m : SM E A) c : keeps_entities c (call m c).2.
Proof. rewrite call_eq. same_view. Qed.

Lemma keeps_datagram now data c : keeps_entities c (onDatagram now data c).
Proof.
  unfold onDatagram. destruct (fresh_snapshot _ _) as [[sequence body]|]; [|same_view].
  case_match; [same_view|]. apply apply_view_dom.
Qed.

Lemma keeps_receive answers now : forall socket c,
  keeps_entities c (receive_datagrams answers now socket c).
Proof.
  induction answers as [|n IH]; intros socket c; [same_view|]. cbn [receive_datagrams].
  destruct (receiveFrom _ _) as [[[ok data] from] socket']. case_match; [same_view|].
  eapply keeps_trans; [apply keeps_datagram|apply IH].
Qed.

Lemma keeps_foldl {A} (f : NetClient E -> A -> NetClient E) xs :
  (forall c x, keeps_entities c (f c x)) -> forall c, keeps_entities c (foldl f c xs).
Proof.
  intros Hf. induction xs as [|x xs IH]; intros c; [same_view|]. eapply keeps_trans; [apply Hf|apply IH].
Qed.

Lemma keeps_flush now c : keeps_entities c (flushDelayed now c).
Proof.
  unfold flushDelayed. destruct (due now _) as [out outgoing], (due now _) as [inc incoming].
  match goal with |- keeps_entities _ (with_queues _ _ ?c') => apply (keeps_trans _ c'); [|same_view] end.
  eapply keeps_trans; [|apply keeps_foldl; intros; apply apply_view_dom].
  apply keeps_foldl. intros. apply keeps_sendTo.
Qed.

Lemma keeps_join now payload c : keeps_entities c (onJoinResponse now payload c).2.
Proof.
  unfold onJoinResponse.
  destruct (read_join _) as [[[[[result playerId] udpPort] username] entityId] reader].
  destruct (failed reader); [same_view|]. destruct (bool_decide _); [same_view|].
  rewrite call_eq. destruct (udp_open 0 _).1 as [socket|]; [|same_view].
  rewrite call_eq. destruct (resolve _ _ _).1 as [target|]; [|same_view].
  unfold sendUdpHello. rewrite sendTo_eq. same_view.
Qed.

Lemma keeps_messages n now : forall stream c, keeps_entities c (world_messages n now stream c).
Proof.
  induction n as [|n IH]; intros stream c; [same_view|]. cbn [world_messages].
  destruct (next stream) as [[m stream']|]; [|same_view].
  assert (H : keeps_entities c (onWorldMessage now m (with_world (Some stream') c)).2).
  { unfold onWorldMessage. destruct (world_message_of _) as [[]|]; try same_view.
    eapply keeps_trans; [|apply keeps_join]. same_view. }
  destruct (onWorldMessage _ _ _) as [[] c']; [|exact H]. eapply keeps_trans; [exact H|apply IH].
Qed.

(** A player who left stays: while a client is in the world, a poll removes no
    entity, whatever the snapshots no longer report. *)
Lemma departed_entities_stay now (c : NetClient E) :
  NetClient.mState c = InWorld -> keeps_entities c (poll now c).
Proof.
  intros Hs. unfold poll. change (NetClient.mState (poll_at now c)) with (NetClient.mState c).
  rewrite Hs. apply (keeps_trans _ (poll_at now c)); [same_view|]. unfold pumpWorld.
  destruct (mWorld (nc_links (poll_at now c))); [|same_view].
  destruct (pump m) as [[] stream]; [|same_view]. cbn [negb].
  eapply keeps_trans; [apply keeps_messages|].
  destruct (decide _); [|same_view]. eapply keeps_trans; [|apply keeps_flush].
  eapply keeps_trans.
  - instantiate (1 := retry_hello now _). unfold retry_hello. case_match; [|same_view].
    unfold sendUdpHello. rewrite sendTo_eq. same_view.
  - unfold receive_stream. case_match; [|same_view]. apply keeps_receive.
Qed.

End ApplicationProperties.

(** ** A tenth of a second in the game *)

Definition zero_atof : Atof := {| atof _ := f64_zero |}.

#[local] Existing Instances toy_api toy_rand axis_libm toy_math zero_atof.

Definition toy_playing : Application () :=
  mkApplication toy_client (mkPlay new_prediction (build new_scene) 0)
    (mkScreen InGame "alex" new_login_screen new_ui no_input (setEnabled true new_camera) false)
    (mkTiming f64_zero f64_zero f64_zero).

Definition toy_intent : MovementIntent := mkIntent f32_one f32_zero f32_zero false true.

Lemma frame_inputs_witness :
  let a' := input_ticks tick_fuel toy_intent (accumulate (lit64 1 10) toy_playing) in
  (tickSeconds <=? mTickAccumulator (ap_timing a'))%f64 = false /\
  exists k, (k <= 15)%nat /\
    mPrediction (ap_play a') = Nat.iter k (predict toy_intent) new_prediction /\
    nc_sent (mNet a') = [] ++
      ((fun n => (mkAddress 1 7004, intent_packet toy_intent 1 (u32 (1 + Z.of_nat n)))) <$> seq 0 k).
Proof.
  refine (frame_inputs (lit64 1 10) toy_intent toy_playing eq_refl _ _ _).
  - split_and!; [done|by eexists|by vm_compute|by vm_compute].
  - by vm_compute.
  - vm_compute. reflexivity.
Defined.

Example toy_frame :
  length (nc_sent (mNet (input_ticks tick_fuel toy_intent (accumulate (lit64 1 10) toy_playing)))) = 6%nat.
Proof. vm_compute. reflexivity. Qed.

(** From the form to the game: the name and the password are typed, Enter is
    pressed, and four frames later the client plays. *)
Definition toy_devices : Devices := mkDevices f64_zero f64_zero (fun _ => false).
Definition toy_frame_event : AppEvent := EvFrame (lit64 1 60) toy_devices flat_renderer.

Definition toy_events : list AppEvent :=
  [EvChar 97; EvChar 108; toy_frame_event; EvKey KeyTab ActionPress; toy_frame_event;
   EvChar 112; EvKey KeyEnter ActionPress; toy_frame_event;
   toy_frame_event; toy_frame_event; toy_frame_event; toy_frame_event].

Definition toy_getenv (name : string) : option string := None.

Example toy_run :
  app_state (foldl (app_step toy_getenv) (app_init toy_getenv (new_application tt)) toy_events) = InGame.
Proof. vm_compute. reflexivity. Qed.
