(* ===== verification/Processes.v ===== *)
(** * The servers as processes
    ([server/dbserver/src/main.cpp], [authserver/src/main.cpp],
    [worldserver/src/main.cpp], [server/common/src/tcp_server.cpp])

    What [main] of the three servers does before and after its loop: the
    environment is read, Postgres or the database server is reached by trying
    again until it answers, the ports are opened, and the loop is entered; a
    signal ends a wait and ends the loop. The sockets the processes listen on
    are those of [Descriptors]; the loops are those of [DbServer], [AuthServer]
    and [WorldLoop].

    What a process meets is given: the flags of the libraries' starts, the
    attempts to connect it makes before a signal stops it, with what happens to
    Postgres between them, and the turns of its loop. *)

From Stdlib Require Import ZArith Lia Strings.Byte Strings.String Floats.SpecFloat.
From stdpp Require Import base list option gmap strings.
From S2P Require Import Prelude Float32 Platform Config Framing Address Descriptors TcpServer.
From S2P Require Import DbClient Database DbServer Outputs AuthServer Simulation World WorldLoop.
From S2P Require WorldSpec WorldHistory WorldProperties Character.

Open Scope Z_scope.

(** ** Processes that serve *)

(** How a start ends: the process is over, or it serves. *)
Inductive Ended (S : Type) :=
| Exited (code : Z) (left : S)
| Serving (st : S).
Arguments Exited {S}.
Arguments Serving {S}.

(** The variables of [main] that hold sockets: [server]'s [mListener], and
    [udp]. *)
Definition mListener : nat := 0.
Definition mUdp : nat := 1.

Section Process.
Context {EO : Type} `{HPosix : Posix EO}.
Local Open Scope sm_scope.

Abbreviation P := (Process EO).

(** A socket that is made without a descriptor. *)
Definition declare (this : nat) : SM P () := set_mHandle this kInvalidSocket.

(** [TcpServer::listen], with the backlog the callers leave out. *)
Definition tcp_server_listen (port : Z) : SM P bool := Descriptors.listen mListener port 64.

(** The end of a block: its sockets are destroyed. *)
Fixpoint destroy_all (vars : list nat) : SM P () :=
  match vars with
  | [] => sm_ret tt
  | this :: vars => destroy this;; destroy_all vars
  end.

(** The body of [main]: the start, a turn of the loop for each of [turns] until
    a signal, and the end. *)
Definition process {S T} (vars : list nat) (start : SM P (Ended S)) (turn : T -> S -> S)
    (finish : S -> S) (turns : list T) : SM P (Z * S) :=
  let! started := start in
  match started with
  | Exited code st => sm_ret (code, st)
  | Serving st =>
      let st := foldl (fun st t => turn t st) st turns in
      destroy_all vars;;
      sm_ret (0, finish st)
  end.

(** *** The database server *)

Section DbProcess.
Context {PG : Type} `{HPostgres : Postgres PG}.

(** The loop that waits for Postgres: an attempt for each entry, which is what
    happens to Postgres during the pause after it; [None] when a signal ended the
    loop. *)
Fixpoint await_postgres (conninfo : string) (pauses : list (PG -> PG)) (d : Database PG)
    : bool * Database PG :=
  match pauses with
  | [] => (false, d)
  | pause :: pauses =>
      let '(ok, d) := Database.connect conninfo d in
      if ok : bool then (true, d) else await_postgres conninfo pauses (on_pg pause d).2
  end.

Definition db_start (getenv : string -> option string) (initSockets : bool)
    (pauses : list (PG -> PG)) (signalled : bool) (pg : PG) : SM P (Ended (DbServer PG)) :=
  let with_database d := mkDbServer new_server d 0 in
  let database := mkDatabase false EmptyString EmptyString pg in
  let leave code d := sm_ret (Exited code (with_database (disconnect d).2)) in
  if negb initSockets then sm_ret (Exited 1 (with_database database))
  else
    let port := envPort getenv "DB_SERVER_PORT" 7000 in
    let '(connected, database) := await_postgres (buildConnInfo getenv) pauses database in
    if negb connected || signalled then leave 0 database
    else
      let '(migrated, database) := migrate database in
      if negb migrated then leave 1 database
      else
        declare mListener;;
        let! listening := tcp_server_listen port in
        if negb listening then destroy mListener;; leave 1 database
        else sm_ret (Serving (with_database database)).

(** [~Database]. *)
Definition db_finish (st : DbServer PG) : DbServer PG :=
  mkDbServer (ds_server st) (disconnect (ds_database st)).2 (ds_ticksUntilPurge st).

Definition db_main (getenv : string -> option string) (initSockets : bool)
    (pauses : list (PG -> PG)) (signalled : bool) (pg : PG) (turns : list Events)
    : SM P (Z * DbServer PG) :=
  process [mListener] (db_start getenv initSockets pauses signalled pg) DbServer.main_step db_finish
    turns.

End DbProcess.

(** *** The auth server *)

Section AuthProcess.
Context {E : Type} `{HSod : Sodium E}.
Variable getenv : string -> option string.

(** What the handlers capture of the environment. *)
Definition auth_config : AuthConfig :=
  {| cfg_worldHost := envString getenv "WORLD_PUBLIC_HOST" "127.0.0.1";
     cfg_worldPort := envPort getenv "WORLD_SERVER_PORT" 7002;
     cfg_sessionTtl := envUint getenv "SESSION_TTL_SECONDS" 120 |}.

(** [polls] of the sixty polls for the bootstrap's answers happen before a
    signal. *)
Definition auth_start (initSodium initSockets : bool) (attempts : list (option Socket))
    (signalled : bool) (polls : nat) (e : E) : SM P (Ended (AuthServer E)) :=
  let st := mkAuth new_server new_db_client e in
  if negb initSodium then sm_ret (Exited 1 st)
  else if negb initSockets then sm_ret (Exited 1 st)
  else
    let listenPort := envPort getenv "AUTH_SERVER_PORT" 7001 in
    let st := AuthServer.reconnect attempts st in
    if negb (mConnected (db st)) || signalled then sm_ret (Exited 0 st)
    else
      let st := bootstrap auth_config (Nat.min polls 60) st in
      declare mListener;;
      let! listening := tcp_server_listen listenPort in
      if negb listening then destroy mListener;; sm_ret (Exited 1 st)
      else sm_ret (Serving st).

Definition auth_turn (t : Events * list (option Socket)) (st : AuthServer E) : AuthServer E :=
  AuthServer.main_step auth_config t.1 t.2 st.

Definition auth_main (initSodium initSockets : bool) (attempts : list (option Socket))
    (signalled : bool) (polls : nat) (e : E) (turns : list (Events * list (option Socket)))
    : SM P (Z * AuthServer E) :=
  process [mListener] (auth_start initSodium initSockets attempts signalled polls e) auth_turn
    (fun st => st) turns.

End AuthProcess.

(** *** The world server *)

Section WorldProcess.
Context {E : Type} `{HSod : Sodium E} `{HClk : Clocks E} `{HLibm : Libm} `{HAtof : Atof}.
Variable getenv : string -> option string.

Definition tcpPort : Z := envPort getenv "WORLD_SERVER_PORT" 7002.
Definition udpPort : Z := envPort getenv "WORLD_UDP_PORT" 7003.
Definition udpTimeoutSeconds : Z := envUint getenv "UDP_TIMEOUT_SECONDS" 30.

(** The rate the world's clock is asked to run at. *)
Definition timeSpeed : float :=
  let dayLength := envUint getenv "DAY_LENGTH_SECONDS" 0 in
  if 0 <? dayLength then (f32_of_Z 86400 / f32_of_Z dayLength)%f32
  else
    match getenv "TIME_SPEED" with
    | Some value => f32_of_f64 (atof (c_str value))
    | None => f32_one
    end.

(** [simulation.init], which reads both clocks. *)
Definition init_simulation (speed : float) (w : World E) : World E :=
  let '(today, w) := read_clock secondsToday w in
  let '(real, w) := read_clock realSeconds w in
  set_simulation (Simulation.init real today speed (w_simulation w)) w.

Definition new_world (e : E) : World E :=
  mkWorld new_server new_db_client e new_simulation (mkRoster ∅ ∅ 1) (mkLink 0 [] [] []) []
    f64_zero 0.

Definition world_start (initSockets : bool) (attempts : list (option Socket))
    (signalled initSodium : bool) (e : E) : SM P (Ended (World E)) :=
  let w := new_world e in
  if negb initSockets then sm_ret (Exited 1 w)
  else
    let w := WorldLoop.reconnect attempts w in
    if negb (mConnected (db w)) || signalled then sm_ret (Exited 0 w)
    else
      declare mListener;;
      let! listening := tcp_server_listen tcpPort in
      if negb listening then destroy mListener;; sm_ret (Exited 1 w)
      else
        declare mUdp;;
        let! bound := udp_open mUdp udpPort in
        if negb bound then destroy mUdp;; destroy mListener;; sm_ret (Exited 1 w)
        else if negb initSodium then destroy mUdp;; destroy mListener;; sm_ret (Exited 1 w)
        else
          let w := init_simulation timeSpeed w in
          let w := print PPrompt (print PBanner w) in
          let '(previous, w) := read_clock steady_now w in
          sm_ret (Serving (set_timing f64_zero previous w)).

(** [simulation.shutdown()]. *)
Definition world_finish (w : World E) : World E :=
  set_simulation (Simulation.shutdown (w_simulation w)) w.

Definition world_main (initSockets : bool) (attempts : list (option Socket))
    (signalled initSodium : bool) (e : E) (turns : list Turn) : SM P (Z * World E) :=
  process [mUdp; mListener] (world_start initSockets attempts signalled initSodium e)
    (WorldLoop.main_step udpPort udpTimeoutSeconds) world_finish turns.

End WorldProcess.
End Process.

(** ** Sockets *)

Section Sockets.
Context {EO : Type} `{HPosix : Posix EO} `{HLaws : !PosixLaws EO}.
Local Open Scope sm_scope.

Abbreviation P := (Process EO).

(** The sockets of [vars] are open, and the others as they were in [p0]. *)
Definition holding (outside : gset Z) (vars : list nat) (p0 p : P) : Prop :=
  owned outside p /\ (forall v, v ∈ vars -> handle_in p v <> kInvalidSocket) /\
  forall v, v ∉ vars -> pr_sockets p !! v = pr_sockets p0 !! v.

Definition same_as (outside : gset Z) (p0 p : P) : Prop :=
  owned outside p /\ pr_sockets p = pr_sockets p0.

(** A start opens what the loop needs, or leaves nothing open. *)
Definition starts {S} (outside : gset Z) (vars : list nat) (p0 : P) (r : Ended S) (p : P) : Prop :=
  match r with Exited _ _ => same_as outside p0 p | Serving _ => holding outside vars p0 p end.

Lemma declare_owned outside this p :
  owned outside p -> pr_sockets p !! this = None ->
  ends (declare this) (fun _ p' => owned outside p' /\
    pr_sockets p' = <[this := kInvalidSocket]> (pr_sockets p)) p.
Proof.
  intros Ho Hn. split; [|done].
  by apply (run_socket_op_owned outside (MakeSocket this) p).
Qed.

Lemma ends_destroy {A} outside this (k : SM P A) Q p :
  owned outside p -> is_Some (pr_sockets p !! this) ->
  (forall p', owned outside p' -> pr_sockets p' = delete this (pr_sockets p) -> ends k Q p') ->
  ends (destroy this;; k) Q p.
Proof.
  intros Ho Hs HQ. apply ends_bind. eapply ends_mono; [by apply (destroy_owned outside)|].
  intros _ p' [Ho' Hp']. by apply HQ.
Qed.

(** Making a socket and opening it. *)
Lemma ends_open {A} outside this (m : SM P bool) (fail k : SM P A) Q p :
  owned outside p -> pr_sockets p !! this = None ->
  (forall p', owned outside p' -> is_Some (pr_sockets p' !! this) ->
     ends m (opened outside this p') p') ->
  (forall p', owned outside p' -> pr_sockets p' = pr_sockets p -> ends fail Q p') ->
  (forall h p', owned outside p' -> pr_sockets p' = <[this := h]> (pr_sockets p) ->
     h <> kInvalidSocket -> ends k Q p') ->
  ends (declare this;; let! ok := m in if negb ok then destroy this;; fail else k) Q p.
Proof.
  intros Ho Hn Hm Hfail Hk. apply ends_bind. eapply ends_mono; [by apply (declare_owned outside)|].
  intros _ p1 [Ho1 Hp1]. apply ends_bind. eapply ends_mono.
  { apply Hm; [done|]. rewrite Hp1, lookup_insert_eq. by eexists. }
  intros ok p2 [Ho2 (h & Hp2 & Hok)]. rewrite Hp1, insert_insert_eq in Hp2.
  destruct ok; cbn [negb].
  - apply (Hk h); [done|done|]. by apply Hok.
  - eapply (ends_destroy outside); [done|rewrite Hp2, lookup_insert_eq; by eexists|].
    intros p3 Ho3 Hp3. apply Hfail; [done|]. by rewrite Hp3, Hp2, delete_insert_id.
Qed.

Lemma destroy_all_owned outside vars p :
  NoDup vars -> owned outside p -> (forall v, v ∈ vars -> is_Some (pr_sockets p !! v)) ->
  ends (destroy_all vars) (fun _ p' => owned outside p' /\
    (forall v, v ∈ vars -> pr_sockets p' !! v = None) /\
    forall v, v ∉ vars -> pr_sockets p' !! v = pr_sockets p !! v) p.
Proof.
  intros Hnd. revert p. induction Hnd as [|this vars Hthis Hnd IH]; intros p Ho Hs; cbn [destroy_all].
  { split; [done|]. split; [by intros v ?%elem_of_nil|done]. }
  eapply (ends_destroy outside); [done|apply Hs; left|]. intros p1 Ho1 Hp1.
  eapply ends_mono.
  { apply IH; [done|]. intros v Hv. rewrite Hp1, lookup_delete_ne by set_solver. apply Hs. by right. }
  intros _ p' (Ho' & Hgone & Hkept). split; [done|]. split.
  - intros v [->|Hv]%elem_of_cons; [|by apply Hgone].
    by rewrite Hkept, Hp1, lookup_delete_eq.
  - intros v Hv. rewrite not_elem_of_cons in Hv. rewrite Hkept, Hp1 by tauto.
    apply lookup_delete_ne. intros ->. tauto.
Qed.

(** However a process ends, its sockets are gone. *)
Lemma process_clean {S T} outside vars (start : SM P (Ended S)) (turn : T -> S -> S) finish turns p :
  NoDup vars -> (forall v, v ∈ vars -> pr_sockets p !! v = None) ->
  ends start (starts outside vars p) p ->
  ends (process vars start turn finish turns) (fun _ => same_as outside p) p.
Proof.
  intros Hnd Hfree Hstart. unfold process. apply ends_bind. eapply ends_mono; [exact Hstart|].
  intros [code st|st] p1 H1; [done|]. destruct H1 as (Ho & Hheld & Hkept).
  apply ends_bind. eapply ends_mono.
  { apply (destroy_all_owned outside); [done|done|]. intros v Hv. specialize (Hheld v Hv).
    unfold handle_in in Hheld. by destruct (pr_sockets p1 !! v). }
  intros _ p' (Ho' & Hgone & Hrest). split; [done|]. apply map_eq. intros v.
  destruct (decide (v ∈ vars)); [by rewrite Hgone, Hfree|]. by rewrite Hrest, Hkept.
Qed.

Lemma process_result {S T} vars (start : SM P (Ended S)) (turn : T -> S -> S) finish turns p :
  (process vars start turn finish turns p).1 =
    match (start p).1 with
    | Exited code st => (code, st)
    | Serving st => (0, finish (foldl (fun st t => turn t st) st turns))
    end.
Proof.
  unfold process, sm_bind. destruct (start p) as [[code st|st] p1]; [done|]. cbn [fst].
  by destruct (destroy_all vars p1).
Qed.

Lemma same_fds outside p p' :
  owned outside p -> same_as outside p p' -> open_fds (pr_env p') = open_fds (pr_env p).
Proof.
  intros Ho [Ho' Hs]. apply set_eq. intros h. by rewrite (ow_open _ _ Ho), (ow_open _ _ Ho'), Hs.
Qed.

Lemma holding_listener outside (p p' : P) h :
  owned outside p' -> pr_sockets p' = <[mListener := h]> (pr_sockets p) -> h <> kInvalidSocket ->
  holding outside [mListener] p p'.
Proof.
  intros Ho' Hp' Hh. split; [done|]. split.
  - intros v ->%list_elem_of_singleton. unfold handle_in. by rewrite Hp', lookup_insert_eq.
  - intros v Hv. rewrite Hp'. apply lookup_insert_ne. intros <-. apply Hv. left.
Qed.

End Sockets.

(** ** The database server *)

Section DbServerProcess.
Context {EO : Type} `{HPosix : Posix EO} `{HLaws : !PosixLaws EO}.
Context {PG : Type} `{HPostgres : Postgres PG}.
Local Open Scope sm_scope.

(** Whether Postgres answers each attempt the process would make. *)
Fixpoint answers (conninfo : string) (pauses : list (PG -> PG)) (pg : PG) : list bool :=
  match pauses with
  | [] => []
  | pause :: pauses =>
      let pg := PQconnectdb (c_str conninfo) pg in
      PQstatus pg :: answers conninfo pauses (pause (PQfinish pg))
  end.

Lemma connect_closed conninfo (d : Database PG) :
  db_mConnection d = false ->
  let pg := PQconnectdb (c_str conninfo) (db_pg d) in
  (Database.connect conninfo d).1 = PQstatus pg /\
  db_pg (Database.connect conninfo d).2 = (if PQstatus pg then pg else PQfinish pg) /\
  db_mConnection (Database.connect conninfo d).2 = PQstatus pg.
Proof.
  intros Hd. unfold Database.connect, disconnect, sm_bind, sm_gets. rewrite Hd. cbn.
  by destruct (PQstatus _) eqn:Es; cbn; rewrite ?Es.
Qed.

Lemma await_postgres_spec conninfo pauses : forall (d : Database PG),
  db_mConnection d = false ->
  (await_postgres conninfo pauses d).1 = existsb id (answers conninfo pauses (db_pg d)).
Proof.
  induction pauses as [|pause pauses IH]; intros d Hd; [done|]. cbn [await_postgres answers existsb].
  destruct (connect_closed conninfo d Hd) as (H1 & H2 & H3).
  destruct (Database.connect conninfo d) as [ok d']. cbn [fst snd] in H1, H2, H3. rewrite H1 in *.
  destruct (PQstatus _); cbn [id orb]; [done|]. rewrite IH by done. cbn. by rewrite H2.
Qed.

Lemma db_start_starts outside getenv initSockets pauses signalled (pg : PG) (p : Process EO) :
  owned outside p -> pr_sockets p !! mListener = None ->
  ends (db_start getenv initSockets pauses signalled pg) (starts outside [mListener] p) p.
Proof.
  intros Ho Hn. unfold db_start. destruct (negb initSockets); [done|].
  destruct (await_postgres _ _ _) as [connected d]. destruct (_ || _); [done|].
  destruct (migrate d) as [migrated d']. destruct (negb migrated); [done|].
  apply (ends_open outside); [done|done| | |].
  - intros p' Ho' Hs. by apply listen_opened.
  - intros p' Ho' Hp'. done.
  - intros h p' Ho' Hp' Hh. by eapply holding_listener.
Qed.

(** What the start says of how it ended. *)
Lemma db_start_result getenv initSockets pauses signalled (pg : PG) (p : Process EO) :
  let answered := existsb id (answers (buildConnInfo getenv) pauses pg) in
  match (db_start getenv initSockets pauses signalled pg p).1 with
  | Exited code _ =>
      (code = 0 <-> initSockets = true /\ (signalled = true \/ answered = false)) /\
      (code = 0 \/ code = 1)
  | Serving _ => initSockets = true /\ signalled = false /\ answered = true
  end.
Proof.
  cbv zeta. unfold db_start.
  rewrite <- (await_postgres_spec _ _ (mkDatabase false EmptyString EmptyString pg)) by done.
  destruct initSockets; cbn [negb]; [|by split; [split; [lia|by intros [? []]]|right]].
  destruct (await_postgres _ _ _) as [connected d]. cbn [fst].
  destruct connected, signalled; cbn [negb orb]; try (split; [naive_solver|by left]).
  destruct (migrate d) as [migrated d']. destruct migrated; cbn [negb];
    [|by split; [split; [lia|by intros [? []]]|right]].
  unfold sm_bind. destruct (declare mListener p) as [[] p1].
  destruct (tcp_server_listen _ p1) as [ok p2]. destruct ok; cbn [negb]; [done|].
  destruct (destroy mListener p2). by split; [split; [lia|by intros [? []]]|right].
Qed.

End DbServerProcess.

Section DbServerTables.
Context {EO : Type} `{HPosix : Posix EO} `{HLaws : !PosixLaws EO}.
Context {PG : Type} `{HPG : PostgresLaws PG}.
Local Open Scope sm_scope.

Definition safe_pause (pause : PG -> PG) : Prop :=
  forall pg, store_ok lower (tables pg) -> store_ok lower (tables (pause pg)).

Lemma quiet_disconnect : Database.quiet (PG := PG) disconnect.
Proof.
  unfold disconnect, on_pg, set_connection.
  apply Database.quiet_bind; [apply Database.quiet_gets|]. intros []; [|apply Database.quiet_ret].
  apply Database.quiet_bind; [|intros _]; apply quiet_modify; intros d;
    unfold tables_of, clock_of; cbn [db_pg]; [apply finish_tables|split; [done|lia]].
Qed.

Lemma quiet_keeps {A} (m : SM (Database PG) A) : Database.quiet m -> Database.keeps m.
Proof. intros Hm d Hd. by rewrite (proj1 (Hm d)). Qed.

Lemma connect_keeps_tables conninfo : Database.keeps (PG := PG) (Database.connect conninfo).
Proof.
  apply quiet_keeps. unfold Database.connect. 
  apply Database.quiet_bind; [apply quiet_disconnect|intros _].
  unfold on_pg, set_connection, set_conninfo, note_error, status.
  repeat first
    [ apply Database.quiet_ret | apply Database.quiet_gets
    | apply quiet_modify; intros d; unfold tables_of, clock_of; cbn [db_pg];
      first [apply connect_tables | apply finish_tables | split; [done|lia]]
    | apply Database.quiet_bind; [|intros ?] | case_match ].
Qed.

Lemma await_postgres_tables conninfo pauses : Forall safe_pause pauses ->
  Database.keeps (await_postgres conninfo pauses).
Proof.
  induction 1 as [|pause pauses Hpause _ IH]; intros d Hd; [done|]. cbn [await_postgres].
  pose proof (connect_keeps_tables conninfo d Hd) as H1.
  destruct (Database.connect conninfo d) as [ok d']. destruct ok; [done|].
  apply IH. by apply Hpause.
Qed.

Lemma migrate_tables : Database.keeps (PG := PG) migrate.
Proof.
  apply keeps_query; [unfold statements; left|done|]. by apply values_ok_other.
Qed.

Lemma disconnected (d : Database PG) : db_mConnection (disconnect d).2 = false.
Proof.
  unfold disconnect, sm_bind, sm_gets. by destruct (db_mConnection d) eqn:E.
Qed.

Definition left_ok (st : DbServer PG) : Prop :=
  db_server_ok st /\ db_mConnection (ds_database st) = false.

Lemma db_start_tables getenv initSockets pauses signalled (pg : PG) (p : Process EO) :
  Forall safe_pause pauses -> store_ok lower (tables pg) ->
  match (db_start getenv initSockets pauses signalled pg p).1 with
  | Exited _ st => left_ok st
  | Serving st => db_server_ok st
  end.
Proof.
  intros Hpauses Hpg. unfold db_start. destruct (negb initSockets); [done|].
  assert (H0 : store_ok lower (tables_of (mkDatabase false EmptyString EmptyString pg))) by done.
  pose proof (await_postgres_tables (buildConnInfo getenv) pauses Hpauses _ H0) as H1.
  destruct (await_postgres _ _ _) as [connected d]. cbn [snd] in H1.
  assert (Hleave : forall d, store_ok lower (tables_of d) ->
    left_ok (mkDbServer new_server (disconnect d).2 0)).
  { intros d' Hd'. split; [|apply disconnected]. by apply (quiet_keeps disconnect quiet_disconnect). }
  destruct (_ || _); [by apply Hleave|].
  pose proof (migrate_tables d H1) as H2. destruct (migrate d) as [migrated d']. cbn [snd] in H2.
  destruct (negb migrated); [by apply Hleave|].
  unfold sm_bind. destruct (declare mListener p) as [[] p1].
  destruct (tcp_server_listen _ p1) as [ok p2]. destruct ok; cbn [negb]; [done|].
  destruct (destroy mListener p2). by apply Hleave.
Qed.

End DbServerTables.

(** C21: the database server as a process. Whatever the environment, whatever
    Postgres does while the server waits for it, and for every sequence of turns
    of the loop: the process ends with code 1 only when a start failed, and with 0
    when a signal stopped the wait or the loop, or Postgres never answered before;
    it serves only after an attempt was answered and with its port open; when it
    ends, the stored tables are well-formed, the connection to Postgres is
    closed, and the process has open exactly the descriptors it began with. *)
Theorem db_server_process {EO} `{HPosix : Posix EO} `{HLaws : !PosixLaws EO}
    {PG} `{HPG : PostgresLaws PG} (outside : gset Z) (getenv : string -> option string)
    (initSockets signalled : bool) (pauses : list (PG -> PG)) (pg : PG) (turns : list Events)
    (p : Process EO)
    (Hp : owned outside p) (Hfree : pr_sockets p !! mListener = None)
    (Hpauses : Forall safe_pause pauses) (Hpg : store_ok lower (tables pg)) :
  let answered := existsb id (answers (buildConnInfo getenv) pauses pg) in
  let start := db_start getenv initSockets pauses signalled pg p in
  let finish := db_main getenv initSockets pauses signalled pg turns p in
  open_fds (pr_env finish.2) = open_fds (pr_env p) /\
  left_ok finish.1.2 /\
  match start.1 with
  | Exited code st =>
      finish.1 = (code, st) /\ (code = 0 \/ code = 1) /\
      (code = 0 <-> initSockets = true /\ (signalled = true \/ answered = false))
  | Serving st =>
      initSockets = true /\ signalled = false /\ answered = true /\
      handle_in start.2 mListener <> kInvalidSocket /\
      finish.1 = (0, db_finish (foldl (fun st ev => DbServer.main_step ev st) st turns))
  end.
Proof.
  cbv zeta.
  pose proof (db_start_starts outside getenv initSockets pauses signalled pg p Hp Hfree) as Hs.
  pose proof (db_start_result getenv initSockets pauses signalled pg p) as Hr.
  pose proof (db_start_tables getenv initSockets pauses signalled pg p Hpauses Hpg) as Ht.
  split; [|split].
  - apply (same_fds outside); [done|]. unfold db_main.
    refine (process_clean outside [mListener] _ _ _ turns p _ _ Hs);
      [apply NoDup_singleton|by intros v ->%list_elem_of_singleton].
  - unfold db_main. rewrite process_result. destruct (db_start _ _ _ _ _ p).1 as [code st|st]; [done|].
    assert (Hok : db_server_ok (foldl (fun st ev => DbServer.main_step ev st) st turns)).
    { clear -Ht. revert st Ht. induction turns as [|ev turns IH]; intros st Hst; [done|].
      apply IH. by apply main_step_keeps_tables. }
    split; [|apply disconnected]. by apply (quiet_keeps disconnect quiet_disconnect).
  - unfold db_main. rewrite process_result. unfold ends in Hs.
    destruct (db_start _ _ _ _ _ p) as [[code st|st] p1]; cbn [fst snd] in *;
      [split; [done|by destruct Hr]|].
    destruct Hs as (_ & Hheld & _). destruct Hr as (? & ? & ?). split_and!; try done.
    apply Hheld. left.
Qed.

(** ** The auth server *)

(** Whether the database server answers one of the attempts. *)
Definition reachable (attempts : list (option Socket)) : bool :=
  existsb (fun a => bool_decide (is_Some a)) attempts.

Section AuthServerProcess.
Context {EO : Type} `{HPosix : Posix EO} `{HLaws : !PosixLaws EO}.
Context {E : Type} `{HSod : Sodium E}.
Variable getenv : string -> option string.
Local Open Scope sm_scope.

Lemma auth_reconnect_connected attempts : forall st : AuthServer E,
  mConnected (db st) = false ->
  mConnected (db (AuthServer.reconnect attempts st)) = reachable attempts.
Proof.
  induction attempts as [|[s|] attempts IH]; intros st Hst; [done|done|].
  cbn [AuthServer.reconnect DbClient.connect]. by rewrite IH.
Qed.

Lemma auth_start_starts outside initSodium initSockets attempts signalled polls (e : E)
    (p : Process EO) :
  owned outside p -> pr_sockets p !! mListener = None ->
  ends (auth_start getenv initSodium initSockets attempts signalled polls e)
    (starts outside [mListener] p) p.
Proof.
  intros Ho Hn. unfold auth_start. destruct (negb initSodium); [done|].
  destruct (negb initSockets); [done|]. destruct (_ || _); [done|].
  apply (ends_open outside); [done|done| | |].
  - intros p' Ho' Hs. by apply listen_opened.
  - intros p' Ho' Hp'. done.
  - intros h p' Ho' Hp' Hh. by eapply holding_listener.
Qed.

Lemma auth_start_result initSodium initSockets attempts signalled polls (e : E) (p : Process EO) :
  match (auth_start getenv initSodium initSockets attempts signalled polls e p).1 with
  | Exited code st =>
      (code = 0 <-> initSodium = true /\ initSockets = true /\
         (signalled = true \/ reachable attempts = false)) /\
      (code = 0 \/ code = 1) /\ AuthServer.extends (auth_config getenv) [] st
  | Serving st =>
      initSodium = true /\ initSockets = true /\ signalled = false /\ reachable attempts = true /\
      AuthServer.extends (auth_config getenv) [] st
  end.
Proof.
  unfold auth_start. set (st0 := mkAuth new_server new_db_client e).
  assert (H0 : AuthServer.extends (auth_config getenv) [] st0) by (exists []; by apply history_start).
  pose proof (AuthServer.reconnect_extends (auth_config getenv) [] attempts st0 H0) as H1.
  pose proof (auth_reconnect_connected attempts st0 eq_refl) as Hc.
  set (st1 := AuthServer.reconnect attempts st0) in *. clearbody st1.
  pose proof (bootstrap_extends (auth_config getenv) [] (Nat.min polls 60) st1 H1) as H2.
  destruct initSodium; cbn [negb]; [|split_and!; [split; [lia|by intros []]|by right|done]].
  destruct initSockets; cbn [negb]; [|split_and!; [split; [lia|by intros (_ & ? & _)]|by right|done]].
  rewrite Hc. destruct (reachable attempts), signalled; cbn [negb orb];
    try (split_and!; [naive_solver|by left|done]).
  unfold sm_bind. destruct (declare mListener p) as [[] p1].
  destruct (tcp_server_listen _ p1) as [ok p2]. destruct ok; cbn [negb]; [done|].
  destruct (destroy mListener p2).
  split_and!; [split; [lia|by intros (_ & _ & [])]|by right|done].
Qed.

(** C22: the auth server as a process. Whatever the environment, the attempts to
    reach the database server, the answers to the bootstrap and the turns of the
    loop: it serves only when both libraries started, the database server was
    reached and its port is open; it ends with code 1 only when one of the
    starts failed; whatever it did is a history of its handlers from an
    empty start, so that what is proved of histories holds of the process; and it
    leaves open exactly the descriptors it began with. *)
Theorem auth_server_process (outside : gset Z) (initSodium initSockets signalled : bool)
    (attempts : list (option Socket)) (polls : nat) (e : E)
    (turns : list (Events * list (option Socket))) (p : Process EO)
    (Hp : owned outside p) (Hfree : pr_sockets p !! mListener = None) :
  let start := auth_start getenv initSodium initSockets attempts signalled polls e p in
  let finish := auth_main getenv initSodium initSockets attempts signalled polls e turns p in
  open_fds (pr_env finish.2) = open_fds (pr_env p) /\
  (exists h, AuthServer.history (auth_config getenv) h finish.1.2) /\
  match start.1 with
  | Exited code st =>
      finish.1 = (code, st) /\ (code = 0 \/ code = 1) /\
      (code = 0 <-> initSodium = true /\ initSockets = true /\
         (signalled = true \/ reachable attempts = false))
  | Serving st =>
      initSodium = true /\ initSockets = true /\ signalled = false /\ reachable attempts = true /\
      handle_in start.2 mListener <> kInvalidSocket /\
      finish.1 = (0, foldl (fun st t => auth_turn getenv t st) st turns)
  end.
Proof.
  cbv zeta.
  pose proof (auth_start_starts outside initSodium initSockets attempts signalled polls e p Hp Hfree)
    as Hs.
  pose proof (auth_start_result initSodium initSockets attempts signalled polls e p) as Hr.
  split; [|split].
  - apply (same_fds outside); [done|]. unfold auth_main.
    refine (process_clean outside [mListener] _ _ _ turns p _ _ Hs);
      [apply NoDup_singleton|by intros v ->%list_elem_of_singleton].
  - unfold auth_main. rewrite process_result.
    destruct (auth_start _ _ _ _ _ _ _ p).1 as [code st|st]; [by apply Hr|].
    destruct Hr as (_ & _ & _ & _ & Hh). cbn [snd].
    change (AuthServer.extends (auth_config getenv) []
      (foldl (fun st t => auth_turn getenv t st) st turns)).
    clear -Hh. revert st Hh. induction turns as [|t turns IH]; intros st [h Hh]; [by exists h|].
    apply IH. destruct (main_step_history (auth_config getenv) h t.1 t.2 st Hh) as [h' Hh'].
    by exists (h ++ h').
  - unfold auth_main. rewrite process_result. unfold ends in Hs.
    destruct (auth_start _ _ _ _ _ _ _ p) as [[code st|st] p1]; cbn [fst snd] in *;
      [destruct Hr as (Hcode & Hone & _); exact (conj eq_refl (conj Hone Hcode))|].
    destruct Hs as (_ & Hheld & _). destruct Hr as (? & ? & ? & ? & ?). split_and!; try done.
    apply Hheld. left.
Qed.

End AuthServerProcess.

(** ** The world server *)

Section WorldServerProcess.
Context {EO : Type} `{HPosix : Posix EO} `{HLaws : !PosixLaws EO}.
Context {E : Type} `{HSod : Sodium E} `{HClk : Clocks E} `{HLibm : Libm} `{HAtof : Atof}.
Variable getenv : string -> option string.
Local Open Scope sm_scope.

Lemma world_reconnect_connected attempts : forall w : World E,
  mConnected (db w) = false ->
  mConnected (db (WorldLoop.reconnect attempts w)) = reachable attempts.
Proof.
  induction attempts as [|[s|] attempts IH]; intros w Hw; [done|done|].
  cbn [WorldLoop.reconnect DbClient.connect]. by rewrite IH.
Qed.

(** Connecting only changes the client of the database server. *)
Lemma reconnect_fresh attempts : forall w : World E,
  WorldHistory.fresh w -> WorldHistory.fresh (WorldLoop.reconnect attempts w).
Proof.
  induction attempts as [|[s|] attempts IH]; intros w Hw; [done| |].
  - cbn [WorldLoop.reconnect DbClient.connect]. destruct Hw as [H1 H2]. split; [exact H1|exact H2].
  - cbn [WorldLoop.reconnect DbClient.connect]. by apply IH.
Qed.

Lemma init_fresh speed (w : World E) :
  WorldHistory.fresh w ->
  WorldHistory.fresh (init_simulation speed w) /\
  sim_timeSpeed (w_simulation (init_simulation speed w)) = f32_one.
Proof.
  intros [H1 H2]. unfold init_simulation, read_clock.
  destruct (secondsToday _) as [today e1]. cbn [w_env set_env].
  destruct (realSeconds _) as [real e2]. by split.
Qed.

Lemma world_start_starts outside initSockets attempts signalled initSodium (e : E)
    (p : Process EO) :
  owned outside p -> pr_sockets p !! mListener = None -> pr_sockets p !! mUdp = None ->
  ends (world_start getenv initSockets attempts signalled initSodium e)
    (starts outside [mUdp; mListener] p) p.
Proof.
  intros Ho Hn Hu. unfold world_start. destruct (negb initSockets); [done|].
  destruct (_ || _); [done|].
  apply (ends_open outside); [done|done|intros; by apply listen_opened|done|].
  intros h p1 Ho1 Hp1 Hh.
  assert (Hl : is_Some (pr_sockets p1 !! mListener)) by (rewrite Hp1, lookup_insert_eq; by eexists).
  assert (Hfail : forall (w : World E) p', owned outside p' -> pr_sockets p' = pr_sockets p1 ->
    ends (destroy mListener;; sm_ret (Exited 1 w)) (starts outside [mUdp; mListener] p) p').
  { intros w p' Ho' Hp'. eapply (ends_destroy outside); [done|by rewrite Hp'|].
    intros p'' Ho'' Hp''. split; [done|]. change (pr_sockets p'' = pr_sockets p).
    by rewrite Hp'', Hp', Hp1, delete_insert_id. }
  apply (ends_open outside); [done|by rewrite Hp1, lookup_insert_ne
    |intros; by apply udp_open_opened|by apply Hfail|].
  intros h' p2 Ho2 Hp2 Hh'. destruct (negb initSodium).
  - eapply (ends_destroy outside); [done|rewrite Hp2, lookup_insert_eq; by eexists|].
    intros p3 Ho3 Hp3. apply Hfail; [done|]. rewrite Hp3, Hp2, delete_insert_id; [done|].
    by rewrite Hp1, lookup_insert_ne.
  - destruct (read_clock _ _) as [previous w]. split; [done|]. unfold sm_ret. cbn [snd]. split.
    + intros v. rewrite !elem_of_cons, elem_of_nil. unfold handle_in.
      intros [->|[->|[]]]; rewrite Hp2; [by rewrite lookup_insert_eq|].
      by rewrite lookup_insert_ne, Hp1, lookup_insert_eq.
    + intros v. rewrite !not_elem_of_cons. intros (H1 & H2 & _).
      by rewrite Hp2, lookup_insert_ne, Hp1, lookup_insert_ne.
Qed.

Lemma world_start_result initSockets attempts signalled initSodium (e : E) (p : Process EO) :
  match (world_start getenv initSockets attempts signalled initSodium e p).1 with
  | Exited code w =>
      (code = 0 <-> initSockets = true /\ (signalled = true \/ reachable attempts = false)) /\
      (code = 0 \/ code = 1) /\ WorldHistory.fresh w
  | Serving w =>
      initSockets = true /\ signalled = false /\ reachable attempts = true /\ initSodium = true /\
      WorldHistory.fresh w /\ sim_timeSpeed (w_simulation w) = f32_one
  end.
Proof.
  unfold world_start. set (w0 := new_world e).
  assert (H0 : WorldHistory.fresh w0) by done.
  pose proof (reconnect_fresh attempts w0 H0) as H1.
  pose proof (world_reconnect_connected attempts w0 eq_refl) as Hc.
  set (w1 := WorldLoop.reconnect attempts w0) in *. clearbody w1.
  destruct initSockets; cbn [negb]; [|split_and!; [split; [lia|by intros []]|by right|done]].
  rewrite Hc. destruct (reachable attempts), signalled; cbn [negb orb];
    try (split_and!; [naive_solver|by left|done]).
  unfold sm_bind.
  destruct (declare mListener p) as [[] p1], (tcp_server_listen _ p1) as [[] p2]; cbn [negb];
    [|destruct (destroy mListener p2); split_and!; [split; [lia|by intros [_ []]]|by right|done]].
  destruct (declare mUdp p2) as [[] p3], (udp_open _ _ p3) as [[] p4]; cbn [negb];
    [|destruct (destroy mUdp p4) as [[] p5], (destroy mListener p5);
      split_and!; [split; [lia|by intros [_ []]]|by right|done]].
  destruct initSodium; cbn [negb];
    [|destruct (destroy mUdp p4) as [[] p5], (destroy mListener p5);
      split_and!; [split; [lia|by intros [_ []]]|by right|done]].
  pose proof (init_fresh (timeSpeed getenv) w1 H1) as [[H2 H3] H4].
  unfold read_clock. destruct (steady_now _) as [previous e']. by split_and!.
Qed.

(** C23: the world server as a process. Whatever the environment, the attempts to
    reach the database server and the turns of the loop: it serves only when
    everything it needs started, with both its ports open; it ends with code 1 only when
    one of the starts failed; each state of its loop is reached by a history of
    the handlers from an empty world, so that what is proved of histories holds of
    the process; whatever DAY_LENGTH_SECONDS and TIME_SPEED say, the
    clock of the world it serves starts at real time; and it leaves
    open exactly the descriptors it began with, and nobody in the world. *)
Theorem world_server_process (outside : gset Z) (initSockets signalled initSodium : bool)
    (attempts : list (option Socket)) (e : E) (turns : list Turn) (p : Process EO)
    (Hp : owned outside p) (Hfree : pr_sockets p !! mListener = None)
    (Hfree' : pr_sockets p !! mUdp = None) :
  let start := world_start getenv initSockets attempts signalled initSodium e p in
  let finish := world_main getenv initSockets attempts signalled initSodium e turns p in
  open_fds (pr_env finish.2) = open_fds (pr_env p) /\
  sim_players (w_simulation finish.1.2) = ∅ /\
  match start.1 with
  | Exited code w =>
      finish.1 = (code, w) /\ (code = 0 \/ code = 1) /\
      (code = 0 <-> initSockets = true /\ (signalled = true \/ reachable attempts = false))
  | Serving w =>
      let last := foldl (fun w t => WorldLoop.main_step (udpPort getenv) (udpTimeoutSeconds getenv) t w)
        w turns in
      initSockets = true /\ signalled = false /\ reachable attempts = true /\ initSodium = true /\
      handle_in start.2 mListener <> kInvalidSocket /\ handle_in start.2 mUdp <> kInvalidSocket /\
      sim_timeSpeed (w_simulation w) = f32_one /\
      finish.1 = (0, world_finish last) /\
      exists h, WorldHistory.history (udpPort getenv) h last
  end.
Proof.
  cbv zeta.
  pose proof (world_start_starts outside initSockets attempts signalled initSodium e p Hp Hfree Hfree')
    as Hs.
  pose proof (world_start_result initSockets attempts signalled initSodium e p) as Hr.
  split.
  - apply (same_fds outside); [done|]. unfold world_main.
    refine (process_clean outside [mUdp; mListener] _ _ _ turns p _ _ Hs).
    + apply NoDup_cons. split; [by rewrite list_elem_of_singleton|apply NoDup_singleton].
    + intros v. rewrite !elem_of_cons, elem_of_nil. by intros [->|[->|[]]].
  - unfold world_main. rewrite process_result. unfold ends in Hs.
    destruct (world_start _ _ _ _ _ _ p) as [[code w|w] p1]; cbn [fst snd] in *.
    { destruct Hr as (Hcode & Hone & [_ (_ & _ & _ & Hplayers & _)]).
      exact (conj Hplayers (conj eq_refl (conj Hone Hcode))). }
    destruct Hs as (_ & Hheld & _). destruct Hr as (? & ? & ? & ? & Hf & ?). split; [done|].
    split_and!; try done; [apply Hheld; right; left|apply Hheld; left|].
    assert (Hx : WorldHistory.extends (udpPort getenv) [] w) by (exists []; by apply WorldHistory.history_start).
    change (WorldHistory.extends (udpPort getenv) [] (foldl (fun w t => WorldLoop.main_step (udpPort getenv)
      (udpTimeoutSeconds getenv) t w) w turns)).
    clear -Hx. revert w Hx. induction turns as [|t turns IH]; intros w Hx; [done|].
    apply IH. by apply WorldHistory.main_step_extends.
Qed.

End WorldServerProcess.

(** ** Concrete processes *)

Definition no_env : string -> option string := fun _ => None.

Definition toy_process : Process Table := no_sockets toy_descriptors.

Lemma toy_process_owned : owned (open_fds toy_descriptors) toy_process.
Proof. apply reached_owned, reached_start. Qed.

(** Postgres comes up while the server waits. *)
Definition coming_up : list (InMemory.Server -> InMemory.Server) :=
  [(fun pg => InMemory.mkMem (InMemory.mem_tables pg) 1000 true); id].

Lemma coming_up_safe : Forall safe_pause coming_up.
Proof. apply Forall_cons. split; [by intros pg|]. apply Forall_singleton. by intros pg. Qed.

Definition toy_db_main : (Z * DbServer InMemory.Server) * Process Table :=
  db_main no_env true coming_up false (InMemory.mkMem InMemory.empty_tables 0 false)
    [mkEvents [] []; mkEvents [] [1]] toy_process.

Definition serves {S} (r : Ended S) : bool := match r with Exited _ _ => false | Serving _ => true end.

Example toy_db_served :
  serves (db_start no_env true coming_up false (InMemory.mkMem InMemory.empty_tables 0 false)
    toy_process).1 = true.
Proof. vm_compute. reflexivity. Qed.

Lemma db_server_process_witness :
  open_fds (pr_env toy_db_main.2) = open_fds toy_descriptors /\ left_ok toy_db_main.1.2.
Proof.
  pose proof (db_server_process (open_fds toy_descriptors) no_env true false coming_up
    (InMemory.mkMem InMemory.empty_tables 0 false) [mkEvents [] []; mkEvents [] [1]] toy_process
    toy_process_owned eq_refl coming_up_safe InMemory.empty_ok) as H.
  cbv zeta in H. unfold toy_db_main. exact (conj (proj1 H) (proj1 (proj2 H))).
Defined.

Definition toy_auth_main : (Z * AuthServer Z) * Process Table :=
  @auth_main Table _ Z AuthServer.toy_sodium no_env true true
    [None; Some (mkSocket [] [] [])] false 60 42 [(mkEvents [] [], [])] toy_process.

Example toy_auth_served :
  serves (@auth_start Table _ Z AuthServer.toy_sodium no_env true true
    [None; Some (mkSocket [] [] [])] false 60 42 toy_process).1 = true.
Proof. vm_compute. reflexivity. Qed.

Lemma auth_server_process_witness :
  open_fds (pr_env toy_auth_main.2) = open_fds toy_descriptors /\
  exists h, @AuthServer.history Z AuthServer.toy_sodium (auth_config no_env) h toy_auth_main.1.2.
Proof.
  pose proof (@auth_server_process Table _ _ Z AuthServer.toy_sodium no_env
    (open_fds toy_descriptors) true true false [None; Some (mkSocket [] [] [])] 60 42
    [(mkEvents [] [], [])] toy_process toy_process_owned eq_refl) as H.
  cbv zeta in H. unfold toy_auth_main. exact (conj (proj1 H) (proj1 (proj2 H))).
Defined.

(** Days of a minute are asked for. *)
Definition short_days : string -> option string :=
  fun name => if String.eqb name "DAY_LENGTH_SECONDS" then Some "60"%string else None.

#[local] Existing Instances WorldProperties.toy_sodium WorldProperties.toy_clocks
  WorldProperties.toy_atof Character.axis_libm.

Example short_days_speed : timeSpeed short_days = f32_of_Z 1440.
Proof. vm_compute. reflexivity. Qed.

Definition toy_world_main : (Z * World Z) * Process Table :=
  world_main short_days true [Some (mkSocket [] [] [])] false true 7 [] toy_process.

Example toy_world_served :
  serves (world_start short_days true [Some (mkSocket [] [] [])] false true 7 toy_process).1 = true.
Proof. vm_compute. reflexivity. Qed.

Lemma world_server_process_witness :
  open_fds (pr_env toy_world_main.2) = open_fds toy_descriptors /\
  sim_players (w_simulation toy_world_main.1.2) = ∅.
Proof.
  pose proof (world_server_process short_days (open_fds toy_descriptors) true false true
    [Some (mkSocket [] [] [])] 7 [] toy_process toy_process_owned eq_refl eq_refl) as H.
  cbv zeta in H. unfold toy_world_main. exact (conj (proj1 H) (proj1 (proj2 H))).
Defined.
